(* ===== verification/_CoqProject ===== *)
-Q . S2P
Prelude.v
Borsh.v
Accounts.v
System.v
Invoke.v
Execution.v
Concrete.v
Cpi.v
Ledger.v
Records.v
Wire.v
History.v
RuntimeTheorems.v
Vesting.v
VestingProofs.v
VestingTheorems.v
AtomicSwap.v
AtomicSwapProofs.v
AtomicSwapTheorems.v
FlashLoan.v
FlashLoanProofs.v
FlashLoanTheorems.v
FeeBurn.v
FeeBurnTheorems.v
Staking.v
StakingProofs.v
StakingTheorems.v
Pusd.v
PusdProofs.v
PusdTheorems.v
BatchTx.v
BatchTxProofs.v
BatchTxTheorems.v
Oracle.v
OracleProofs.v
OracleTheorems.v
Multisig.v
MultisigProofs.v
MultisigTheorems.v
Governance.v
GovernanceProofs.v
GovernanceTheorems.v
SocialRecovery.v
SocialRecoveryProofs.v
SocialRecoveryTheorems.v
NameService.v
NameServiceProofs.v
NameServiceTheorems.v
Privacy.v
PrivacyProofs.v
PrivacyTheorems.v
SolSwap.v
SolSwapProofs.v
Base58Proofs.v
SolSwapTheorems.v
SolLend.v
SolLendProofs.v
SolLendTheorems.v
TokenCpi.v
TokenDemo.v
NftMarket.v
NftMarketProofs.v
NftMarketTheorems.v
Scusd.v
ScusdProofs.v
ScusdTheorems.v
