(* ===== verification/Prelude.v ===== *)
(** * Prism on-chain programs: a verification development

    The repository is a Solana-style chain: a validator ([src/validator]) that
    executes transactions, and on-chain programs ([src/programs]) that keep
    their state in accounts.  The development models the part of the validator
    every program relies on (accounts, the system program, program execution
    and cross-program invocation) and, on top of it, complete on-chain
    programs, and proves what they promise.

    ** The parts and how they interact

    A transaction holds accounts (lamports, data, owner).  For an instruction
    the validator copies the accounts into the memory of the program, runs it,
    and writes the changes back under its access rules; lamports must balance.
    A program may call another one (a CPI): its changes are handed over, the
    callee runs on the transaction, and the result is copied back.  The
    programs decode their instruction and their accounts with Borsh.

    - [Prelude]: results and errors, machine integers with their checked,
      saturating and wrapping operations written out, sums over maps, tactics
      and hint databases.
    - [Borsh]: the serialization interface ([Borsh], [BorshLaws], [BorshSized],
      [BorshMeasured]) that the programs are proved against, and the wire
      format as codecs that implements it.
    - [Accounts]: [validator/transaction-context], the account store and the
      access rules ([set_lamports], [set_owner], [set_data_from_slice], ...),
      with the contract [allowed] every access keeps.
    - [System]: [validator/programs/system], [system_process] and its
      operations.
    - [Invoke]: [validator/program-runtime]: privileges of a CPI
      ([prepare_next_cpi_instruction]), the exchange of accounts, [invoke_signed],
      [execute] for a top-level instruction, and the monad [M] in which the
      programs are written: state passing over the program's memory and the
      transaction, with instruction errors; a panic is an error, too.
    - [Execution]: what the validator guarantees for any program: [safe]
      (lamports in range), [confined] (other accounts unchanged),
      [execute_result], conservation of lamports.
    - [Concrete]: an instance of the parameters of the environment, used to
      evaluate the models on concrete accounts.
    - [Cpi]: the exact effect of creations and transfers in a CPI, the frame of a
      call of the system program, and that it keeps the accounts of others.
    - [Ledger]: programs that keep a root record and item records in accounts:
      the refinement relation and the lifting of handler steps to runs.
    - [Records]: what several programs write out to read and write records of
      variable length: the check for an initialized record, duplicate keys,
      positions, exact copies, and the typing of the inputs.
    - [Wire]: codecs of byte vectors and options, lengths of encodings, and the
      tactics that establish the laws of a record's codec.
    - [History]: the accounts over any sequence of runs of a program and of
      other programs, and the invariants that hold in it.
    - [TokenCpi]: calls of the SPL token program, which is a parameter, and
      what a call demands of the caller; [TokenDemo]: a small token program
      that obeys the laws, to evaluate the programs that call it.
    - [RuntimeTheorems]: the properties of the validator part.
    - [Vesting], [AtomicSwap], [FlashLoan], [FeeBurn], [Staking], [Pusd], [BatchTx],
      [Oracle], [Multisig], [Governance], [SocialRecovery], [NameService],
      [Privacy]: one file for each of the thirteen programs of [src/programs],
      every instruction handler and the entry point, named as in the source;
      the [...Proofs] files hold the lemmas, the [...Theorems] files the wire
      formats, the properties and their evaluation on concrete accounts.
    - [SolSwap]: the market maker of [src/defi/solswap], in the same way;
      [Base58Proofs] is about the base-58 encoder of its events.
    - [SolLend], [Scusd], [NftMarket]: the lending program of
      [src/defi/sollend], the stablecoin of [src/defi/scusd] and the marketplace
      of [src/nft-marketplace], in the same way.

    ** What the theorems show

    - Validator: a CPI cannot escalate privileges; the system program changes
      only what it may and keeps the sum of all lamports, and its creation and
      transfer are exact, also when called by CPI.
    - Vesting, staking, stablecoin: every successful instruction run by the
      validator is a step of an abstract system by an entitled signer, for
      vesting and the stablecoin the step that belongs to the instruction, the
      clock and the prices shown, and the accounting invariants of that system
      hold after it; a claim pays exactly what has vested; locked stake is safe.
    - Atomic swap: claim and refund succeed exactly under their conditions, a
      settlement is final as long as the account is not purged, creation locks
      the funds.
    - Flash loan: pools stay solvent, and every instruction changes shares and
      liquidity by exactly its amount or fee; fees are exact.
    - Batch transfers: a batch pays exactly its recipients; recorded transfers make
      only the steps of their lifecycle, settle once and keep their pace.
    - Fee burn: the rates stay a partition and the shares add up.
    - Oracle: a price is decided by exactly the submissions of the round, of
      enough different registered oracles, and a minority cannot move it; feeds
      keep their invariant.
    - Multisig: the conditions under which a transaction is executed, which no
      proposed transaction ever meets; the signers and the threshold stay
      consistent.
    - Governance: proposals make only the steps of their life, by entitled
      signers and in time; over every course of instructions an executed one
      reached the quorum of the supply it was counted with and its majority; a
      vote counts once if its record has exactly its length; the council can
      veto.
    - Social recovery: guardians and threshold stay such that two approving
      groups share a guardian, and who may change them.
    - Name service: nobody but its owner disposes of a registered name.
    - Privacy: a nullifier whose record has exactly its length is spent once in
      every history; the balance and the commitments of the pool are accounted
      exactly; Merkle proofs are complete, and two leaves with the same proof
      position and root give a hash collision that is computed from the proofs.
    - SolSwap: the liquidity tokens of a pool are backed in every history and
      never diluted, swaps are exact, going back and forth gains nothing; the
      square root ends and is exact, the encoder is injective.
    - SolLend: stored markets and positions keep their types; loans and
      withdrawals leave the debt covered, liquidations need one that is not, or
      a product beyond 64 bits;
      accrual and the rate curve are exact.
    - SCUSD: every successful instruction opens a vault or is a step of an
      abstract one; the totals are backed by tokens as long as the recorded pool and
      mint are passed, which the program leaves to the caller.
    - NFT marketplace: a listing is sold once in every history, royalties are
      exact; refunds, settlements and accepted offers pay no account that is not
      part of the call that follows.
    - Rewards, fees, vested amounts: exact or bounded, overflow included.
    - Defects of the programs are theorems as well (instructions that can never
      succeed, missing checks, wrong scales); they are listed as findings.

    ** Modelling choices

    A public key is an integer, an account store a finite map in which an
    absent key is the empty account.  A w-bit integer is a [Z] with its range.
    Code outside the sources is a parameter of the class [Env] with its
    documented behaviour in [EnvLaws] and [ExecLaws]: derivation of program
    addresses, SHA-256, the rent, the encoding of system instructions, and
    the programs called by CPI other than the system program, which are assumed
    to keep the validator's accounting.  The token program has classes of its
    own ([Token], [TokenLaws], [TokenAmounts], [TokenMoves]).  All definitions
    are total and executable.  Loops recurse on their list; the two that do not have fuel:
    the square root 130 rounds, one for each halving of a distance below
    [2 ^ 128] and two more, and the carry of the base-58 encoder three, since a
    byte has two digits; the theorems show that both are enough.

    ** Not modelled

    The virtual machine and compute metering, logging, reference counts of
    borrowed account data, address-space features that are inactive, and the
    remaining crates of the validator (networking, ledger, consensus), which are
    concurrent or I/O code; nor the clients, the remaining contracts outside
    [src/programs] (the price oracle of [src/defi], the bridges, the DAO of
    [src/governance] and the second privacy pool), which are independent of
    those modelled, and the upstream copies, which the programs do not call. *)

From stdpp Require Export base tactics list gmap.
From Stdlib Require Export ZArith Lia.
Open Scope Z_scope.

#[export] Set Warnings "-clear-no-such-hyp".
#[global] Arguments Z.eqb : simpl never.
#[global] Arguments Z.ltb : simpl never.
#[global] Arguments Z.leb : simpl never.
#[global] Arguments Z.of_nat : simpl never.
#[global] Arguments Z.to_nat : simpl never.
#[global] Arguments Z.add : simpl never.
#[global] Arguments Z.sub : simpl never.
#[global] Arguments Z.mul : simpl never.

(** ** Results

    [result E A] is Rust's [Result<A, E>]; [let!] is the [?] operator. *)

Inductive result (E A : Type) : Type :=
| Ok (a : A)
| Err (e : E).
Arguments Ok {E A} a.
Arguments Err {E A} e.

Definition rbind {E A B} (m : result E A) (k : A -> result E B) : result E B :=
  match m with Ok a => k a | Err e => Err e end.

Definition ok_or {E A} (o : option A) (e : E) : result E A :=
  match o with Some a => Ok a | None => Err e end.

Definition map_err {E E' A} (f : E -> E') (m : result E A) : result E' A :=
  match m with Ok a => Ok a | Err e => Err (f e) end.

Definition err_if {E} (b : bool) (e : E) : result E unit :=
  if b then Err e else Ok tt.

Definition is_ok {E A} (m : result E A) : bool :=
  match m with Ok _ => true | Err _ => false end.

Declare Scope result_scope.
Delimit Scope result_scope with result.

Notation "'let?' x := m 'in' k" := (rbind m (fun x => k))
  (at level 10, x name, m at level 100, k at level 200) : result_scope.
Notation "'let?' ' p := m 'in' k" := (rbind m (fun x => match x with p => k end))
  (at level 10, p strict pattern, m at level 100, k at level 200) : result_scope.
Notation "m ?> k" := (rbind m (fun _ => k))
  (at level 199, k at level 200, right associativity) : result_scope.

(** Left fold with early exit, the shape of a [for] loop whose body uses [?]. *)
Fixpoint foldM {E S A} (f : S -> A -> result E S) (s : S) (l : list A) : result E S :=
  match l with
  | [] => Ok s
  | x :: l => rbind (f s x) (fun s' => foldM f s' l)
  end.

Section ResultLemmas.
Context {E A B : Type}.

Lemma rbind_ok (m : result E A) (k : A -> result E B) b :
  rbind m k = Ok b <-> exists a, m = Ok a /\ k a = Ok b.
Proof. destruct m; simpl; naive_solver. Qed.

Lemma rbind_err (m : result E A) (k : A -> result E B) e :
  rbind m k = Err e <-> m = Err e \/ exists a, m = Ok a /\ k a = Err e.
Proof. destruct m; simpl; naive_solver. Qed.

Lemma ok_or_ok (o : option A) (e : E) a : ok_or o e = Ok a <-> o = Some a.
Proof. destruct o; simpl; naive_solver. Qed.

Lemma err_if_ok b (e : E) u : err_if b e = Ok u <-> b = false.
Proof. destruct b, u; simpl; naive_solver. Qed.

Lemma map_err_ok {E'} (f : E -> E') (m : result E A) a : map_err f m = Ok a <-> m = Ok a.
Proof. destruct m; simpl; naive_solver. Qed.

End ResultLemmas.

Lemma foldM_app {E A S} (f : S -> A -> result E S) s l1 l2 :
  foldM f s (l1 ++ l2) = rbind (foldM f s l1) (fun s' => foldM f s' l2).
Proof. revert s; induction l1 as [|x l1 IH]; intros s; simpl; [done|]. destruct (f s x); simpl; auto. Qed.

(** A property kept by every iteration is kept by the loop. *)
Lemma foldM_invariant {E A S} (P : S -> Prop) (f : S -> A -> result E S) l s s' :
  (forall s1 s2 x, x ∈ l -> P s1 -> f s1 x = Ok s2 -> P s2) ->
  P s -> foldM f s l = Ok s' -> P s'.
Proof.
  revert s; induction l as [|x l IH]; simpl; intros s Hf HP H; [naive_solver|].
  apply rbind_ok in H as (s1 & H1 & H2).
  eapply IH; [|by eapply Hf; [left| |]|done].
  intros; eapply Hf; [by right|done|done].
Qed.

(** ** Machine integers

    A value of a w-bit Rust integer type is a [Z] in the type's range; every
    operation of the sources that can leave the range is written out. *)

Definition U8_MAX : Z := 255.
Definition U16_MAX : Z := 65535.
Definition U32_MAX : Z := 4294967295.
Definition U64_MAX : Z := 18446744073709551615.
Definition U128_MAX : Z := 340282366920938463463374607431768211455.
Definition I64_MIN : Z := -9223372036854775808.
Definition I64_MAX : Z := 9223372036854775807.
Definition I128_MIN : Z := -170141183460469231731687303715884105728.
Definition I128_MAX : Z := 170141183460469231731687303715884105727.

Definition in_range (lo hi z : Z) : Prop := lo <= z <= hi.
Abbreviation is_u8 := (in_range 0 U8_MAX).
Abbreviation is_u32 := (in_range 0 U32_MAX).
Abbreviation is_u64 := (in_range 0 U64_MAX).
Abbreviation is_u128 := (in_range 0 U128_MAX).
Abbreviation is_i64 := (in_range I64_MIN I64_MAX).
Abbreviation is_i128 := (in_range I128_MIN I128_MAX).

#[global] Instance in_range_dec lo hi z : Decision (in_range lo hi z).
Proof. unfold in_range; apply _. Defined.

(** [checked_*]: the exact result if it is representable. *)
Definition checked (lo hi z : Z) : option Z :=
  if (lo <=? z) && (z <=? hi) then Some z else None.

Abbreviation u32_checked_add a b := (checked 0 U32_MAX (a + b)).
Abbreviation u64_checked_add a b := (checked 0 U64_MAX (a + b)).
Abbreviation u64_checked_sub a b := (checked 0 U64_MAX (a - b)).
Abbreviation u64_checked_mul a b := (checked 0 U64_MAX (a * b)).
Abbreviation u128_checked_add a b := (checked 0 U128_MAX (a + b)).
Abbreviation u128_checked_sub a b := (checked 0 U128_MAX (a - b)).
Abbreviation u128_checked_mul a b := (checked 0 U128_MAX (a * b)).
Definition u128_checked_div (a b : Z) : option Z := if b =? 0 then None else Some (a / b).
Abbreviation i64_checked_add a b := (checked I64_MIN I64_MAX (a + b)).
Abbreviation i64_checked_sub a b := (checked I64_MIN I64_MAX (a - b)).
Abbreviation i64_checked_mul a b := (checked I64_MIN I64_MAX (a * b)).
Abbreviation i128_checked_add a b := (checked I128_MIN I128_MAX (a + b)).

(** [saturating_*]: the exact result clamped into the range. *)
Definition clamp (lo hi z : Z) : Z := Z.max lo (Z.min hi z).
Abbreviation u32_saturating_sub a b := (clamp 0 U32_MAX (a - b)).
Abbreviation u64_saturating_sub a b := (clamp 0 U64_MAX (a - b)).
Abbreviation u64_saturating_add a b := (clamp 0 U64_MAX (a + b)).
Abbreviation i64_saturating_add a b := (clamp I64_MIN I64_MAX (a + b)).
Abbreviation i64_saturating_sub a b := (clamp I64_MIN I64_MAX (a - b)).
Abbreviation i128_saturating_sub a b := (clamp I128_MIN I128_MAX (a - b)).

(** Casts ([as]) and the wrapping arithmetic of a release build. *)
Definition as_u8 (z : Z) : Z := z mod 2 ^ 8.
Definition as_u64 (z : Z) : Z := z mod 2 ^ 64.
Definition as_u128 (z : Z) : Z := z mod 2 ^ 128.
Definition as_i64 (z : Z) : Z := (z + 2 ^ 63) mod 2 ^ 64 - 2 ^ 63.
Definition as_i128 (z : Z) : Z := (z + 2 ^ 127) mod 2 ^ 128 - 2 ^ 127.
Definition u64_wrapping_sub (a b : Z) : Z := as_u64 (a - b).
Definition i64_wrapping_sub (a b : Z) : Z := as_i64 (a - b).

(** [lia] with the width constants and the range predicates unfolded. *)
Ltac unfold_ints :=
  unfold in_range, U8_MAX, U16_MAX, U32_MAX, U64_MAX, U128_MAX, I64_MIN, I64_MAX,
    I128_MIN, I128_MAX in *.
Ltac ilia := unfold_ints; lia.

Lemma checked_some lo hi z r : checked lo hi z = Some r <-> r = z /\ in_range lo hi z.
Proof.
  unfold checked, in_range.
  destruct (Z.leb_spec lo z), (Z.leb_spec z hi); simpl; naive_solver lia.
Qed.

Lemma checked_none lo hi z : checked lo hi z = None <-> ~ in_range lo hi z.
Proof.
  unfold checked, in_range.
  destruct (Z.leb_spec lo z), (Z.leb_spec z hi); simpl; naive_solver lia.
Qed.

Lemma checked_in lo hi z : in_range lo hi z -> checked lo hi z = Some z.
Proof. intros; by apply checked_some. Qed.

Lemma clamp_in lo hi z : in_range lo hi z -> clamp lo hi z = z.
Proof. unfold clamp, in_range; lia. Qed.

Lemma clamp_range lo hi z : lo <= hi -> in_range lo hi (clamp lo hi z).
Proof. unfold clamp, in_range; lia. Qed.

Lemma as_u64_id z : is_u64 z -> as_u64 z = z.
Proof. intros; unfold as_u64; apply Z.mod_small; ilia. Qed.

Lemma as_u128_id z : is_u128 z -> as_u128 z = z.
Proof. intros; unfold as_u128; apply Z.mod_small; ilia. Qed.

Lemma as_i64_id z : is_i64 z -> as_i64 z = z.
Proof. intros; unfold as_i64; rewrite Z.mod_small; ilia. Qed.

Lemma as_u64_range z : is_u64 (as_u64 z).
Proof. unfold as_u64; pose proof (Z.mod_pos_bound z (2 ^ 64)); ilia. Qed.

(** [a * b / c] with [b <= c] does not exceed [a], the fact behind every
    pro-rata computation of the programs. *)
Lemma mul_div_le a b c : 0 <= a -> 0 <= b <= c -> 0 < c -> 0 <= a * b / c <= a.
Proof.
  intros Ha Hb Hc. split; [apply Z.div_pos; nia|].
  apply Z.div_le_upper_bound; nia.
Qed.

Lemma mul_div_mono a b b' c : 0 <= a -> b <= b' -> 0 < c -> a * b / c <= a * b' / c.
Proof. intros; apply Z.div_le_mono; nia. Qed.

(** ** Automation shared by the components *)

Create HintDb prism discriminated.
#[export] Hint Resolve clamp_range as_u64_range mul_div_le mul_div_mono : prism.
#[export] Hint Extern 1 (in_range _ _ _) => ilia : prism.
#[export] Hint Extern 1 (_ <= _) => ilia : prism.

(** One step of inversion of a successful [result] computation. *)
Ltac rinv_step :=
  match goal with
  | H : rbind _ _ = Ok _ |- _ => apply rbind_ok in H as (? & ? & H)
  | H : ok_or _ _ = Ok _ |- _ => apply ok_or_ok in H
  | H : err_if _ _ = Ok _ |- _ => apply err_if_ok in H
  | H : map_err _ _ = Ok _ |- _ => apply map_err_ok in H
  | H : Ok _ = Ok _ |- _ => injection H as H; subst
  | x : () |- _ => destruct x
  | H : Err _ = Ok _ |- _ => discriminate H
  | H : Ok _ = Err _ |- _ => discriminate H
  | H : checked _ _ _ = Some _ |- _ => apply checked_some in H as [? ?]; subst
  end.
Ltac rinv := repeat rinv_step.

(** Renames the hypothesis of the given shape. *)
Tactic Notation "hyp" open_constr(p) "as" ident(H) :=
  try (let old := fresh "Hold" in rename H into old);
  match goal with X : ?T |- _ => unify T p; rename X into H end.

(** Boolean comparisons of the code as propositions. *)
Ltac bool_to_prop :=
  repeat match goal with
  | H : negb _ = true |- _ => apply negb_true_iff in H
  | H : negb _ = false |- _ => apply negb_false_iff in H
  | H : _ && _ = true |- _ => apply andb_true_iff in H as [? ?]
  | H : _ || _ = false |- _ => apply orb_false_iff in H as [? ?]
  | H : (_ <? _) = true |- _ => apply Z.ltb_lt in H
  | H : (_ <? _) = false |- _ => apply Z.ltb_ge in H
  | H : (_ <=? _) = true |- _ => apply Z.leb_le in H
  | H : (_ <=? _) = false |- _ => apply Z.leb_gt in H
  | H : (_ =? _) = true |- _ => apply Z.eqb_eq in H
  | H : (_ =? _) = false |- _ => apply Z.eqb_neq in H
  end.

(** Overwriting a prefix of a buffer, [buf[..src.len()].copy_from_slice(src)]. *)
Definition overwrite {A} (src buf : list A) : list A := src ++ drop (length src) buf.

Lemma length_overwrite {A} (src buf : list A) :
  (length src <= length buf)%nat -> length (overwrite src buf) = length buf.
Proof. intros; unfold overwrite; rewrite length_app, length_drop; lia. Qed.

Lemma overwrite_all {A} (src buf : list A) : length src = length buf -> overwrite src buf = src.
Proof. intros H; unfold overwrite; rewrite drop_ge, app_nil_r; [done|lia]. Qed.

(** ** Sums over finite maps *)

Definition msum {A} (f : A -> Z) (m : gmap Z A) : Z := map_fold (fun _ a acc => f a + acc) 0 m.

Section Sums.
Context {A : Type} (f : A -> Z).

Lemma msum_empty : msum f ∅ = 0.
Proof. apply map_fold_empty. Qed.

Lemma msum_insert m k a : m !! k = None -> msum f (<[k := a]> m) = f a + msum f m.
Proof. intros Hm. unfold msum. rewrite map_fold_insert_L; [done|intros; lia|done]. Qed.

Lemma msum_update m k a b : m !! k = Some b -> msum f (<[k := a]> m) = msum f m - f b + f a.
Proof.
  intros Hm. rewrite <- (insert_delete_eq m k a), msum_insert by apply lookup_delete_eq.
  rewrite <- (insert_id m k b Hm) at 2. rewrite <- insert_delete_eq, msum_insert by apply lookup_delete_eq. lia.
Qed.

Lemma msum_nonneg m : (forall k a, m !! k = Some a -> 0 <= f a) -> 0 <= msum f m.
Proof.
  induction m as [|k a m Hk IH] using map_ind; intros Hm; [by rewrite msum_empty|].
  rewrite msum_insert by done.
  assert (0 <= f a) by (eapply Hm; apply lookup_insert_eq).
  assert (0 <= msum f m); [|lia].
  apply IH. intros j b Hj. apply (Hm j). rewrite lookup_insert_ne; [done|]. intros ->. congruence.
Qed.

Lemma msum_ge m k a : (forall k a, m !! k = Some a -> 0 <= f a) -> m !! k = Some a -> f a <= msum f m.
Proof.
  intros Hm Hk. rewrite <- (insert_id m k a Hk), <- insert_delete_eq, msum_insert by apply lookup_delete_eq.
  assert (0 <= msum f (delete k m)); [|lia].
  apply msum_nonneg. intros j b [_ Hj]%lookup_delete_Some. by eapply Hm.
Qed.
End Sums.

Lemma msum_minus {A} (f g : A -> Z) m : msum (fun a => f a - g a) m = msum f m - msum g m.
Proof.
  induction m as [|k a m Hk IH] using map_ind; [by rewrite !msum_empty|]. rewrite !msum_insert by done. lia.
Qed.
