(* ===== verification/Borsh.v ===== *)
(** * Borsh: the serialization interface of the account data

    Every program of [src/programs] derives [BorshSerialize] and
    [BorshDeserialize] for its account structs (crate [borsh] 0.10, not part
    of the repository).  The programs are verified against the interface
    [Borsh]/[BorshLaws]: the crate documents its format as deterministic and
    as a bijection between values and their encodings.  The second half of the
    file gives the documented wire format as instances, used to evaluate the
    models on concrete account data. *)

From Stdlib Require Import Strings.Byte NArith.
From S2P Require Import Prelude.
Open Scope Z_scope.

(** ** Interface *)

Class Borsh (A : Type) := {
  borsh_ser : A -> list byte;
  borsh_de : list byte -> option (A * list byte);
}.

(** The values of the Rust type among those of its model: every integer field
    within its width, every byte array of its length. *)
Class WellTyped (A : Type) := well_typed : A -> Prop.

(** Round trip, and uniqueness of the encoding. *)
Class BorshLaws (A : Type) {B : Borsh A} {W : WellTyped A} : Prop := {
  borsh_de_ser a rest : well_typed a -> borsh_de (borsh_ser a ++ rest) = Some (a, rest);
  borsh_ser_de bs a rest : borsh_de bs = Some (a, rest) -> well_typed a /\ bs = borsh_ser a ++ rest;
}.

Definition zlen {A} (l : list A) : Z := Z.of_nat (length l).

(** A type all of whose encodings have the same length. *)
Class BorshSized (A : Type) {B : Borsh A} {W : WellTyped A} (n : Z) : Prop :=
  borsh_sized a : well_typed a -> zlen (borsh_ser a) = n.

(** A type with variable-length fields: the length of an encoding as a function
    of the value. *)
Class BorshMeasured (A : Type) {B : Borsh A} {W : WellTyped A} (size : A -> Z) : Prop :=
  borsh_measured a : well_typed a -> zlen (borsh_ser a) = size a.

(** [T::try_from_slice]: decodes and requires the whole slice to be used. *)
Definition try_from_slice {A} `{Borsh A} (bs : list byte) : option A :=
  match borsh_de bs with Some (a, []) => Some a | _ => None end.

Section Interface.
Context {A : Type} {B : Borsh A} {W : WellTyped A} {L : BorshLaws A}.

Lemma try_from_slice_ser a : well_typed a -> try_from_slice (borsh_ser a) = Some a.
Proof.
  intros Hwf. unfold try_from_slice.
  pose proof (borsh_de_ser a [] Hwf) as Hd. rewrite app_nil_r in Hd. by rewrite Hd.
Qed.

Lemma try_from_slice_some bs a : try_from_slice bs = Some a <-> well_typed a /\ bs = borsh_ser a.
Proof.
  split; [|intros [? ->]; by apply try_from_slice_ser].
  unfold try_from_slice. destruct (borsh_de bs) as [[a' [|]]|] eqn:Hd; intros; simplify_eq.
  apply borsh_ser_de in Hd as [? ->]. by rewrite app_nil_r.
Qed.

(** Bytes after a complete encoding make [try_from_slice] fail. *)
Lemma try_from_slice_trailing a rest :
  well_typed a -> rest <> [] -> try_from_slice (A := A) (borsh_ser a ++ rest) = None.
Proof.
  intros Hwf Hr. unfold try_from_slice. rewrite borsh_de_ser by done. by destruct rest.
Qed.

Lemma borsh_ser_inj a b : well_typed a -> well_typed b -> borsh_ser a = borsh_ser b -> a = b.
Proof.
  intros Ha Hb E. apply try_from_slice_ser in Ha. apply try_from_slice_ser in Hb.
  rewrite E in Ha. congruence.
Qed.
End Interface.

#[global] Instance byte_eq_dec : EqDecision byte := Byte.byte_eq_dec.

(** ** Wire format: little-endian integers *)

Definition byte_of_Z (z : Z) : byte :=
  default Byte.x00 (Byte.of_N (Z.to_N (z mod 256))).
Definition Z_of_byte (b : byte) : Z := Z.of_N (Byte.to_N b).

Fixpoint le_bytes (n : nat) (z : Z) : list byte :=
  match n with O => [] | S n => byte_of_Z z :: le_bytes n (z / 256) end.
Fixpoint le_val (bs : list byte) : Z :=
  match bs with [] => 0 | b :: bs => Z_of_byte b + 256 * le_val bs end.

Lemma Z_of_byte_range b : 0 <= Z_of_byte b < 256.
Proof. unfold Z_of_byte; pose proof (Byte.to_N_bounded b); lia. Qed.

Lemma Z_of_byte_of_Z z : Z_of_byte (byte_of_Z z) = z mod 256.
Proof.
  unfold Z_of_byte, byte_of_Z. pose proof (Z.mod_pos_bound z 256).
  destruct (Byte.of_N (Z.to_N (z mod 256))) as [b|] eqn:E; simpl.
  - apply Byte.to_of_N in E. lia.
  - apply Byte.of_N_None_iff in E. lia.
Qed.

Lemma byte_of_Z_of_byte b : byte_of_Z (Z_of_byte b) = b.
Proof.
  unfold byte_of_Z. rewrite Z.mod_small by apply Z_of_byte_range.
  unfold Z_of_byte. by rewrite N2Z.id, Byte.of_to_N.
Qed.

Lemma length_le_bytes n z : length (le_bytes n z) = n.
Proof. revert z; induction n; intros; simpl; congruence. Qed.

Lemma le_val_range bs : 0 <= le_val bs < 256 ^ Z.of_nat (length bs).
Proof.
  induction bs as [|b bs IH]; simpl length; [simpl; lia|].
  rewrite Nat2Z.inj_succ, Z.pow_succ_r by lia. simpl.
  pose proof (Z_of_byte_range b). lia.
Qed.

Lemma le_val_bytes n z : 0 <= z < 256 ^ Z.of_nat n -> le_val (le_bytes n z) = z.
Proof.
  revert z; induction n as [|n IH]; intros z; [simpl; lia|].
  rewrite Nat2Z.inj_succ, Z.pow_succ_r by lia. intros Hz. simpl.
  rewrite IH, Z_of_byte_of_Z; [pose proof (Z.div_mod z 256); lia|].
  split; [apply Z.div_pos; lia|apply Z.div_lt_upper_bound; lia].
Qed.

Lemma le_bytes_val bs : le_bytes (length bs) (le_val bs) = bs.
Proof.
  induction bs as [|b bs IH]; [done|]. simpl.
  pose proof (Z_of_byte_range b).
  assert (byte_of_Z (Z_of_byte b + 256 * le_val bs) = b) as ->.
  { rewrite <- (byte_of_Z_of_byte b) at 2. unfold byte_of_Z.
    by rewrite Z.mul_comm, Z_mod_plus_full. }
  assert ((Z_of_byte b + 256 * le_val bs) / 256 = le_val bs) as ->.
  { rewrite Z.mul_comm, Z.div_add, Z.div_small; lia. }
  by rewrite IH.
Qed.

(** ** Wire format: codecs *)

Record codec (A : Type) := mkCodec {
  c_wf : A -> Prop;
  c_ser : A -> list byte;
  c_de : list byte -> option (A * list byte);
}.
Arguments c_wf {A}. Arguments c_ser {A}. Arguments c_de {A}.

Record codec_laws {A} (c : codec A) : Prop := {
  c_de_ser a rest : c_wf c a -> c_de c (c_ser c a ++ rest) = Some (a, rest);
  c_ser_de bs a rest : c_de c bs = Some (a, rest) -> c_wf c a /\ bs = c_ser c a ++ rest;
}.

(** The first [n] bytes of the input. *)
Definition take_bytes (n : nat) (bs : list byte) : option (list byte * list byte) :=
  if (n <=? length bs)%nat then Some (take n bs, drop n bs) else None.

Lemma take_bytes_app bs rest : take_bytes (length bs) (bs ++ rest) = Some (bs, rest).
Proof.
  unfold take_bytes. rewrite length_app, (proj2 (Nat.leb_le _ _)) by lia.
  by rewrite take_app_length, drop_app_length.
Qed.

Lemma take_bytes_some n bs h t : take_bytes n bs = Some (h, t) -> bs = h ++ t /\ length h = n.
Proof.
  unfold take_bytes. destruct (Nat.leb_spec n (length bs)); intros; simplify_eq.
  rewrite take_drop, length_take. split; [done|lia].
Qed.

Definition codec_uint (n : nat) : codec Z := {|
  c_wf z := 0 <= z < 256 ^ Z.of_nat n;
  c_ser := le_bytes n;
  c_de bs := '(h, t) ← take_bytes n bs; Some (le_val h, t) |}.

(** Two's complement. *)
Definition codec_int (n : nat) : codec Z := {|
  c_wf z := - (256 ^ Z.of_nat n / 2) <= z < 256 ^ Z.of_nat n / 2;
  c_ser z := le_bytes n (z mod 256 ^ Z.of_nat n);
  c_de bs := '(h, t) ← take_bytes n bs;
    let v := le_val h in
    Some (if v <? 256 ^ Z.of_nat n / 2 then v else v - 256 ^ Z.of_nat n, t) |}.

(** A [Pubkey] is the big-endian value of its 32 bytes, so that the order
    [Ord] derives for the byte array is the order of [Z]. *)
Definition codec_pubkey : codec Z := {|
  c_wf z := 0 <= z < 256 ^ 32;
  c_ser z := rev (le_bytes 32 z);
  c_de bs := '(h, t) ← take_bytes 32 bs; Some (le_val (rev h), t) |}.

Definition codec_bool : codec bool := {|
  c_wf (_ : bool) := True;
  c_ser (b : bool) := [if b then Byte.x01 else Byte.x00];
  c_de bs := match bs with
    | Byte.x00 :: t => Some (false, t) | Byte.x01 :: t => Some (true, t) | _ => None end |}.

(** [u8; n]. *)
Definition codec_array (n : nat) : codec (list byte) := {|
  c_wf l := length l = n;
  c_ser l := l;
  c_de bs := take_bytes n bs |}.

Definition codec_pair {A B} (BA : codec A) (BB : codec B) : codec (A * B) := {|
  c_wf p := c_wf BA p.1 /\ c_wf BB p.2;
  c_ser p := c_ser BA p.1 ++ c_ser BB p.2;
  c_de bs := '(a, t) ← c_de BA bs; '(b, t') ← c_de BB t; Some ((a, b), t') |}.

(** A struct as the tuple of its fields, in declaration order. *)
Definition codec_iso {A B} (f : A -> B) (g : B -> A) (BA : codec A) : codec B := {|
  c_wf b := c_wf BA (g b);
  c_ser b := c_ser BA (g b);
  c_de bs := '(a, t) ← c_de BA bs; Some (f a, t) |}.

(** A field-less enum: one byte, the index of the variant in [vs]. *)
Definition codec_enum {A} `{EqDecision A} (vs : list A) : codec A := {|
  c_wf a := a ∈ vs;
  c_ser a := [byte_of_Z (Z.of_nat (default O (fst <$> list_find (a =.) vs)))];
  c_de bs := match bs with
    | b :: t => a ← vs !! Z.to_nat (Z_of_byte b); Some (a, t) | [] => None end |}.

Definition codec_unit : codec unit := {|
  c_wf (_ : unit) := True;
  c_ser (_ : unit) := [];
  c_de bs := Some (tt, bs) |}.

(** An enum with data: the index of the variant as one byte, then the fields. *)
Record variant (T : Type) := mkVariant {
  var_arg : Type; var_codec : codec var_arg; var_inj : var_arg -> T; var_proj : T -> option var_arg }.
Arguments mkVariant {T var_arg}. Arguments var_arg {T}. Arguments var_codec {T}.
Arguments var_inj {T}. Arguments var_proj {T}.

Definition codec_variants {T} (vs : list (variant T)) (index : T -> nat) : codec T := {|
  c_wf t := match vs !! index t with
    | Some v => match var_proj v t with Some a => c_wf (var_codec v) a | None => False end | None => False end;
  c_ser t := byte_of_Z (Z.of_nat (index t)) :: match vs !! index t with
    | Some v => match var_proj v t with Some a => c_ser (var_codec v) a | None => [] end | None => [] end;
  c_de bs := match bs with
    | b :: bs => v ← vs !! Z.to_nat (Z_of_byte b); '(a, t) ← c_de (var_codec v) bs; Some (var_inj v a, t)
    | [] => None end |}.

(** [Vec<T>]: the length as a [u32], then the elements. *)
Fixpoint de_many {A} (d : list byte -> option (A * list byte)) (n : nat) (bs : list byte)
    : option (list A * list byte) :=
  match n with
  | O => Some ([], bs)
  | S n => '(a, t) ← d bs; '(l, t') ← de_many d n t; Some (a :: l, t')
  end.

Definition codec_vec {A} (BA : codec A) : codec (list A) := {|
  c_wf l := Forall (c_wf BA) l /\ Z.of_nat (length l) < 256 ^ 4;
  c_ser l := le_bytes 4 (Z.of_nat (length l)) ++ concat (map (c_ser BA) l);
  c_de bs := '(h, t) ← take_bytes 4 bs; de_many (c_de BA) (Z.to_nat (le_val h)) t |}.

(** ** Laws of the codecs *)

Lemma codec_uint_laws n : codec_laws (codec_uint n).
Proof.
  split; simpl.
  - intros a rest Ha. rewrite <- (length_le_bytes n a) at 1.
    rewrite take_bytes_app. simpl. by rewrite le_val_bytes.
  - intros bs a rest H. destruct (take_bytes n bs) as [[h t]|] eqn:E; simplify_eq/=.
    apply take_bytes_some in E as [-> <-]. by split; [apply le_val_range|rewrite le_bytes_val].
Qed.

Lemma codec_int_laws n : (0 < n)%nat -> codec_laws (codec_int n).
Proof.
  intros Hn. set (m := 256 ^ Z.of_nat n).
  assert (Hm : 0 < m / 2 /\ m = 2 * (m / 2)).
  { unfold m. replace (Z.of_nat n) with (Z.succ (Z.of_nat (n - 1))) by lia.
    rewrite Z.pow_succ_r by lia. pose proof (Z.pow_pos_nonneg 256 (Z.of_nat (n - 1))).
    replace (256 * 256 ^ Z.of_nat (n - 1)) with (128 * 256 ^ Z.of_nat (n - 1) * 2) by lia.
    rewrite Z.div_mul by lia. lia. }
  split; simpl; fold m.
  - intros a rest Ha. rewrite <- (length_le_bytes n (a mod m)) at 1.
    rewrite take_bytes_app. simpl. rewrite le_val_bytes by (apply Z.mod_pos_bound; lia).
    destruct (decide (0 <= a)).
    + rewrite Z.mod_small by lia. destruct (Z.ltb_spec a (m / 2)); [done|lia].
    + assert (a mod m = a + m) as ->.
      { rewrite <- (Z_mod_plus_full a 1 m), Z.mod_small; lia. }
      destruct (Z.ltb_spec (a + m) (m / 2)); [lia|]. do 2 f_equal; lia.
  - intros bs a rest H. destruct (take_bytes n bs) as [[h t]|] eqn:E; simplify_eq/=.
    apply take_bytes_some in E as [-> <-]. pose proof (le_val_range h) as Hr. fold m in Hr.
    destruct (Z.ltb_spec (le_val h) (m / 2)).
    + rewrite Z.mod_small, le_bytes_val by lia. split; [lia|done].
    + assert ((le_val h - m) mod m = le_val h) as ->.
      { rewrite <- (Z_mod_plus_full _ 1 m), Z.mod_small; lia. }
      rewrite le_bytes_val. split; [lia|done].
Qed.

Lemma codec_pubkey_laws : codec_laws codec_pubkey.
Proof.
  split; cbn -[le_bytes Z.pow take_bytes].
  - intros a rest Ha.
    assert (length (rev (le_bytes 32 a)) = 32%nat) as Hl by (rewrite length_rev; apply length_le_bytes).
    rewrite <- Hl at 1. rewrite take_bytes_app. cbn -[le_bytes Z.pow].
    rewrite rev_involutive, le_val_bytes; done.
  - intros bs a rest H.
    destruct (take_bytes 32 bs) as [[h t]|] eqn:E; cbn -[le_bytes Z.pow] in H; simplify_eq.
    apply take_bytes_some in E as [-> Hl].
    assert (length (rev h) = 32%nat) as Hr by (by rewrite length_rev).
    pose proof (le_val_range (rev h)) as Hv. rewrite Hr in Hv. split; [done|].
    rewrite <- Hr, le_bytes_val. by rewrite rev_involutive.
Qed.

Lemma codec_bool_laws : codec_laws codec_bool.
Proof.
  split; simpl; [by intros [] rest|].
  intros [|[] bs] a rest H; simplify_eq; done.
Qed.

Lemma codec_array_laws n : codec_laws (codec_array n).
Proof.
  split; simpl.
  - intros a rest <-. apply take_bytes_app.
  - intros bs a rest H. by apply take_bytes_some in H as [-> <-].
Qed.

Lemma codec_pair_laws {A B} (BA : codec A) (BB : codec B) :
  codec_laws BA -> codec_laws BB -> codec_laws (codec_pair BA BB).
Proof.
  intros LA LB. split; simpl.
  - intros [a b] rest [Ha Hb]; simpl in *. rewrite <- app_assoc, c_de_ser by done. simpl.
    by rewrite c_de_ser.
  - intros bs p rest H. destruct (c_de BA bs) as [[a t]|] eqn:E; simplify_eq/=.
    destruct (c_de BB t) as [[b t']|] eqn:E'; simplify_eq/=.
    apply c_ser_de in E as [? ->]; [|done]. apply c_ser_de in E' as [? ->]; [|done].
    by rewrite <- app_assoc.
Qed.

Lemma codec_iso_laws {A B} (f : A -> B) (g : B -> A) (BA : codec A) :
  (forall b, f (g b) = b) -> (forall a, g (f a) = a) ->
  codec_laws BA -> codec_laws (codec_iso f g BA).
Proof.
  intros Hfg Hgf LA. split; simpl.
  - intros b rest Hb. rewrite c_de_ser by done. simpl. by rewrite Hfg.
  - intros bs b rest H. destruct (c_de BA bs) as [[a t]|] eqn:E; simplify_eq/=.
    apply c_ser_de in E as [? ->]; [|done]. by rewrite Hgf.
Qed.

Lemma codec_enum_laws {A} `{EqDecision A} (vs : list A) :
  NoDup vs -> (length vs <= 256)%nat -> codec_laws (codec_enum vs).
Proof.
  intros Hnd Hlen. split; simpl.
  - intros a rest Ha. apply list_elem_of_lookup in Ha as [i Hi].
    assert (list_find (a =.) vs = Some (i, a)) as ->.
    { apply list_find_Some. repeat split; [done|]. intros j y Hj Hlt ->.
      assert (j = i) by (by eapply NoDup_lookup). lia. }
    simpl. apply lookup_lt_Some in Hi as Hlt.
    rewrite Z_of_byte_of_Z, Z.mod_small, Nat2Z.id by lia. by rewrite Hi.
  - intros [|b t] a rest H; simplify_eq/=.
    destruct (vs !! Z.to_nat (Z_of_byte b)) as [a'|] eqn:E; simplify_eq/=.
    split; [by eapply list_elem_of_lookup_2|].
    assert (list_find (a =.) vs = Some (Z.to_nat (Z_of_byte b), a)) as ->.
    { apply list_find_Some. repeat split; [done|]. intros j y Hj Hlt ->.
      assert (j = Z.to_nat (Z_of_byte b)) by (by eapply NoDup_lookup). lia. }
    simpl. pose proof (Z_of_byte_range b).
    by rewrite Z2Nat.id, byte_of_Z_of_byte by lia.
Qed.

Lemma codec_unit_laws : codec_laws codec_unit.
Proof. split; simpl; [by intros [] rest|]. intros bs [] rest [= <-]. done. Qed.

Lemma codec_variants_laws {T} (vs : list (variant T)) (index : T -> nat) :
  (length vs <= 256)%nat -> Forall (fun v => codec_laws (var_codec v)) vs ->
  (forall i v a, vs !! i = Some v -> index (var_inj v a) = i /\ var_proj v (var_inj v a) = Some a) ->
  (forall t v a, vs !! index t = Some v -> var_proj v t = Some a -> var_inj v a = t) ->
  codec_laws (codec_variants vs index).
Proof.
  intros Hlen Hlaws Hinj Hproj. split; simpl.
  - intros t rest Ht. destruct (vs !! index t) as [v|] eqn:Hv; [|done].
    destruct (var_proj v t) as [a|] eqn:Ha; [|done]. apply lookup_lt_Some in Hv as Hlt.
    rewrite Z_of_byte_of_Z, Z.mod_small, Nat2Z.id, Hv by lia. simpl.
    eapply Forall_lookup_1 in Hlaws; [|done]. rewrite c_de_ser by done. simpl. by rewrite (Hproj t v a).
  - intros [|b bs] t rest H; [done|]. destruct (vs !! Z.to_nat (Z_of_byte b)) as [v|] eqn:Hv; simplify_eq/=.
    destruct (c_de (var_codec v) bs) as [[a t']|] eqn:Hd; simplify_eq/=.
    eapply Forall_lookup_1 in Hlaws; [|done]. apply c_ser_de in Hd as [Hw ->]; [|done].
    destruct (Hinj _ _ a Hv) as [-> Hp]. rewrite Hv, Hp. split; [done|].
    pose proof (Z_of_byte_range b). by rewrite Z2Nat.id, byte_of_Z_of_byte by lia.
Qed.

Lemma de_many_ser {A} (BA : codec A) (LA : codec_laws BA) l rest :
  Forall (c_wf BA) l -> de_many (c_de BA) (length l) (concat (map (c_ser BA) l) ++ rest) = Some (l, rest).
Proof.
  induction 1 as [|a l Ha _ IH]; simpl; [done|].
  rewrite <- app_assoc, c_de_ser by done. simpl. by rewrite IH.
Qed.

Lemma de_many_some {A} (BA : codec A) (LA : codec_laws BA) n bs l rest :
  de_many (c_de BA) n bs = Some (l, rest) ->
  Forall (c_wf BA) l /\ length l = n /\ bs = concat (map (c_ser BA) l) ++ rest.
Proof.
  revert bs l. induction n as [|n IH]; simpl; intros bs l H; [simplify_eq; by repeat constructor|].
  destruct (c_de BA bs) as [[a t]|] eqn:E; simplify_eq/=.
  destruct (de_many (c_de BA) n t) as [[l' t']|] eqn:E'; simplify_eq/=.
  apply c_ser_de in E as [? ->]; [|done]. apply IH in E' as (? & <- & ->).
  repeat split; [by constructor|]. by rewrite <- app_assoc.
Qed.

Lemma codec_vec_laws {A} (BA : codec A) : codec_laws BA -> codec_laws (codec_vec BA).
Proof.
  intros LA. split; cbn -[le_bytes Z.pow take_bytes].
  - intros l rest [Hl Hn]. rewrite <- app_assoc.
    rewrite <- (length_le_bytes 4 (Z.of_nat (length l))) at 1.
    rewrite take_bytes_app. cbn -[le_bytes Z.pow].
    rewrite le_val_bytes, Nat2Z.id by lia. by apply de_many_ser.
  - intros bs l rest H.
    destruct (take_bytes 4 bs) as [[h t]|] eqn:E; cbn -[le_bytes Z.pow] in H; simplify_eq.
    apply take_bytes_some in E as [-> Hl]. apply de_many_some in H as (? & Hlen & ->); [|done].
    pose proof (le_val_range h) as Hr. rewrite Hl in Hr.
    rewrite Hlen, Z2Nat.id by lia. repeat split; [done|lia|].
    rewrite <- Hl, le_bytes_val. by rewrite app_assoc.
Qed.

(** ** Instances of the interface from codecs *)

Definition borsh_of_codec {A} (c : codec A) : Borsh A := {| borsh_ser := c_ser c; borsh_de := c_de c |}.

Lemma borsh_of_codec_laws {A} {W : WellTyped A} (c : codec A) :
  codec_laws c -> (forall a, well_typed a <-> c_wf c a) -> @BorshLaws A (borsh_of_codec c) W.
Proof.
  intros Hc Hw. split; simpl.
  - intros a rest Ha. apply c_de_ser; [done|]. by apply Hw.
  - intros bs a rest H. apply c_ser_de in H as [? ->]; [|done]. split; [by apply Hw|done].
Qed.

(** Lengths of the encodings. *)
Definition c_size {A} (c : codec A) (n : Z) : Prop := forall a, c_wf c a -> zlen (c_ser c a) = n.

Lemma codec_uint_size n : c_size (codec_uint n) (Z.of_nat n).
Proof. intros a _. unfold zlen. simpl. by rewrite length_le_bytes. Qed.
Lemma codec_int_size n : c_size (codec_int n) (Z.of_nat n).
Proof. intros a _. unfold zlen. simpl. by rewrite length_le_bytes. Qed.
Lemma codec_pubkey_size : c_size codec_pubkey 32.
Proof. intros a _. unfold zlen. cbn [codec_pubkey c_ser]. by rewrite length_rev, length_le_bytes. Qed.
Lemma codec_bool_size : c_size codec_bool 1.
Proof. by intros a _. Qed.
Lemma codec_array_size n : c_size (codec_array n) (Z.of_nat n).
Proof. intros a <-. done. Qed.
Lemma codec_enum_size {A} `{EqDecision A} (vs : list A) : c_size (codec_enum vs) 1.
Proof. by intros a _. Qed.
Lemma codec_pair_size {A B} (ca : codec A) (cb : codec B) n m :
  c_size ca n -> c_size cb m -> c_size (codec_pair ca cb) (n + m).
Proof.
  intros Ha Hb [a b] [Wa Wb]. simpl in *. rewrite <- (Ha a Wa), <- (Hb b Wb).
  unfold zlen. rewrite length_app. lia.
Qed.
Lemma codec_iso_size {A B} (f : A -> B) (g : B -> A) (c : codec A) n : c_size c n -> c_size (codec_iso f g c) n.
Proof. intros Hc b Hb. by apply Hc. Qed.

Lemma c_size_eq {A} (c : codec A) n m : c_size c n -> n = m -> c_size c m.
Proof. by intros ? <-. Qed.
Lemma borsh_of_codec_sized {A} {W : WellTyped A} (c : codec A) n :
  c_size c n -> (forall a, well_typed a <-> c_wf c a) -> @BorshSized A (borsh_of_codec c) W n.
Proof. intros Hc Hw a Ha. by apply Hc, Hw. Qed.

Lemma codec_vec_length {A} (c : codec A) n l :
  c_size c n -> c_wf (codec_vec c) l -> zlen (c_ser (codec_vec c) l) = 4 + n * zlen l.
Proof.
  intros Hc [Hl _]. unfold zlen. cbn [codec_vec c_ser]. rewrite length_app, length_le_bytes.
  assert (Z.of_nat (length (concat (map (c_ser c) l))) = n * Z.of_nat (length l)); [|lia].
  induction Hl as [|a l Ha _ IH]; [simpl; lia|]. simpl. rewrite length_app. specialize (Hc a Ha). unfold zlen in Hc. lia.
Qed.

(** Size of a codec built from the ones above. *)
Ltac codec_size :=
  eapply c_size_eq; [repeat first [apply codec_iso_size|eapply codec_pair_size];
    first [apply codec_uint_size|apply codec_int_size|apply codec_pubkey_size|apply codec_bool_size
          |apply codec_array_size|apply codec_enum_size]|done].

(** [well_typed] against the domain of a codec. *)
Ltac codec_wf :=
  simpl; change (256 ^ Z.of_nat 16 / 2) with (2 ^ 127); change (256 ^ Z.of_nat 8 / 2) with (2 ^ 63);
  change (256 ^ Z.of_nat 8) with (2 ^ 64); unfold_ints;
  split; intros; destruct_and?; split_and?; done || lia.

(** The well-formed vectors are those of the codec. *)
Lemma codec_vec_wf {A} (P : A -> Prop) (c : codec A) l :
  (forall a, P a <-> c_wf c a) -> Forall P l /\ is_u32 (zlen l) <-> c_wf (codec_vec c) l.
Proof.
  intros Hc. simpl. assert (Forall P l <-> Forall (c_wf c) l) as ->.
  { split; intros Hl; (eapply Forall_impl; [exact Hl|]); intros; by apply Hc. }
  unfold zlen, in_range, U32_MAX. change (256 ^ 4) with (2 ^ 32). split; intros [? ?]; (split; [done|lia]).
Qed.

Lemma codec_pubkey_wf (k : Z) : in_range 0 (2 ^ 256 - 1) k <-> c_wf codec_pubkey k.
Proof. codec_wf. Qed.

Create HintDb codec discriminated.
#[export] Hint Resolve codec_unit_laws codec_uint_laws codec_int_laws codec_pubkey_laws codec_bool_laws codec_array_laws
  codec_pair_laws codec_iso_laws codec_enum_laws codec_vec_laws codec_uint_size codec_int_size codec_pubkey_size
  codec_bool_size codec_array_size codec_enum_size codec_pair_size codec_iso_size : codec.
#[global] Arguments le_bytes : simpl never.
