(* ===== verification/Accounts.v ===== *)
(** * Accounts: the account store of a transaction

    Models [src/validator/transaction-context]: the accounts of a transaction
    ([TransactionAccounts]) and the access rules of an account borrowed by an
    instruction ([BorrowedInstructionAccount]).  Every change of an account,
    made by a builtin program or written back from the memory of an on-chain
    program, goes through the operations of this file.

    An account is identified by its key instead of its index in the
    transaction.  Borrow counters and the [touched] flags are left out: the
    modelled callers never hold two borrows of an account at once, and the
    flags are only read after the transaction. *)

From Stdlib Require Import Strings.Byte.
From S2P Require Import Prelude Borsh.
Open Scope Z_scope.

(** The big-endian value of the 32 bytes of the key. *)
Abbreviation Pubkey := Z.
Abbreviation is_pubkey := (in_range 0 (2 ^ 256 - 1)).

(** [Pubkey::default()], also the id of the system program. *)
Definition system_program_id : Pubkey := 0.

Record Account := mkAccount {
  acc_lamports : Z;
  acc_data : list byte;
  acc_owner : Pubkey;
  acc_executable : bool;
}.

(** What a transaction sees of an account that does not exist. *)
Definition empty_account : Account := mkAccount 0 [] system_program_id false.

(** The errors an instruction ends with.  A [ProgramError] an on-chain program
    returns becomes the [InstructionError] of the same name, and a panic of the
    program becomes [ProgramFailedToComplete]. *)
Inductive InstructionError :=
| InvalidArgument
| MissingRequiredSignature
| NotEnoughAccountKeys
| MissingAccount
| PrivilegeEscalation
| ReentrancyNotAllowed
| UnbalancedInstruction
| ModifiedProgramId
| ExternalAccountLamportSpend
| ReadonlyLamportChange
| ExternalAccountDataModified
| ReadonlyDataModified
| AccountDataSizeChanged
| InvalidRealloc
| MaxAccountsDataAllocationsExceeded
| ArithmeticOverflow
| InvalidInstructionData
| InvalidSeeds
| InvalidAccountData
| AccountDataTooSmall
| InsufficientFunds
| IncorrectProgramId
| UninitializedAccount
| AccountAlreadyInitialized
| InvalidAccountOwner
| AccountNotRentExempt
| BorshIoError
| ProgramFailedToComplete
| Custom (code : Z).

Definition MAX_ACCOUNT_DATA_LEN : Z := 10 * 1024 * 1024.
Definition MAX_ACCOUNT_DATA_GROWTH_PER_TRANSACTION : Z := MAX_ACCOUNT_DATA_LEN * 2.

Record TransactionAccounts := mkTA {
  ta_accounts : gmap Pubkey Account;
  ta_resize_delta : Z;
  ta_lamports_delta : Z;
}.

Record InstructionAccount := mkIA {
  ia_key : Pubkey;
  ia_is_signer : bool;
  ia_is_writable : bool;
}.

Definition get_acc (m : gmap Pubkey Account) (k : Pubkey) : Account := default empty_account (m !! k).


(** [Vec::resize(n, 0)]. *)
Definition resize_data (n : nat) (d : list byte) : list byte := take n d ++ replicate (n - length d) Byte.x00.

Definition is_zeroed (buf : list byte) : bool := forallb (fun b => Byte.eqb b Byte.x00) buf.

(** ** [TransactionAccounts] *)

Definition add_lamports_delta (ta : TransactionAccounts) (balance : Z) : result InstructionError TransactionAccounts :=
  (let? d := ok_or (i128_checked_add (ta_lamports_delta ta) balance) ArithmeticOverflow in
   Ok (mkTA (ta_accounts ta) (ta_resize_delta ta) d))%result.

Definition update_accounts_resize_delta (ta : TransactionAccounts) (old_len new_len : Z) : TransactionAccounts :=
  mkTA (ta_accounts ta)
       (i64_saturating_add (ta_resize_delta ta) (i64_saturating_sub new_len old_len))
       (ta_lamports_delta ta).

Definition ta_can_data_be_resized (ta : TransactionAccounts) (old_len new_len : Z) : result InstructionError unit :=
  (err_if (MAX_ACCOUNT_DATA_LEN <? new_len) InvalidRealloc ?>
   let length_delta := i64_saturating_sub new_len old_len in
   err_if (MAX_ACCOUNT_DATA_GROWTH_PER_TRANSACTION <? i64_saturating_add (ta_resize_delta ta) length_delta)
     MaxAccountsDataAllocationsExceeded ?>
   Ok tt)%result.

Definition put_account (ta : TransactionAccounts) (k : Pubkey) (a : Account) : TransactionAccounts :=
  mkTA (<[k := a]> (ta_accounts ta)) (ta_resize_delta ta) (ta_lamports_delta ta).

(** ** [BorrowedInstructionAccount]

    [program] is the program of the current instruction, [ia] the instruction
    account that is borrowed. *)

Section Borrowed.
Variable program : Pubkey.
Variable ia : InstructionAccount.

Definition get_account (ta : TransactionAccounts) : Account := get_acc (ta_accounts ta) (ia_key ia).
Definition get_lamports (ta : TransactionAccounts) : Z := acc_lamports (get_account ta).
Definition get_data (ta : TransactionAccounts) : list byte := acc_data (get_account ta).
Definition get_owner (ta : TransactionAccounts) : Pubkey := acc_owner (get_account ta).

Definition is_owned_by_current_program (ta : TransactionAccounts) : bool := program =? get_owner ta.

Definition set_owner (pubkey : Pubkey) (ta : TransactionAccounts) : result InstructionError TransactionAccounts :=
  (err_if (negb (is_owned_by_current_program ta)) ModifiedProgramId ?>
   err_if (negb (ia_is_writable ia)) ModifiedProgramId ?>
   err_if (negb (is_zeroed (get_data ta))) ModifiedProgramId ?>
   if get_owner ta =? pubkey then Ok ta else
   let a := get_account ta in
   Ok (put_account ta (ia_key ia) (mkAccount (acc_lamports a) (acc_data a) pubkey (acc_executable a))))%result.

Definition set_lamports (lamports : Z) (ta : TransactionAccounts) : result InstructionError TransactionAccounts :=
  (err_if (negb (is_owned_by_current_program ta) && (lamports <? get_lamports ta)) ExternalAccountLamportSpend ?>
   err_if (negb (ia_is_writable ia)) ReadonlyLamportChange ?>
   let old_lamports := get_lamports ta in
   if old_lamports =? lamports then Ok ta else
   let lamports_balance := i128_saturating_sub lamports old_lamports in
   let? ta1 := add_lamports_delta ta lamports_balance in
   let a := get_account ta in
   Ok (put_account ta1 (ia_key ia) (mkAccount lamports (acc_data a) (acc_owner a) (acc_executable a))))%result.

Definition checked_add_lamports (lamports : Z) (ta : TransactionAccounts) : result InstructionError TransactionAccounts :=
  (let? l := ok_or (u64_checked_add (get_lamports ta) lamports) ArithmeticOverflow in
   set_lamports l ta)%result.

Definition checked_sub_lamports (lamports : Z) (ta : TransactionAccounts) : result InstructionError TransactionAccounts :=
  (let? l := ok_or (u64_checked_sub (get_lamports ta) lamports) ArithmeticOverflow in
   set_lamports l ta)%result.

Definition can_data_be_changed (ta : TransactionAccounts) : result InstructionError unit :=
  (err_if (negb (ia_is_writable ia)) ReadonlyDataModified ?>
   err_if (negb (is_owned_by_current_program ta)) ExternalAccountDataModified ?>
   Ok tt)%result.

Definition can_data_be_resized (new_len : Z) (ta : TransactionAccounts) : result InstructionError unit :=
  (let old_len := zlen (get_data ta) in
   err_if (negb (new_len =? old_len) && negb (is_owned_by_current_program ta)) AccountDataSizeChanged ?>
   ta_can_data_be_resized ta old_len new_len ?>
   can_data_be_changed ta)%result.

Definition with_data (ta : TransactionAccounts) (d : list byte) : TransactionAccounts :=
  let a := get_account ta in
  put_account ta (ia_key ia) (mkAccount (acc_lamports a) d (acc_owner a) (acc_executable a)).

Definition set_data_from_slice (d : list byte) (ta : TransactionAccounts) : result InstructionError TransactionAccounts :=
  (can_data_be_resized (zlen d) ta ?>
   let ta1 := update_accounts_resize_delta ta (zlen (get_data ta)) (zlen d) in
   Ok (with_data ta1 d))%result.

Definition set_data_length (new_length : Z) (ta : TransactionAccounts) : result InstructionError TransactionAccounts :=
  (can_data_be_resized new_length ta ?>
   if zlen (get_data ta) =? new_length then Ok ta else
   let ta1 := update_accounts_resize_delta ta (zlen (get_data ta)) new_length in
   Ok (with_data ta1 (resize_data (Z.to_nat new_length) (get_data ta))))%result.
End Borrowed.

(** ** What an instruction may do to the accounts

    [allowed program ias ta ta'] is the contract the access rules enforce: an
    account the program does not own keeps its data and its owner and is never
    debited, an account that is not passed as writable does not change at all,
    and the lamports that appear or disappear are recorded in the delta that
    [TransactionContext::pop] requires to be zero. *)

Definition total_lamports (m : gmap Pubkey Account) : Z := msum acc_lamports m.

Definition writable_in (ias : list InstructionAccount) (k : Pubkey) : Prop :=
  exists ia, ia ∈ ias /\ ia_key ia = k /\ ia_is_writable ia = true.

#[global] Instance writable_in_dec ias k : Decision (writable_in ias k).
Proof.
  destruct (decide (Exists (fun ia => ia_key ia = k /\ ia_is_writable ia = true) ias)) as [H|H];
    rewrite Exists_exists in H; [left|right]; unfold writable_in; naive_solver.
Defined.

Definition lamports_ok (m : gmap Pubkey Account) : Prop :=
  forall k, is_u64 (acc_lamports (get_acc m k)).

Record allowed (program : Pubkey) (ias : list InstructionAccount) (ta ta' : TransactionAccounts) : Prop := {
  allowed_foreign k : acc_owner (get_acc (ta_accounts ta) k) <> program ->
    acc_data (get_acc (ta_accounts ta') k) = acc_data (get_acc (ta_accounts ta) k) /\
    acc_owner (get_acc (ta_accounts ta') k) = acc_owner (get_acc (ta_accounts ta) k) /\
    acc_lamports (get_acc (ta_accounts ta) k) <= acc_lamports (get_acc (ta_accounts ta') k);
  allowed_readonly k : ~ writable_in ias k -> get_acc (ta_accounts ta') k = get_acc (ta_accounts ta) k;
  allowed_balance :
    total_lamports (ta_accounts ta') - ta_lamports_delta ta' =
    total_lamports (ta_accounts ta) - ta_lamports_delta ta;
  allowed_range : lamports_ok (ta_accounts ta) -> lamports_ok (ta_accounts ta');
}.

Lemma get_acc_insert m k a j : get_acc (<[k := a]> m) j = if decide (k = j) then a else get_acc m j.
Proof. unfold get_acc. rewrite lookup_insert. by case_decide. Qed.

Lemma get_acc_insert_eq m k a : get_acc (<[k := a]> m) k = a.
Proof. rewrite get_acc_insert. by case_decide. Qed.

Lemma get_acc_insert_ne m k a j : k <> j -> get_acc (<[k := a]> m) j = get_acc m j.
Proof. intros. rewrite get_acc_insert. by case_decide. Qed.

Lemma total_insert m k a :
  total_lamports (<[k := a]> m) = total_lamports m - acc_lamports (get_acc m k) + acc_lamports a.
Proof.
  unfold total_lamports, get_acc. destruct (m !! k) as [b|] eqn:Hm; simpl.
  - by erewrite msum_update.
  - rewrite msum_insert by done. lia.
Qed.

Lemma total_delete m k : total_lamports m = acc_lamports (get_acc m k) + total_lamports (delete k m).
Proof.
  unfold total_lamports, get_acc. destruct (m !! k) as [b|] eqn:Hm; simpl.
  - rewrite <- (insert_id m k b Hm) at 1. by rewrite <- insert_delete_eq, msum_insert by apply lookup_delete_eq.
  - by rewrite delete_id.
Qed.

(** The total only depends on the balances. *)
Lemma total_ext m m' :
  (forall k, acc_lamports (get_acc m k) = acc_lamports (get_acc m' k)) -> total_lamports m = total_lamports m'.
Proof.
  revert m'. induction m as [|k a m Hk IH] using map_ind; intros m' Hm.
  - unfold total_lamports at 1. rewrite msum_empty. revert Hm.
    induction m' as [|k b m' Hk IH] using map_ind; intros Hm; [done|].
    rewrite total_insert, <- IH; unfold get_acc in *.
    + specialize (Hm k). rewrite lookup_insert_eq, lookup_empty in Hm. rewrite Hk. simpl in *. lia.
    + intros j. specialize (Hm j). rewrite lookup_insert in Hm. case_decide as Hj; [|done]. subst. by rewrite Hk.
  - rewrite total_insert, (total_delete m' k), (IH (delete k m')).
    + specialize (Hm k). rewrite get_acc_insert_eq in Hm. unfold get_acc in *. rewrite Hk. simpl. lia.
    + intros j. specialize (Hm j). unfold get_acc in *. rewrite lookup_insert in Hm. rewrite lookup_delete.
      case_decide as Hj; [|done]. subst. by rewrite Hk.
Qed.

Lemma allowed_refl program ias ta : allowed program ias ta ta.
Proof. by split; intros; auto with lia. Qed.

Lemma allowed_trans program ias ta1 ta2 ta3 :
  allowed program ias ta1 ta2 -> allowed program ias ta2 ta3 -> allowed program ias ta1 ta3.
Proof.
  intros [F1 R1 B1 L1] [F2 R2 B2 L2]; split.
  - intros k Hk. destruct (F1 k Hk) as (E1 & E2 & E3).
    destruct (F2 k) as (E4 & E5 & E6); [congruence|]. split_and!; [congruence..|lia].
  - intros k Hk. rewrite R2, R1; done.
  - lia.
  - auto.
Qed.

#[global] Instance allowed_preorder program ias : PreOrder (allowed program ias).
Proof. split; [exact (allowed_refl _ _)|exact (allowed_trans _ _)]. Qed.

Section BorrowedLemmas.
Context (program : Pubkey) (ias : list InstructionAccount) (ia : InstructionAccount).
Context (Hia : ia ∈ ias).

(** The only shape of change the operations make: the borrowed account is
    replaced, under the conditions the contract needs. *)
Lemma allowed_put ta ta0 a' :
  ia_is_writable ia = true ->
  ta_accounts ta0 = ta_accounts ta ->
  (get_owner ia ta <> program -> acc_data a' = get_data ia ta /\ acc_owner a' = get_owner ia ta /\
     get_lamports ia ta <= acc_lamports a') ->
  ta_lamports_delta ta0 = ta_lamports_delta ta + (acc_lamports a' - get_lamports ia ta) ->
  (lamports_ok (ta_accounts ta) -> is_u64 (acc_lamports a')) ->
  allowed program ias ta (put_account ta0 (ia_key ia) a').
Proof.
  unfold get_owner, get_data, get_lamports, get_account.
  intros Hw Hacc Hf Hd Hr; split; unfold put_account; simpl; rewrite ?Hacc.
  - intros k Hk. rewrite get_acc_insert. case_decide; subst; [naive_solver|split_and!; [done..|lia]].
  - intros k Hk. rewrite get_acc_insert_ne; [done|]. intros <-. apply Hk. by exists ia.
  - rewrite total_insert. lia.
  - intros Hl k. rewrite get_acc_insert. case_decide; auto.
Qed.

Lemma set_lamports_spec l ta ta' :
  is_u64 l -> lamports_ok (ta_accounts ta) ->
  set_lamports program ia l ta = Ok ta' -> allowed program ias ta ta'.
Proof.
  intros Hl Hok H. unfold set_lamports in H. rinv.
  case_match; rinv; [reflexivity|]. unfold add_lamports_delta in *. rinv.
  unfold is_owned_by_current_program in *. bool_to_prop.
  pose proof (Hok (ia_key ia)). apply andb_false_iff in H0.
  assert (Hx : i128_saturating_sub l (get_lamports ia ta) = l - get_lamports ia ta).
  { unfold i128_saturating_sub. apply clamp_in. unfold get_lamports, get_account. ilia. }
  apply allowed_put; simpl; [done|done| |by rewrite Hx|done].
  intros Ho. destruct H0 as [H0|H0]; bool_to_prop; [|done].
  by rewrite H0 in Ho.
Qed.

Lemma checked_add_lamports_spec l ta ta' :
  lamports_ok (ta_accounts ta) ->
  checked_add_lamports program ia l ta = Ok ta' -> allowed program ias ta ta'.
Proof. intros Hok H. unfold checked_add_lamports in H. rinv. by eapply set_lamports_spec. Qed.

Lemma checked_sub_lamports_spec l ta ta' :
  lamports_ok (ta_accounts ta) ->
  checked_sub_lamports program ia l ta = Ok ta' -> allowed program ias ta ta'.
Proof. intros Hok H. unfold checked_sub_lamports in H. rinv. by eapply set_lamports_spec. Qed.

Lemma set_owner_spec k ta ta' : set_owner program ia k ta = Ok ta' -> allowed program ias ta ta'.
Proof.
  intros H. unfold set_owner, is_owned_by_current_program in H. rinv.
  case_match; rinv; [reflexivity|]. bool_to_prop.
  apply allowed_put; cbn [acc_lamports]; [done|done|congruence|unfold get_lamports; lia|].
  intros Hok; apply Hok.
Qed.

Lemma with_data_spec d ta ta0 :
  ia_is_writable ia = true -> get_owner ia ta = program ->
  ta_accounts ta0 = ta_accounts ta -> ta_lamports_delta ta0 = ta_lamports_delta ta ->
  allowed program ias ta (with_data ia ta0 d).
Proof.
  intros Hw Ho Ha Hd. unfold with_data. apply allowed_put; cbn [acc_lamports]; [done|done|congruence| |].
  - unfold get_lamports, get_account. rewrite Ha. lia.
  - intros Hok. unfold get_account. rewrite Ha. apply Hok.
Qed.

Lemma can_data_be_resized_ok n ta u :
  can_data_be_resized program ia n ta = Ok u -> ia_is_writable ia = true /\ get_owner ia ta = program.
Proof.
  unfold can_data_be_resized, can_data_be_changed, is_owned_by_current_program. intros H. rinv.
  bool_to_prop. done.
Qed.

Lemma set_data_from_slice_spec d ta ta' :
  set_data_from_slice program ia d ta = Ok ta' -> allowed program ias ta ta'.
Proof.
  intros H. unfold set_data_from_slice in H. rinv. apply can_data_be_resized_ok in H0 as [??].
  by apply with_data_spec.
Qed.

Lemma set_data_length_spec n ta ta' :
  set_data_length program ia n ta = Ok ta' -> allowed program ias ta ta'.
Proof.
  intros H. unfold set_data_length in H. rinv.
  case_match; rinv; [reflexivity|]. apply can_data_be_resized_ok in H0 as [??].
  by apply with_data_spec.
Qed.
End BorrowedLemmas.

#[export] Hint Resolve set_lamports_spec checked_add_lamports_spec checked_sub_lamports_spec
  set_owner_spec set_data_from_slice_spec set_data_length_spec allowed_refl : prism.

(** ** Exact effect of the operations on an account that is present *)

Definition set_acc_lamports (l : Z) (a : Account) : Account := mkAccount l (acc_data a) (acc_owner a) (acc_executable a).
Definition set_acc_data (d : list byte) (a : Account) : Account := mkAccount (acc_lamports a) d (acc_owner a) (acc_executable a).
Definition set_acc_owner (o : Pubkey) (a : Account) : Account := mkAccount (acc_lamports a) (acc_data a) o (acc_executable a).

Section Exact.
Context (program : Pubkey) (ia : InstructionAccount) (ta : TransactionAccounts) (a : Account).
Context (Hin : ta_accounts ta !! ia_key ia = Some a).

Lemma get_account_in : get_account ia ta = a.
Proof. unfold get_account, get_acc. by rewrite Hin. Qed.

Lemma set_lamports_iff l ta' :
  is_u64 l -> is_u64 (acc_lamports a) ->
  set_lamports program ia l ta = Ok ta' <->
  (program = acc_owner a \/ acc_lamports a <= l) /\ ia_is_writable ia = true /\
  (acc_lamports a = l \/ is_i128 (ta_lamports_delta ta + (l - acc_lamports a))) /\
  ta' = mkTA (<[ia_key ia := set_acc_lamports l a]> (ta_accounts ta)) (ta_resize_delta ta)
             (ta_lamports_delta ta + (l - acc_lamports a)).
Proof.
  intros Hl Ha. unfold set_lamports, is_owned_by_current_program, get_owner, get_lamports.
  rewrite get_account_in.
  assert (Hc : i128_saturating_sub l (acc_lamports a) = l - acc_lamports a) by (apply clamp_in; ilia).
  assert (Hid : acc_lamports a = l -> mkTA (<[ia_key ia := set_acc_lamports l a]> (ta_accounts ta))
    (ta_resize_delta ta) (ta_lamports_delta ta + (l - acc_lamports a)) = ta).
  { intros <-. unfold set_acc_lamports. destruct ta, a; simpl in *.
    rewrite insert_id by done. f_equal; lia. }
  split.
  - intros H. rinv. apply andb_false_iff in H0. case_match; rinv; bool_to_prop.
    + rewrite Hid by done. naive_solver lia.
    + unfold add_lamports_delta in *. rinv. rewrite Hc in *.
      split_and!; [destruct H0; bool_to_prop; auto|done|by right|done].
  - intros (Ho & -> & Hd & ->).
    assert (negb (program =? acc_owner a) && (l <? acc_lamports a) = false) as ->.
    { apply andb_false_iff. destruct Ho as [->|]; [left; by rewrite Z.eqb_refl|right; apply Z.ltb_ge; lia]. }
    simpl. destruct (Z.eqb_spec (acc_lamports a) l); [by rewrite Hid|].
    unfold add_lamports_delta. rewrite Hc, checked_in by naive_solver. done.
Qed.

Lemma set_owner_iff o ta' :
  set_owner program ia o ta = Ok ta' <->
  program = acc_owner a /\ ia_is_writable ia = true /\ is_zeroed (acc_data a) = true /\
  ta' = mkTA (<[ia_key ia := set_acc_owner o a]> (ta_accounts ta)) (ta_resize_delta ta) (ta_lamports_delta ta).
Proof.
  unfold set_owner, is_owned_by_current_program, get_owner, get_data. rewrite get_account_in.
  assert (Hid : acc_owner a = o -> mkTA (<[ia_key ia := set_acc_owner o a]> (ta_accounts ta))
    (ta_resize_delta ta) (ta_lamports_delta ta) = ta).
  { intros <-. unfold set_acc_owner. destruct ta, a; simpl in *. by rewrite insert_id. }
  split.
  - intros H. rinv. case_match; rinv; bool_to_prop; [rewrite Hid by done|]; done.
  - intros (Hp & -> & -> & ->). rewrite Hp, Z.eqb_refl. simpl.
    destruct (Z.eqb_spec (acc_owner a) o); [by rewrite Hid|done].
Qed.

(** Growing the data of an empty account, the case [allocate] needs. *)
Lemma set_data_length_empty_iff n ta' :
  acc_data a = [] -> 0 <= n -> is_i64 (ta_resize_delta ta) ->
  set_data_length program ia n ta = Ok ta' <->
  program = acc_owner a /\ ia_is_writable ia = true /\
  n <= MAX_ACCOUNT_DATA_LEN /\ ta_resize_delta ta + n <= MAX_ACCOUNT_DATA_GROWTH_PER_TRANSACTION /\
  ta' = mkTA (<[ia_key ia := set_acc_data (replicate (Z.to_nat n) Byte.x00) a]> (ta_accounts ta))
             (ta_resize_delta ta + n) (ta_lamports_delta ta).
Proof.
  intros He Hn Hrd. unfold set_data_length, can_data_be_resized, ta_can_data_be_resized,
    can_data_be_changed, is_owned_by_current_program, get_owner, get_data.
  rewrite get_account_in, He. change (zlen []) with 0.
  assert (Hcl : n <= MAX_ACCOUNT_DATA_LEN -> i64_saturating_sub n 0 = n).
  { unfold MAX_ACCOUNT_DATA_LEN. intros. rewrite Z.sub_0_r. apply clamp_in. ilia. }
  assert (Hcd : n <= MAX_ACCOUNT_DATA_LEN ->
    clamp I64_MIN I64_MAX (ta_resize_delta ta + n) <= MAX_ACCOUNT_DATA_GROWTH_PER_TRANSACTION <->
    ta_resize_delta ta + n <= MAX_ACCOUNT_DATA_GROWTH_PER_TRANSACTION).
  { unfold clamp, MAX_ACCOUNT_DATA_GROWTH_PER_TRANSACTION, MAX_ACCOUNT_DATA_LEN. ilia. }
  assert (Hid : n = 0 -> mkTA (<[ia_key ia := set_acc_data (replicate (Z.to_nat n) Byte.x00) a]> (ta_accounts ta))
    (ta_resize_delta ta + n) (ta_lamports_delta ta) = ta).
  { intros ->. unfold set_acc_data. destruct ta, a; simpl in *. subst.
    rewrite insert_id by done. f_equal; lia. }
  assert (Hex : n <= MAX_ACCOUNT_DATA_LEN -> ta_resize_delta ta + n <= MAX_ACCOUNT_DATA_GROWTH_PER_TRANSACTION ->
    with_data ia (update_accounts_resize_delta ta 0 n) (resize_data (Z.to_nat n) []) =
    mkTA (<[ia_key ia := set_acc_data (replicate (Z.to_nat n) Byte.x00) a]> (ta_accounts ta))
      (ta_resize_delta ta + n) (ta_lamports_delta ta)).
  { intros H1 H2. unfold with_data, update_accounts_resize_delta, put_account, get_account, get_acc; simpl.
    rewrite Hin, Hcl by done. simpl. unfold resize_data. rewrite take_nil, Nat.sub_0_r. simpl.
    f_equal. apply clamp_in. unfold MAX_ACCOUNT_DATA_GROWTH_PER_TRANSACTION, MAX_ACCOUNT_DATA_LEN in *. ilia. }
  split.
  - intros H. rinv. bool_to_prop. rewrite Hcl in * by done.
    match goal with Hd : i64_saturating_add _ _ <= _ |- _ => apply Hcd in Hd; [|done] end.
    case_match; rinv; bool_to_prop; [rewrite Hid by lia|rewrite Hex by done]; done.
  - intros (Hp & -> & H1 & H2 & ->). rewrite Hp, Z.eqb_refl, andb_false_r. simpl.
    rewrite (proj2 (Z.ltb_ge _ _)) by lia. simpl. rewrite Hcl by done.
    rewrite (proj2 (Z.ltb_ge _ _)) by (by apply Hcd). simpl.
    destruct (Z.eqb_spec 0 n); [rewrite Hid by lia|rewrite Hex by done]; done.
Qed.
End Exact.

(** ** Pointwise effect of the operations *)

Definition upd_acc (k : Pubkey) (f : Account -> Account) (m m' : gmap Pubkey Account) : Prop :=
  forall j, get_acc m' j = if decide (j = k) then f (get_acc m j) else get_acc m j.

Section Pointwise.
Context (program : Pubkey) (ia : InstructionAccount).

Lemma upd_acc_put (f : Account -> Account) m :
  upd_acc (ia_key ia) f m (<[ia_key ia := f (get_acc m (ia_key ia))]> m).
Proof. intros j. rewrite get_acc_insert. repeat case_decide; congruence. Qed.

Lemma upd_acc_id k (f : Account -> Account) m : f (get_acc m k) = get_acc m k -> upd_acc k f m m.
Proof. intros H j. case_decide; congruence. Qed.

Lemma set_lamports_upd l ta ta' :
  set_lamports program ia l ta = Ok ta' -> upd_acc (ia_key ia) (set_acc_lamports l) (ta_accounts ta) (ta_accounts ta').
Proof.
  intros H. unfold set_lamports in H. rinv. case_match; rinv; bool_to_prop.
  - apply upd_acc_id. unfold set_acc_lamports. subst. unfold get_lamports, get_account. by destruct (get_acc _ _).
  - unfold add_lamports_delta in *. rinv. apply (upd_acc_put (set_acc_lamports l)).
Qed.

Lemma set_data_from_slice_upd d ta ta' :
  set_data_from_slice program ia d ta = Ok ta' -> upd_acc (ia_key ia) (set_acc_data d) (ta_accounts ta) (ta_accounts ta').
Proof. intros H. unfold set_data_from_slice in H. rinv. apply (upd_acc_put (set_acc_data d)). Qed.

Lemma set_owner_upd o ta ta' :
  set_owner program ia o ta = Ok ta' -> upd_acc (ia_key ia) (set_acc_owner o) (ta_accounts ta) (ta_accounts ta').
Proof.
  intros H. unfold set_owner in H. rinv. case_match; rinv; bool_to_prop.
  - apply upd_acc_id. unfold set_acc_owner. subst. unfold get_owner, get_account. by destruct (get_acc _ _).
  - apply (upd_acc_put (set_acc_owner o)).
Qed.
End Pointwise.
