(* ===== verification/System.v ===== *)
(** * System: the system program

    Models [src/validator/programs/system/src/system_processor.rs]: account
    creation, allocation, assignment and lamport transfers.  The nonce
    instructions are not modelled. *)

From Stdlib Require Import Strings.Byte.
From S2P Require Import Prelude Borsh Accounts.
Open Scope Z_scope.

Module SystemError.
Definition AccountAlreadyInUse : InstructionError := Custom 0.
Definition ResultWithNegativeLamports : InstructionError := Custom 1.
Definition InvalidAccountDataLength : InstructionError := Custom 3.
Definition AddressWithSeedMismatch : InstructionError := Custom 5.
End SystemError.

Definition MAX_PERMITTED_DATA_LENGTH : Z := 10 * 1024 * 1024.

Inductive SystemInstruction :=
| CreateAccount (lamports space : Z) (owner : Pubkey)
| Assign (owner : Pubkey)
| Transfer (lamports : Z)
| CreateAccountWithSeed (base : Pubkey) (seed : list byte) (lamports space : Z) (owner : Pubkey)
| Allocate (space : Z)
| AllocateWithSeed (base : Pubkey) (seed : list byte) (space : Z) (owner : Pubkey)
| AssignWithSeed (base : Pubkey) (seed : list byte) (owner : Pubkey)
| TransferWithSeed (lamports : Z) (from_seed : list byte) (from_owner : Pubkey).

Record Address := mkAddress { address : Pubkey; base : option Pubkey }.

(** The keys of the signer accounts, [InstructionContext::get_signers]. *)
Definition get_signers (ias : list InstructionAccount) : list Pubkey :=
  ia_key <$> filter (fun ia => ia_is_signer ia = true) ias.

Definition contains (l : list Pubkey) (k : Pubkey) : bool := existsb (Z.eqb k) l.

Definition Address_is_signer (a : Address) (signers : list Pubkey) : bool :=
  match base a with
  | Some b => contains signers b
  | None => contains signers (address a)
  end.

Definition nth_account (ias : list InstructionAccount) (i : nat) : result InstructionError InstructionAccount :=
  ok_or (ias !! i) MissingAccount.

Definition check_number_of_instruction_accounts (ias : list InstructionAccount) (n : nat) : result InstructionError unit :=
  err_if (length ias <? n)%nat MissingAccount.

Section Processor.
(** [Pubkey::create_with_seed] hashes the base, the seed and the owner; its
    error is converted to the error code of the same number. *)
Variable create_with_seed : Pubkey -> list byte -> Pubkey -> result Z Pubkey.
Variable ias : list InstructionAccount.

Definition Address_create (addr : Pubkey) (with_seed : option (Pubkey * list byte * Pubkey)) : result InstructionError Address :=
  match with_seed with
  | Some (base, seed, owner) =>
      (let? address_with_seed := map_err Custom (create_with_seed base seed owner) in
       err_if (negb (addr =? address_with_seed)) SystemError.AddressWithSeedMismatch ?>
       Ok (mkAddress addr (Some base)))%result
  | None => Ok (mkAddress addr None)
  end.

Definition allocate (account : InstructionAccount) (addr : Address) (space : Z) (signers : list Pubkey)
    (ta : TransactionAccounts) : result InstructionError TransactionAccounts :=
  (err_if (negb (Address_is_signer addr signers)) MissingRequiredSignature ?>
   err_if (negb (zlen (get_data account ta) =? 0) || negb (get_owner account ta =? system_program_id))
     SystemError.AccountAlreadyInUse ?>
   err_if (MAX_PERMITTED_DATA_LENGTH <? space) SystemError.InvalidAccountDataLength ?>
   set_data_length system_program_id account space ta)%result.

Definition assign (account : InstructionAccount) (addr : Address) (owner : Pubkey) (signers : list Pubkey)
    (ta : TransactionAccounts) : result InstructionError TransactionAccounts :=
  if get_owner account ta =? owner then Ok ta else
  (err_if (negb (Address_is_signer addr signers)) MissingRequiredSignature ?>
   set_owner system_program_id account owner ta)%result.

Definition allocate_and_assign (to : InstructionAccount) (to_address : Address) (space : Z) (owner : Pubkey)
    (signers : list Pubkey) (ta : TransactionAccounts) : result InstructionError TransactionAccounts :=
  (let? ta1 := allocate to to_address space signers ta in
   assign to to_address owner signers ta1)%result.

Definition transfer_verified (from_index to_index : nat) (lamports : Z)
    (ta : TransactionAccounts) : result InstructionError TransactionAccounts :=
  (let? from := nth_account ias from_index in
   err_if (negb (zlen (get_data from ta) =? 0)) InvalidArgument ?>
   err_if (get_lamports from ta <? lamports) SystemError.ResultWithNegativeLamports ?>
   let? ta1 := checked_sub_lamports system_program_id from lamports ta in
   let? to := nth_account ias to_index in
   checked_add_lamports system_program_id to lamports ta1)%result.

Definition transfer (from_index to_index : nat) (lamports : Z)
    (ta : TransactionAccounts) : result InstructionError TransactionAccounts :=
  (let? from := nth_account ias from_index in
   err_if (negb (ia_is_signer from)) MissingRequiredSignature ?>
   transfer_verified from_index to_index lamports ta)%result.

Definition transfer_with_seed (from_index from_base_index : nat) (from_seed : list byte) (from_owner : Pubkey)
    (to_index : nat) (lamports : Z) (ta : TransactionAccounts) : result InstructionError TransactionAccounts :=
  (let? from_base := nth_account ias from_base_index in
   err_if (negb (ia_is_signer from_base)) MissingRequiredSignature ?>
   let? address_from_seed := map_err Custom (create_with_seed (ia_key from_base) from_seed from_owner) in
   let? from := nth_account ias from_index in
   err_if (negb (ia_key from =? address_from_seed)) SystemError.AddressWithSeedMismatch ?>
   transfer_verified from_index to_index lamports ta)%result.

Definition create_account (from_index to_index : nat) (to_address : Address) (lamports space : Z) (owner : Pubkey)
    (signers : list Pubkey) (ta : TransactionAccounts) : result InstructionError TransactionAccounts :=
  (let? to := nth_account ias to_index in
   err_if (0 <? get_lamports to ta) SystemError.AccountAlreadyInUse ?>
   let? ta1 := allocate_and_assign to to_address space owner signers ta in
   transfer from_index to_index lamports ta1)%result.

(** The entry point, after the instruction data has been decoded. *)
Definition system_process (instruction : SystemInstruction) (ta : TransactionAccounts)
    : result InstructionError TransactionAccounts :=
  let signers := get_signers ias in
  match instruction with
  | CreateAccount lamports space owner =>
      (check_number_of_instruction_accounts ias 2 ?>
       let? ia := nth_account ias 1 in
       let? to_address := Address_create (ia_key ia) None in
       create_account 0 1 to_address lamports space owner signers ta)%result
  | CreateAccountWithSeed base seed lamports space owner =>
      (check_number_of_instruction_accounts ias 2 ?>
       let? ia := nth_account ias 1 in
       let? to_address := Address_create (ia_key ia) (Some (base, seed, owner)) in
       create_account 0 1 to_address lamports space owner signers ta)%result
  | Assign owner =>
      (check_number_of_instruction_accounts ias 1 ?>
       let? account := nth_account ias 0 in
       let? addr := Address_create (ia_key account) None in
       assign account addr owner signers ta)%result
  | Transfer lamports =>
      (check_number_of_instruction_accounts ias 2 ?>
       transfer 0 1 lamports ta)%result
  | TransferWithSeed lamports from_seed from_owner =>
      (check_number_of_instruction_accounts ias 3 ?>
       transfer_with_seed 0 1 from_seed from_owner 2 lamports ta)%result
  | Allocate space =>
      (check_number_of_instruction_accounts ias 1 ?>
       let? account := nth_account ias 0 in
       let? addr := Address_create (ia_key account) None in
       allocate account addr space signers ta)%result
  | AllocateWithSeed base seed space owner =>
      (check_number_of_instruction_accounts ias 1 ?>
       let? account := nth_account ias 0 in
       let? addr := Address_create (ia_key account) (Some (base, seed, owner)) in
       allocate_and_assign account addr space owner signers ta)%result
  | AssignWithSeed base seed owner =>
      (check_number_of_instruction_accounts ias 1 ?>
       let? account := nth_account ias 0 in
       let? addr := Address_create (ia_key account) (Some (base, seed, owner)) in
       assign account addr owner signers ta)%result
  end.
End Processor.

(** ** The system program respects the account access rules *)

Ltac use_allowed :=
  match goal with
  | H : allowed _ _ ?a ?b |- allowed _ _ ?a ?c => transitivity b; [exact H|]
  end.

Lemma contains_elem l k : contains l k = true <-> k ∈ l.
Proof.
  unfold contains. rewrite existsb_exists. setoid_rewrite <- list_elem_of_In. setoid_rewrite Z.eqb_eq.
  naive_solver.
Qed.

Section SystemLemmas.
Context (cws : Pubkey -> list byte -> Pubkey -> result Z Pubkey) (ias : list InstructionAccount).

Lemma nth_account_elem i ia : nth_account ias i = Ok ia -> ia ∈ ias.
Proof. intros H. apply ok_or_ok in H. by eapply list_elem_of_lookup_2. Qed.

Lemma allocate_allowed ia addr space signers ta ta' :
  ia ∈ ias -> allocate ia addr space signers ta = Ok ta' -> allowed system_program_id ias ta ta'.
Proof. intros Hia H. unfold allocate in H. rinv. eauto with prism. Qed.

Lemma assign_allowed ia addr owner signers ta ta' :
  ia ∈ ias -> assign ia addr owner signers ta = Ok ta' -> allowed system_program_id ias ta ta'.
Proof. intros Hia H. unfold assign in H. case_match; rinv; eauto with prism. Qed.

Lemma allocate_and_assign_allowed ia addr space owner signers ta ta' :
  ia ∈ ias -> allocate_and_assign ia addr space owner signers ta = Ok ta' ->
  allowed system_program_id ias ta ta'.
Proof.
  intros Hia H. unfold allocate_and_assign in H. rinv.
  etransitivity; [by eapply allocate_allowed|by eapply assign_allowed].
Qed.

Lemma transfer_verified_allowed i j l ta ta' :
  lamports_ok (ta_accounts ta) ->
  transfer_verified ias i j l ta = Ok ta' -> allowed system_program_id ias ta ta'.
Proof.
  intros Hok H. unfold transfer_verified in H. rinv.
  match goal with Hs : checked_sub_lamports _ _ _ _ = Ok _ |- _ =>
    eapply (checked_sub_lamports_spec _ ias) in Hs as A1; [|by eapply nth_account_elem|done] end.
  etransitivity; [exact A1|].
  eapply checked_add_lamports_spec; [by eapply nth_account_elem|by eapply allowed_range|done].
Qed.

Lemma transfer_allowed i j l ta ta' :
  lamports_ok (ta_accounts ta) -> transfer ias i j l ta = Ok ta' -> allowed system_program_id ias ta ta'.
Proof. intros Hok H. unfold transfer in H. rinv. by eapply transfer_verified_allowed. Qed.

Lemma create_account_allowed i j addr l space owner signers ta ta' :
  lamports_ok (ta_accounts ta) ->
  create_account ias i j addr l space owner signers ta = Ok ta' -> allowed system_program_id ias ta ta'.
Proof.
  intros Hok H. unfold create_account in H. rinv.
  match goal with Hs : allocate_and_assign _ _ _ _ _ _ = Ok _ |- _ =>
    eapply allocate_and_assign_allowed in Hs as A1; [|by eapply nth_account_elem] end.
  etransitivity; [exact A1|]. eapply transfer_allowed; [by eapply allowed_range|done].
Qed.

(** Every system instruction stays within the rights of the system program:
    accounts of other programs keep their data and owner and are not debited,
    read-only accounts do not change, and lamports are only moved. *)
Lemma system_process_allowed ix ta ta' :
  lamports_ok (ta_accounts ta) ->
  system_process cws ias ix ta = Ok ta' -> allowed system_program_id ias ta ta'.
Proof.
  intros Hok H. destruct ix; simpl in H; rinv;
    eauto using create_account_allowed, assign_allowed, transfer_allowed, allocate_allowed,
      allocate_and_assign_allowed, nth_account_elem.
  unfold transfer_with_seed in H. rinv. by eapply transfer_verified_allowed.
Qed.
End SystemLemmas.

(** ** Exact effect of [Transfer] between two accounts *)

Lemma transfer_iff from to rest ta af at_ l ta' :
  ta_accounts ta !! ia_key from = Some af -> ta_accounts ta !! ia_key to = Some at_ ->
  ia_key from <> ia_key to -> is_u64 (acc_lamports af) -> is_u64 (acc_lamports at_) ->
  ta_lamports_delta ta = 0 -> is_u64 l ->
  transfer (from :: to :: rest) 0 1 l ta = Ok ta' <->
  (ia_is_signer from = true /\ acc_data af = [] /\ l <= acc_lamports af /\
   (l = 0 \/ acc_owner af = system_program_id) /\ ia_is_writable from = true /\
   ia_is_writable to = true /\ acc_lamports at_ + l <= U64_MAX) /\
  ta' = mkTA (<[ia_key to := set_acc_lamports (acc_lamports at_ + l) at_]>
              (<[ia_key from := set_acc_lamports (acc_lamports af - l) af]> (ta_accounts ta)))
             (ta_resize_delta ta) 0.
Proof.
  intros Hf Ht Hne Haf Hat Hd Hl.
  unfold transfer, transfer_verified, nth_account, checked_sub_lamports, checked_add_lamports,
    get_lamports, get_data; simpl.
  rewrite (get_account_in _ _ _ Hf).
  assert (Hnil : acc_data af = [] <-> zlen (acc_data af) = 0).
  { unfold zlen. destruct (acc_data af); simpl; split; (done || lia). }
  set (ta1 := mkTA (<[ia_key from := set_acc_lamports (acc_lamports af - l) af]> (ta_accounts ta))
                   (ta_resize_delta ta) (ta_lamports_delta ta + (acc_lamports af - l - acc_lamports af))).
  assert (Ht1 : ta_accounts ta1 !! ia_key to = Some at_) by (simpl; by rewrite lookup_insert_ne).
  assert (Hend : forall d, d = 0 -> mkTA (<[ia_key to := set_acc_lamports (acc_lamports at_ + l) at_]> (ta_accounts ta1))
    (ta_resize_delta ta1) d = mkTA (<[ia_key to := set_acc_lamports (acc_lamports at_ + l) at_]>
      (<[ia_key from := set_acc_lamports (acc_lamports af - l) af]> (ta_accounts ta))) (ta_resize_delta ta) 0).
  { by intros d ->. }
  split.
  - intros H1. rinv. bool_to_prop. hyp (zlen _ = 0) as Hz. apply Hnil in Hz.
    hyp (set_lamports _ from _ _ = Ok _) as Hs.
    eapply set_lamports_iff in Hs; [|done|ilia|done]. destruct Hs as (Ho & Hwf & Hdl & ->).
    hyp (is_u64 (acc_lamports (get_account to _) + l)) as Hu.
    change (mkTA _ _ _) with ta1 in H1, Hu. rewrite (get_account_in _ _ _ Ht1) in H1, Hu.
    eapply set_lamports_iff in H1; [|done|ilia|done]. destruct H1 as (_ & Hwt & _ & ->).
    split; [|apply Hend; simpl; lia]. split_and!; try done; [destruct Ho; [by right|left; ilia]|ilia].
  - intros [(-> & He & Hle & Ho & Hwf & Hwt & Hmax) ->]. rewrite (proj1 Hnil He). simpl.
    rewrite (proj2 (Z.ltb_ge _ _)) by lia. simpl. rewrite checked_in by ilia. simpl.
    assert (set_lamports system_program_id from (acc_lamports af - l) ta = Ok ta1) as ->.
    { apply (set_lamports_iff _ _ _ _ Hf); [ilia|done|].
      split_and!; [destruct Ho; [right; lia|by left]|done| |done]. right. rewrite Hd. ilia. }
    simpl. rewrite (get_account_in _ _ _ Ht1), checked_in by ilia. simpl.
    apply (set_lamports_iff _ _ _ _ Ht1); [ilia|done|].
    split_and!; [right; ilia|done| |symmetry; apply Hend; simpl; lia].
    right. simpl. rewrite Hd. ilia.
Qed.

(** ** Exact effect of [CreateAccount] *)

Section CreateAccount.
Context (cws : Pubkey -> list byte -> Pubkey -> result Z Pubkey).
Context (from to : InstructionAccount) (rest : list InstructionAccount).
Context (ta : TransactionAccounts) (af at_ : Account).
Context (Hfrom : ta_accounts ta !! ia_key from = Some af).
Context (Hto : ta_accounts ta !! ia_key to = Some at_).
Context (Hne : ia_key from <> ia_key to).
Context (Haf : is_u64 (acc_lamports af)) (Hat : is_u64 (acc_lamports at_)).
Context (Hrd : is_i64 (ta_resize_delta ta)).

(** The accounts after the creation. *)
Definition account_created (lamports space : Z) (owner : Pubkey) : TransactionAccounts :=
  mkTA (<[ia_key to := mkAccount lamports (replicate (Z.to_nat space) Byte.x00) owner (acc_executable at_)]>
        (<[ia_key from := set_acc_lamports (acc_lamports af - lamports) af]> (ta_accounts ta)))
       (ta_resize_delta ta + space) (ta_lamports_delta ta).

Record create_account_guard (lamports space : Z) : Prop := {
  cag_to_unfunded : acc_lamports at_ = 0;
  cag_to_empty : acc_data at_ = [];
  cag_to_system : acc_owner at_ = system_program_id;
  cag_to_signer : contains (get_signers (from :: to :: rest)) (ia_key to) = true;
  cag_to_writable : ia_is_writable to = true;
  cag_from_signer : ia_is_signer from = true;
  cag_from_writable : ia_is_writable from = true;
  cag_from_empty : acc_data af = [];
  cag_from_system : lamports = 0 \/ acc_owner af = system_program_id;
  cag_funds : lamports <= acc_lamports af;
  cag_space : space <= MAX_PERMITTED_DATA_LENGTH;
  cag_growth : ta_resize_delta ta + space <= MAX_ACCOUNT_DATA_GROWTH_PER_TRANSACTION;
}.

Lemma is_zeroed_replicate n : is_zeroed (replicate n Byte.x00) = true.
Proof. induction n; [done|]. simpl. done. Qed.

(** Allocation and assignment of an unused account. *)
Lemma allocate_and_assign_iff signers space owner ta' :
  acc_lamports at_ = 0 -> 0 <= space ->
  allocate_and_assign to (mkAddress (ia_key to) None) space owner signers ta = Ok ta' <->
  (contains signers (ia_key to) = true /\ acc_data at_ = [] /\ acc_owner at_ = system_program_id /\
   ia_is_writable to = true /\ space <= MAX_PERMITTED_DATA_LENGTH /\
   ta_resize_delta ta + space <= MAX_ACCOUNT_DATA_GROWTH_PER_TRANSACTION) /\
  ta' = mkTA (<[ia_key to := mkAccount 0 (replicate (Z.to_nat space) Byte.x00) owner (acc_executable at_)]> (ta_accounts ta))
             (ta_resize_delta ta + space) (ta_lamports_delta ta).
Proof.
  intros H0 Hsp. unfold allocate_and_assign, allocate, assign, Address_is_signer; simpl.
  unfold get_owner, get_data. rewrite (get_account_in _ _ _ Hto).
  set (ta1 := mkTA (<[ia_key to := set_acc_data (replicate (Z.to_nat space) Byte.x00) at_]> (ta_accounts ta))
                   (ta_resize_delta ta + space) (ta_lamports_delta ta)).
  assert (Hin1 : ta_accounts ta1 !! ia_key to = Some (set_acc_data (replicate (Z.to_nat space) Byte.x00) at_))
    by (simpl; by rewrite lookup_insert_eq).
  assert (Hput : forall o, <[ia_key to := set_acc_owner o (set_acc_data (replicate (Z.to_nat space) Byte.x00) at_)]> (ta_accounts ta1)
    = <[ia_key to := mkAccount 0 (replicate (Z.to_nat space) Byte.x00) o (acc_executable at_)]> (ta_accounts ta)).
  { intros o. simpl. rewrite insert_insert_eq. unfold set_acc_owner, set_acc_data; simpl. by rewrite H0. }
  assert (Hnil : acc_data at_ = [] <-> zlen (acc_data at_) = 0).
  { unfold zlen. destruct (acc_data at_); simpl; split; (done || lia). }
  split.
  - intros H1. rinv. bool_to_prop. hyp (zlen _ = 0) as Hz. apply Hnil in Hz.
    hyp (set_data_length _ _ _ _ = Ok _) as Hs.
    eapply set_data_length_empty_iff in Hs; [|done..]. destruct Hs as (? & ? & ? & ? & ->).
    change (mkTA _ _ _) with ta1 in H1. rewrite (get_account_in _ _ _ Hin1) in H1.
    assert (ta' = mkTA (<[ia_key to := set_acc_owner owner (set_acc_data (replicate (Z.to_nat space) Byte.x00) at_)]> (ta_accounts ta1))
      (ta_resize_delta ta1) (ta_lamports_delta ta1)) as ->.
    { case_match eqn:E; rinv; bool_to_prop.
      - unfold set_acc_owner. simpl in E. rewrite <- E. simpl. rewrite insert_insert_eq. done.
      - eapply set_owner_iff in H1; [|done]. naive_solver. }
    split; [done|]. f_equal. apply Hput.
  - intros [(Hs & Hd & Ho & Hw & Hm & Hg) ->]. rewrite Hs, Hd, Ho. simpl.
    rewrite (proj2 (Z.ltb_ge _ _)) by lia. simpl.
    assert (set_data_length system_program_id to space ta = Ok ta1) as ->.
    { apply (set_data_length_empty_iff _ _ _ _ Hto); [done..|]. by rewrite Ho. }
    simpl. rewrite (get_account_in _ _ _ Hin1). simpl. rewrite Ho.
    destruct (Z.eqb_spec system_program_id owner) as [<-|Hno].
    + rewrite <- Hput. unfold set_acc_owner. simpl. rewrite insert_insert_eq.
      unfold ta1, set_acc_data. simpl. by rewrite Ho.
    + apply (set_owner_iff _ _ _ _ Hin1). rewrite <- Hput.
      split_and!; [done|done| |done]. simpl. apply is_zeroed_replicate.
Qed.

(** [CreateAccount] succeeds exactly when the new account is unused, signs and
    is writable, and the payer is a data-less system account that signs, is
    writable and holds the lamports; the new account then has the requested
    size (zeroed), owner and balance, and nothing else changes. *)
Lemma create_account_iff lamports space owner ta' :
  ta_lamports_delta ta = 0 -> is_u64 lamports -> 0 <= space ->
  system_process cws (from :: to :: rest) (CreateAccount lamports space owner) ta = Ok ta' <->
  create_account_guard lamports space /\ ta' = account_created lamports space owner.
Proof.
  intros Hd Hl Hsp. simpl. unfold create_account; simpl. unfold get_lamports.
  rewrite (get_account_in _ _ _ Hto).
  set (ta1 := mkTA (<[ia_key to := mkAccount 0 (replicate (Z.to_nat space) Byte.x00) owner (acc_executable at_)]> (ta_accounts ta))
             (ta_resize_delta ta + space) (ta_lamports_delta ta)).
  assert (Hf1 : ta_accounts ta1 !! ia_key from = Some af) by (simpl; by rewrite lookup_insert_ne).
  assert (Ht1 : ta_accounts ta1 !! ia_key to = Some (mkAccount 0 (replicate (Z.to_nat space) Byte.x00) owner (acc_executable at_)))
    by (simpl; by rewrite lookup_insert_eq).
  assert (Hend : mkTA (<[ia_key to := set_acc_lamports (0 + lamports) (mkAccount 0 (replicate (Z.to_nat space) Byte.x00) owner (acc_executable at_))]>
      (<[ia_key from := set_acc_lamports (acc_lamports af - lamports) af]> (ta_accounts ta1)))
      (ta_resize_delta ta1) 0 = account_created lamports space owner).
  { unfold account_created, set_acc_lamports; simpl. rewrite Z.add_0_l, Hd. f_equal.
    rewrite (insert_insert_ne _ (ia_key from)) by done. by rewrite insert_insert_eq. }
  pose proof (transfer_iff from to rest ta1 af _ lamports ta' Hf1 Ht1 Hne Haf) as Htr.
  cbn [acc_lamports] in Htr. rewrite Hend in Htr. split.
  - intros H. rinv. bool_to_prop.
    hyp (allocate_and_assign _ _ _ _ _ _ = Ok _) as Ha.
    apply allocate_and_assign_iff in Ha as [(? & ? & ? & ? & ? & ?) ->]; [|ilia..].
    change (mkTA _ _ _) with ta1 in H. apply Htr in H as [(? & ? & ? & ? & ? & ? & ?) ->]; [|done..].
    split; [|done]. split; auto; ilia.
  - intros [[H1 H2 H3 H4 H5 H6 H7 H8 H9 H10 H11 H12] ->]. rewrite H1. simpl.
    assert (allocate_and_assign to (mkAddress (ia_key to) None) space owner
      (get_signers (from :: to :: rest)) ta = Ok ta1) as ->.
    { apply allocate_and_assign_iff; done. }
    simpl. apply Htr; try done. split_and!; try done. ilia.
Qed.
End CreateAccount.
