(* ===== verification/Invoke.v ===== *)
(** * Invoke: running an on-chain program

    Models how the validator runs a program and its cross-program invocations
    ([src/validator/program-runtime]): the privilege check of a CPI
    ([prepare_next_cpi_instruction]), the exchange of account changes between
    the memory of the program and the transaction ([translate_accounts_common],
    [update_callee_account], [update_caller_account],
    [deserialize_parameters_for_abiv1]), reentrancy, and the balance check of an
    instruction.  The feature gates [syscall_parameter_address_restrictions],
    [virtual_address_space_adjustments] and [account_data_direct_mapping] are
    taken as inactive; compute metering, the depth of the stack and the length
    of the trace are not modelled.

    The file also defines the state monad [M] the on-chain programs are
    written in: the program works on its own copy of the accounts ([mem]), and
    the transaction ([rt]) only sees the changes at a CPI and at the end. *)

From Stdlib Require Import Strings.Byte.
From S2P Require Import Prelude Borsh Accounts System.
Open Scope Z_scope.

(** ** The environment of a program

    What the programs use of crates that are not part of the repository, and
    the programs they may call other than the system program. *)

Class Env := {
  find_program_address : list (list byte) -> Pubkey -> Pubkey * Z;
  create_program_address : list (list byte) -> Pubkey -> option Pubkey;
  create_with_seed : Pubkey -> list byte -> Pubkey -> result Z Pubkey;
  sha256 : list byte -> list byte;
  minimum_balance : Z -> Z;
  clock_id : Pubkey;
  rent_id : Pubkey;
  system_instruction_encode : SystemInstruction -> list byte;
  system_instruction_decode : list byte -> option SystemInstruction;
  cpi_not_supported : Pubkey -> list byte -> bool;
  exec_program : Pubkey -> list InstructionAccount -> list byte -> TransactionAccounts ->
    result InstructionError TransactionAccounts;
}.

(** Documented behaviour of those crates. *)
Class EnvLaws {E : Env} : Prop := {
  decode_create_account lamports space owner :
    is_u64 lamports -> is_u64 space -> is_pubkey owner ->
    system_instruction_decode (system_instruction_encode (CreateAccount lamports space owner)) =
    Some (CreateAccount lamports space owner);
  decode_transfer lamports : is_u64 lamports ->
    system_instruction_decode (system_instruction_encode (Transfer lamports)) = Some (Transfer lamports);
  find_create seeds program_id pda bump :
    find_program_address seeds program_id = (pda, bump) ->
    is_u8 bump /\ create_program_address (seeds ++ [[byte_of_Z bump]]) program_id = Some pda;
  system_supported data : cpi_not_supported system_program_id data = false;
  minimum_balance_u64 space : is_u64 (minimum_balance space);
}.

(** [Pubkey::as_ref]. *)
Definition key_bytes (k : Pubkey) : list byte := rev (le_bytes 32 k).

Record Clock := mkClock {
  clk_slot : Z;
  clk_epoch_start_timestamp : Z;
  clk_epoch : Z;
  clk_leader_schedule_epoch : Z;
  unix_timestamp : Z;
}.

Record Instruction := mkInstruction {
  ix_program_id : Pubkey;
  ix_accounts : list InstructionAccount;
  ix_data : list byte;
}.

(** What the program gets to see of an instruction account. *)
Abbreviation AccountInfo := InstructionAccount.

(** The instruction a program runs: its id, its accounts, the programs that
    called it, the clock sysvar and the data lengths at entry. *)
Record Ctx := mkCtx {
  cx_program_id : Pubkey;
  cx_accounts : list AccountInfo;
  cx_callers : list Pubkey;
  cx_clock : Clock;
  cx_original_len : Pubkey -> Z;
}.

Definition MAX_PERMITTED_DATA_INCREASE : Z := 1024 * 10.

(** ** Privileges of a cross-program invocation *)

Definition find_account (ias : list InstructionAccount) (k : Pubkey) : option (nat * InstructionAccount) :=
  list_find (fun ia => ia_key ia = k) ias.
#[global] Arguments find_account : simpl never.

Definition or_flags (ia ib : InstructionAccount) : InstructionAccount :=
  mkIA (ia_key ia) (ia_is_signer ia || ia_is_signer ib) (ia_is_writable ia || ia_is_writable ib).

(** First loop: the flags of repeated accounts are collected at the first
    occurrence. *)
Definition merge_meta (ta : TransactionAccounts) (ias : list InstructionAccount) (meta : InstructionAccount)
    : result InstructionError (list InstructionAccount) :=
  match ta_accounts ta !! ia_key meta with
  | None => Err MissingAccount
  | Some _ =>
      match find_account ias (ia_key meta) with
      | Some (i, ia) => let ia' := or_flags ia meta in Ok (<[i := ia']> ias ++ [ia'])
      | None => Ok (ias ++ [meta])
      end
  end.

Definition check_privileges (caller : list InstructionAccount) (signers : list Pubkey) (ia : InstructionAccount)
    : result InstructionError unit :=
  (let? '(_, caller_account) := ok_or (find_account caller (ia_key ia)) MissingAccount in
   err_if (ia_is_writable ia && negb (ia_is_writable caller_account)) PrivilegeEscalation ?>
   err_if (ia_is_signer ia && negb (ia_is_signer caller_account || contains signers (ia_key ia)))
     PrivilegeEscalation)%result.

(** Second loop: a repeated account takes the flags of its first occurrence,
    a first occurrence is checked against the caller. *)
Fixpoint check_loop (caller : list InstructionAccount) (signers : list Pubkey) (all : list InstructionAccount)
    (current_index : nat) (l : list InstructionAccount) : result InstructionError (list InstructionAccount) :=
  match l with
  | [] => Ok []
  | ia :: l =>
      (let? '(index_in_callee, reference) := ok_or (find_account all (ia_key ia)) MissingAccount in
       if (current_index =? index_in_callee)%nat then
         check_privileges caller signers ia ?>
         let? rest := check_loop caller signers all (S current_index) l in Ok (ia :: rest)
       else
         let? rest := check_loop caller signers all (S current_index) l in Ok (or_flags ia reference :: rest))%result
  end.

Definition prepare_next_cpi_instruction (caller : list InstructionAccount) (instruction : Instruction)
    (signers : list Pubkey) (ta : TransactionAccounts) : result InstructionError (list InstructionAccount) :=
  (let? ias := foldM (merge_meta ta) [] (ix_accounts instruction) in
   let? ias' := check_loop caller signers ias 0 ias in
   let? _ := ok_or (find_account caller (ix_program_id instruction)) MissingAccount in
   Ok ias')%result.

(** ** Exchange of account changes *)

(** Lamports, data and owner of an account in the memory of the program are
    each written only if they differ from what the transaction has. *)
Definition write_back_lamports (program : Pubkey) (ia : InstructionAccount) (l : Z) (ta : TransactionAccounts)
    : result InstructionError TransactionAccounts :=
  if negb (get_lamports ia ta =? l) then set_lamports program ia l ta else Ok ta.

Definition write_back_data (program : Pubkey) (ia : InstructionAccount) (d : list byte) (ta : TransactionAccounts)
    : result InstructionError TransactionAccounts :=
  match can_data_be_resized program ia (zlen d) ta with
  | Ok _ => set_data_from_slice program ia d ta
  | Err err => if bool_decide (get_data ia ta = d) then Ok ta else Err err
  end.

Definition write_back_owner (program : Pubkey) (ia : InstructionAccount) (o : Pubkey) (ta : TransactionAccounts)
    : result InstructionError TransactionAccounts :=
  if negb (get_owner ia ta =? o) then set_owner program ia o ta else Ok ta.

(** The caller's changes of one account, made visible to the transaction. *)
Definition update_callee_account (program : Pubkey) (ia : InstructionAccount) (caller_account : Account)
    (ta : TransactionAccounts) : result InstructionError TransactionAccounts :=
  (let? ta1 := write_back_lamports program ia (acc_lamports caller_account) ta in
   let? ta2 := write_back_data program ia (acc_data caller_account) ta1 in
   write_back_owner program ia (acc_owner caller_account) ta2)%result.

(** The same at the end of the program, with the limit on the growth. *)
Definition deserialize_account (program : Pubkey) (pre_len : Z) (ia : InstructionAccount) (acc : Account)
    (ta : TransactionAccounts) : result InstructionError TransactionAccounts :=
  (let? ta1 := write_back_lamports program ia (acc_lamports acc) ta in
   let post_len := zlen (acc_data acc) in
   err_if ((MAX_PERMITTED_DATA_INCREASE <? Z.max 0 (post_len - pre_len)) || (MAX_PERMITTED_DATA_LENGTH <? post_len))
     InvalidRealloc ?>
   let? ta2 := write_back_data program ia (acc_data acc) ta1 in
   write_back_owner program ia (acc_owner acc) ta2)%result.

(** The accounts that are not repetitions of an earlier one. *)
Fixpoint dedup_accounts (seen : list Pubkey) (ias : list InstructionAccount) : list InstructionAccount :=
  match ias with
  | [] => []
  | ia :: ias => if contains seen (ia_key ia) then dedup_accounts seen ias
                 else ia :: dedup_accounts (ia_key ia :: seen) ias
  end.

Definition deserialize_parameters (cx : Ctx) (mem : gmap Pubkey Account) (ta : TransactionAccounts)
    : result InstructionError TransactionAccounts :=
  foldM (fun ta ia => deserialize_account (cx_program_id cx) (cx_original_len cx (ia_key ia)) ia
                        (get_acc mem (ia_key ia)) ta)
        ta (dedup_accounts [] (cx_accounts cx)).

(** ** Programs *)

Record PState := mkPState { mem : gmap Pubkey Account; rt : TransactionAccounts }.

Definition M (A : Type) : Type := PState -> result InstructionError (A * PState).

Definition pret {A} (a : A) : M A := fun s => Ok (a, s).
Definition pbind {A B} (m : M A) (k : A -> M B) : M B :=
  fun s => match m s with Ok (a, s') => k a s' | Err e => Err e end.
Definition lift {A} (r : result InstructionError A) : M A :=
  fun s => match r with Ok a => Ok (a, s) | Err e => Err e end.
Definition fail {A} (e : InstructionError) : M A := fun _ => Err e.
Definition fail_if (b : bool) (e : InstructionError) : M unit := if b then fail e else pret tt.

Declare Scope prog_scope.
Delimit Scope prog_scope with prog.

Notation "'let!' x := m 'in' k" := (pbind m (fun x => k))
  (at level 10, x name, m at level 99, k at level 200) : prog_scope.
Notation "'let!' ' p := m 'in' k" := (pbind m (fun x => match x with p => k end))
  (at level 10, p strict pattern, m at level 99, k at level 200) : prog_scope.
Notation "m ;; k" := (pbind m (fun _ => k))
  (at level 100, k at level 200, right associativity) : prog_scope.

(** [next_account_info]. *)
Definition next_account_info (it : list AccountInfo) : M (AccountInfo * list AccountInfo) :=
  match it with [] => fail NotEnoughAccountKeys | ia :: it => pret (ia, it) end.

Definition account (ia : AccountInfo) : M Account := fun s => Ok (get_acc (mem s) (ia_key ia), s).
Definition put (k : Pubkey) (a : Account) : M unit := fun s => Ok (tt, mkPState (<[k := a]> (mem s)) (rt s)).

(** [**ia.try_borrow_mut_lamports()? = l]. *)
Definition write_lamports (ia : AccountInfo) (l : Z) : M unit :=
  (let! a := account ia in put (ia_key ia) (set_acc_lamports l a))%prog.

(** [**ia.try_borrow_mut_lamports()? -= amount] and [+=]: the release build of
    a program has no overflow checks, so both wrap. *)
Definition debit (ia : AccountInfo) (amount : Z) : M unit :=
  (let! a := account ia in write_lamports ia (as_u64 (acc_lamports a - amount)))%prog.
Definition credit (ia : AccountInfo) (amount : Z) : M unit :=
  (let! a := account ia in write_lamports ia (as_u64 (acc_lamports a + amount)))%prog.

(** [let l = from.lamports(); **from.try_borrow_mut_lamports()? = 0;
    **to.try_borrow_mut_lamports()? = to.lamports().checked_add(l)?]: all the
    lamports of an account are paid out. *)
Definition drain_into (overflow : InstructionError) (from to : AccountInfo) : M unit :=
  (let! f := account from in
   write_lamports from 0 ;;
   let! t := account to in
   let! total := lift (ok_or (u64_checked_add (acc_lamports t) (acc_lamports f)) overflow) in
   write_lamports to total)%prog.

(** [T::try_from_slice(&ia.data.borrow())]. *)
Definition load (A : Type) `{Borsh A} (ia : AccountInfo) (e : InstructionError) : M A :=
  (let! a := account ia in lift (ok_or (try_from_slice (acc_data a)) e))%prog.

(** [v.serialize(&mut &mut ia.data.borrow_mut()[..])?]: the encoding replaces
    the first bytes, and a buffer that is too short is an error. *)
Definition serialize_into {A} `{Borsh A} (v : A) (ia : AccountInfo) : M unit :=
  (let! a := account ia in
   fail_if (zlen (acc_data a) <? zlen (borsh_ser v)) BorshIoError ;;
   put (ia_key ia) (set_acc_data (overwrite (borsh_ser v) (acc_data a)) a))%prog.

(** [ia.data.borrow_mut()[..d.len()].copy_from_slice(&d)] with [d = v.try_to_vec()]:
    the same, but a buffer that is too short panics. *)
Definition copy_into {A} `{Borsh A} (v : A) (ia : AccountInfo) : M unit :=
  (let! a := account ia in
   fail_if (zlen (acc_data a) <? zlen (borsh_ser v)) ProgramFailedToComplete ;;
   put (ia_key ia) (set_acc_data (overwrite (borsh_ser v) (acc_data a)) a))%prog.

Section Program.
Context {E : Env}.
Variable cx : Ctx.

(** [Clock::get()] and [Clock::from_account_info]. *)
Definition clock_get : M Clock := pret (cx_clock cx).
Definition clock_from_account_info (ia : AccountInfo) : M Clock :=
  (fail_if (negb (ia_key ia =? clock_id)) InvalidArgument ;; pret (cx_clock cx))%prog.

(** Translation of the accounts of a CPI: each must be among the
    [AccountInfo]s the caller passes, and the caller's changes of it are
    applied.  Executable accounts are not exchanged. *)
Definition translate_account (infos : list AccountInfo) (memory : gmap Pubkey Account)
    (st : TransactionAccounts * list InstructionAccount) (ia : InstructionAccount)
    : result InstructionError (TransactionAccounts * list InstructionAccount) :=
  let '(ta, translated) := st in
  (let? '(_, caller_account) := ok_or (find_account (cx_accounts cx) (ia_key ia)) MissingAccount in
   if acc_executable (get_acc (ta_accounts ta) (ia_key ia)) then Ok (ta, translated) else
   match find_account infos (ia_key ia) with
   | None => Err MissingAccount
   | Some _ =>
       let? ta1 := update_callee_account (cx_program_id cx) caller_account (get_acc memory (ia_key ia)) ta in
       Ok (ta1, translated ++ [ia])
   end)%result.

Definition update_caller_account (ta : TransactionAccounts) (memory : gmap Pubkey Account) (ia : InstructionAccount)
    : result InstructionError (gmap Pubkey Account) :=
  if negb (ia_is_writable ia) then Ok memory else
  let callee_account := get_acc (ta_accounts ta) (ia_key ia) in
  let caller_account := get_acc memory (ia_key ia) in
  (err_if ((cx_original_len cx (ia_key ia) + MAX_PERMITTED_DATA_INCREASE <? zlen (acc_data callee_account)) &&
           negb (zlen (acc_data caller_account) =? zlen (acc_data callee_account))) InvalidRealloc ?>
   Ok (<[ia_key ia := mkAccount (acc_lamports callee_account) (acc_data callee_account)
                        (acc_owner callee_account) (acc_executable caller_account)]> memory))%result.

(** [InvokeContext::push]: only the running program may be called again, and
    [TransactionContext::push] wants the caller's changes balanced. *)
Definition push (program : Pubkey) (ta : TransactionAccounts) : result InstructionError unit :=
  (err_if (contains (cx_callers cx ++ [cx_program_id cx]) program && negb (program =? cx_program_id cx))
     ReentrancyNotAllowed ?>
   err_if (negb (ta_lamports_delta ta =? 0)) UnbalancedInstruction)%result.

(** [TransactionContext::pop]: an instruction may not create or destroy lamports. *)
Definition pop (ta : TransactionAccounts) : result InstructionError unit :=
  err_if (negb (ta_lamports_delta ta =? 0)) UnbalancedInstruction.

(** [InvokeContext::process_instruction]: the callee runs between [push] and
    [pop]. *)
Definition process_callee (program : Pubkey) (ias : list InstructionAccount) (data : list byte)
    (ta : TransactionAccounts) : result InstructionError TransactionAccounts :=
  (push program ta ?>
   let? ta1 := if program =? system_program_id then
                 match system_instruction_decode data with
                 | Some ix => system_process create_with_seed ias ix ta
                 | None => exec_program program ias data ta
                 end
               else exec_program program ias data ta in
   pop ta1 ?>
   Ok ta1)%result.

Fixpoint derive_signers (seeds : list (list (list byte))) : result InstructionError (list Pubkey) :=
  match seeds with
  | [] => Ok []
  | s :: seeds =>
      (let? k := ok_or (create_program_address s (cx_program_id cx)) ProgramFailedToComplete in
       let? ks := derive_signers seeds in Ok (k :: ks))%result
  end.

(** [invoke_signed], the system call [cpi_common]. *)
Definition invoke_signed (instruction : Instruction) (infos : list AccountInfo)
    (signers_seeds : list (list (list byte))) : M unit := fun s =>
  (let? signers := derive_signers signers_seeds in
   err_if (cpi_not_supported (ix_program_id instruction) (ix_data instruction)) ProgramFailedToComplete ?>
   let? callee := prepare_next_cpi_instruction (cx_accounts cx) instruction signers (rt s) in
   let? '(ta1, translated) := foldM (translate_account infos (mem s)) (rt s, []) (dedup_accounts [] callee) in
   let? ta2 := process_callee (ix_program_id instruction) callee (ix_data instruction) ta1 in
   let? memory := foldM (update_caller_account ta2) (mem s) translated in
   Ok (tt, mkPState memory ta2))%result.

(** [invoke]: no signer seeds. *)
Definition invoke (instruction : Instruction) (infos : list AccountInfo) : M unit :=
  invoke_signed instruction infos [].

(** Instructions the programs build for the system program. *)
Definition create_account_ix (from to : Pubkey) (lamports space : Z) (owner : Pubkey) : Instruction :=
  mkInstruction system_program_id [mkIA from true true; mkIA to true true]
    (system_instruction_encode (CreateAccount lamports space owner)).
Definition transfer_ix (from to : Pubkey) (lamports : Z) : Instruction :=
  mkInstruction system_program_id [mkIA from true true; mkIA to false true]
    (system_instruction_encode (Transfer lamports)).

(** A whole instruction: the program runs on its copy of the accounts, the
    changes are written back, and the lamports must balance. *)
Definition execute (program : M unit) (ta : TransactionAccounts) : result InstructionError TransactionAccounts :=
  (let? '(_, s) := program (mkPState (ta_accounts ta) ta) in
   let? ta1 := deserialize_parameters cx (mem s) (rt s) in
   pop ta1 ?>
   Ok ta1)%result.
End Program.

(** ** Reasoning about [M] *)

Section MonadLemmas.
Context {A B : Type}.

Lemma pbind_ok (m : M A) (k : A -> M B) s b s' :
  pbind m k s = Ok (b, s') <-> exists a s1, m s = Ok (a, s1) /\ k a s1 = Ok (b, s').
Proof. unfold pbind. destruct (m s) as [[a s1]|e]; naive_solver. Qed.

Lemma lift_ok (r : result InstructionError A) s a s' : lift r s = Ok (a, s') <-> r = Ok a /\ s' = s.
Proof. unfold lift. destruct r; naive_solver. Qed.

Lemma fail_if_ok b e s u s' : fail_if b e s = Ok (u, s') <-> b = false /\ s' = s.
Proof. unfold fail_if, fail, pret. destruct b, u; naive_solver. Qed.

Lemma pret_ok (a a' : A) s s' : pret a s = Ok (a', s') <-> a = a' /\ s' = s.
Proof. unfold pret. naive_solver. Qed.

Lemma account_ok ia s a s' : account ia s = Ok (a, s') <-> a = get_acc (mem s) (ia_key ia) /\ s' = s.
Proof. unfold account. naive_solver. Qed.

Lemma put_ok k a s u s' : put k a s = Ok (u, s') <-> s' = mkPState (<[k := a]> (mem s)) (rt s).
Proof. unfold put. destruct u. naive_solver. Qed.

Lemma next_account_info_ok it r s s' :
  next_account_info it s = Ok (r, s') <-> it = r.1 :: r.2 /\ s' = s.
Proof. destruct it, r; simpl; unfold fail, pret; naive_solver. Qed.
End MonadLemmas.

Lemma next_account_info_cons ia it r s s' :
  next_account_info (ia :: it) s = Ok (r, s') <-> r = (ia, it) /\ s' = s.
Proof. simpl. unfold pret. naive_solver. Qed.

(** Account [k] holds the encoding of [v]. *)
Definition holds {A} `{Borsh A} (m : gmap Pubkey Account) (k : Pubkey) (v : A) : Prop :=
  try_from_slice (acc_data (get_acc m k)) = Some v.

Section StoreLemmas.
Context {A : Type} {BA : Borsh A}.

Lemma load_ok ia e s a s' :
  load A ia e s = Ok (a, s') <-> holds (mem s) (ia_key ia) a /\ s' = s.
Proof.
  unfold load, holds. rewrite pbind_ok. setoid_rewrite account_ok. setoid_rewrite lift_ok.
  setoid_rewrite ok_or_ok. naive_solver.
Qed.

(** The memory after an in-place write of [v] to the account [k]. *)
Definition stored (v : A) (k : Pubkey) (m : gmap Pubkey Account) : gmap Pubkey Account :=
  <[k := set_acc_data (overwrite (borsh_ser v) (acc_data (get_acc m k))) (get_acc m k)]> m.

Lemma serialize_into_ok v ia s u s' :
  serialize_into v ia s = Ok (u, s') <->
  zlen (borsh_ser v) <= zlen (acc_data (get_acc (mem s) (ia_key ia))) /\
  s' = mkPState (stored v (ia_key ia) (mem s)) (rt s).
Proof.
  unfold serialize_into, stored. rewrite pbind_ok. setoid_rewrite account_ok.
  setoid_rewrite pbind_ok. setoid_rewrite fail_if_ok. setoid_rewrite put_ok.
  setoid_rewrite Z.ltb_ge. naive_solver.
Qed.

Lemma copy_into_ok v ia s u s' :
  copy_into v ia s = Ok (u, s') <->
  zlen (borsh_ser v) <= zlen (acc_data (get_acc (mem s) (ia_key ia))) /\
  s' = mkPState (stored v (ia_key ia) (mem s)) (rt s).
Proof.
  unfold copy_into, stored. rewrite pbind_ok. setoid_rewrite account_ok.
  setoid_rewrite pbind_ok. setoid_rewrite fail_if_ok. setoid_rewrite put_ok.
  setoid_rewrite Z.ltb_ge. naive_solver.
Qed.
End StoreLemmas.

Lemma write_lamports_ok ia l s u s' :
  write_lamports ia l s = Ok (u, s') <->
  s' = mkPState (<[ia_key ia := set_acc_lamports l (get_acc (mem s) (ia_key ia))]> (mem s)) (rt s).
Proof.
  unfold write_lamports. rewrite pbind_ok. setoid_rewrite account_ok. setoid_rewrite put_ok. naive_solver.
Qed.

(** Inversion of a successful run, one operation at a time. *)
Ltac pinv_step :=
  match goal with
  | H : next_account_info (_ :: _) _ = Ok _ |- _ => apply next_account_info_cons in H as [-> ->]
  | H : pbind _ _ _ = Ok _ |- _ => apply pbind_ok in H as (? & ? & ? & H)
  | x : (_ * _)%type |- _ => destruct x
  | H : (let '_ := ?x in _) _ = Ok _ |- _ => destruct x eqn:?; simpl in H
  | H : lift _ _ = Ok _ |- _ => apply lift_ok in H as [? ?]; subst
  | H : fail_if _ _ _ = Ok _ |- _ => apply fail_if_ok in H as [? ?]; subst
  | H : pret _ _ = Ok _ |- _ => apply pret_ok in H as [? ?]; subst
  | H : account _ _ = Ok _ |- _ => apply account_ok in H as [? ?]; subst
  | H : load _ _ _ _ = Ok _ |- _ => apply load_ok in H as [? ?]; subst
  | H : serialize_into _ _ _ = Ok _ |- _ => apply serialize_into_ok in H as [? ?]; subst
  | H : copy_into _ _ _ = Ok _ |- _ => apply copy_into_ok in H as [? ?]; subst
  | H : write_lamports _ _ _ = Ok _ |- _ => apply write_lamports_ok in H; subst
  | H : put _ _ _ = Ok _ |- _ => apply put_ok in H; subst
  | H : next_account_info _ _ = Ok _ |- _ => apply next_account_info_ok in H as [? ?]; simpl in *; subst
  | H : fail _ _ = Ok _ |- _ => discriminate H
  | H : clock_get _ _ = Ok _ |- _ => unfold clock_get in H
  | _ => rinv_step
  end.
Ltac pinv := repeat pinv_step.

(** ** No privilege escalation in a CPI *)

Section Privileges.
Context (caller : list InstructionAccount) (signers : list Pubkey).

Definition privileged (ia : InstructionAccount) : Prop :=
  exists i c, find_account caller (ia_key ia) = Some (i, c) /\
    (ia_is_writable ia = true -> ia_is_writable c = true) /\
    (ia_is_signer ia = true -> ia_is_signer c = true \/ contains signers (ia_key ia) = true).

Lemma check_privileges_ok ia u : check_privileges caller signers ia = Ok u -> privileged ia.
Proof.
  unfold check_privileges. intros H. rinv. destruct x as [i c]. rinv.
  exists i, c. split; [done|].
  destruct (ia_is_writable ia), (ia_is_writable c), (ia_is_signer ia), (ia_is_signer c),
    (contains signers (ia_key ia)); naive_solver.
Qed.

Lemma find_account_some ias k i ia :
  find_account ias k = Some (i, ia) -> ias !! i = Some ia /\ ia_key ia = k.
Proof. intros H. apply list_find_Some in H. naive_solver. Qed.

(** Every first occurrence in the loop's range has been checked. *)
Lemma check_loop_first all n l ias' :
  check_loop caller signers all n l = Ok ias' ->
  forall j ia, l !! j = Some ia -> fst <$> find_account all (ia_key ia) = Some (n + j)%nat -> privileged ia.
Proof.
  revert n ias'. induction l as [|ib l IH]; intros n ias' H j ia Hj Hf; [done|].
  simpl in H. rinv. destruct x as [idx reference].
  destruct j as [|j]; simplify_eq/=.
  - hyp (find_account all _ = Some _) as Hx. rewrite Hx in Hf. simplify_eq/=.
    rewrite Nat.add_0_r, Nat.eqb_refl in H. rinv. by eapply check_privileges_ok.
  - case_match; rinv; (eapply IH; [done|done|]); rewrite Hf; f_equal; lia.
Qed.

(** The first loop leaves the flags of a key at its first occurrence. *)
Definition flags_le (ia ib : InstructionAccount) : Prop :=
  ia_key ia = ia_key ib /\ (ia_is_writable ia = true -> ia_is_writable ib = true) /\
  (ia_is_signer ia = true -> ia_is_signer ib = true).

Definition first_has_flags (ias : list InstructionAccount) : Prop :=
  forall ia, ia ∈ ias -> exists i r, find_account ias (ia_key ia) = Some (i, r) /\ flags_le ia r.

Lemma find_account_app ias l k :
  find_account (ias ++ l) k =
  match find_account ias k with Some r => Some r | None => prod_map (fun n => (n + length ias)%nat) id <$> find_account l k end.
Proof.
  unfold find_account. destruct (list_find (fun ia => ia_key ia = k) ias) as [[i r]|] eqn:Hf.
  - by apply list_find_app_l.
  - by rewrite list_find_app_r.
Qed.

Lemma find_account_insert ias i ia ia' k :
  find_account ias (ia_key ia') = Some (i, ia) ->
  find_account (<[i := ia']> ias) k =
  if decide (k = ia_key ia') then Some (i, ia') else find_account ias k.
Proof.
  unfold find_account. revert i. induction ias as [|ib ias IH]; intros i; simpl; [done|].
  destruct (decide (ia_key ib = ia_key ia')) as [Hk|Hk].
  - intros ?; simplify_eq/=. repeat case_decide; congruence || done.
  - destruct (list_find (fun ic => ia_key ic = ia_key ia') ias) as [[j c]|] eqn:Hf; simpl; [|done].
    intros ?; simplify_eq/=. rewrite (IH j) by done. repeat case_decide; congruence || done.
Qed.

Lemma merge_meta_flags ta ias meta ias' :
  first_has_flags ias -> merge_meta ta ias meta = Ok ias' -> first_has_flags ias'.
Proof.
  intros Hinv H. unfold merge_meta in H. case_match; [|done].
  destruct (find_account ias (ia_key meta)) as [[i ia]|] eqn:Hf; rinv.
  - apply find_account_some in Hf as Hi. destruct Hi as [Hi Hkey].
    set (ia' := or_flags ia meta). assert (Hk : ia_key ia' = ia_key meta) by done.
    rewrite <- Hk in Hf.
    assert (Hmain : forall x, x ∈ ias \/ x = ia' ->
      exists j r, find_account (<[i := ia']> ias ++ [ia']) (ia_key x) = Some (j, r) /\ flags_le x r).
    { intros x Hx. rewrite find_account_app, (find_account_insert _ _ _ _ _ Hf).
      case_decide as Hd.
      - exists i, ia'. split; [done|]. destruct Hx as [Hx| ->]; [|by repeat split].
        destruct (Hinv x Hx) as (j & r & Hr & Hle). rewrite Hd, Hf in Hr. simplify_eq.
        destruct Hle as (? & Hw & Hs). split; [done|]. simpl. split; intros ?; apply orb_true_iff; auto.
      - destruct Hx as [Hx| ->]; [|done]. destruct (Hinv x Hx) as (j & r & Hr & Hle).
        rewrite Hr. by exists j, r. }
    intros x Hx. apply Hmain. apply elem_of_app in Hx as [Hx|Hx].
    + apply list_elem_of_lookup in Hx as [j Hj]. destruct (decide (i = j)) as [<-|Hij].
      * apply lookup_lt_Some in Hi. rewrite list_lookup_insert_eq in Hj by done. right; congruence.
      * rewrite list_lookup_insert_ne in Hj by done. left. by eapply list_elem_of_lookup_2.
    + right. by apply list_elem_of_singleton in Hx.
  - intros x Hx. apply elem_of_app in Hx as [Hx|Hx].
    + destruct (Hinv x Hx) as (j & r & Hr & Hle). exists j, r. by rewrite find_account_app, Hr.
    + apply list_elem_of_singleton in Hx as ->. rewrite find_account_app, Hf.
      unfold find_account. simpl. case_decide; [|done]. simpl. eexists _, _. split; [done|by repeat split].
Qed.

(** Every account the loop returns is privileged, provided the accounts it is
    compared with carry the same flags as their first occurrence or fewer. *)
Lemma check_loop_privileged all n l ias' :
  (forall ia, ia ∈ all -> exists i r, find_account all (ia_key ia) = Some (i, r) /\ privileged r /\ flags_le ia r) ->
  l ⊆ all -> check_loop caller signers all n l = Ok ias' -> Forall privileged ias'.
Proof.
  intros Hall. revert n ias'. induction l as [|ia l IH]; intros n ias' Hsub H; simpl in H; rinv; [done|].
  destruct x as [idx reference]. hyp (find_account all _ = Some _) as Hx.
  destruct (Hall ia) as (i & r & Hf & Hp & Hk & Hw & Hs); [apply Hsub; by left|].
  rewrite Hf in Hx. simplify_eq.
  assert (Hl : l ⊆ all) by (intros y Hy; apply Hsub; by right).
  destruct Hp as (ci & c & Hc & Hpw & Hps). rewrite <- Hk in Hc, Hps.
  case_match; rinv; (constructor; [exists ci, c|by eapply IH]); simpl; split_and!; auto;
    intros [?|?]%orb_true_iff; auto.
Qed.

(** A CPI never gives the callee a right the caller does not have: a writable
    account of the callee is writable in the caller, and a signer of the callee
    signed the caller or is an address derived by the calling program. *)
Lemma prepare_no_escalation instruction ta ias :
  prepare_next_cpi_instruction caller instruction signers ta = Ok ias -> Forall privileged ias.
Proof.
  unfold prepare_next_cpi_instruction. intros H. rinv.
  hyp (foldM _ _ _ = Ok _) as Hm. hyp (check_loop _ _ _ _ _ = Ok _) as Hc.
  eapply foldM_invariant with (P := first_has_flags) in Hm;
    [|intros; by eapply merge_meta_flags|intros ? []%not_elem_of_nil].
  eapply check_loop_privileged; [|reflexivity|done].
  intros ia Hia. destruct (Hm ia Hia) as (i & r & Hf & Hle). exists i, r. split_and!; [done| |done].
  apply find_account_some in Hf as Hi. destruct Hi as [Hi Hk].
  eapply check_loop_first; [done|done|]. rewrite Hk, Hf. done.
Qed.
End Privileges.

