(* ===== verification/Execution.v ===== *)
(** * Execution: what running a program can change

    The write-back of a program's changes, the conservation of lamports by
    every instruction, the frame of a cross-program invocation and of a whole
    instruction, and typed account data.  All are statements about the
    definitions of [Invoke], used by the proofs of every on-chain program. *)

From Stdlib Require Import Strings.Byte.
From S2P Require Import Prelude Borsh Accounts System Invoke.
Open Scope Z_scope.

(** ** Writing back the changes of a program *)

Section WriteBack.
Context (program : Pubkey) (ias : list InstructionAccount) (ia : InstructionAccount).
Context (Hia : ia ∈ ias).

(** What the write-back of [acc] makes of the account. *)
Definition written (acc a : Account) : Account :=
  mkAccount (acc_lamports acc) (acc_data acc) (acc_owner acc) (acc_executable a).

Lemma write_back_lamports_ok l ta ta' :
  is_u64 l -> lamports_ok (ta_accounts ta) -> write_back_lamports program ia l ta = Ok ta' ->
  allowed program ias ta ta' /\ upd_acc (ia_key ia) (set_acc_lamports l) (ta_accounts ta) (ta_accounts ta').
Proof.
  intros Hl Hok H. unfold write_back_lamports in H.
  case_match eqn:Hc; [split; [eauto with prism|by eapply set_lamports_upd]|]. rinv. bool_to_prop.
  split; [reflexivity|]. apply upd_acc_id. subst. unfold get_lamports, get_account. by destruct (get_acc _ _).
Qed.

Lemma write_back_data_ok d ta ta' :
  write_back_data program ia d ta = Ok ta' ->
  allowed program ias ta ta' /\ upd_acc (ia_key ia) (set_acc_data d) (ta_accounts ta) (ta_accounts ta').
Proof.
  unfold write_back_data. case_match; intros Hd; [split; [eauto with prism|by eapply set_data_from_slice_upd]|].
  case_bool_decide; rinv. split; [reflexivity|].
  apply upd_acc_id. unfold set_acc_data, get_data, get_account. by destruct (get_acc _ _).
Qed.

Lemma write_back_owner_ok o ta ta' :
  write_back_owner program ia o ta = Ok ta' ->
  allowed program ias ta ta' /\ upd_acc (ia_key ia) (set_acc_owner o) (ta_accounts ta) (ta_accounts ta').
Proof.
  intros H. unfold write_back_owner in H.
  case_match eqn:Hc; [split; [eauto with prism|by eapply set_owner_upd]|]. rinv. bool_to_prop.
  split; [reflexivity|]. apply upd_acc_id. subst. unfold get_owner, get_account. by destruct (get_acc _ _).
Qed.

Lemma upd_acc_written acc m m1 m2 m3 :
  upd_acc (ia_key ia) (set_acc_lamports (acc_lamports acc)) m m1 ->
  upd_acc (ia_key ia) (set_acc_data (acc_data acc)) m1 m2 ->
  upd_acc (ia_key ia) (set_acc_owner (acc_owner acc)) m2 m3 ->
  upd_acc (ia_key ia) (written acc) m m3.
Proof. intros U1 U2 U3 j. rewrite U3, U2, U1. by case_decide. Qed.

Lemma update_callee_account_ok acc ta ta' :
  is_u64 (acc_lamports acc) -> lamports_ok (ta_accounts ta) ->
  update_callee_account program ia acc ta = Ok ta' ->
  allowed program ias ta ta' /\ upd_acc (ia_key ia) (written acc) (ta_accounts ta) (ta_accounts ta').
Proof.
  intros Hl Hok H. unfold update_callee_account in H. rinv.
  hyp (write_back_lamports _ _ _ _ = Ok _) as H1. apply write_back_lamports_ok in H1 as [A1 U1]; [|done..].
  hyp (write_back_data _ _ _ _ = Ok _) as H2. apply write_back_data_ok in H2 as [A2 U2].
  apply write_back_owner_ok in H as [A3 U3].
  split; [|by eapply upd_acc_written]. etransitivity; [exact A1|]. by etransitivity.
Qed.

Lemma deserialize_account_ok pre_len acc ta ta' :
  is_u64 (acc_lamports acc) -> lamports_ok (ta_accounts ta) ->
  deserialize_account program pre_len ia acc ta = Ok ta' ->
  allowed program ias ta ta' /\ upd_acc (ia_key ia) (written acc) (ta_accounts ta) (ta_accounts ta').
Proof.
  intros Hl Hok H. unfold deserialize_account in H. rinv.
  hyp (write_back_lamports _ _ _ _ = Ok _) as H1. apply write_back_lamports_ok in H1 as [A1 U1]; [|done..].
  hyp (write_back_data _ _ _ _ = Ok _) as H2. apply write_back_data_ok in H2 as [A2 U2].
  apply write_back_owner_ok in H as [A3 U3].
  split; [|by eapply upd_acc_written]. etransitivity; [exact A1|]. by etransitivity.
Qed.
End WriteBack.

Lemma dedup_accounts_sub seen ias ia : ia ∈ dedup_accounts seen ias -> ia ∈ ias.
Proof.
  revert seen. induction ias as [|ib ias IH]; intros seen; simpl; [done|].
  case_match; [intros Hi; right; by eapply IH|].
  intros [->|Hi]%elem_of_cons; [by left|right; by eapply IH].
Qed.

Lemma deserialize_parameters_allowed cx memory ta ta' :
  lamports_ok memory -> lamports_ok (ta_accounts ta) ->
  deserialize_parameters cx memory ta = Ok ta' -> allowed (cx_program_id cx) (cx_accounts cx) ta ta'.
Proof.
  intros Hm Hok H. unfold deserialize_parameters in H.
  eapply (foldM_invariant (fun t => allowed (cx_program_id cx) (cx_accounts cx) ta t)) in H; [done| |reflexivity].
  intros t1 t2 ia Hin A1 H1. apply dedup_accounts_sub in Hin.
  apply (deserialize_account_ok _ (cx_accounts cx)) in H1 as [A2 _]; [by etransitivity|done|apply Hm|].
  by eapply allowed_range.
Qed.

(** ** Lamports are conserved by every program

    [safe m]: whatever [m] does, the balances stay [u64] values and the
    lamports of the transaction only move. *)

Record balanced (ta ta' : TransactionAccounts) : Prop := {
  balanced_total : total_lamports (ta_accounts ta') - ta_lamports_delta ta' =
                   total_lamports (ta_accounts ta) - ta_lamports_delta ta;
  balanced_range : lamports_ok (ta_accounts ta');
}.

(** The other programs change accounts through the same operations: they
    conserve lamports, and they only change writable accounts they are given. *)
Class ExecLaws {E : Env} : Prop := {
  exec_balanced p ias d ta ta' : lamports_ok (ta_accounts ta) -> exec_program p ias d ta = Ok ta' -> balanced ta ta';
  exec_readonly p ias d ta ta' k : exec_program p ias d ta = Ok ta' -> ~ writable_in ias k ->
    get_acc (ta_accounts ta') k = get_acc (ta_accounts ta) k;
}.

Definition pstate_ok (s : PState) : Prop := lamports_ok (mem s) /\ lamports_ok (ta_accounts (rt s)).

Definition safe {A} (m : M A) : Prop := forall s a s',
  pstate_ok s -> m s = Ok (a, s') -> pstate_ok s' /\ balanced (rt s) (rt s').

(** [local m]: [m] only works on the memory of the program. *)
Definition local {A} (m : M A) : Prop := forall s a s', m s = Ok (a, s') -> rt s' = rt s.

(** [same_state m]: [m] only reads. *)
Definition same_state {A} (m : M A) : Prop := forall s a s', m s = Ok (a, s') -> s' = s.

Lemma allowed_balanced p ias ta ta' : lamports_ok (ta_accounts ta) -> allowed p ias ta ta' -> balanced ta ta'.
Proof. intros Hok [_ _ B R]. split; auto. Qed.

Lemma balanced_trans ta1 ta2 ta3 : balanced ta1 ta2 -> balanced ta2 ta3 -> balanced ta1 ta3.
Proof. intros [B1 R1] [B2 R2]. split; [lia|done]. Qed.

Lemma balanced_refl ta : lamports_ok (ta_accounts ta) -> balanced ta ta.
Proof. by split. Qed.

Lemma lamports_ok_insert m k a : lamports_ok m -> is_u64 (acc_lamports a) -> lamports_ok (<[k := a]> m).
Proof. intros Hm Ha j. rewrite get_acc_insert. by case_decide. Qed.

Create HintDb psafe discriminated.

Section SafeCombinators.
Context {A B : Type}.

Lemma safe_bind (m : M A) (k : A -> M B) : safe m -> (forall a, safe (k a)) -> safe (pbind m k).
Proof.
  intros Hm Hk s b s' Hs H. apply pbind_ok in H as (a & s1 & H1 & H2).
  apply Hm in H1 as [Hs1 B1]; [|done]. apply Hk in H2 as [Hs2 B2]; [|done].
  split; [done|by eapply balanced_trans].
Qed.

(** The continuation of a computation may rely on its result. *)
Lemma safe_lift_bind (r : result InstructionError A) (k : A -> M B) :
  (forall a, r = Ok a -> safe (k a)) -> safe (pbind (lift r) k).
Proof. intros Hk s b s' Hs H. apply pbind_ok in H as (a & s1 & [Hr ->]%lift_ok & H). by eapply Hk. Qed.

Lemma safe_same_state (m : M A) : same_state m -> safe m.
Proof. intros Hm s a s' Hs H. apply Hm in H as ->. split; [done|]. apply balanced_refl, Hs. Qed.

Lemma local_bind (m : M A) (k : A -> M B) : local m -> (forall a, local (k a)) -> local (pbind m k).
Proof.
  intros Hm Hk s b s' H. apply pbind_ok in H as (a & s1 & H1 & H2).
  apply Hm in H1. apply Hk in H2. congruence.
Qed.

Lemma local_same_state (m : M A) : same_state m -> local m.
Proof. intros Hm s a s' H. by apply Hm in H as ->. Qed.
End SafeCombinators.

Section SafeOps.
Context {A : Type} {BA : Borsh A}.

Lemma same_state_pret {X} (a : X) : same_state (pret a).
Proof. intros s b s' H. by pinv. Qed.
Lemma same_state_lift {X} (r : result InstructionError X) : same_state (lift r).
Proof. intros s b s' H. by pinv. Qed.
Lemma same_state_fail_if b e : same_state (fail_if b e).
Proof. intros s u s' H. by pinv. Qed.
Lemma same_state_fail {X} e : same_state (@fail X e).
Proof. done. Qed.
Lemma same_state_account ia : same_state (account ia).
Proof. intros s u s' H. by pinv. Qed.
Lemma same_state_next it : same_state (next_account_info it).
Proof. intros s u s' H. by pinv. Qed.
Lemma same_state_load ia e : same_state (load A ia e).
Proof. intros s u s' H. by pinv. Qed.
Lemma same_state_clock_get cx : same_state (clock_get cx).
Proof. intros s u s' H. by pinv. Qed.
Lemma same_state_clock_from_account_info {E : Env} cx ia : same_state (clock_from_account_info cx ia).
Proof. intros s u s' H. unfold clock_from_account_info in H. by pinv. Qed.

Lemma safe_put_data ia (d : list byte) s u s' :
  pstate_ok s -> put (ia_key ia) (set_acc_data d (get_acc (mem s) (ia_key ia))) s = Ok (u, s') ->
  pstate_ok s' /\ balanced (rt s) (rt s').
Proof.
  intros [Hm Hr] H. pinv. split; [|by apply balanced_refl]. split; [|done].
  apply lamports_ok_insert; [done|]. apply Hm.
Qed.

Lemma safe_serialize_into (v : A) ia : safe (serialize_into v ia).
Proof.
  intros s u s' Hs H. unfold serialize_into in H. apply pbind_ok in H as (a & s1 & Ha & H).
  apply account_ok in Ha as [-> ->]. apply pbind_ok in H as (? & s1 & Hf & H).
  apply fail_if_ok in Hf as [_ ->]. by eapply safe_put_data.
Qed.

Lemma safe_copy_into (v : A) ia : safe (copy_into v ia).
Proof.
  intros s u s' Hs H. unfold copy_into in H. apply pbind_ok in H as (a & s1 & Ha & H).
  apply account_ok in Ha as [-> ->]. apply pbind_ok in H as (? & s1 & Hf & H).
  apply fail_if_ok in Hf as [_ ->]. by eapply safe_put_data.
Qed.

Lemma safe_write_lamports ia l : is_u64 l -> safe (write_lamports ia l).
Proof.
  intros Hl s u s' [Hm Hr] H. apply write_lamports_ok in H as ->.
  split; [|by apply balanced_refl]. split; [|done]. by apply lamports_ok_insert.
Qed.

Lemma local_serialize_into (v : A) ia : local (serialize_into v ia).
Proof. intros s u s' H. pinv. done. Qed.
Lemma local_copy_into (v : A) ia : local (copy_into v ia).
Proof. intros s u s' H. pinv. done. Qed.
Lemma local_write_lamports ia l : local (write_lamports ia l).
Proof. intros s u s' H. pinv. done. Qed.
End SafeOps.

#[export] Hint Resolve safe_bind safe_same_state local_bind local_same_state
  same_state_pret same_state_lift same_state_fail_if same_state_fail same_state_account same_state_next
  same_state_load same_state_clock_get same_state_clock_from_account_info safe_serialize_into safe_copy_into safe_write_lamports
  local_serialize_into local_copy_into local_write_lamports : psafe.

Section Execute.
Context {E : Env} {X : ExecLaws} (cx : Ctx).

Lemma process_callee_balanced p ias d ta ta' :
  lamports_ok (ta_accounts ta) -> process_callee cx p ias d ta = Ok ta' -> balanced ta ta'.
Proof.
  intros Hok H. unfold process_callee, push, pop in H. rinv.
  repeat case_match; try by eapply exec_balanced.
  eapply allowed_balanced; [done|by eapply system_process_allowed].
Qed.

Lemma translate_balanced infos memory l ta st :
  lamports_ok memory -> lamports_ok (ta_accounts ta) ->
  foldM (translate_account cx infos memory) (ta, []) l = Ok st -> balanced ta st.1.
Proof.
  intros Hm Hok H.
  eapply (foldM_invariant (fun st : TransactionAccounts * list InstructionAccount => balanced ta st.1)) in H; [done| |by apply balanced_refl].
  intros [t1 l1] st2 ia _ B1 H1. unfold translate_account in H1. rinv. destruct x as [i c].
  case_match; [by rinv|]. case_match; [|done]. rinv. simpl in *.
  eapply balanced_trans; [exact B1|].
  hyp (update_callee_account _ _ _ _ = Ok _) as Hu.
  apply (update_callee_account_ok _ [c]) in Hu as [A2 _]; [|by left|apply Hm|apply B1].
  eapply allowed_balanced; [apply B1|exact A2].
Qed.

Lemma update_caller_ok l ta memory memory' :
  lamports_ok memory -> lamports_ok (ta_accounts ta) ->
  foldM (update_caller_account cx ta) memory l = Ok memory' -> lamports_ok memory'.
Proof.
  intros Hm Hok H. eapply (foldM_invariant lamports_ok) in H; [done| |done].
  intros m1 m2 ia _ Hm1 H1. unfold update_caller_account in H1. case_match; rinv; [done|].
  apply lamports_ok_insert; [done|]. simpl. apply Hok.
Qed.

Lemma safe_invoke_signed ix infos seeds : safe (invoke_signed cx ix infos seeds).
Proof.
  intros s u s' [Hm Hr] H. unfold invoke_signed in H. pinv.
  hyp (foldM (translate_account _ _ _) _ _ = Ok _) as Ht. apply translate_balanced in Ht as Bt; [|done..].
  hyp (process_callee _ _ _ _ _ = Ok _) as Hp. apply process_callee_balanced in Hp as Bp; [|apply Bt].
  hyp (foldM (update_caller_account _ _) _ _ = Ok _) as Hu. apply update_caller_ok in Hu; [|done|apply Bp].
  split; [split; [done|apply Bp]|]. by eapply balanced_trans.
Qed.

(** A successful instruction conserves the lamports of the transaction. *)
Lemma execute_conserves (program : M unit) ta ta' :
  safe program -> lamports_ok (ta_accounts ta) -> ta_lamports_delta ta = 0 ->
  execute cx program ta = Ok ta' -> total_lamports (ta_accounts ta') = total_lamports (ta_accounts ta).
Proof.
  intros Hsafe Hok Hd H. unfold execute, pop in H. pinv. bool_to_prop.
  hyp (program _ = Ok _) as Hp. apply Hsafe in Hp as [[Hm Hr] B]; [|by split]. simpl in B.
  hyp (deserialize_parameters _ _ _ = Ok _) as Hs.
  apply deserialize_parameters_allowed in Hs as [_ _ B' _]; [|done..].
  destruct B as [B _]. lia.
Qed.

(** A program that calls no other program changes only what it may change:
    the data and the owner of its own accounts, the balances it may debit, and
    nothing at all of an account that is not writable. *)
Lemma execute_local_allowed (program : M unit) ta ta' :
  safe program -> local program -> lamports_ok (ta_accounts ta) ->
  execute cx program ta = Ok ta' -> allowed (cx_program_id cx) (cx_accounts cx) ta ta'.
Proof.
  intros Hsafe Hloc Hok H. unfold execute, pop in H. pinv.
  hyp (program _ = Ok _) as Hp. apply Hloc in Hp as Hrt. simpl in Hrt.
  apply Hsafe in Hp as [[Hm Hr] _]; [|by split].
  hyp (deserialize_parameters _ _ _ = Ok _) as Hs. rewrite Hrt in Hs.
  exact (deserialize_parameters_allowed _ _ _ _ Hm Hok Hs).
Qed.
End Execute.
#[export] Hint Resolve safe_invoke_signed : psafe.

(** ** Typed account data *)

Lemma stored_ne {A} `{Borsh A} (v : A) k j m : j <> k -> get_acc (stored v k m) j = get_acc m j.
Proof. intros. unfold stored. by rewrite get_acc_insert_ne. Qed.

Lemma stored_data {A} `{Borsh A} (v : A) k m :
  acc_data (get_acc (stored v k m) k) = overwrite (borsh_ser v) (acc_data (get_acc m k)).
Proof. unfold stored. by rewrite get_acc_insert_eq. Qed.

Lemma stored_lamports {A} `{Borsh A} (v : A) k m j :
  acc_lamports (get_acc (stored v k m) j) = acc_lamports (get_acc m j).
Proof. unfold stored. rewrite get_acc_insert. by case_decide; subst. Qed.

Lemma stored_owner {A} `{Borsh A} (v : A) k m j :
  acc_owner (get_acc (stored v k m) j) = acc_owner (get_acc m j).
Proof. unfold stored. rewrite get_acc_insert. by case_decide; subst. Qed.

Lemma holds_stored_ne {A B} `{Borsh A} `{Borsh B} (v : A) (w : B) k j m :
  j <> k -> holds (stored v k m) j w <-> holds m j w.
Proof. intros. unfold holds. by rewrite stored_ne. Qed.

Lemma holds_inj {A} `{Borsh A} m k (v w : A) : holds m k v -> holds m k w -> v = w.
Proof. unfold holds. congruence. Qed.

Lemma holds_acc {A} `{Borsh A} m m' k (v : A) : get_acc m k = get_acc m' k -> holds m k v <-> holds m' k v.
Proof. unfold holds. by intros ->. Qed.

Lemma holds_data {A} `{Borsh A} m m' k (v : A) :
  acc_data (get_acc m k) = acc_data (get_acc m' k) -> holds m k v -> holds m' k v.
Proof. unfold holds. by intros ->. Qed.

(** Overwriting an account with a value of the same length. *)
Lemma holds_overwrite {A} `{BorshLaws A} m k (v : A) :
  zlen (borsh_ser v) = zlen (acc_data (get_acc m k)) -> well_typed v -> holds (stored v k m) k v.
Proof.
  intros Hn Hv. unfold holds. rewrite stored_data, overwrite_all; [by apply try_from_slice_ser|].
  unfold zlen in *. lia.
Qed.

(** Moving lamports between two accounts of the program's memory. *)
Definition moved (from to : Pubkey) (amount : Z) (m : gmap Pubkey Account) : gmap Pubkey Account :=
  let m1 := <[from := set_acc_lamports (acc_lamports (get_acc m from) - amount) (get_acc m from)]> m in
  <[to := set_acc_lamports (acc_lamports (get_acc m1 to) + amount) (get_acc m1 to)]> m1.

Lemma moved_data from to amount m k : acc_data (get_acc (moved from to amount m) k) = acc_data (get_acc m k).
Proof. unfold moved. rewrite !get_acc_insert. by repeat case_decide; subst. Qed.

Lemma set_lamports_data k l m j :
  acc_data (get_acc (<[k := set_acc_lamports l (get_acc m k)]> m) j) = acc_data (get_acc m j).
Proof. rewrite get_acc_insert. by case_decide; subst. Qed.

Lemma set_lamports_owner k l m j :
  acc_owner (get_acc (<[k := set_acc_lamports l (get_acc m k)]> m) j) = acc_owner (get_acc m j).
Proof. rewrite get_acc_insert. by case_decide; subst. Qed.

Lemma holds_set_lamports {A} `{Borsh A} k l m j (v : A) :
  holds (<[k := set_acc_lamports l (get_acc m k)]> m) j v <-> holds m j v.
Proof. unfold holds. by rewrite set_lamports_data. Qed.

Section Holds.
Context {A : Type} {B : Borsh A} {W : WellTyped A} {L : BorshLaws A} {n : Z} {S : BorshSized A n}.

Lemma holds_well_typed m k (v : A) : holds m k v -> well_typed v.
Proof. intros H. by apply try_from_slice_some in H as [? _]. Qed.

Lemma holds_zlen m k (v : A) : holds m k v -> zlen (acc_data (get_acc m k)) = n.
Proof. intros H. apply try_from_slice_some in H as [Hv ->]. by apply borsh_sized. Qed.

Lemma serialize_fits (v : A) (d : list byte) : zlen d = n -> well_typed v -> zlen (borsh_ser v) <= zlen d.
Proof. intros -> Hv. by rewrite borsh_sized. Qed.

(** Writing a value over an account of the right size. *)
Lemma holds_stored m k (v : A) :
  zlen (acc_data (get_acc m k)) = n -> well_typed v -> holds (stored v k m) k v.
Proof.
  intros Hn Hv. apply holds_overwrite; [|done]. by rewrite borsh_sized.
Qed.
End Holds.

(** ** A CPI only changes the accounts it is given *)

Section Frame.
Context {E : Env} (cx : Ctx).

Lemma merge_metas_all ta metas ias :
  foldM (merge_meta ta) [] metas = Ok ias -> ia_key <$> ias = ia_key <$> metas.
Proof.
  intros H. assert (Hg : forall l l', foldM (merge_meta ta) l metas = Ok l' ->
    ia_key <$> l' = (ia_key <$> l) ++ (ia_key <$> metas)); [|by apply (Hg [])].
  clear H. induction metas as [|meta metas IH]; intros l l' H; simpl in H; rinv; [by rewrite app_nil_r|].
  rewrite (IH _ _ H). hyp (merge_meta _ _ _ = Ok _) as Hm. unfold merge_meta in Hm. case_match; [|done].
  destruct (find_account l (ia_key meta)) as [[i r]|] eqn:Hf; rinv; rewrite fmap_app; [|by rewrite <- app_assoc].
  apply find_account_some in Hf as [Hi Hk]. rewrite list_fmap_insert, <- app_assoc. simpl. f_equal; [|by rewrite Hk].
  apply list_insert_id. by rewrite list_lookup_fmap, Hi.
Qed.

Lemma check_loop_keys caller signers all n l ias :
  check_loop caller signers all n l = Ok ias -> ia_key <$> ias = ia_key <$> l.
Proof.
  revert n ias. induction l as [|ia l IH]; intros n ias H; simpl in H; rinv; [done|].
  destruct x as [idx r]. case_match; rinv; csimpl; f_equal; by eapply IH.
Qed.

Lemma prepare_keys caller ix signers ta ias :
  prepare_next_cpi_instruction caller ix signers ta = Ok ias -> ia_key <$> ias = ia_key <$> ix_accounts ix.
Proof.
  intros H. unfold prepare_next_cpi_instruction in H. rinv.
  hyp (foldM _ _ _ = Ok _) as Hm. hyp (check_loop _ _ _ _ _ = Ok _) as Hc.
  by rewrite (check_loop_keys _ _ _ _ _ _ Hc), (merge_metas_all _ _ _ Hm).
Qed.

Lemma translate_keys infos memory l ta st :
  foldM (translate_account cx infos memory) (ta, []) l = Ok st -> forall ia, ia ∈ st.2 -> ia ∈ l.
Proof.
  intros H.
  refine (foldM_invariant (fun st : TransactionAccounts * list InstructionAccount =>
    forall ia, ia ∈ st.2 -> ia ∈ l) _ _ _ _ _ _ H); [|intros ? []%not_elem_of_nil].
  intros [t1 l1] [t2 l2] ib Hib IH H1. unfold translate_account in H1. rinv. destruct x as [i c].
  case_match; [by rinv|]. case_match; [|done]. rinv. simpl in *.
  intros ia [Hia|Hia%list_elem_of_singleton]%elem_of_app; [by apply IH|by subst].
Qed.

Lemma update_caller_frame l ta memory memory' k :
  foldM (update_caller_account cx ta) memory l = Ok memory' -> (forall ia, ia ∈ l -> ia_key ia <> k) ->
  memory' !! k = memory !! k.
Proof.
  intros H Hk. eapply (foldM_invariant (fun m : gmap Pubkey Account => m !! k = memory !! k)) in H; [done| |done].
  intros m1 m2 ia Hia IH H1. unfold update_caller_account in H1. case_match; rinv; [done|].
  rewrite lookup_insert_ne; [done|]. by apply Hk.
Qed.

Lemma invoke_signed_frame ix infos seeds s u s' k :
  invoke_signed cx ix infos seeds s = Ok (u, s') -> k ∉ (ia_key <$> ix_accounts ix) -> mem s' !! k = mem s !! k.
Proof.
  intros H Hk. unfold invoke_signed in H. pinv. simpl.
  hyp (foldM (update_caller_account _ _) _ _ = Ok _) as Hu. eapply update_caller_frame; [done|].
  intros ia Hia <-. apply Hk.
  hyp (foldM (translate_account _ _ _) _ _ = Ok _) as Ht. eapply translate_keys in Ht; [|exact Hia].
  apply dedup_accounts_sub in Ht. hyp (prepare_next_cpi_instruction _ _ _ _ = Ok _) as Hp.
  rewrite <- (prepare_keys _ _ _ _ _ Hp). by apply list_elem_of_fmap_2.
Qed.

Lemma invoke_signed_get_acc ix infos seeds s u s' k :
  invoke_signed cx ix infos seeds s = Ok (u, s') -> k ∉ (ia_key <$> ix_accounts ix) ->
  get_acc (mem s') k = get_acc (mem s) k.
Proof. intros H Hk. unfold get_acc. by erewrite invoke_signed_frame. Qed.

(** What the transaction sees of a CPI is confined to the accounts of the
    caller. *)
Definition passed (k : Pubkey) : Prop := k ∈ (ia_key <$> cx_accounts cx).
#[global] Instance passed_dec k : Decision (passed k).
Proof. unfold passed. apply _. Defined.

Lemma translate_rt_frame infos memory l ta st k :
  foldM (translate_account cx infos memory) (ta, []) l = Ok st -> lamports_ok memory -> lamports_ok (ta_accounts ta) ->
  k ∉ (ia_key <$> l) -> get_acc (ta_accounts st.1) k = get_acc (ta_accounts ta) k.
Proof.
  intros H Hm Hr Hk.
  refine (proj1 (foldM_invariant (fun st : TransactionAccounts * list InstructionAccount =>
    get_acc (ta_accounts st.1) k = get_acc (ta_accounts ta) k /\ lamports_ok (ta_accounts st.1)) _ _ _ _ _ _ H)); [|done].
  intros [t1 l1] [t2 l2] ib Hib [IH Hl] H1. unfold translate_account in H1. rinv. destruct x as [i c].
  hyp (find_account _ _ = Some _) as Hf. apply find_account_some in Hf as [Hf Hkey].
  case_match; [by rinv|]. case_match; [|done]. rinv. simpl in *.
  hyp (update_callee_account _ _ _ _ = Ok _) as Hu.
  apply (update_callee_account_ok _ [c]) in Hu as [[_ _ _ R] U]; [|by left|apply Hm|done].
  split; [|by apply R]. rewrite U. case_decide as Hd; [|done]. destruct Hk.
  apply list_elem_of_fmap_2' with ib; [done|congruence].
Qed.

Lemma prepare_passed_key ix signers ta ias k :
  prepare_next_cpi_instruction (cx_accounts cx) ix signers ta = Ok ias -> k ∈ (ia_key <$> ix_accounts ix) -> passed k.
Proof.
  intros H Hk. rewrite <- (prepare_keys _ _ _ _ _ H) in Hk. apply prepare_no_escalation in H as Hp.
  apply list_elem_of_fmap in Hk as (ia & -> & Hia).
  eapply Forall_forall in Hp as (i & c & Hf & _); [|done]. apply find_account_some in Hf as [Hf Hk].
  apply list_elem_of_fmap_2' with c; [by eapply list_elem_of_lookup_2|done].
Qed.
End Frame.

(** [confined cx m]: [m] leaves alone the accounts the transaction did not
    pass to the program, in what the transaction sees. *)
Definition confined (cx : Ctx) {A} (m : M A) : Prop := forall s a s' k,
  pstate_ok s -> m s = Ok (a, s') -> ~ passed cx k -> get_acc (ta_accounts (rt s')) k = get_acc (ta_accounts (rt s)) k.

Lemma local_confined cx {A} (m : M A) : local m -> confined cx m.
Proof. intros Hl s a s' k _ H _. by rewrite (Hl _ _ _ H). Qed.

Lemma confined_lift_bind cx {A B} (r : result InstructionError A) (k : A -> M B) :
  (forall a, r = Ok a -> confined cx (k a)) -> confined cx (pbind (lift r) k).
Proof. intros Hk s b s' j Hok H Hj. apply pbind_ok in H as (a & s1 & [Hr ->]%lift_ok & H). by eapply Hk. Qed.

Lemma confined_bind cx {A B} (m : M A) (k : A -> M B) :
  safe m -> confined cx m -> (forall a, confined cx (k a)) -> confined cx (pbind m k).
Proof.
  intros Hs Hm Hk s b s' j Hok H Hj. apply pbind_ok in H as (a & s1 & H1 & H2).
  apply Hs in H1 as Hok1; [|done]. destruct Hok1 as [Hok1 _].
  rewrite (Hk _ _ _ _ _ Hok1 H2 Hj). by eapply Hm.
Qed.

Section ExecuteFrame.
Context {E : Env} {X : ExecLaws} (cx : Ctx).

Lemma process_callee_frame p ias d ta ta' k :
  lamports_ok (ta_accounts ta) -> process_callee cx p ias d ta = Ok ta' -> ~ writable_in ias k ->
  get_acc (ta_accounts ta') k = get_acc (ta_accounts ta) k.
Proof.
  intros Hok H Hk. unfold process_callee, push, pop in H. rinv. repeat case_match; try (by eapply exec_readonly).
  eapply allowed_readonly; [by eapply system_process_allowed|done].
Qed.

Lemma dedup_accounts_keys seen ias k :
  k ∈ (ia_key <$> dedup_accounts seen ias) <-> k ∈ (ia_key <$> ias) /\ k ∉ seen.
Proof.
  revert seen. induction ias as [|ia ias IH]; intros seen; cbn [dedup_accounts].
  { split; [intros []%not_elem_of_nil|intros [[]%not_elem_of_nil _]]. }
  destruct (contains seen (ia_key ia)) eqn:Hc.
  - apply contains_elem in Hc. rewrite fmap_cons, elem_of_cons, IH. naive_solver.
  - apply not_true_iff_false in Hc. rewrite contains_elem in Hc.
    rewrite !fmap_cons, !elem_of_cons, IH, not_elem_of_cons.
    destruct (decide (k = ia_key ia)); naive_solver.
Qed.

Lemma invoke_signed_rt_frame ix infos seeds s u s' k :
  pstate_ok s -> invoke_signed cx ix infos seeds s = Ok (u, s') -> k ∉ (ia_key <$> ix_accounts ix) ->
  get_acc (ta_accounts (rt s')) k = get_acc (ta_accounts (rt s)) k.
Proof.
  intros [Hm Hr] H Hk. unfold invoke_signed in H. pinv. simpl.
  hyp (prepare_next_cpi_instruction _ _ _ _ = Ok _) as Hp.
  rewrite <- (prepare_keys _ _ _ _ _ Hp) in Hk.
  hyp (foldM (translate_account _ _ _) _ _ = Ok _) as Ht.
  hyp (process_callee _ _ _ _ _ = Ok _) as Hc.
  apply translate_balanced in Ht as Bt; [|done..]. destruct Bt as [_ Hl]. simpl in Hl.
  rewrite (process_callee_frame _ _ _ _ _ _ Hl Hc).
  - eapply translate_rt_frame in Ht; try done. intros Hin. by apply dedup_accounts_keys in Hin as [Hin _].
  - intros (ia & Hia & <- & _). by apply Hk, list_elem_of_fmap_2.
Qed.

Lemma confined_invoke_signed ix infos seeds : confined cx (invoke_signed cx ix infos seeds).
Proof.
  intros s u s' k Hok H Hk. eapply invoke_signed_rt_frame; [done|done|].
  intros Hin. apply Hk. unfold invoke_signed in H. pinv.
  hyp (prepare_next_cpi_instruction _ _ _ _ = Ok _) as Hp. by eapply prepare_passed_key.
Qed.

(** What an instruction makes of every account. *)
Lemma deserialize_list_result memory l ta ta' k :
  lamports_ok memory -> lamports_ok (ta_accounts ta) ->
  foldM (fun ta ia => deserialize_account (cx_program_id cx) (cx_original_len cx (ia_key ia)) ia
                        (get_acc memory (ia_key ia)) ta) ta l = Ok ta' ->
  get_acc (ta_accounts ta') k =
  if decide (k ∈ (ia_key <$> l)) then written (get_acc memory k) (get_acc (ta_accounts ta) k)
  else get_acc (ta_accounts ta) k.
Proof.
  intros Hm. revert ta. induction l as [|ia l IH]; intros ta Hr H; simpl in H; rinv.
  { case_decide as Hd; [by apply not_elem_of_nil in Hd|done]. }
  hyp (deserialize_account _ _ _ _ _ = Ok _) as Hd.
  apply (deserialize_account_ok _ [ia]) in Hd as [[_ _ _ R] U]; [|by left|apply Hm|done].
  rewrite (IH _ (R Hr) H), U. rewrite fmap_cons. clear.
  repeat case_decide; subst; rewrite ?elem_of_cons in *; try done; naive_solver.
Qed.

Lemma deserialize_parameters_result memory ta ta' k :
  lamports_ok memory -> lamports_ok (ta_accounts ta) -> deserialize_parameters cx memory ta = Ok ta' ->
  get_acc (ta_accounts ta') k =
  if decide (passed cx k) then written (get_acc memory k) (get_acc (ta_accounts ta) k) else get_acc (ta_accounts ta) k.
Proof.
  intros Hm Hr H. rewrite (deserialize_list_result _ _ _ _ k Hm Hr H).
  assert (Hk : k ∈ (ia_key <$> dedup_accounts [] (cx_accounts cx)) <-> passed cx k);
    [rewrite dedup_accounts_keys; unfold passed; pose proof (not_elem_of_nil k); naive_solver|].
  do 2 case_decide; naive_solver.
Qed.

(** The accounts after a successful instruction: those passed to it are what
    the program left in its memory, all others are unchanged. *)
Lemma execute_result (program : M unit) ta ta' :
  safe program -> confined cx program -> lamports_ok (ta_accounts ta) -> execute cx program ta = Ok ta' ->
  exists s, program (mkPState (ta_accounts ta) ta) = Ok (tt, s) /\ pstate_ok s /\
    (forall k, passed cx k -> acc_data (get_acc (ta_accounts ta') k) = acc_data (get_acc (mem s) k) /\
       acc_lamports (get_acc (ta_accounts ta') k) = acc_lamports (get_acc (mem s) k) /\
       acc_owner (get_acc (ta_accounts ta') k) = acc_owner (get_acc (mem s) k)) /\
    (forall k, ~ passed cx k -> get_acc (ta_accounts ta') k = get_acc (ta_accounts ta) k).
Proof.
  intros Hs Hc Hok H. unfold execute, pop in H. pinv. exists p.
  hyp (program _ = Ok _) as Hp. hyp (deserialize_parameters _ _ _ = Ok _) as Hd.
  apply Hs in Hp as Hps; [|by split]. destruct Hps as [[Hm Hr] _]. split_and!; [done|by split| |];
    intros k Hk; rewrite (deserialize_parameters_result _ _ _ k Hm Hr Hd); case_decide; try done.
  refine (Hc (mkPState (ta_accounts ta) ta) _ _ k _ Hp Hk). by split.
Qed.

Lemma execute_lamports_ok (program : M unit) ta ta' :
  safe program -> lamports_ok (ta_accounts ta) -> execute cx program ta = Ok ta' -> lamports_ok (ta_accounts ta').
Proof.
  intros Hs Hok H. unfold execute, pop in H. pinv. hyp (program _ = Ok _) as Hp.
  apply Hs in Hp as [[Hm Hr] _]; [|by split].
  hyp (deserialize_parameters _ _ _ = Ok _) as Hd. apply deserialize_parameters_allowed in Hd as [_ _ _ R]; auto.
Qed.

(** The balances the program leaves in its memory are those of the
    transaction; so the program, too, conserves the lamports. *)
Lemma execute_total (program : M unit) ta ta' s :
  safe program -> confined cx program -> lamports_ok (ta_accounts ta) -> ta_lamports_delta ta = 0 ->
  execute cx program ta = Ok ta' -> program (mkPState (ta_accounts ta) ta) = Ok (tt, s) ->
  (forall k, ~ passed cx k -> get_acc (mem s) k = get_acc (ta_accounts ta) k) ->
  total_lamports (mem s) = total_lamports (ta_accounts ta).
Proof.
  intros Hs Hc Hok Hd H Hrun Hf. rewrite <- (execute_conserves cx program ta ta') by done.
  apply execute_result in H as (s1 & Hrun1 & _ & Hp & Hn); [|done..].
  rewrite Hrun in Hrun1. injection Hrun1 as <-. apply total_ext. intros k.
  destruct (decide (passed cx k)) as [Hk|Hk]; [by rewrite (proj1 (proj2 (Hp k Hk)))|].
  by rewrite (Hn k Hk), (Hf k Hk).
Qed.

(** A program whose changes of an account differ from what the transaction has
    owns that account: changes of foreign data are rejected. *)
Lemma execute_owned (program : M unit) ta ta' s k :
  safe program -> lamports_ok (ta_accounts ta) -> execute cx program ta = Ok ta' ->
  program (mkPState (ta_accounts ta) ta) = Ok (tt, s) -> passed cx k ->
  acc_data (get_acc (mem s) k) <> acc_data (get_acc (ta_accounts (rt s)) k) ->
  acc_owner (get_acc (ta_accounts (rt s)) k) = cx_program_id cx /\ writable_in (cx_accounts cx) k.
Proof.
  intros Hs Hok H Hp Hk Hne. unfold execute, pop in H. rewrite Hp in H. cbn [rbind] in H. pinv.
  apply Hs in Hp as Hps; [|by split]. destruct Hps as [[Hm Hr] _].
  hyp (deserialize_parameters _ _ _ = Ok _) as Hd.
  pose proof (deserialize_parameters_result _ _ _ k Hm Hr Hd) as Hres. rewrite decide_True in Hres by done.
  apply deserialize_parameters_allowed in Hd as [F R _ _]; [|done..]. split.
  - destruct (decide (acc_owner (get_acc (ta_accounts (rt s)) k) = cx_program_id cx)) as [|Hno]; [done|].
    destruct (F k Hno) as [Hsame _]. rewrite Hres in Hsame. by destruct Hne.
  - destruct (decide (writable_in (cx_accounts cx) k)) as [|Hno]; [done|].
    rewrite (R k Hno) in Hres. destruct Hne. by rewrite Hres.
Qed.
End ExecuteFrame.
#[export] Hint Resolve local_confined confined_bind confined_invoke_signed : psafe.

(** [k] signed the instruction. *)
Definition signed (cx : Ctx) (k : Pubkey) : Prop :=
  exists ia, ia ∈ cx_accounts cx /\ ia_key ia = k /\ ia_is_signer ia = true.

(** Establishes [safe], [local] and [confined] by the structure of a handler. *)
Ltac psafe_step :=
  cbv beta zeta;
  match goal with
  | |- safe (pbind (lift _) _) => apply safe_lift_bind; intros ? ?
  | |- safe (pbind _ _) => apply safe_bind; [|intros ?]
  | |- safe (write_lamports _ _) => apply safe_write_lamports; rinv; done || ilia
  | |- local (pbind _ _) => apply local_bind; [|intros ?]
  | |- confined _ (pbind (lift _) _) => apply confined_lift_bind; intros ? ?
  | |- confined _ (pbind _ _) => apply confined_bind; [| |intros ?]
  | |- safe (match ?x with _ => _ end) => destruct x
  | |- local (match ?x with _ => _ end) => destruct x
  | |- confined _ (match ?x with _ => _ end) => destruct x
  | _ => solve [eauto 4 with psafe]
  end.
Ltac psafe := repeat psafe_step.

(** Identifies the values read from the same account. *)
Ltac holds_eq :=
  repeat match goal with
  | H1 : holds ?m ?k ?a, H2 : holds ?m ?k ?b |- _ =>
      tryif constr_eq a b then clear H1
      else (let Heq := fresh in
            assert (Heq : a = b) by exact (holds_inj m k a b H1 H2); first [subst a|subst b|rewrite Heq in *; clear Heq])
  end.

(** Runs a program forward, leaving the conditions of its checks. *)
Ltac prun_atom :=
  first
    [ apply next_account_info_cons; split; reflexivity
    | apply account_ok; split; reflexivity
    | apply load_ok; split; [eassumption|reflexivity]
    | apply pret_ok; split; reflexivity
    | apply (write_lamports_ok _ _ _ tt); reflexivity
    | apply (fail_if_ok _ _ _ tt); split; [|reflexivity]
    | apply lift_ok; split; [|reflexivity]
    | apply (serialize_into_ok _ _ _ tt); split; [|reflexivity] ].
Ltac prun_step :=
  match goal with
  | |- pbind _ _ _ = Ok _ => apply pbind_ok; eexists _, _; split; [prun_atom|cbv beta iota]
  | _ => prun_atom
  end.
Ltac prun := repeat prun_step.

(** Closes the condition of a check that passes. *)
Ltac pcheck :=
  unfold negb; repeat first
    [ done
    | match goal with
      | H : ?b = _ |- context [if ?b then _ else _] => rewrite H
      | |- context [bool_decide ?P] => first [rewrite (bool_decide_true P) by done|rewrite (bool_decide_false P) by done]
      | |- context [?a =? ?b] => first [rewrite (proj2 (Z.eqb_eq a b)) by (done || lia)|rewrite (proj2 (Z.eqb_neq a b)) by (done || lia)]
      | |- context [?a <? ?b] => first [rewrite (proj2 (Z.ltb_lt a b)) by ilia|rewrite (proj2 (Z.ltb_ge a b)) by ilia]
      | |- context [?a <=? ?b] => first [rewrite (proj2 (Z.leb_le a b)) by ilia|rewrite (proj2 (Z.leb_gt a b)) by ilia]
      | |- ok_or (checked _ _ _) _ = Ok _ => rewrite checked_in by (done || ilia); reflexivity
      end ].

(** The same, in favour of the value [v]. *)
Ltac reads v :=
  repeat match goal with
  | Hv : holds ?m ?k v, H : holds ?m ?k ?x |- _ =>
      tryif constr_eq x v then fail
      else (let Heq := fresh in assert (Heq : x = v) by exact (holds_inj m k x v H Hv); clear H; subst x)
  end.

(** Names the value of type [A] a run has read, and the fact that it was. *)
Tactic Notation "read" constr(A) "as" ident(v) ident(H) :=
  match goal with X : @holds ?T _ _ _ ?x |- _ => constr_eq T A; rename x into v, X into H end.

(** ** Balances in the memory of the program *)

(** Debits and credits of the accounts [ks] change the total of the balances by
    [amount], up to the wrap-around, and nothing but those balances. *)
Record move_effect (ks : list Pubkey) (amount : Z) (s s' : PState) : Prop := {
  me_total : exists j, total_lamports (mem s') = total_lamports (mem s) + amount + 2 ^ 64 * j;
  me_data i : acc_data (get_acc (mem s') i) = acc_data (get_acc (mem s) i);
  me_frame i : i ∉ ks -> get_acc (mem s') i = get_acc (mem s) i;
}.

Lemma move_trans ks1 ks2 a1 a2 s1 s2 s3 :
  move_effect ks1 a1 s1 s2 -> move_effect ks2 a2 s2 s3 -> move_effect (ks1 ++ ks2) (a1 + a2) s1 s3.
Proof.
  intros [[j1 T1] D1 F1] [[j2 T2] D2 F2]. split.
  - exists (j1 + j2). lia.
  - intros i. by rewrite D2.
  - intros i Hi. rewrite not_elem_of_app in Hi. destruct Hi. by rewrite F2, F1.
Qed.

Lemma write_wrapped_effect ia amount s :
  move_effect [ia_key ia] amount s
    (mkPState (<[ia_key ia := set_acc_lamports (as_u64 (acc_lamports (get_acc (mem s) (ia_key ia)) + amount))
                                (get_acc (mem s) (ia_key ia))]> (mem s)) (rt s)).
Proof.
  split; simpl.
  - rewrite total_insert. simpl. unfold as_u64. set (z := acc_lamports (get_acc (mem s) (ia_key ia)) + amount).
    pose proof (Z.div_mod z (2 ^ 64)). exists (- (z / 2 ^ 64)). lia.
  - intros i. apply set_lamports_data.
  - intros i Hi. rewrite not_elem_of_cons in Hi. destruct Hi. by rewrite get_acc_insert_ne.
Qed.

Lemma debit_ok ia amount s u s' : debit ia amount s = Ok (u, s') -> move_effect [ia_key ia] (- amount) s s'.
Proof. intros H. unfold debit in H. pinv. apply write_wrapped_effect. Qed.

Lemma credit_ok ia amount s u s' : credit ia amount s = Ok (u, s') -> move_effect [ia_key ia] amount s s'.
Proof. intros H. unfold credit in H. pinv. apply write_wrapped_effect. Qed.

Lemma safe_debit ia a : safe (debit ia a).
Proof. unfold debit. apply safe_bind; [psafe|]. intros b. apply safe_write_lamports, as_u64_range. Qed.
Lemma safe_credit ia a : safe (credit ia a).
Proof. unfold credit. apply safe_bind; [psafe|]. intros b. apply safe_write_lamports, as_u64_range. Qed.
Lemma local_debit ia a : local (debit ia a).
Proof. unfold debit. psafe. Qed.
Lemma local_credit ia a : local (credit ia a).
Proof. unfold credit. psafe. Qed.
#[export] Hint Resolve safe_debit safe_credit local_debit local_credit : psafe.

Lemma stored_total {A} `{Borsh A} (v : A) k m : total_lamports (stored v k m) = total_lamports m.
Proof. apply total_ext. intros j. apply stored_lamports. Qed.

(** ** Paying out an account *)

Definition drained (vault receive : Pubkey) (m : gmap Pubkey Account) : gmap Pubkey Account :=
  let m1 := <[vault := set_acc_lamports 0 (get_acc m vault)]> m in
  <[receive := set_acc_lamports (acc_lamports (get_acc m1 receive) + acc_lamports (get_acc m vault)) (get_acc m1 receive)]> m1.

(** What the receiving account holds once the vault is empty. *)
Definition received (vault receive : Pubkey) (m : gmap Pubkey Account) : Z :=
  (if decide (vault = receive) then 0 else acc_lamports (get_acc m receive)) + acc_lamports (get_acc m vault).

Lemma drain_into_ok e va re s u s' :
  drain_into e va re s = Ok (u, s') <->
  is_u64 (received (ia_key va) (ia_key re) (mem s)) /\ s' = mkPState (drained (ia_key va) (ia_key re) (mem s)) (rt s).
Proof.
  assert (Hrec : acc_lamports (get_acc (<[ia_key va := set_acc_lamports 0 (get_acc (mem s) (ia_key va))]> (mem s)) (ia_key re)) +
    acc_lamports (get_acc (mem s) (ia_key va)) = received (ia_key va) (ia_key re) (mem s)).
  { unfold received. rewrite get_acc_insert. by case_decide. }
  unfold drain_into. split.
  - intros H. pinv. simpl in *. rewrite Hrec in *. split; [done|]. unfold drained. by rewrite Hrec.
  - intros [Hr ->]. unfold drained. rewrite Hrec. destruct u. prun. cbn [mem]. rewrite Hrec, checked_in by done. done.
Qed.

Lemma safe_drain_into e va re : safe (drain_into e va re).
Proof.
  intros s u s' [Hm Hr] H. apply drain_into_ok in H as [Hu ->]. split; [|by apply balanced_refl]. split; [|done].
  assert (lamports_ok (<[ia_key va := set_acc_lamports 0 (get_acc (mem s) (ia_key va))]> (mem s))).
  { apply lamports_ok_insert; [done|simpl; ilia]. }
  apply lamports_ok_insert; [done|]. simpl. rewrite get_acc_insert. unfold received in Hu. by case_decide.
Qed.

Lemma local_drain_into e va re : local (drain_into e va re).
Proof. intros s u s' H. by apply drain_into_ok in H as [_ ->]. Qed.
#[export] Hint Resolve safe_drain_into local_drain_into : psafe.

Lemma drained_data vault receive m k : acc_data (get_acc (drained vault receive m) k) = acc_data (get_acc m k).
Proof. unfold drained. rewrite !get_acc_insert. by repeat case_decide; subst. Qed.

Lemma drained_owner vault receive m k : acc_owner (get_acc (drained vault receive m) k) = acc_owner (get_acc m k).
Proof. unfold drained. rewrite !get_acc_insert. by repeat case_decide; subst. Qed.
