(* ===== verification/Concrete.v ===== *)
(** * Concrete: an environment to evaluate the models in

    An instance of [Env] with its laws: a polynomial hash stands for SHA-256
    and for the derivation of addresses, the instructions of the system program
    are encoded as [bincode] encodes them, the rent is that of mainnet, and a
    program other than the system program does nothing.  The file is used to
    show that the hypotheses of the theorems can hold and to run the models on
    concrete accounts. *)

From Stdlib Require Import Strings.Byte.
From S2P Require Import Prelude Borsh Accounts System Invoke Execution.
Open Scope Z_scope.

Definition hash (bs : list byte) : Z :=
  fold_left (fun acc b => (acc * 257 + Z_of_byte b + 1) mod 18446744073709551616) bs 0.

Definition derive (seeds : list (list byte)) (program_id : Pubkey) : Pubkey :=
  hash (concat seeds ++ key_bytes program_id).

Definition codec_create : codec (Z * (Z * Z)) := codec_pair (codec_uint 8) (codec_pair (codec_uint 8) codec_pubkey).

Definition encode (ix : SystemInstruction) : list byte :=
  match ix with
  | CreateAccount lamports space owner => le_bytes 4 0 ++ c_ser codec_create (lamports, (space, owner))
  | Transfer lamports => le_bytes 4 2 ++ c_ser (codec_uint 8) lamports
  | _ => []
  end.

Definition decode (bs : list byte) : option SystemInstruction :=
  '(tag, t) ← take_bytes 4 bs;
  if le_val tag =? 0 then
    match c_de codec_create t with Some ((l, (s, o)), []) => Some (CreateAccount l s o) | _ => None end
  else if le_val tag =? 2 then
    match c_de (codec_uint 8) t with Some (l, []) => Some (Transfer l) | _ => None end
  else None.

#[global] Instance demo_env : Env := {|
  find_program_address seeds program_id := (derive (seeds ++ [[byte_of_Z 255]]) program_id, 255);
  create_program_address seeds program_id := Some (derive seeds program_id);
  create_with_seed base seed owner := Ok (hash (key_bytes base ++ seed ++ key_bytes owner));
  sha256 bs := le_bytes 32 (hash bs);
  minimum_balance space := clamp 0 U64_MAX ((space + 128) * 6960);
  clock_id := 6;
  rent_id := 7;
  system_instruction_encode := encode;
  system_instruction_decode := decode;
  cpi_not_supported _ _ := false;
  exec_program _ _ _ ta := Ok ta;
|}.

Lemma codec_create_laws : codec_laws codec_create.
Proof. unfold codec_create. auto with codec. Qed.

#[global] Instance demo_env_laws : EnvLaws.
Proof.
  split; cbn [demo_env find_program_address create_program_address system_instruction_decode
    system_instruction_encode cpi_not_supported minimum_balance].
  - intros l s o Hl Hs Ho. unfold encode, decode.
    pose proof (take_bytes_app (le_bytes 4 0) (c_ser codec_create (l, (s, o)))) as Ht.
    rewrite length_le_bytes in Ht. rewrite Ht. cbn [mbind option_bind].
    pose proof (c_de_ser codec_create codec_create_laws (l, (s, o)) []) as Hd. rewrite app_nil_r in Hd.
    rewrite le_val_bytes by lia. rewrite Z.eqb_refl, Hd; [done|]. simpl. unfold_ints.
    change (256 ^ Z.of_nat 8) with (2 ^ 64). lia.
  - intros l Hl. unfold encode, decode.
    pose proof (take_bytes_app (le_bytes 4 2) (c_ser (codec_uint 8) l)) as Ht.
    rewrite length_le_bytes in Ht. rewrite Ht. cbn [mbind option_bind].
    pose proof (c_de_ser (codec_uint 8) (codec_uint_laws 8) l []) as Hd. rewrite app_nil_r in Hd.
    rewrite le_val_bytes by lia. rewrite Hd; [done|]. simpl. change (256 ^ Z.of_nat 8) with (2 ^ 64). ilia.
  - intros seeds p pda bump [= <- <-]. split; [ilia|done].
  - done.
  - intros space. apply clamp_range. ilia.
Qed.

#[global] Instance demo_exec_laws : ExecLaws.
Proof.
  split; cbn [demo_env exec_program]; [|by intros p ias d ta ta' k [= <-]].
  intros p ias d ta ta' Hok [= <-]. by apply balanced_refl.
Qed.

(** A store given by its accounts. *)
Definition store (l : list (Pubkey * Account)) : gmap Pubkey Account := list_to_map l.

(** A context in which program [program] runs on [accounts] at time [t]. *)
Definition demo_ctx (program : Pubkey) (accounts : list AccountInfo) (t : Z) (len : Pubkey -> Z) : Ctx :=
  mkCtx program accounts [] (mkClock 0 0 0 0 t) len.

Lemma lamports_ok_store l : Forall (fun p => is_u64 (acc_lamports p.2)) l -> lamports_ok (store l).
Proof.
  induction 1 as [|[k a] l Ha _ IH]; intros j; [by split; vm_compute|].
  unfold store in *. simpl. rewrite get_acc_insert. case_decide; [done|apply IH].
Qed.

Lemma data_bound_store n l k : 0 <= n -> Forall (fun p => zlen (acc_data p.2) <= n) l -> zlen (acc_data (get_acc (store l) k)) <= n.
Proof.
  intros Hn. induction 1 as [|[j a] l Ha _ IH]; [done|].
  unfold store in *. simpl. rewrite get_acc_insert. case_decide; [done|apply IH].
Qed.

(** Closes conjunctions of facts about closed terms by evaluation. *)
Ltac evaluate :=
  first [vm_compute; reflexivity|vm_compute; let H := fresh in intros H; discriminate H|split; evaluate].
