(* ===== verification/Cpi.v ===== *)
(** * Cpi: calls of the system program from an on-chain program

    The exact effect of [invoke_signed] on the two instructions the Prism
    programs send to the system program (creating an account, transferring), as the composition of the privilege
    check, the exchange of the accounts and the system program. *)

From Stdlib Require Import Strings.Byte.
From S2P Require Import Prelude Borsh Accounts System Invoke Execution.
Open Scope Z_scope.

(** A caller account that may be passed on as a writable signer. *)
Definition may_sign (cx : Ctx) (signers : list Pubkey) (k : Pubkey) : Prop :=
  exists i c, find_account (cx_accounts cx) k = Some (i, c) /\ ia_is_writable c = true /\
    (ia_is_signer c = true \/ contains signers k = true).

Section Cpi.
Context {E : Env} {L : EnvLaws} (cx : Ctx).
Context (from to : Pubkey) (infos : list AccountInfo) (seeds : list (list (list byte))).
Context (s : PState) (af at_ : Account).
Context (Hf : ta_accounts (rt s) !! from = Some af) (Ht : ta_accounts (rt s) !! to = Some at_).
Context (Hmf : mem s !! from = Some af) (Hmt : mem s !! to = Some at_).
Context (Hne : from <> to) (Haf : is_u64 (acc_lamports af)) (Hat : is_u64 (acc_lamports at_)).
Context (Hxf : acc_executable af = false) (Hxt : acc_executable at_ = false).
Context (Hd : ta_lamports_delta (rt s) = 0) (Hrd : is_i64 (ta_resize_delta (rt s))).
Context (Hsys : contains (cx_callers cx ++ [cx_program_id cx]) system_program_id = false).

Lemma find_account_pair (fs fw ts tw : bool) k :
  find_account [mkIA from fs fw; mkIA to ts tw] k =
  if decide (from = k) then Some (0%nat, mkIA from fs fw)
  else if decide (to = k) then Some (1%nat, mkIA to ts tw) else None.
Proof. unfold find_account. simpl. repeat case_decide; done. Qed.

(** Closes an equivalence whose left side is a failed run. *)
Ltac absurd_iff :=
  split; [done|]; intros;
  repeat match goal with
  | H : _ /\ _ |- _ => destruct H
  | H : exists _, _ |- _ => destruct H
  | H : is_Some _ |- _ => destruct H
  | H : _ \/ _ |- _ => destruct H
  end; simplify_eq; try congruence.

(** The privilege check of an instruction on two different accounts. *)
Lemma prepare_pair prog data (ts : bool) signers ias :
  prepare_next_cpi_instruction (cx_accounts cx)
    (mkInstruction prog [mkIA from true true; mkIA to ts true] data) signers (rt s) = Ok ias <->
  (may_sign cx signers from /\
   (exists i c, find_account (cx_accounts cx) to = Some (i, c) /\ ia_is_writable c = true /\
      (ts = true -> ia_is_signer c = true \/ contains signers to = true)) /\
   is_Some (find_account (cx_accounts cx) prog)) /\
  ias = [mkIA from true true; mkIA to ts true].
Proof.
  unfold prepare_next_cpi_instruction. simpl.
  unfold merge_meta at 1. simpl. rewrite Hf. simpl.
  unfold merge_meta. simpl. rewrite Ht.
  assert (find_account [mkIA from true true] to = None) as ->.
  { unfold find_account. simpl. by case_decide. }
  simpl. unfold check_privileges, may_sign. simpl. rewrite !find_account_pair.
  rewrite (decide_False (P := from = to)) by done. rewrite !decide_True by done. simpl.
  destruct (find_account (cx_accounts cx) from) as [[i cf]|]; simpl; [|absurd_iff].
  destruct (ia_is_writable cf) eqn:E1; simpl; [|absurd_iff].
  destruct (ia_is_signer cf || contains signers from) eqn:E2; simpl.
  2:{ apply orb_false_iff in E2 as [??]. absurd_iff. }
  apply orb_true_iff in E2.
  destruct (find_account (cx_accounts cx) to) as [[j ct]|]; simpl; [|absurd_iff].
  destruct (ia_is_writable ct) eqn:E3; simpl; [|absurd_iff].
  destruct (ts && negb (ia_is_signer ct || contains signers to)) eqn:E4; simpl.
  { apply andb_true_iff in E4 as [-> [??]%negb_true_iff%orb_false_iff].
    split; [done|]. intros [(_ & (? & ? & Hs & _ & [?|?]) & _) _]; simplify_eq; done || congruence. }
  assert (Hts : ts = true -> ia_is_signer ct = true \/ contains signers to = true).
  { intros ->. simpl in E4. apply negb_false_iff, orb_true_iff in E4. done. }
  destruct (find_account (cx_accounts cx) prog) as [r|]; simpl; [|absurd_iff].
  split; [intros [= <-]|intros [_ ->]; done].
  split; [|done]. split_and!; [by eexists _, _|by eexists _, _|by eexists].
Qed.

(** Accounts the caller has not changed are passed on as they are. *)
Lemma update_callee_account_id ia a ta :
  ta_accounts ta !! ia_key ia = Some a -> is_i64 (ta_resize_delta ta) ->
  update_callee_account (cx_program_id cx) ia a ta = Ok ta.
Proof.
  intros Ha Hr. unfold update_callee_account, write_back_lamports, write_back_owner, write_back_data.
  unfold get_lamports. rewrite (get_account_in _ _ _ Ha), Z.eqb_refl. simpl.
  assert (Hid : set_data_from_slice (cx_program_id cx) ia (acc_data a) ta = Ok ta \/
    exists e, can_data_be_resized (cx_program_id cx) ia (zlen (acc_data a)) ta = Err e).
  { unfold set_data_from_slice. destruct (can_data_be_resized _ _ _ _) as [u|e]; [left|right; by exists e].
    simpl. unfold with_data, update_accounts_resize_delta, put_account, get_data. simpl.
    rewrite (get_account_in _ _ _ Ha). unfold get_account. simpl. unfold get_acc. rewrite Ha. simpl.
    destruct ta as [m r d], a as [x y z w]. simpl in *. rewrite insert_id by done.
    do 2 f_equal. rewrite Z.sub_diag. unfold clamp. ilia. }
  destruct (can_data_be_resized _ _ _ _) as [u|e]; simpl.
  - destruct Hid as [-> |[e He]]; [|done]. simpl.
    unfold get_owner. rewrite (get_account_in _ _ _ Ha), Z.eqb_refl. done.
  - unfold get_data. rewrite (get_account_in _ _ _ Ha), bool_decide_true by done. simpl.
    unfold get_owner. rewrite (get_account_in _ _ _ Ha), Z.eqb_refl. done.
Qed.

Lemma mem_acc m k a : m !! k = Some a -> get_acc m k = a.
Proof. unfold get_acc. by intros ->. Qed.

Lemma translate_pair (ts : bool) st :
  (exists r, find_account (cx_accounts cx) from = Some r) ->
  (exists r, find_account (cx_accounts cx) to = Some r) ->
  foldM (translate_account cx infos (mem s)) (rt s, [])
    (dedup_accounts [] [mkIA from true true; mkIA to ts true]) = Ok st <->
  (is_Some (find_account infos from) /\ is_Some (find_account infos to)) /\
  st = (rt s, [mkIA from true true; mkIA to ts true]).
Proof.
  intros [[i cf] Hcf] [[j ct] Hct].
  assert (Hdd : dedup_accounts [] [mkIA from true true; mkIA to ts true] = [mkIA from true true; mkIA to ts true]).
  { simpl. rewrite (proj2 (Z.eqb_neq to from)) by congruence. done. }
  rewrite Hdd. simpl. unfold translate_account; simpl.
  apply find_account_some in Hcf as Hkf. apply find_account_some in Hct as Hkt.
  destruct Hkf as [_ Hkf], Hkt as [_ Hkt].
  rewrite Hcf, Hct. simpl. rewrite !(mem_acc _ _ _ Hf), Hxf, (mem_acc _ _ _ Hmf), (mem_acc _ _ _ Hmt).
  destruct (find_account infos from); simpl; [|absurd_iff].
  rewrite update_callee_account_id by (rewrite ?Hkf; done). simpl.
  rewrite (mem_acc _ _ _ Ht), Hxt.
  destruct (find_account infos to); simpl; [|absurd_iff].
  rewrite update_callee_account_id by (rewrite ?Hkt; done). simpl.
  split; [intros [= <-]; by repeat split|by intros [_ ->]].
Qed.

(** The state after the creation of [to] by [from]. *)
Definition created_state (lamports space : Z) (owner : Pubkey) : PState :=
  let upd m := <[to := mkAccount lamports (replicate (Z.to_nat space) Byte.x00) owner false]>
                 (<[from := set_acc_lamports (acc_lamports af - lamports) af]> m) in
  mkPState (upd (mem s)) (mkTA (upd (ta_accounts (rt s))) (ta_resize_delta (rt s) + space) 0).

Record cpi_create_guard (signers : list Pubkey) (lamports space : Z) : Prop := {
  ccg_from : may_sign cx signers from;
  ccg_to : may_sign cx signers to;
  ccg_program : is_Some (find_account (cx_accounts cx) system_program_id);
  ccg_infos : is_Some (find_account infos from) /\ is_Some (find_account infos to);
  ccg_unused : acc_lamports at_ = 0 /\ acc_data at_ = [] /\ acc_owner at_ = system_program_id;
  ccg_payer : acc_data af = [] /\ (lamports = 0 \/ acc_owner af = system_program_id) /\ lamports <= acc_lamports af;
  ccg_space : space <= MAX_PERMITTED_DATA_LENGTH /\
    ta_resize_delta (rt s) + space <= MAX_ACCOUNT_DATA_GROWTH_PER_TRANSACTION;
  ccg_growth : space = 0 \/ space <= cx_original_len cx to + MAX_PERMITTED_DATA_INCREASE;
}.

Lemma update_caller_pair lamports space owner memory' :
  acc_data at_ = [] -> acc_data af = [] -> 0 <= space ->
  foldM (update_caller_account cx (rt (created_state lamports space owner))) (mem s)
    [mkIA from true true; mkIA to true true] = Ok memory' <->
  (space = 0 \/ space <= cx_original_len cx to + MAX_PERMITTED_DATA_INCREASE) /\
  memory' = mem (created_state lamports space owner).
Proof.
  intros Hat0 Haf0 Hsp. simpl. unfold update_caller_account at 1. simpl.
  rewrite get_acc_insert_ne, get_acc_insert_eq, (mem_acc _ _ _ Hmf) by congruence. simpl.
  rewrite Z.eqb_refl, andb_false_r. simpl. rewrite Hxf.
  unfold update_caller_account. simpl. rewrite get_acc_insert_eq, get_acc_insert_ne, (mem_acc _ _ _ Hmt) by done.
  simpl. rewrite Hat0, Hxt. unfold zlen. simpl. rewrite length_replicate, Z2Nat.id by done.
  change (Z.of_nat 0) with 0.
  destruct (Z.ltb_spec (cx_original_len cx to + MAX_PERMITTED_DATA_INCREASE) space); simpl.
  - destruct (Z.eqb_spec 0 space); simpl; [|split; [done|lia]].
    split; [intros [= <-]|intros [_ ->]]; [split; [lia|]|];
      unfold set_acc_lamports; by rewrite Haf0, Hxf.
  - split; [intros [= <-]|intros [_ ->]]; [split; [lia|]|];
      unfold set_acc_lamports; by rewrite Haf0, Hxf.
Qed.

(** [invoke_signed] of [create_account] succeeds exactly when the new account
    is unused, the payer can pay, and both may sign; it then has exactly the
    effect of the system program. *)
Lemma invoke_create_account lamports space owner s' :
  is_u64 lamports -> is_u64 space -> is_pubkey owner ->
  invoke_signed cx (create_account_ix from to lamports space owner) infos seeds s = Ok (tt, s') <->
  (exists signers, derive_signers cx seeds = Ok signers /\ cpi_create_guard signers lamports space) /\
  s' = created_state lamports space owner.
Proof.
  intros Hl Hsp64 Ho. assert (Hsp : 0 <= space) by ilia. unfold invoke_signed, create_account_ix. simpl.
  destruct (derive_signers cx seeds) as [signers|e] eqn:Hds; simpl; [|absurd_iff].
  rewrite system_supported. simpl.
  set (pair := [mkIA from true true; mkIA to true true]).
  pose proof (create_account_iff create_with_seed (mkIA from true true) (mkIA to true true) [] (rt s) af at_
    Hf Ht Hne Haf Hat Hrd lamports space owner) as Hsp_iff.
  assert (Hcr : account_created (mkIA from true true) (mkIA to true true) (rt s) af at_ lamports space owner
    = rt (created_state lamports space owner)).
  { unfold account_created, created_state. simpl. by rewrite Hxt, Hd. }
  split.
  - intros H. pinv.
    hyp (prepare_next_cpi_instruction _ _ _ _ = Ok _) as Hp. apply prepare_pair in Hp as [(P1 & P2 & P3) ->].
    hyp (foldM (translate_account _ _ _) _ _ = Ok _) as Htr.
    apply translate_pair in Htr as [[I1 I2] [= -> ->]]; [|destruct P1 as (? & ? & ? & _); by eexists|destruct P2 as (? & ? & ? & _); by eexists].
    hyp (process_callee _ _ _ _ _ = Ok _) as Hpc. unfold process_callee, push, pop in Hpc. pinv.
    rewrite Z.eqb_refl, decode_create_account in * by done.
    hyp (system_process _ _ _ _ = Ok _) as Hsys'. apply Hsp_iff in Hsys' as [G ->]; [|done..].
    rewrite Hcr in *. destruct G.
    hyp (foldM (update_caller_account _ _) _ _ = Ok _) as Hu. apply update_caller_pair in Hu as [? ->]; [|done..].
    split; [|by destruct (created_state lamports space owner)].
    exists signers. split; [done|]. split; try done.
    destruct P2 as (i & c & ? & ? & Hs). exists i, c. split_and!; [done|done|by apply Hs].
  - intros [(signers' & [= <-] & G) ->]. destruct G as [Gf Gt Gp [Gi1 Gi2] (Gu1 & Gu2 & Gu3) (Gy1 & Gy2 & Gy3) [Gs1 Gs2] Gg].
    assert (prepare_next_cpi_instruction (cx_accounts cx) (mkInstruction system_program_id pair
      (system_instruction_encode (CreateAccount lamports space owner))) signers (rt s) = Ok pair) as ->.
    { apply prepare_pair. split; [|done]. split_and!; [done| |done].
      destruct Gt as (i & c & ? & ? & ?). by exists i, c. }
    cbn [rbind].
    assert (foldM (translate_account cx infos (mem s)) (rt s, []) (dedup_accounts [] pair) = Ok (rt s, pair)) as ->.
    { apply translate_pair; [destruct Gf as (? & ? & ? & _); by eexists|destruct Gt as (? & ? & ? & _); by eexists|].
      done. }
    cbn [rbind]. unfold process_callee, push, pop. rewrite Hsys, Hd.
    cbn [rbind err_if andb negb]. rewrite !Z.eqb_refl, decode_create_account by done. cbn [rbind err_if andb negb].
    assert (system_process create_with_seed pair (CreateAccount lamports space owner) (rt s)
      = Ok (rt (created_state lamports space owner))) as Hrun.
    { apply Hsp_iff; [done..|]. split; [|by rewrite Hcr]. split; try done; simpl.
      unfold get_signers. simpl. rewrite Z.eqb_refl. by rewrite orb_true_r. }
    rewrite Hrun. cbn [rbind]. change (ta_lamports_delta (rt (created_state lamports space owner))) with 0.
    rewrite Z.eqb_refl. cbn [rbind err_if negb].
    assert (foldM (update_caller_account cx (rt (created_state lamports space owner))) (mem s) pair
      = Ok (mem (created_state lamports space owner))) as Hup by (by apply update_caller_pair).
    rewrite Hup. done.
Qed.
End Cpi.

(** The two accounts of a creation as the program finds them. *)
Record create_ready (cx : Ctx) (s : PState) (from to : Pubkey) (af at_ : Account) : Prop := {
  ready_rt_from : ta_accounts (rt s) !! from = Some af;
  ready_rt_to : ta_accounts (rt s) !! to = Some at_;
  ready_mem_from : mem s !! from = Some af;
  ready_mem_to : mem s !! to = Some at_;
  ready_ne : from <> to;
  ready_lamports : is_u64 (acc_lamports af) /\ is_u64 (acc_lamports at_);
  ready_executable : acc_executable af = false /\ acc_executable at_ = false;
  ready_delta : ta_lamports_delta (rt s) = 0 /\ is_i64 (ta_resize_delta (rt s));
  ready_system : contains (cx_callers cx ++ [cx_program_id cx]) system_program_id = false;
}.

Lemma create_account_effect {E : Env} {L : EnvLaws} cx from to infos seeds s af at_ lamports space owner u s' :
  create_ready cx s from to af at_ -> is_u64 lamports -> is_u64 space -> is_pubkey owner ->
  invoke_signed cx (create_account_ix from to lamports space owner) infos seeds s = Ok (u, s') ->
  s' = created_state from to s af lamports space owner /\
  exists signers, derive_signers cx seeds = Ok signers /\ cpi_create_guard cx from to infos s af at_ signers lamports space.
Proof.
  intros [R1 R2 R3 R4 R5 [R6 R7] [R8 R9] [R10 R11] R12] Hl Hs Ho H. destruct u.
  eapply invoke_create_account in H; try done. naive_solver.
Qed.

Section Created.
Context {E : Env} (cx : Ctx) (from to : Pubkey) (s : PState) (af at_ : Account) (lamports space : Z) (owner : Pubkey).
Context (R : create_ready cx s from to af at_).

Lemma created_data j :
  j <> to -> acc_data (get_acc (mem (created_state from to s af lamports space owner)) j) = acc_data (get_acc (mem s) j).
Proof.
  intros Hj. simpl. rewrite get_acc_insert_ne by done. rewrite get_acc_insert. case_decide; [|done].
  subst. by rewrite (mem_acc _ _ _ (ready_mem_from _ _ _ _ _ _ R)).
Qed.

Lemma created_to : get_acc (mem (created_state from to s af lamports space owner)) to =
  mkAccount lamports (replicate (Z.to_nat space) Byte.x00) owner false.
Proof. simpl. by rewrite get_acc_insert_eq. Qed.

Lemma created_from : from <> to ->
  get_acc (mem (created_state from to s af lamports space owner)) from = set_acc_lamports (acc_lamports af - lamports) af.
Proof. intros Hne. simpl. by rewrite get_acc_insert_ne, get_acc_insert_eq by congruence. Qed.

Lemma created_ne j : j <> from -> j <> to ->
  get_acc (mem (created_state from to s af lamports space owner)) j = get_acc (mem s) j.
Proof. intros. simpl. by rewrite !get_acc_insert_ne by congruence. Qed.
End Created.

(** A second creation by the same payer finds the accounts ready too. *)
Lemma create_ready_next cx s from to af at_ lamports space owner to' at' :
  create_ready cx s from to af at_ -> 0 <= lamports <= acc_lamports af -> is_i64 (ta_resize_delta (rt s) + space) ->
  ta_accounts (rt s) !! to' = Some at' -> mem s !! to' = Some at' -> from <> to' -> to <> to' ->
  is_u64 (acc_lamports at') -> acc_executable at' = false ->
  create_ready cx (created_state from to s af lamports space owner) from to'
    (set_acc_lamports (acc_lamports af - lamports) af) at'.
Proof.
  intros [R1 R2 R3 R4 R5 [R6 R7] [R8 R9] [R10 R11] R12] Hl Hs H1 H2 Hf Ht Hat Hx.
  split; simpl; try done.
  - by rewrite lookup_insert_ne, lookup_insert_eq by congruence.
  - by rewrite !lookup_insert_ne by congruence.
  - by rewrite lookup_insert_ne, lookup_insert_eq by congruence.
  - by rewrite !lookup_insert_ne by congruence.
  - split; [ilia|done].
Qed.

(** Two accounts created by the same payer, one after the other. *)
Lemma create_pair_effect {E : Env} {L : EnvLaws} {cx from a b infos1 infos2 seeds1 seeds2 s af aa ab l1 sp1 l2 sp2 owner u1 s1 u2 s2} :
  invoke_signed cx (create_account_ix from a l1 sp1 owner) infos1 seeds1 s = Ok (u1, s1) ->
  invoke_signed cx (create_account_ix from b l2 sp2 owner) infos2 seeds2 s1 = Ok (u2, s2) ->
  create_ready cx s from a af aa -> create_ready cx s from b af ab -> a <> b ->
  is_u64 l1 -> is_u64 sp1 -> is_u64 l2 -> is_u64 sp2 -> is_pubkey owner ->
  s2 = created_state from b (created_state from a s af l1 sp1 owner) (set_acc_lamports (acc_lamports af - l1) af) l2 sp2 owner /\
  s1 = created_state from a s af l1 sp1 owner /\
  create_ready cx s1 from b (set_acc_lamports (acc_lamports af - l1) af) ab /\
  acc_data aa = [] /\ acc_data ab = [].
Proof.
  intros C1 C2 Ra Rb Hne H1 H2 H3 H4 Ho.
  eapply create_account_effect in C1 as [Hs1 (? & _ & [_ _ _ _ (_ & Hea & _) (_ & _ & Hbal) [_ Hgrow] _])]; try done. subst s1.
  assert (Hrd : is_i64 (ta_resize_delta (rt s) + sp1)).
  { destruct Ra as [_ _ _ _ _ _ _ [_ Hrd] _]. unfold MAX_ACCOUNT_DATA_GROWTH_PER_TRANSACTION, MAX_ACCOUNT_DATA_LEN in *. ilia. }
  assert (R2 : create_ready cx (created_state from a s af l1 sp1 owner) from b (set_acc_lamports (acc_lamports af - l1) af) ab).
  { destruct Rb as [?????[??][??]??]. by eapply create_ready_next; try done; try ilia. }
  eapply create_account_effect in C2 as [Hs2 (? & _ & [_ _ _ _ (_ & Heb & _) _ _ _])]; try done.
  by split_and!.
Qed.

(** The accounts a creation finds: the payer, and the unused addresses of the
    record and of the account of its funds. *)
Record create_accounts (cx : Ctx) (s : PState) (payer rc fu : AccountInfo) (ap ar af : Account) : Prop := {
  ca_accounts : exists sys rest, cx_accounts cx = payer :: rc :: fu :: sys :: rest;
  ca_record : create_ready cx s (ia_key payer) (ia_key rc) ap ar;
  ca_funds : create_ready cx s (ia_key payer) (ia_key fu) ap af;
  ca_distinct : ia_key rc <> ia_key fu;
  ca_program : is_pubkey (cx_program_id cx) /\ is_pubkey (ia_key payer);
  ca_now : is_i64 (unix_timestamp (cx_clock cx));
}.

(** A record and the account of its funds, created by the same payer, after the
    record has been written. *)
Lemma create_funded_record {E : Env} {L : EnvLaws} {A} {BA : Borsh A} {WA : WellTyped A} {LA : BorshLaws A} {n : Z}
    {ZA : BorshSized A n} {cx from a b infos1 infos2 seeds1 seeds2 s af aa ab l1 l2 owner u1 s1 u2 s2} (v : A) :
  invoke_signed cx (create_account_ix from a l1 n owner) infos1 seeds1 s = Ok (u1, s1) ->
  invoke_signed cx (create_account_ix from b l2 0 owner) infos2 seeds2 s1 = Ok (u2, s2) ->
  create_ready cx s from a af aa -> create_ready cx s from b af ab -> a <> b ->
  is_u64 l1 -> is_u64 n -> is_u64 l2 -> is_pubkey owner -> well_typed v ->
  let m := stored v a (mem s2) in
  holds m a v /\ acc_owner (get_acc m a) = owner /\ get_acc m b = mkAccount l2 [] owner false /\
  acc_lamports (get_acc m from) = acc_lamports af - l1 - l2.
Proof.
  intros C1 C2 Ra Rb Hne H1 Hn H2 Ho Hv m. subst m.
  destruct (create_pair_effect C1 C2 Ra Rb) as (-> & _); try done.
  destruct Ra as [_ _ _ _ Rne _ _ _ _], Rb as [_ _ _ _ Rve _ _ _ _]. split_and!.
  - apply holds_stored; [|done]. rewrite created_ne, created_to by congruence.
    unfold zlen. simpl. rewrite length_replicate. ilia.
  - by rewrite stored_owner, created_ne, created_to by congruence.
  - by rewrite stored_ne, created_to by congruence.
  - by rewrite stored_ne, created_from by congruence.
Qed.

(** ** Transfers *)

(** The state after [from] has sent [lamports] to [to]. *)
Definition moved_state (from to : Pubkey) (amount : Z) (s : PState) : PState :=
  mkPState (moved from to amount (mem s))
    (mkTA (moved from to amount (ta_accounts (rt s))) (ta_resize_delta (rt s)) 0).

Record cpi_transfer_guard (cx : Ctx) (from to : Pubkey) (infos : list AccountInfo) (af at_ : Account) (amount : Z) : Prop := {
  ctg_from : may_sign cx [] from;
  ctg_to : exists i c, find_account (cx_accounts cx) to = Some (i, c) /\ ia_is_writable c = true;
  ctg_program : is_Some (find_account (cx_accounts cx) system_program_id);
  ctg_infos : is_Some (find_account infos from) /\ is_Some (find_account infos to);
  ctg_payer : acc_data af = [] /\ (amount = 0 \/ acc_owner af = system_program_id) /\ amount <= acc_lamports af;
  ctg_range : acc_lamports at_ + amount <= U64_MAX;
}.

Lemma moved_pair from to amount m af at_ :
  m !! from = Some af -> m !! to = Some at_ -> from <> to ->
  moved from to amount m = <[to := set_acc_lamports (acc_lamports at_ + amount) at_]>
    (<[from := set_acc_lamports (acc_lamports af - amount) af]> m).
Proof. intros Hf Ht Hne. unfold moved. by rewrite get_acc_insert_ne, (mem_acc _ _ _ Hf), (mem_acc _ _ _ Ht). Qed.

Section Transfer.
Context {E : Env} {L : EnvLaws} (cx : Ctx) (from to : Pubkey) (infos : list AccountInfo).
Context (s : PState) (af at_ : Account) (R : create_ready cx s from to af at_) (amount : Z) (Ha : is_u64 amount).

Lemma update_caller_moved :
  foldM (update_caller_account cx (rt (moved_state from to amount s))) (mem s)
    [mkIA from true true; mkIA to false true] = Ok (mem (moved_state from to amount s)).
Proof using R.
  destruct R as [Hf Ht Hmf Hmt Hne _ [Hxf Hxt] _ _]. unfold moved_state. simpl.
  rewrite !(moved_pair from to amount _ af at_) by done. unfold update_caller_account at 1. simpl.
  rewrite get_acc_insert_ne, get_acc_insert_eq, (mem_acc _ _ _ Hmf) by congruence. simpl.
  rewrite Z.eqb_refl, andb_false_r. simpl. rewrite Hxf.
  unfold update_caller_account. simpl. rewrite get_acc_insert_eq, get_acc_insert_ne, (mem_acc _ _ _ Hmt) by done.
  simpl. rewrite Z.eqb_refl, andb_false_r. simpl. unfold set_acc_lamports. by rewrite Hxf, Hxt.
Qed.

Lemma system_transfer ta' :
  system_process create_with_seed [mkIA from true true; mkIA to false true] (Transfer amount) (rt s) = Ok ta' <->
  (acc_data af = [] /\ (amount = 0 \/ acc_owner af = system_program_id) /\ amount <= acc_lamports af /\
   acc_lamports at_ + amount <= U64_MAX) /\ ta' = rt (moved_state from to amount s).
Proof using R Ha.
  destruct R as [Hf Ht _ _ Hne [Haf Hat] _ [Hd _] _]. simpl. rewrite (moved_pair from to amount _ af at_) by done.
  rewrite (transfer_iff (mkIA from true true) (mkIA to false true) [] _ af at_ amount ta'); simpl; try done. naive_solver.
Qed.

(** [invoke] of [transfer] succeeds exactly when the payer may sign and can pay
    and the receiver is writable; it then moves the lamports. *)
Lemma invoke_transfer s' :
  invoke cx (transfer_ix from to amount) infos s = Ok (tt, s') <->
  cpi_transfer_guard cx from to infos af at_ amount /\ s' = moved_state from to amount s.
Proof using L R Ha.
  pose proof R as [Hf Ht Hmf Hmt Hne [Haf Hat] [Hxf Hxt] [Hd Hrd] Hsys].
  unfold invoke, invoke_signed, transfer_ix. simpl. rewrite system_supported. simpl.
  set (pair := [mkIA from true true; mkIA to false true]). split.
  - intros H. pinv.
    hyp (prepare_next_cpi_instruction _ _ _ _ = Ok _) as Hp. eapply prepare_pair in Hp as [(P1 & P2 & P3) ->]; try done.
    hyp (foldM (translate_account _ _ _) _ _ = Ok _) as Htr.
    eapply translate_pair in Htr as [[I1 I2] [= -> ->]]; try done;
      [|destruct P1 as (? & ? & ? & _); by eexists|destruct P2 as (? & ? & ? & _); by eexists].
    hyp (process_callee _ _ _ _ _ = Ok _) as Hpc. unfold process_callee, push, pop in Hpc. pinv.
    rewrite Z.eqb_refl, decode_transfer in * by done.
    hyp (system_process _ _ _ _ = Ok _) as Hsys'. apply system_transfer in Hsys' as [(G1 & G2 & G3 & G4) ->].
    hyp (foldM (update_caller_account _ _) _ _ = Ok _) as Hu. rewrite update_caller_moved in Hu. injection Hu as <-.
    split; [|done]. split; try done. destruct P2 as (i & c & ? & ? & _). by exists i, c.
  - intros [[Gf (i & c & Gt1 & Gt2) Gp [Gi1 Gi2] (G1 & G2 & G3) G4] ->].
    assert (prepare_next_cpi_instruction (cx_accounts cx) (mkInstruction system_program_id pair
      (system_instruction_encode (Transfer amount))) [] (rt s) = Ok pair) as ->.
    { eapply prepare_pair; try done. split; [|done]. split_and!; [done|by exists i, c|done]. }
    cbn [rbind].
    assert (foldM (translate_account cx infos (mem s)) (rt s, []) (dedup_accounts [] pair) = Ok (rt s, pair)) as ->.
    { eapply translate_pair; try done; [destruct Gf as (? & ? & ? & _); by eexists|by eexists]. }
    cbn [rbind]. unfold process_callee, push, pop. rewrite Hsys, Hd.
    cbn [rbind err_if andb negb]. rewrite !Z.eqb_refl, decode_transfer by done. cbn [rbind err_if andb negb].
    subst pair. rewrite (proj2 (system_transfer _) (conj (conj G1 (conj G2 (conj G3 G4))) eq_refl)). cbn [rbind].
    change (ta_lamports_delta (rt (moved_state from to amount s))) with 0.
    rewrite Z.eqb_refl. cbn [rbind err_if negb]. by rewrite update_caller_moved.
Qed.
End Transfer.

(** ** A call of the system program leaves the data of other programs alone *)

Section Foreign.
Context {E : Env} {X : ExecLaws} (cx : Ctx).

(** The translated accounts reach the callee as the caller left them. *)
Lemma translate_synced infos memory l ta st :
  foldM (translate_account cx infos memory) (ta, []) l = Ok st -> lamports_ok memory -> lamports_ok (ta_accounts ta) ->
  forall ia, ia ∈ st.2 -> acc_data (get_acc (ta_accounts st.1) (ia_key ia)) = acc_data (get_acc memory (ia_key ia)) /\
    acc_owner (get_acc (ta_accounts st.1) (ia_key ia)) = acc_owner (get_acc memory (ia_key ia)).
Proof.
  intros H Hm Hr.
  refine (proj1 (foldM_invariant (fun st : TransactionAccounts * list InstructionAccount =>
    (forall ia, ia ∈ st.2 -> acc_data (get_acc (ta_accounts st.1) (ia_key ia)) = acc_data (get_acc memory (ia_key ia)) /\
      acc_owner (get_acc (ta_accounts st.1) (ia_key ia)) = acc_owner (get_acc memory (ia_key ia))) /\
    lamports_ok (ta_accounts st.1)) _ _ _ _ _ _ H)); [|split; [intros ? []%not_elem_of_nil|done]].
  intros [t1 l1] [t2 l2] ib Hib [IH Hl] H1. unfold translate_account in H1. rinv. destruct x as [i c].
  hyp (find_account _ _ = Some _) as Hf. apply find_account_some in Hf as [_ Hkey].
  case_match; [by rinv|]. case_match; [|done]. rinv. simpl in *.
  hyp (update_callee_account _ _ _ _ = Ok _) as Hu.
  apply (update_callee_account_ok _ [c]) in Hu as [[_ _ _ R] U]; [|by left|apply Hm|done].
  split; [|by apply R]. intros ia Hia. rewrite U. case_decide as Hd.
  - simpl. rewrite Hkey in Hd. by rewrite Hd.
  - apply elem_of_app in Hia as [Hia|Hia%list_elem_of_singleton]; [by apply IH|]. subst. by rewrite Hkey in Hd.
Qed.

Lemma update_caller_source l ta memory memory' k :
  foldM (update_caller_account cx ta) memory l = Ok memory' ->
  get_acc memory' k = get_acc memory k \/
  (exists ia, ia ∈ l /\ ia_key ia = k) /\ acc_data (get_acc memory' k) = acc_data (get_acc (ta_accounts ta) k) /\
    acc_owner (get_acc memory' k) = acc_owner (get_acc (ta_accounts ta) k).
Proof.
  intros H. refine (foldM_invariant (fun m : gmap Pubkey Account => get_acc m k = get_acc memory k \/
    (exists ia, ia ∈ l /\ ia_key ia = k) /\ acc_data (get_acc m k) = acc_data (get_acc (ta_accounts ta) k) /\
    acc_owner (get_acc m k) = acc_owner (get_acc (ta_accounts ta) k)) _ _ _ _ _ _ H); [|by left].
  intros m1 m2 ia Hia IH H1. unfold update_caller_account in H1. case_match; rinv; [done|].
  rewrite get_acc_insert. case_decide as Hd; [|done]. right. subst. split; [by exists ia|done].
Qed.

(** Accounts of other programs keep their data and their owner. *)
Lemma invoke_system_keeps ix infos seeds s u s' k i :
  pstate_ok s -> ix_program_id ix = system_program_id -> system_instruction_decode (ix_data ix) = Some i ->
  invoke_signed cx ix infos seeds s = Ok (u, s') -> acc_owner (get_acc (mem s) k) <> system_program_id ->
  acc_data (get_acc (mem s') k) = acc_data (get_acc (mem s) k) /\
  acc_owner (get_acc (mem s') k) = acc_owner (get_acc (mem s) k).
Proof.
  intros [Hm Hr] Hp Hde H Ho. unfold invoke_signed in H. pinv. simpl.
  hyp (foldM (update_caller_account _ _) _ _ = Ok _) as Hu.
  apply (update_caller_source _ _ _ _ k) in Hu as [->|[(ia & Hia & <-) Hu]]; [done|].
  hyp (foldM (translate_account _ _ _) _ _ = Ok _) as Ht.
  destruct (translate_synced _ _ _ _ _ Ht Hm Hr ia Hia) as [Hd Hown]. cbn [fst] in *.
  apply translate_balanced in Ht as [_ Hl]; [|done..]. simpl in Hl.
  hyp (process_callee _ _ _ _ _ = Ok _) as Hc. unfold process_callee, push, pop in Hc. rewrite Hp, Hde, Z.eqb_refl in Hc. rinv.
  hyp (system_process _ _ _ _ = Ok _) as Hs. apply system_process_allowed in Hs as [F _ _ _]; [|done].
  destruct (F (ia_key ia)) as (F1 & F2 & _); [congruence|]. destruct Hu. split; congruence.
Qed.

Lemma invoke_system_foreign ix infos seeds s u s' k i :
  pstate_ok s -> ix_program_id ix = system_program_id -> system_instruction_decode (ix_data ix) = Some i ->
  invoke_signed cx ix infos seeds s = Ok (u, s') -> acc_owner (get_acc (mem s) k) <> system_program_id ->
  acc_data (get_acc (mem s') k) = acc_data (get_acc (mem s) k).
Proof. intros. by eapply invoke_system_keeps. Qed.

Lemma system_create_fresh cws ias lamports space owner ta ta' :
  system_process cws ias (CreateAccount lamports space owner) ta = Ok ta' ->
  exists ia, ias !! 1%nat = Some ia /\ acc_owner (get_acc (ta_accounts ta) (ia_key ia)) = system_program_id.
Proof.
  intros H. simpl in H. unfold create_account, allocate_and_assign, allocate in H. rinv. bool_to_prop.
  unfold nth_account in *. rinv. simplify_eq. by eexists.
Qed.

Lemma translate_owner infos memory l ta st k :
  foldM (translate_account cx infos memory) (ta, []) l = Ok st -> lamports_ok memory -> lamports_ok (ta_accounts ta) ->
  get_acc (ta_accounts ta) k = get_acc memory k ->
  acc_owner (get_acc (ta_accounts st.1) k) = acc_owner (get_acc memory k).
Proof.
  intros H Hm Hr Heq.
  refine (proj1 (foldM_invariant (fun st : TransactionAccounts * list InstructionAccount =>
    acc_owner (get_acc (ta_accounts st.1) k) = acc_owner (get_acc memory k) /\ lamports_ok (ta_accounts st.1))
    _ _ _ _ _ _ H)); [|simpl; by rewrite Heq].
  intros [t1 l1] [t2 l2] ib Hib [IH Hl] H1. unfold translate_account in H1. rinv. destruct x as [i c].
  hyp (find_account _ _ = Some _) as Hf. apply find_account_some in Hf as [_ Hkey].
  case_match; [by rinv|]. case_match; [|done]. rinv. simpl in *.
  hyp (update_callee_account _ _ _ _ = Ok _) as Hu.
  apply (update_callee_account_ok _ [c]) in Hu as [[_ _ _ R] U]; [|by left|apply Hm|done].
  split; [|by apply R]. rewrite U. case_decide as Hd; [|done]. simpl. congruence.
Qed.

(** Only an account of the system program is created. *)
Lemma invoke_create_fresh {L : EnvLaws} from to lamports space owner infos seeds s u s' :
  pstate_ok s -> get_acc (ta_accounts (rt s)) to = get_acc (mem s) to ->
  is_u64 lamports -> is_u64 space -> is_pubkey owner ->
  invoke_signed cx (create_account_ix from to lamports space owner) infos seeds s = Ok (u, s') ->
  acc_owner (get_acc (mem s) to) = system_program_id.
Proof.
  intros [Hm Hr] Heq Hl Hs Ho H. unfold invoke_signed, create_account_ix in H. pinv.
  hyp (foldM (translate_account _ _ _) _ _ = Ok _) as Ht. apply (translate_owner _ _ _ _ _ to) in Ht; [|done..].
  hyp (prepare_next_cpi_instruction _ _ _ _ = Ok _) as Hp. apply prepare_keys in Hp. simpl in Hp.
  hyp (process_callee _ _ _ _ _ = Ok _) as Hc. unfold process_callee, push, pop in Hc.
  cbn [ix_program_id ix_data] in Hc. rewrite Z.eqb_refl, decode_create_account in Hc by done. rinv.
  hyp (system_process _ _ _ _ = Ok _) as Hs'. apply system_create_fresh in Hs' as (ia & Hi & Hown).
  assert (ia_key ia = to). { apply (f_equal (fun l => l !! 1%nat)) in Hp. rewrite list_lookup_fmap, Hi in Hp. naive_solver. }
  simpl in Ht. congruence.
Qed.

(** The accounts of other programs keep their data and owner over a call of the
    system program. *)
Definition keeps_owned (s s' : PState) : Prop := forall j,
  acc_owner (get_acc (mem s) j) <> system_program_id ->
  acc_data (get_acc (mem s') j) = acc_data (get_acc (mem s) j) /\ acc_owner (get_acc (mem s') j) = acc_owner (get_acc (mem s) j).

Lemma keeps_owned_trans s1 s2 s3 : keeps_owned s1 s2 -> keeps_owned s2 s3 -> keeps_owned s1 s3.
Proof. intros K1 K2 j Hj. destruct (K1 j Hj) as [D1 O1], (K2 j) as [D2 O2]; [by rewrite O1|]. split; congruence. Qed.

Lemma system_keeps ix infos seeds s u s' i :
  pstate_ok s -> ix_program_id ix = system_program_id -> system_instruction_decode (ix_data ix) = Some i ->
  invoke_signed cx ix infos seeds s = Ok (u, s') -> keeps_owned s s'.
Proof. intros Hok Hp Hd H j Hj. by eapply invoke_system_keeps. Qed.

Lemma create_account_keeps {L : EnvLaws} from to l sp infos seeds s u s' :
  invoke_signed cx (create_account_ix from to l sp (cx_program_id cx)) infos seeds s = Ok (u, s') ->
  pstate_ok s -> is_u64 l -> is_u64 sp -> is_pubkey (cx_program_id cx) -> keeps_owned s s'.
Proof.
  intros H Hok Hl Hsp Hp. eapply (system_keeps (create_account_ix from to l sp (cx_program_id cx))); [done|done| |exact H].
  by apply decode_create_account.
Qed.

Lemma transfer_keeps {L : EnvLaws} from to l infos s u s' :
  invoke cx (transfer_ix from to l) infos s = Ok (u, s') -> pstate_ok s -> is_u64 l -> keeps_owned s s'.
Proof.
  intros H Hok Hl. eapply (system_keeps (transfer_ix from to l)); [done|done| |exact H]. by apply decode_transfer.
Qed.

(** The creation of a record ... *)
Lemma create_record_keeps {L : EnvLaws} {A} {BA : Borsh A} from k l sp infos seeds s u s1 s2 (v : A) :
  invoke_signed cx (create_account_ix from k l sp (cx_program_id cx)) infos seeds s = Ok (u, s1) -> keeps_owned s1 s2 ->
  pstate_ok s -> get_acc (ta_accounts (rt s)) k = get_acc (mem s) k ->
  is_u64 l -> is_u64 sp -> is_pubkey (cx_program_id cx) ->
  keeps_owned s (mkPState (stored v k (mem s2)) (rt s2)).
Proof.
  intros C1 K2 Hok Heq H1 H2 Hp.
  assert (Hfresh : acc_owner (get_acc (mem s) k) = system_program_id) by (eapply invoke_create_fresh; [exact Hok|exact Heq| | | |exact C1]; done).
  assert (K : keeps_owned s s2) by (eapply keeps_owned_trans; [by eapply create_account_keeps|done]).
  intros j Hj. simpl. rewrite stored_owner, stored_ne by congruence. by apply K.
Qed.

(** ... and of its escrow. *)
Lemma create_keeps {L : EnvLaws} {A} {BA : Borsh A} from k es l1 sp l2 infos1 infos2 seeds1 seeds2 s u1 s1 u2 s2 (v : A) :
  invoke_signed cx (create_account_ix from k l1 sp (cx_program_id cx)) infos1 seeds1 s = Ok (u1, s1) ->
  invoke_signed cx (create_account_ix from es l2 0 (cx_program_id cx)) infos2 seeds2 s1 = Ok (u2, s2) ->
  pstate_ok s -> get_acc (ta_accounts (rt s)) k = get_acc (mem s) k ->
  is_u64 l1 -> is_u64 sp -> is_u64 l2 -> is_pubkey (cx_program_id cx) ->
  keeps_owned s (mkPState (stored v k (mem s2)) (rt s2)).
Proof.
  intros C1 C2 Hok Heq H1 H2 H3 Hp. eapply create_record_keeps; [exact C1| |done..].
  eapply create_account_keeps; [exact C2| |done|ilia|done]. eapply (safe_invoke_signed cx); [exact Hok|exact C1].
Qed.
End Foreign.
