(* ===== verification/Ledger.v ===== *)
(** * Ledger: programs that keep a root record and a set of item records

    The staking pool with its positions and the stablecoin configuration with
    its vaults have the same shape: one account stores a root, further accounts
    store items, and an instruction reads and writes the root and one item.
    The file relates such accounts to an abstract state and lifts a step of a
    handler to a run of the validator. *)

From Stdlib Require Import Strings.Byte.
From S2P Require Import Prelude Borsh Accounts System Invoke Execution Cpi.
Open Scope Z_scope.

Record ledger (G A : Type) := mkLedger { lg_root : G; lg_items : gmap Pubkey A }.
Arguments mkLedger {G A} lg_root lg_items.
Arguments lg_root {G A} l.
Arguments lg_items {G A} l.

(** Roots and items differ in the size of their encoding, neither is empty. *)
Class DistinctSizes (n m : Z) : Prop := distinct_sizes : m <> n /\ n <> 0 /\ m <> 0.

Section Ledger.
Context {G A : Type} {BG : Borsh G} {BA : Borsh A} {WG : WellTyped G} {WA : WellTyped A}.
Context {LG : BorshLaws G} {LA : BorshLaws A} {n m : Z} {ZG : BorshSized G n} {ZA : BorshSized A m} {D : DistinctSizes n m}.
Context {E : Env} (cx : Ctx).
Implicit Types (y : ledger G A) (mm : gmap Pubkey Account).

(** The accounts that store the ledger. *)
Definition lrefines mm (pk : Pubkey) y : Prop :=
  holds mm pk (lg_root y) /\ forall k a, lg_items y !! k = Some a -> holds mm k a.

(** The account belongs to the ledger. *)
Definition lowns (pk : Pubkey) y (k : Pubkey) : Prop := k = pk \/ is_Some (lg_items y !! k).

Lemma lrefines_ne mm pk y k a : lrefines mm pk y -> lg_items y !! k = Some a -> k <> pk.
Proof. intros [Hp Hs] Hk ->. apply Hs in Hk. apply holds_zlen in Hp, Hk. destruct D. congruence. Qed.

Lemma lrefines_data mm mm' pk y :
  lrefines mm pk y -> (forall j, lowns pk y j -> acc_data (get_acc mm' j) = acc_data (get_acc mm j)) -> lrefines mm' pk y.
Proof.
  intros [Hp Hs] Hd. split; [eapply holds_data; [symmetry; apply Hd; by left|done]|].
  intros k a Hk. eapply holds_data; [symmetry; apply Hd; right; by eexists|by apply Hs].
Qed.

Lemma lrefines_update mm mm' pk root items root' k a :
  lrefines mm pk (mkLedger root items) -> holds mm' pk root' -> holds mm' k a ->
  (forall j, j <> k -> is_Some (items !! j) -> acc_data (get_acc mm' j) = acc_data (get_acc mm j)) ->
  lrefines mm' pk (mkLedger root' (<[k := a]> items)).
Proof.
  intros [_ Hs] Hp Hk Hj. split; [done|]. simpl. intros j b. rewrite lookup_insert. case_decide; [naive_solver|].
  intros Hb. eapply holds_data; [symmetry; apply Hj; [done|by eexists]|by apply Hs].
Qed.

Lemma write_root mm pk root items root' :
  lrefines mm pk (mkLedger root items) -> well_typed root' -> lrefines (stored root' pk mm) pk (mkLedger root' items).
Proof.
  intros Href Wp. split.
  - apply holds_stored; [|done]. exact (holds_zlen _ _ _ (proj1 Href)).
  - intros k a Hk. rewrite holds_stored_ne; [by apply Href|]. intros ->. by eapply lrefines_ne.
Qed.

Lemma write_item mm pk root items k a a' :
  lrefines mm pk (mkLedger root items) -> items !! k = Some a -> well_typed a' ->
  lrefines (stored a' k mm) pk (mkLedger root (<[k := a']> items)).
Proof.
  intros Href Hk Ws. assert (Hne : k <> pk) by (by eapply lrefines_ne). eapply lrefines_update; [done| | |].
  - rewrite holds_stored_ne by done. apply Href.
  - apply holds_stored; [|done]. exact (holds_zlen _ _ _ (proj2 Href _ _ Hk)).
  - intros j Hj Hs. by rewrite stored_ne.
Qed.

(** A new item in an account that was empty. *)
Lemma open_item mm mm' pk root items k a from :
  lrefines mm pk (mkLedger root items) -> zlen (acc_data (get_acc mm k)) = 0 -> holds mm' k a -> from <> k ->
  ~ lowns pk (mkLedger root items) from ->
  (forall j, j <> k -> acc_data (get_acc mm' j) = acc_data (get_acc mm j)) ->
  items !! k = None /\ pk <> k /\ ~ lowns pk (mkLedger root (<[k := a]> items)) from /\
  lrefines mm' pk (mkLedger root (<[k := a]> items)).
Proof.
  destruct D as (_ & Hn & Hm). intros Href Hz Hv Hne Hfrom Hd.
  assert (pk <> k). { intros ->. pose proof (holds_zlen _ _ _ (proj1 Href)) as Hl. congruence. }
  split_and!; [|done| |].
  - destruct (items !! k) as [w|] eqn:Hw; [|done]. apply (proj2 Href), holds_zlen in Hw. congruence.
  - intros [?|Hs]; [by apply Hfrom; left|]. simpl in Hs. rewrite lookup_insert_ne in Hs by done. by apply Hfrom; right.
  - eapply lrefines_update; [exact Href| |done|intros; by apply Hd].
    eapply holds_data; [symmetry; by apply Hd|apply Href].
Qed.

(** A call that is given none of the accounts of the ledger leaves them alone. *)
Lemma invoke_lowns ix infos seeds s u s' pk y :
  invoke_signed cx ix infos seeds s = Ok (u, s') -> Forall (fun ia => ~ lowns pk y (ia_key ia)) (ix_accounts ix) ->
  forall j, lowns pk y j -> acc_data (get_acc (mem s') j) = acc_data (get_acc (mem s) j).
Proof.
  intros H Hf j Hj. f_equal. eapply invoke_signed_get_acc; [exact H|]. intros (ia & -> & Hia)%list_elem_of_fmap.
  by eapply Forall_forall in Hf.
Qed.

(** So does a transfer from a wallet to an account of the program. *)
Lemma transfer_lowns {L : EnvLaws} {X : ExecLaws} from to amount infos s u s' pk y :
  invoke_signed cx (transfer_ix from to amount) infos [] s = Ok (u, s') -> is_u64 amount -> pstate_ok s ->
  acc_owner (get_acc (mem s) to) <> system_program_id -> ~ lowns pk y from ->
  forall j, lowns pk y j -> acc_data (get_acc (mem s') j) = acc_data (get_acc (mem s) j).
Proof.
  intros H Ha Hok Hown Hfrom j Hj. destruct (decide (j = to)) as [->|Hne].
  - eapply (invoke_system_foreign cx (transfer_ix from to amount)); [done|done| |exact H|done]. by apply decode_transfer.
  - f_equal. eapply invoke_signed_get_acc; [exact H|]. simpl. rewrite !not_elem_of_cons.
    split_and!; [naive_solver|done|apply not_elem_of_nil].
Qed.

(** ** Steps *)

Context (step : ledger G A -> ledger G A -> Prop).

(** A step whose new records are in the passed accounts. *)
Definition lresult (pk : Pubkey) y (s' : PState) : Prop :=
  exists y', step y y' /\ lrefines (mem s') pk y' /\
    (passed cx pk \/ lg_root y' = lg_root y) /\
    (forall j a, lg_items y' !! j = Some a -> passed cx j \/ lg_items y !! j = Some a).

Lemma update_passed (items : gmap Pubkey A) k a' :
  passed cx k -> forall j a, <[k := a']> items !! j = Some a -> passed cx j \/ items !! j = Some a.
Proof. intros Hk j a. rewrite lookup_insert. case_decide; naive_solver. Qed.

(** A step that writes the item [k] and the root. *)
Lemma write_result mm mm2 r pk root items root' k a a' :
  lrefines mm pk (mkLedger root items) -> items !! k = Some a ->
  (forall j, acc_data (get_acc mm2 j) = acc_data (get_acc (stored a' k mm) j)) ->
  well_typed a' -> well_typed root' -> passed cx pk -> passed cx k ->
  step (mkLedger root items) (mkLedger root' (<[k := a']> items)) ->
  lresult pk (mkLedger root items) (mkPState (stored root' pk mm2) r).
Proof.
  intros Href Hk Hd Wv Wp H1 H2 Hstep. eexists. split; [exact Hstep|]. split; [|split; [by left|by apply update_passed]].
  eapply write_root; [|done]. eapply lrefines_data; [by eapply write_item|]. intros j _. apply Hd.
Qed.

(** A step that writes the item [k] only. *)
Lemma write_item_result mm mm2 r pk root items k a a' :
  lrefines mm pk (mkLedger root items) -> items !! k = Some a ->
  (forall j, lowns pk (mkLedger root items) j -> acc_data (get_acc mm2 j) = acc_data (get_acc mm j)) ->
  well_typed a' -> passed cx k -> step (mkLedger root items) (mkLedger root (<[k := a']> items)) ->
  lresult pk (mkLedger root items) (mkPState (stored a' k mm2) r).
Proof.
  intros Href Hk Hd Wv H2 Hstep. eexists. split; [exact Hstep|].
  split; [|split; [by right|by apply update_passed]]. eapply write_item; [by eapply lrefines_data|done|done].
Qed.

(** ** Runs *)

Lemma execute_lresult {X : ExecLaws} (program : M unit) pk y ta ta' :
  safe program -> confined cx program -> lamports_ok (ta_accounts ta) -> lrefines (ta_accounts ta) pk y ->
  (forall s', program (mkPState (ta_accounts ta) ta) = Ok (tt, s') -> lresult pk y s') ->
  execute cx program ta = Ok ta' ->
  exists y', step y y' /\ lrefines (ta_accounts ta') pk y'.
Proof.
  intros Hs Hc Hok Href Hstep H. apply execute_result in H as (s & Hrun & _ & Hp & Hn); [|done..].
  assert (Hdata : forall j, passed cx j -> acc_data (get_acc (ta_accounts ta') j) = acc_data (get_acc (mem s) j))
    by (intros j Hj; by apply Hp).
  destruct (Hstep s Hrun) as (y' & Hy & Href' & Hpk & Hold). exists y'. split; [done|]. split.
  - destruct (decide (passed cx pk)) as [Hp1|Hp1]; [eapply holds_data; [symmetry; by apply Hdata|apply Href']|].
    destruct Hpk as [Hpk|Heq]; [done|]. rewrite Heq. eapply holds_acc; [by apply Hn|apply Href].
  - intros k a Hk. destruct (decide (passed cx k)) as [Hp1|Hp1]; [eapply holds_data; [symmetry; by apply Hdata|by apply Href']|].
    destruct (Hold _ _ Hk) as [?|Hk']; [done|]. eapply holds_acc; [by apply Hn|by apply Href].
Qed.
End Ledger.

(** A run that may also leave everything as it was. *)
Lemma execute_ledger {G A : Type} {BG : Borsh G} {BA : Borsh A} {E : Env} cx (step : ledger G A -> ledger G A -> Prop)
    {X : ExecLaws} (program : M unit) pk y ta ta' :
  safe program -> confined cx program -> lamports_ok (ta_accounts ta) -> lrefines (ta_accounts ta) pk y ->
  (forall s', program (mkPState (ta_accounts ta) ta) = Ok (tt, s') ->
    s' = mkPState (ta_accounts ta) ta \/ lresult cx step pk y s') ->
  execute cx program ta = Ok ta' ->
  exists y', rtc step y y' /\ lrefines (ta_accounts ta') pk y'.
Proof.
  intros Hs Hc Hok Href Hstep H. eapply (execute_lresult cx (rtc step)); [done..| |exact H].
  intros s' Hrun. destruct (Hstep s' Hrun) as [->|(y' & Hy & Hr)]; [|exists y'; split; [by apply rtc_once|done]].
  exists y. split_and!; [done|done|by right|intros; by right].
Qed.

Lemma signer_signed cx ia : ia ∈ cx_accounts cx -> ia_is_signer ia = true -> signed cx (ia_key ia).
Proof. intros Hin Hs. by exists ia. Qed.

Ltac by_signer := apply signer_signed; [match goal with Hacc : cx_accounts _ = _ |- _ => rewrite Hacc end; set_solver|done].
Ltac by_passed := unfold passed; match goal with Hacc : cx_accounts _ = _ |- _ => rewrite Hacc end; set_solver.
