(* ===== verification/Records.v ===== *)
(** * Records: what the programs share that keep records in accounts

    The test for a record that is already there, the check for duplicates, the
    search in a vector, the rent sysvar and the in-place write of a whole
    account, as the programs [multisig], [governance], [social-recovery],
    [name-service] and [privacy] under [src/programs] have them, and their
    lemmas. *)

From Stdlib Require Import Strings.Byte.
From stdpp Require Import sorting.
From S2P Require Import Prelude Borsh Accounts System Invoke Execution.
Open Scope Z_scope.

#[global] Instance byte_eq_dec : EqDecision byte.
Proof.
  intros a b. destruct (Byte.eqb a b) eqn:H; [left; by apply Byte.byte_dec_bl|].
  right. intros ->. by rewrite (Byte.byte_dec_lb eq_refl) in H.
Defined.

(** ** Definitions *)

(** [data_len() > 0] and a successful [try_from_slice] of an initialized value. *)
Definition occupied {A} `{Borsh A} (is_initialized : A -> bool) (data : list byte) : bool :=
  (0 <? zlen data) && match try_from_slice data with Some v => is_initialized v | None => false end.

(** Two equal neighbours, [sorted.windows(2)].  [Pubkey] compares its bytes; the
    big-endian number they denote has the same order. *)
Fixpoint adjacent_equal (l : list Pubkey) : bool :=
  match l with
  | a :: t => match t with b :: _ => (a =? b) || adjacent_equal t | [] => false end
  | [] => false
  end.
Definition has_duplicates (l : list Pubkey) : bool := adjacent_equal (merge_sort Z.le l).

(** [iter().position(p)]. *)
Fixpoint position {A} (p : A -> bool) (l : list A) : option nat :=
  match l with
  | [] => None
  | a :: l => if p a then Some 0%nat else S <$> position p l
  end.

(** [Rent::from_account_info], of which the rent is [minimum_balance]. *)
Definition rent_from_account_info {E : Env} (ia : AccountInfo) : M unit :=
  fail_if (negb (ia_key ia =? rent_id)) InvalidArgument.

(** [ia.data.borrow_mut().copy_from_slice(&d)] with [d = v.try_to_vec()]: the
    lengths must agree. *)
Definition copy_all {A} `{Borsh A} (v : A) (ia : AccountInfo) : M unit :=
  (let! a := account ia in
   fail_if (negb (zlen (acc_data a) =? zlen (borsh_ser v))) ProgramFailedToComplete ;;
   put (ia_key ia) (set_acc_data (borsh_ser v) a))%prog.

(** ** Lemmas *)

Lemma adjacent_equal_nodup l : StronglySorted Z.le l -> adjacent_equal l = false <-> NoDup l.
Proof.
  induction 1 as [|a t Ht IH Ha]; [split; [constructor|done]|].
  destruct t as [|b u]; [split; [intros _; apply NoDup_singleton|done]|].
  change (adjacent_equal (a :: b :: u)) with ((a =? b) || adjacent_equal (b :: u)).
  rewrite orb_false_iff, IH, Z.eqb_neq, (NoDup_cons a). split; [|intros [Hn ?]; split; [intros ->; apply Hn; left|done]].
  intros [Hne Hn]. split; [|done]. intros [->|Hin]%elem_of_cons; [done|].
  apply Forall_cons_1 in Ha as [Hab _]. apply StronglySorted_inv in Ht as [_ Hb].
  eapply Forall_forall in Hb; [|exact Hin]. lia.
Qed.

Lemma has_duplicates_nodup l : has_duplicates l = false <-> NoDup l.
Proof.
  unfold has_duplicates. rewrite adjacent_equal_nodup by (apply StronglySorted_merge_sort; apply _).
  by rewrite (merge_sort_Permutation Z.le l).
Qed.

Section Position.
Context {A : Type} (p : A -> bool).

Lemma position_some l i : position p l = Some i ->
  exists x, l !! i = Some x /\ p x = true /\ Forall (fun y => p y = false) (take i l).
Proof.
  revert i. induction l as [|a l IH]; intros i; simpl; [done|]. destruct (p a) eqn:Ha.
  - intros [= <-]. exists a. by split_and!; [| |constructor].
  - intros (j & (x & Hx & Hp & Hl)%IH & ->)%fmap_Some. exists x. split_and!; [done|done|by constructor].
Qed.

Lemma position_none l : position p l = None <-> Forall (fun y => p y = false) l.
Proof.
  induction l as [|a l IH]; simpl; [by split; [constructor|]|]. rewrite Forall_cons. destruct (p a); [by split; [|intros []]|].
  rewrite fmap_None. naive_solver.
Qed.
End Position.

Lemma position_key k l i : position (fun a => a =? k) l = Some i -> l !! i = Some k.
Proof. intros (x & Hx & ->%Z.eqb_eq & _)%position_some. done. Qed.

Lemma zlen_delete {A} (l : list A) i : is_Some (l !! i) -> zlen (delete i l) = zlen l - 1.
Proof. intros Hi. unfold zlen. rewrite length_delete by done. apply lookup_lt_is_Some in Hi. lia. Qed.
Lemma zlen_insert {A} (l : list A) i x : zlen (<[i := x]> l) = zlen l.
Proof. unfold zlen. by rewrite length_insert. Qed.
Lemma zlen_snoc {A} (l : list A) x : zlen (l ++ [x]) = zlen l + 1.
Proof. unfold zlen. rewrite length_app. simpl. lia. Qed.

(** The keys and the clock have their Rust types, and the accounts at most their
    maximal length. *)
Record typed_inputs (cx : Ctx) (s : PState) : Prop := {
  ti_keys : Forall (fun ia => is_pubkey (ia_key ia)) (cx_accounts cx);
  ti_clock : is_i64 (unix_timestamp (cx_clock cx));
  ti_data k : zlen (acc_data (get_acc (mem s) k)) <= MAX_ACCOUNT_DATA_LEN;
}.

Lemma appended_ok (l : list Pubkey) k : Forall is_pubkey l -> is_pubkey k -> 32 * zlen l <= MAX_ACCOUNT_DATA_LEN ->
  Forall is_pubkey (l ++ [k]) /\ is_u32 (zlen (l ++ [k])).
Proof.
  intros Hl Hk Hn. split; [apply Forall_app; by split; [|constructor]|].
  rewrite zlen_snoc. unfold MAX_ACCOUNT_DATA_LEN in Hn. pose proof (Nat2Z.is_nonneg (length l)). unfold zlen in *. ilia.
Qed.

(** An in-place write keeps the length. *)
Lemma stored_zlen {A} `{Borsh A} (v : A) k j m : zlen (borsh_ser v) <= zlen (acc_data (get_acc m k)) ->
  zlen (acc_data (get_acc (stored v k m) j)) = zlen (acc_data (get_acc m j)).
Proof.
  intros Hle. destruct (decide (j = k)) as [->|Hne]; [|by rewrite stored_ne].
  rewrite stored_data. unfold zlen in *. rewrite length_overwrite; lia.
Qed.

Lemma clock_account_ok {E : Env} cx ia s c s' :
  clock_from_account_info cx ia s = Ok (c, s') <-> ia_key ia = clock_id /\ c = cx_clock cx /\ s' = s.
Proof.
  unfold clock_from_account_info. split.
  - intros H. pinv. by bool_to_prop.
  - intros (Hk & -> & ->). prun. by rewrite (proj2 (Z.eqb_eq _ _) Hk).
Qed.

Lemma rent_account_ok {E : Env} ia s u s' : rent_from_account_info ia s = Ok (u, s') <-> ia_key ia = rent_id /\ s' = s.
Proof. unfold rent_from_account_info. rewrite (fail_if_ok _ _ _ u), negb_false_iff, Z.eqb_eq. done. Qed.

Section Measured.
Context {A : Type} {B : Borsh A} {W : WellTyped A} {L : BorshLaws A} {size : A -> Z} {MS : BorshMeasured A size}.

Lemma copy_all_ok v ia s u s' :
  copy_all v ia s = Ok (u, s') <-> zlen (acc_data (get_acc (mem s) (ia_key ia))) = zlen (borsh_ser v) /\
    s' = mkPState (stored v (ia_key ia) (mem s)) (rt s).
Proof.
  unfold copy_all, stored, overwrite. rewrite pbind_ok. setoid_rewrite account_ok.
  setoid_rewrite pbind_ok. setoid_rewrite fail_if_ok. setoid_rewrite put_ok. setoid_rewrite negb_false_iff.
  setoid_rewrite Z.eqb_eq. split.
  - intros (a & s0 & [-> ->] & [] & s1 & (Hz & ->) & ->). split; [done|]. rewrite drop_ge by (unfold zlen in Hz; lia).
    by rewrite app_nil_r.
  - intros [Hz ->]. eexists _, _. split; [done|]. exists tt, s. split; [done|]. rewrite drop_ge by (unfold zlen in Hz; lia).
    by rewrite app_nil_r.
Qed.

(** What replaces the value of an account that is decoded whole fits only if its
    encoding is not longer. *)
Lemma holds_fits m k v v' :
  holds m k v -> well_typed v' -> zlen (borsh_ser v') <= zlen (acc_data (get_acc m k)) -> size v' <= size v.
Proof.
  intros [Wv Hd]%try_from_slice_some Wv' Hle. rewrite Hd in Hle. by rewrite !borsh_measured in Hle.
Qed.

(** One of the same length is read back. *)
Lemma holds_same_size m k v v' : holds m k v -> well_typed v' -> size v' = size v -> holds (stored v' k m) k v'.
Proof.
  intros [Wv Hd]%try_from_slice_some Wv' Hle. apply holds_overwrite; [|done]. rewrite Hd. by rewrite !borsh_measured.
Qed.

(** No initialized record is there. *)
Lemma occupied_false (f : A -> bool) m k v :
  (forall w, well_typed w -> 0 < size w) -> occupied f (acc_data (get_acc m k)) = false -> holds m k v -> f v = false.
Proof.
  intros Hpos Hocc Hh. unfold occupied in Hocc. unfold holds in Hh. rewrite Hh in Hocc.
  apply andb_false_iff in Hocc as [Hz|Hf]; [|done]. exfalso. apply try_from_slice_some in Hh as [Wv Hd].
  apply Z.ltb_ge in Hz. rewrite Hd, (borsh_measured v Wv) in Hz. specialize (Hpos v Wv). lia.
Qed.
End Measured.
