(* ===== verification/Wire.v ===== *)
(** * Wire: variable-length data in the Borsh wire format

    Byte vectors and options, the length of an encoding as a function of the
    value, and tactics that establish the laws of a record's codec: [codec_len]
    its length, [codec_typed] that its domain is the well-typed values. *)

From Stdlib Require Import Strings.Byte.
From S2P Require Import Prelude Borsh Accounts.
Open Scope Z_scope.

(** ** Byte vectors and options *)

Definition codec_byte : codec byte := {|
  c_wf (_ : byte) := True;
  c_ser b := [b];
  c_de bs := match bs with b :: t => Some (b, t) | [] => None end |}.

(** [Vec<u8>]. *)
Definition codec_bytes : codec (list byte) := codec_vec codec_byte.

(** [Option<T>]: a byte 0 or 1, then the value. *)
Definition codec_option {A} (c : codec A) : codec (option A) := {|
  c_wf o := match o with Some a => c_wf c a | None => True end;
  c_ser o := match o with Some a => Byte.x01 :: c_ser c a | None => [Byte.x00] end;
  c_de bs := match bs with
    | Byte.x00 :: t => Some (None, t)
    | Byte.x01 :: t => '(a, t') ← c_de c t; Some (Some a, t')
    | _ => None end |}.

Lemma codec_byte_laws : codec_laws codec_byte.
Proof. split; simpl; [done|]. intros [|b bs] a rest; [done|]. by intros [= -> ->]. Qed.
Lemma codec_bytes_laws : codec_laws codec_bytes.
Proof. apply codec_vec_laws, codec_byte_laws. Qed.
Lemma codec_option_laws {A} (c : codec A) : codec_laws c -> codec_laws (codec_option c).
Proof.
  intros L. split; simpl.
  - intros [a|] rest Ha; simpl; [|done]. by rewrite (c_de_ser _ L a rest Ha).
  - intros bs a rest H. destruct bs as [|b t]; [done|].
    destruct b; try discriminate H; [injection H as <- <-; done|].
    destruct (c_de c t) as [[x t']|] eqn:Hx; simplify_eq/=. apply (c_ser_de _ L) in Hx as [? ->]. done.
Qed.
#[export] Hint Resolve codec_byte_laws codec_bytes_laws codec_option_laws : codec.
#[export] Hint Extern 1 (0 < _)%nat => lia : codec.

(** ** Lengths *)

Definition c_len {A} (c : codec A) (f : A -> Z) : Prop := forall a, c_wf c a -> zlen (c_ser c a) = f a.

Lemma c_size_len {A} (c : codec A) n : c_size c n -> c_len c (fun _ => n).
Proof. done. Qed.
Lemma codec_pair_len {A B} (ca : codec A) (cb : codec B) f g :
  c_len ca f -> c_len cb g -> c_len (codec_pair ca cb) (fun p => f p.1 + g p.2).
Proof.
  intros Ha Hb [a b] [Wa Wb]. simpl in *. rewrite <- (Ha a Wa), <- (Hb b Wb). unfold zlen. rewrite length_app. lia.
Qed.
Lemma codec_iso_len {A B} (f : A -> B) (g : B -> A) (c : codec A) h : c_len c h -> c_len (codec_iso f g c) (fun b => h (g b)).
Proof. intros Hc b Hb. by apply Hc. Qed.
Lemma codec_vec_len {A} (c : codec A) n : c_size c n -> c_len (codec_vec c) (fun l => 4 + n * zlen l).
Proof. intros Hc l Hl. by apply codec_vec_length. Qed.
Lemma codec_bytes_len : c_len codec_bytes (fun l => 4 + zlen l).
Proof. intros l Hl. unfold codec_bytes. rewrite (codec_vec_length codec_byte 1 l) by done. lia. Qed.
Lemma codec_option_len {A} (c : codec A) f :
  c_len c f -> c_len (codec_option c) (fun o => match o with Some a => 1 + f a | None => 1 end).
Proof. intros Hc [a|] Ha; [|done]. specialize (Hc a Ha). unfold zlen in *. simpl in *. lia. Qed.

(** The sum of the lengths of the elements. *)
Definition zsum {A} (f : A -> Z) (l : list A) : Z := fold_right (fun a n => f a + n) 0 l.
Lemma codec_vec_sum {A} (c : codec A) f : c_len c f -> c_len (codec_vec c) (fun l => 4 + zsum f l).
Proof.
  intros Hc l [Hl _]. unfold zlen. cbn [codec_vec c_ser]. rewrite length_app, length_le_bytes.
  assert (Z.of_nat (length (concat (map (c_ser c) l))) = zsum f l); [|lia].
  induction Hl as [|a l Ha _ IH]; [done|]. simpl. rewrite length_app. specialize (Hc a Ha). unfold zlen in Hc. lia.
Qed.

Lemma c_len_eq {A} (c : codec A) f g : c_len c f -> (forall a, f a = g a) -> c_len c g.
Proof. intros Hc He a Ha. by rewrite <- He, (Hc a Ha). Qed.
Lemma borsh_of_codec_measured {A} {W : WellTyped A} (c : codec A) f :
  c_len c f -> (forall a, well_typed a <-> c_wf c a) -> @BorshMeasured A (borsh_of_codec c) W f.
Proof. intros Hc Hw a Ha. by apply Hc, Hw. Qed.

Create HintDb codec_len discriminated.
#[export] Hint Resolve codec_bytes_len codec_option_len : codec_len.

Ltac codec_len_step :=
  first [apply codec_iso_len|eapply codec_pair_len|solve [eauto 2 with codec_len]
        |eapply codec_vec_len; codec_size|apply codec_option_len
        |eapply c_size_len; first [apply codec_uint_size|apply codec_int_size|apply codec_pubkey_size|apply codec_bool_size
          |apply codec_array_size|apply codec_enum_size]].
Ltac codec_len := eapply c_len_eq; [repeat codec_len_step|].

(** ** Domains *)

Lemma codec_u8_wf z : c_wf (codec_uint 1) z <-> is_u8 z.
Proof. codec_wf. Qed.
Lemma codec_u32_wf z : c_wf (codec_uint 4) z <-> is_u32 z.
Proof. codec_wf. Qed.
Lemma codec_u64_wf z : c_wf (codec_uint 8) z <-> is_u64 z.
Proof. codec_wf. Qed.
Lemma codec_i64_wf z : c_wf (codec_int 8) z <-> is_i64 z.
Proof. codec_wf. Qed.
Lemma codec_key_wf z : c_wf codec_pubkey z <-> is_pubkey z.
Proof. codec_wf. Qed.
Lemma codec_bool_wf b : c_wf codec_bool b <-> True.
Proof. done. Qed.
Lemma codec_unit_wf u : c_wf codec_unit u <-> True.
Proof. done. Qed.
Lemma codec_array_wf n l : c_wf (codec_array n) l <-> zlen l = Z.of_nat n.
Proof. simpl. unfold zlen. lia. Qed.
Lemma codec_bytes_wf l : c_wf codec_bytes l <-> is_u32 (zlen l).
Proof.
  simpl. unfold zlen. change (256 ^ 4) with (2 ^ 32). split; [intros [_ ?]; ilia|].
  intros. split; [by apply Forall_true|ilia].
Qed.
Lemma codec_list_wf {A} (P : A -> Prop) (c : codec A) l :
  (forall a, c_wf c a <-> P a) -> c_wf (codec_vec c) l <-> Forall P l /\ is_u32 (zlen l).
Proof. intros Hc. rewrite <- (codec_vec_wf P c l); [done|]. intros a. by rewrite Hc. Qed.
Lemma codec_keys_wf l : c_wf (codec_vec codec_pubkey) l <-> Forall is_pubkey l /\ is_u32 (zlen l).
Proof. apply codec_list_wf, codec_key_wf. Qed.
Lemma codec_pair_wf {A B} (ca : codec A) (cb : codec B) p : c_wf (codec_pair ca cb) p <-> c_wf ca p.1 /\ c_wf cb p.2.
Proof. done. Qed.
Lemma codec_iso_wf {A B} (f : A -> B) (g : B -> A) (c : codec A) b : c_wf (codec_iso f g c) b <-> c_wf c (g b).
Proof. done. Qed.
Lemma codec_variants_wf {T} (vs : list (variant T)) (index : T -> nat) t v a :
  vs !! index t = Some v -> var_proj v t = Some a -> c_wf (codec_variants vs index) t <-> c_wf (var_codec v) a.
Proof. intros Hv Ha. simpl. by rewrite Hv, Ha. Qed.

Create HintDb codec_wf discriminated.
#[export] Hint Rewrite codec_u8_wf codec_u32_wf codec_u64_wf codec_i64_wf codec_key_wf codec_bool_wf codec_unit_wf
  @codec_array_wf codec_bytes_wf codec_keys_wf : codec_wf.
Ltac codec_typed :=
  rewrite ?codec_iso_wf, ?codec_pair_wf; cbn [fst snd]; autorewrite with codec_wf; cbn [Z.of_nat Pos.of_succ_nat Pos.succ]; tauto.
(** The same for a variant of an enum. *)
Ltac codec_variant_typed := unfold well_typed; (erewrite codec_variants_wf; [|reflexivity|reflexivity]); cbn [var_codec var_arg]; codec_typed.
