(* ===== verification/History.v ===== *)
(** * History: the accounts over time

    What happens to the data of one account over any sequence of instructions of
    its program and of other programs. *)

From Stdlib Require Import Strings.Byte.
From S2P Require Import Prelude Borsh Accounts Invoke.
Open Scope Z_scope.

Section History.
Context (run : PState -> PState -> Prop) (k : Pubkey).

(** The accounts over time, as they concern the account [k]: runs of the
    program, and anything else that does not write the data of [k], which only
    the program can. *)
Inductive history : gmap Pubkey Account -> gmap Pubkey Account -> Prop :=
| history_refl m : history m m
| history_run s s' m : run s s' -> history (mem s') m -> history (mem s) m
| history_other m m' m'' : acc_data (get_acc m' k) = acc_data (get_acc m k) -> history m' m'' -> history m m''.

(** What a run keeps and what only depends on the data of [k] holds for ever. *)
Lemma history_invariant (P : gmap Pubkey Account -> Prop) m m' :
  (forall s s', run s s' -> P (mem s) -> P (mem s')) ->
  (forall m m', acc_data (get_acc m' k) = acc_data (get_acc m k) -> P m -> P m') ->
  history m m' -> P m -> P m'.
Proof. intros Hrun Hdata. induction 1 as [m|s s' m Hr _ IH|m m' m'' Hd _ IH]; eauto. Qed.
End History.
