(* ===== verification/RuntimeTheorems.v ===== *)
(** * RuntimeTheorems: the properties of the validator's runtime

    The theorems about the account rules ([src/validator/transaction-context]),
    the system program ([src/validator/programs/system]) and cross-program
    invocations ([src/validator/program-runtime]). *)

From Stdlib Require Import Strings.Byte.
From S2P Require Import Prelude Borsh Accounts System Invoke Execution Concrete Cpi.
Open Scope Z_scope.

Module RuntimeDemo.
Definition PROGRAM : Pubkey := 100.
Definition seeds : list (list byte) := [[Byte.x07]].
Definition pda : Pubkey := derive (seeds ++ [[byte_of_Z 255]]) PROGRAM.
Definition payer : Account := mkAccount 5000000 [] 0 false.
Definition ta : TransactionAccounts := mkTA (store [(300, payer); (301, payer); (pda, empty_account); (0, mkAccount 1 [] 1 true)]) 0 0.
Definition cx : Ctx := demo_ctx PROGRAM [mkIA 300 true true; mkIA pda false true; mkIA 0 false false] 10 (fun _ => 0).
Definition from : InstructionAccount := mkIA 300 true true.
Definition to : InstructionAccount := mkIA 301 false true.
Definition new : InstructionAccount := mkIA pda true true.

Lemma runtime_lamports : lamports_ok (ta_accounts ta).
Proof. apply lamports_ok_store, (bool_decide_unpack _). by vm_compute. Qed.

Lemma ready : create_ready cx (mkPState (ta_accounts ta) ta) 300 pda payer empty_account.
Proof. split; evaluate. Qed.

Lemma runtime_runs :
  is_ok (prepare_next_cpi_instruction (cx_accounts cx) (create_account_ix 300 pda 1000 10 PROGRAM) [pda] ta) &&
  is_ok (system_process create_with_seed [from; to] (Transfer 70) ta) &&
  is_ok (system_process create_with_seed [from; new] (CreateAccount 70 10 PROGRAM) ta) &&
  is_ok (invoke_signed cx (create_account_ix 300 pda 1000 10 PROGRAM) [mkIA 300 true true; mkIA pda false true]
           [seeds ++ [[byte_of_Z 255]]] (mkPState (ta_accounts ta) ta)) = true.
Proof. vm_compute. reflexivity. Qed.
End RuntimeDemo.

(** C1. No privilege escalation: an account a CPI passes to the callee as
    writable is writable in the caller, and one it passes as a signer either
    signed for the caller or is an address the caller derives; the callee gets
    exactly the accounts the instruction names.  This includes instructions
    that name an account several times with different flags. *)
Theorem cpi_no_privilege_escalation caller instruction signers ta ias :
  prepare_next_cpi_instruction caller instruction signers ta = Ok ias ->
  ia_key <$> ias = ia_key <$> ix_accounts instruction /\
  forall ia, ia ∈ ias -> exists i c, find_account caller (ia_key ia) = Some (i, c) /\
    (ia_is_writable ia = true -> ia_is_writable c = true) /\
    (ia_is_signer ia = true -> ia_is_signer c = true \/ ia_key ia ∈ signers).
Proof.
  intros H. split; [by eapply prepare_keys|]. intros ia Hia.
  apply prepare_no_escalation in H. eapply Forall_forall in H as (i & c & Hf & Hw & Hs); [|done].
  exists i, c. split_and!; [done|done|]. rewrite <- contains_elem. done.
Qed.

Lemma cpi_no_privilege_escalation_witness : exists ias,
  prepare_next_cpi_instruction (cx_accounts RuntimeDemo.cx) (create_account_ix 300 RuntimeDemo.pda 1000 10 RuntimeDemo.PROGRAM)
    [RuntimeDemo.pda] RuntimeDemo.ta = Ok ias /\ ia_key <$> ias = [300; RuntimeDemo.pda].
Proof.
  destruct (prepare_next_cpi_instruction (cx_accounts RuntimeDemo.cx)
    (create_account_ix 300 RuntimeDemo.pda 1000 10 RuntimeDemo.PROGRAM) [RuntimeDemo.pda] RuntimeDemo.ta)
    as [ias|e] eqn:Hrun; [|pose proof RuntimeDemo.runtime_runs as Hk; rewrite Hrun in Hk; discriminate Hk].
  exists ias. split; [exact eq_refl|].
  exact (proj1 (cpi_no_privilege_escalation _ (create_account_ix 300 RuntimeDemo.pda 1000 10 RuntimeDemo.PROGRAM) _ _ _ Hrun)).
Defined.

(** ** The system program only moves lamports

    The transaction counts what [set_lamports] adds to and takes from the
    accounts; the debit and the credit of a transfer cancel out, also when they
    meet the same account, and nothing else of the system program counts. *)
Section Conservation.
Context (cws : Pubkey -> list byte -> Pubkey -> result Z Pubkey) (ias : list InstructionAccount).

Lemma set_lamports_delta program ia l ta ta' :
  is_u64 l -> lamports_ok (ta_accounts ta) -> set_lamports program ia l ta = Ok ta' ->
  ta_lamports_delta ta' = ta_lamports_delta ta + (l - get_lamports ia ta).
Proof.
  intros Hl Hok H. unfold set_lamports, add_lamports_delta in H. rinv.
  case_match; rinv; bool_to_prop; [lia|]. cbn [put_account ta_lamports_delta].
  pose proof (Hok (ia_key ia)) as Hu.
  assert (Hx : i128_saturating_sub l (get_lamports ia ta) = l - get_lamports ia ta); [|exact (f_equal (Z.add _) Hx)].
  unfold i128_saturating_sub. apply clamp_in. unfold get_lamports, get_account. ilia.
Qed.

Lemma transfer_verified_delta i j l ta ta' :
  lamports_ok (ta_accounts ta) -> transfer_verified ias i j l ta = Ok ta' ->
  ta_lamports_delta ta' = ta_lamports_delta ta.
Proof.
  intros Hok H. unfold transfer_verified in H. rinv.
  hyp (checked_sub_lamports _ _ _ _ = Ok _) as Hs. hyp (checked_add_lamports _ _ _ _ = Ok _) as Ha.
  eapply (checked_sub_lamports_spec _ ias) in Hs as A; [|by eapply nth_account_elem|done].
  unfold checked_sub_lamports, checked_add_lamports in *. rinv.
  apply set_lamports_delta in Hs; [|done|done]. apply set_lamports_delta in Ha; [|done|by eapply allowed_range].
  lia.
Qed.

Lemma allocate_delta ia addr space signers ta ta' :
  allocate ia addr space signers ta = Ok ta' -> ta_lamports_delta ta' = ta_lamports_delta ta.
Proof. intros H. unfold allocate, set_data_length in H. rinv. by case_match; rinv. Qed.

Lemma assign_delta ia addr owner signers ta ta' :
  assign ia addr owner signers ta = Ok ta' -> ta_lamports_delta ta' = ta_lamports_delta ta.
Proof. intros H. unfold assign, set_owner in H. rinv; repeat (case_match; rinv); done. Qed.

Lemma allocate_and_assign_delta ia addr space owner signers ta ta' :
  allocate_and_assign ia addr space owner signers ta = Ok ta' -> ta_lamports_delta ta' = ta_lamports_delta ta.
Proof.
  intros H. unfold allocate_and_assign in H. rinv.
  etransitivity; [by eapply assign_delta|by eapply allocate_delta].
Qed.

Lemma create_account_delta i j addr l space owner signers ta ta' :
  lamports_ok (ta_accounts ta) -> create_account ias i j addr l space owner signers ta = Ok ta' ->
  ta_lamports_delta ta' = ta_lamports_delta ta.
Proof.
  intros Hok H. unfold create_account, transfer in H. rinv. hyp (allocate_and_assign _ _ _ _ _ _ = Ok _) as Hs.
  apply (allocate_and_assign_allowed ias) in Hs as A; [|by eapply nth_account_elem].
  apply allocate_and_assign_delta in Hs. rewrite <- Hs.
  eapply transfer_verified_delta; [by eapply allowed_range|done].
Qed.

Lemma system_process_delta ix ta ta' :
  lamports_ok (ta_accounts ta) -> system_process cws ias ix ta = Ok ta' ->
  ta_lamports_delta ta' = ta_lamports_delta ta.
Proof.
  intros Hok H. destruct ix; simpl in H; rinv;
    eauto using create_account_delta, assign_delta, allocate_delta, allocate_and_assign_delta.
  - unfold transfer in H. rinv. by eapply transfer_verified_delta.
  - unfold transfer_with_seed in H. rinv. by eapply transfer_verified_delta.
Qed.
End Conservation.

(** C39. Whichever of its account instructions (creating, assigning, allocating
    and transferring, with and without a seed) the system program executes, on
    whatever accounts, it changes neither data nor owner and takes no lamports
    of an account of another program, changes nothing of an account that is not
    writable, and creates or destroys no lamports: all balances together stay
    what they were, and so does the count the transaction keeps of them. *)
Theorem system_program_contract cws ias ix ta ta' :
  lamports_ok (ta_accounts ta) -> system_process cws ias ix ta = Ok ta' ->
  (forall k, acc_owner (get_acc (ta_accounts ta) k) <> system_program_id ->
     acc_data (get_acc (ta_accounts ta') k) = acc_data (get_acc (ta_accounts ta) k) /\
     acc_owner (get_acc (ta_accounts ta') k) = acc_owner (get_acc (ta_accounts ta) k) /\
     acc_lamports (get_acc (ta_accounts ta) k) <= acc_lamports (get_acc (ta_accounts ta') k)) /\
  (forall k, ~ writable_in ias k -> get_acc (ta_accounts ta') k = get_acc (ta_accounts ta) k) /\
  total_lamports (ta_accounts ta') = total_lamports (ta_accounts ta) /\
  ta_lamports_delta ta' = ta_lamports_delta ta /\
  lamports_ok (ta_accounts ta').
Proof.
  intros Hok H. pose proof (system_process_delta _ _ _ _ _ Hok H) as Hd.
  apply system_process_allowed in H as [F R B L]; [|done]. split_and!; auto. lia.
Qed.

Lemma system_program_contract_witness : exists ta',
  system_process create_with_seed [RuntimeDemo.from; RuntimeDemo.to] (Transfer 70) RuntimeDemo.ta = Ok ta' /\
  total_lamports (ta_accounts ta') = total_lamports (ta_accounts RuntimeDemo.ta).
Proof.
  destruct (system_process create_with_seed [RuntimeDemo.from; RuntimeDemo.to] (Transfer 70) RuntimeDemo.ta)
    as [ta'|e] eqn:Hrun; [|pose proof RuntimeDemo.runtime_runs as Hk; rewrite Hrun, ?andb_false_r in Hk; discriminate Hk].
  exists ta'. split; [exact eq_refl|].
  exact (proj1 (proj2 (proj2 (system_program_contract _ _ _ _ _ RuntimeDemo.runtime_lamports Hrun)))).
Defined.

(** [Transfer] between two accounts succeeds exactly when the payer is a
    data-less writable signer that holds the lamports, belongs to the system
    program (unless nothing is moved) and the recipient is writable and does
    not overflow; it then moves exactly that amount. *)
Theorem transfer_exact cws from to rest ta af at_ l ta' :
  ta_accounts ta !! ia_key from = Some af -> ta_accounts ta !! ia_key to = Some at_ ->
  ia_key from <> ia_key to -> is_u64 (acc_lamports af) -> is_u64 (acc_lamports at_) ->
  ta_lamports_delta ta = 0 -> is_u64 l ->
  system_process cws (from :: to :: rest) (Transfer l) ta = Ok ta' <->
  (ia_is_signer from = true /\ acc_data af = [] /\ l <= acc_lamports af /\
   (l = 0 \/ acc_owner af = system_program_id) /\ ia_is_writable from = true /\
   ia_is_writable to = true /\ acc_lamports at_ + l <= U64_MAX) /\
  ta' = mkTA (<[ia_key to := set_acc_lamports (acc_lamports at_ + l) at_]>
              (<[ia_key from := set_acc_lamports (acc_lamports af - l) af]> (ta_accounts ta)))
             (ta_resize_delta ta) 0.
Proof. intros. simpl. by apply transfer_iff. Qed.

Lemma transfer_exact_witness : exists ta',
  system_process create_with_seed [RuntimeDemo.from; RuntimeDemo.to] (Transfer 70) RuntimeDemo.ta = Ok ta'.
Proof.
  eexists. apply (transfer_exact _ RuntimeDemo.from RuntimeDemo.to [] RuntimeDemo.ta RuntimeDemo.payer RuntimeDemo.payer 70);
    [evaluate..|]. split; [|reflexivity]. split_and!; [reflexivity|reflexivity|evaluate|by right|reflexivity|reflexivity|evaluate].
Defined.

(** [CreateAccount] succeeds exactly when the new account is unused (no
    lamports, no data, owned by the system program), signs and is writable, and
    the payer is a data-less system account that signs, is writable and holds
    the lamports; the new account then has the requested size (zeroed), owner
    and balance, and nothing else changes. *)
Theorem create_account_exact cws from to rest ta af at_ lamports space owner ta' :
  ta_accounts ta !! ia_key from = Some af -> ta_accounts ta !! ia_key to = Some at_ ->
  ia_key from <> ia_key to -> is_u64 (acc_lamports af) -> is_u64 (acc_lamports at_) ->
  is_i64 (ta_resize_delta ta) -> ta_lamports_delta ta = 0 -> is_u64 lamports -> 0 <= space ->
  system_process cws (from :: to :: rest) (CreateAccount lamports space owner) ta = Ok ta' <->
  create_account_guard from to rest ta af at_ lamports space /\
  ta' = account_created from to ta af at_ lamports space owner.
Proof. intros. by apply create_account_iff. Qed.

Lemma create_account_exact_witness : exists ta',
  system_process create_with_seed [RuntimeDemo.from; RuntimeDemo.new] (CreateAccount 70 10 RuntimeDemo.PROGRAM) RuntimeDemo.ta = Ok ta'.
Proof.
  eexists. apply (create_account_exact _ RuntimeDemo.from RuntimeDemo.new [] RuntimeDemo.ta RuntimeDemo.payer empty_account
    70 10 RuntimeDemo.PROGRAM); [evaluate..|]. split; [|reflexivity].
  split; try evaluate. by right.
Defined.

(** C40. A program's [invoke_signed] of [create_account] succeeds exactly when
    both accounts are passed on with the right to sign (by signature, or
    because the program derives the address from the seeds), the new account
    is unused, and the payer can pay; it then has exactly the effect of the
    system program, both in the transaction and in the memory of the calling
    program. *)
Theorem cpi_create_account_exact {E : Env} {L : EnvLaws} cx from to infos seeds s af at_ lamports space owner s' :
  create_ready cx s from to af at_ -> is_u64 lamports -> is_u64 space -> is_pubkey owner ->
  invoke_signed cx (create_account_ix from to lamports space owner) infos seeds s = Ok (tt, s') <->
  (exists signers, derive_signers cx seeds = Ok signers /\ cpi_create_guard cx from to infos s af at_ signers lamports space) /\
  s' = created_state from to s af lamports space owner.
Proof.
  intros [R1 R2 R3 R4 R5 [R6 R7] [R8 R9] [R10 R11] R12] Hl Hs Ho. by apply invoke_create_account.
Qed.

Lemma cpi_create_account_exact_witness : exists s',
  invoke_signed RuntimeDemo.cx (create_account_ix 300 RuntimeDemo.pda 1000 10 RuntimeDemo.PROGRAM)
    [mkIA 300 true true; mkIA RuntimeDemo.pda false true] [RuntimeDemo.seeds ++ [[byte_of_Z 255]]]
    (mkPState (ta_accounts RuntimeDemo.ta) RuntimeDemo.ta) = Ok (tt, s') /\
  s' = created_state 300 RuntimeDemo.pda (mkPState (ta_accounts RuntimeDemo.ta) RuntimeDemo.ta) RuntimeDemo.payer 1000 10 RuntimeDemo.PROGRAM.
Proof.
  destruct (invoke_signed RuntimeDemo.cx (create_account_ix 300 RuntimeDemo.pda 1000 10 RuntimeDemo.PROGRAM)
    [mkIA 300 true true; mkIA RuntimeDemo.pda false true] [RuntimeDemo.seeds ++ [[byte_of_Z 255]]]
    (mkPState (ta_accounts RuntimeDemo.ta) RuntimeDemo.ta)) as [[[] s']|e] eqn:Hrun;
    [|pose proof RuntimeDemo.runtime_runs as Hk; rewrite Hrun, ?andb_false_r in Hk; discriminate Hk].
  exists s'. split; [exact eq_refl|].
  assert (Hl : is_u64 1000) by evaluate. assert (Hs : is_u64 10) by evaluate.
  assert (Ho : is_pubkey RuntimeDemo.PROGRAM) by evaluate.
  apply (cpi_create_account_exact RuntimeDemo.cx 300 RuntimeDemo.pda _ _ _ RuntimeDemo.payer empty_account
    1000 10 RuntimeDemo.PROGRAM s' RuntimeDemo.ready Hl Hs Ho) in Hrun as [_ Hs']. exact Hs'.
Defined.
