(* ===== verification/Vesting.v ===== *)
(** * Vesting: time-locked token vesting

    Models [src/programs/vesting/src/lib.rs]: the registry, the vesting
    schedules, the six instructions and the vesting curve. *)

From Stdlib Require Import Strings.Byte Strings.String.
From S2P Require Import Prelude Borsh Accounts System Invoke Execution Cpi.
Open Scope Z_scope.

(** ** Constants and data *)

Definition REGISTRY_SEED : list byte := list_byte_of_string "prism_vesting_registry".
Definition SCHEDULE_SEED : list byte := list_byte_of_string "prism_vesting_schedule".
Definition VAULT_SEED : list byte := list_byte_of_string "prism_vesting_vault".
Definition MAX_BENEFICIARIES : Z := 256.
Definition SECONDS_PER_MONTH : Z := 2592000.
Definition SECONDS_PER_QUARTER : Z := 7776000.

Inductive ReleaseSchedule := Linear | Quarterly.
Inductive VestingStatus := Active | Completed | Revoked.
#[global] Instance ReleaseSchedule_eq_dec : EqDecision ReleaseSchedule.
Proof. solve_decision. Defined.
#[global] Instance VestingStatus_eq_dec : EqDecision VestingStatus.
Proof. solve_decision. Defined.

Record VestingRegistry := mkRegistry {
  reg_is_initialized : bool;
  reg_authority : Pubkey;
  reg_vault : Pubkey;
  reg_token_mint : Pubkey;
  reg_total_deposited : Z;
  reg_total_claimed : Z;
  reg_total_revoked : Z;
  reg_active_schedules : Z;
  reg_schedule_counter : Z;
  reg_bump : Z;
}.
Definition VestingRegistry_LEN : Z := 1 + 32 + 32 + 32 + 8 + 8 + 8 + 4 + 8 + 1.

Record VestingSchedule := mkSchedule {
  vs_is_initialized : bool;
  vs_registry : Pubkey;
  vs_beneficiary : Pubkey;
  vs_total_amount : Z;
  vs_claimed_amount : Z;
  vs_start_timestamp : Z;
  vs_cliff_seconds : Z;
  vs_duration_seconds : Z;
  vs_schedule : ReleaseSchedule;
  vs_status : VestingStatus;
  vs_revocable : bool;
  vs_index : Z;
  vs_bump : Z;
}.
Definition VestingSchedule_LEN : Z := 1 + 32 + 32 + 8 + 8 + 8 + 8 + 8 + 1 + 1 + 1 + 8 + 1.

#[global] Instance VestingRegistry_well_typed : WellTyped VestingRegistry := fun r =>
  is_pubkey (reg_authority r) /\ is_pubkey (reg_vault r) /\ is_pubkey (reg_token_mint r) /\
  is_u64 (reg_total_deposited r) /\ is_u64 (reg_total_claimed r) /\ is_u64 (reg_total_revoked r) /\
  is_u32 (reg_active_schedules r) /\ is_u64 (reg_schedule_counter r) /\ is_u8 (reg_bump r).
#[global] Instance VestingSchedule_well_typed : WellTyped VestingSchedule := fun v =>
  is_pubkey (vs_registry v) /\ is_pubkey (vs_beneficiary v) /\ is_u64 (vs_total_amount v) /\
  is_u64 (vs_claimed_amount v) /\ is_i64 (vs_start_timestamp v) /\ is_i64 (vs_cliff_seconds v) /\
  is_i64 (vs_duration_seconds v) /\ is_u64 (vs_index v) /\ is_u8 (vs_bump v).

Inductive VestingInstruction :=
| InitializeRegistry
| CreateSchedule (beneficiary : Pubkey) (total_amount cliff_months duration_months : Z)
    (schedule : ReleaseSchedule) (revocable : bool)
| Claim
| Revoke
| QuerySchedule
| TransferAuthority (new_authority : Pubkey).

#[global] Instance VestingInstruction_well_typed : WellTyped VestingInstruction := fun i =>
  match i with
  | CreateSchedule beneficiary total_amount cliff_months duration_months _ _ =>
      is_pubkey beneficiary /\ is_u64 total_amount /\ is_u32 cliff_months /\ is_u32 duration_months
  | TransferAuthority new_authority => is_pubkey new_authority
  | _ => True
  end.

Inductive VestingError :=
| AlreadyInitialized | NotInitialized | ScheduleAlreadyInitialized | ScheduleNotInitialized
| Unauthorized | Overflow | NothingToClaim | NotRevocable | AlreadyRevoked | AlreadyCompleted
| CliffNotReached | InvalidDuration | ZeroAmount | MaxBeneficiaries.

(** [impl From<VestingError> for ProgramError]: the discriminant. *)
Definition into (e : VestingError) : InstructionError :=
  Custom match e with
  | AlreadyInitialized => 0 | NotInitialized => 1 | ScheduleAlreadyInitialized => 2
  | ScheduleNotInitialized => 3 | Unauthorized => 4 | Overflow => 5 | NothingToClaim => 6
  | NotRevocable => 7 | AlreadyRevoked => 8 | AlreadyCompleted => 9 | CliffNotReached => 10
  | InvalidDuration => 11 | ZeroAmount => 12 | MaxBeneficiaries => 13
  end.

(** ** The vesting curve *)

Definition calculate_vested_amount (schedule : VestingSchedule) (now : Z) : result InstructionError Z :=
  if decide (vs_status schedule = Revoked) then Ok (vs_total_amount schedule) else
  (let? cliff_end := ok_or (i64_checked_add (vs_start_timestamp schedule) (vs_cliff_seconds schedule)) (into Overflow) in
   if now <? cliff_end then Ok 0 else
   let? vesting_end := ok_or (i64_checked_add (vs_start_timestamp schedule) (vs_duration_seconds schedule)) (into Overflow) in
   if vesting_end <=? now then Ok (vs_total_amount schedule) else
   let? vesting_window := ok_or (i64_checked_sub (vs_duration_seconds schedule) (vs_cliff_seconds schedule)) (into Overflow) in
   if vesting_window <=? 0 then Ok (vs_total_amount schedule) else
   let? elapsed_after_cliff := ok_or (i64_checked_sub now cliff_end) (into Overflow) in
   match vs_schedule schedule with
   | Linear =>
       let? product := ok_or (u128_checked_mul (vs_total_amount schedule) (as_u128 elapsed_after_cliff)) (into Overflow) in
       Ok (as_u64 (product / as_u128 vesting_window))
   | Quarterly =>
       let total_quarters := Z.quot vesting_window SECONDS_PER_QUARTER in
       if total_quarters <=? 0 then Ok (vs_total_amount schedule) else
       let elapsed_quarters := Z.quot elapsed_after_cliff SECONDS_PER_QUARTER in
       let quarters_completed := Z.min elapsed_quarters total_quarters in
       let? product := ok_or (u128_checked_mul (vs_total_amount schedule) (as_u128 quarters_completed)) (into Overflow) in
       Ok (as_u64 (product / as_u128 total_quarters))
   end)%result.

(** ** Field updates *)

Definition set_claimed (c : Z) (v : VestingSchedule) : VestingSchedule :=
  mkSchedule (vs_is_initialized v) (vs_registry v) (vs_beneficiary v) (vs_total_amount v) c
    (vs_start_timestamp v) (vs_cliff_seconds v) (vs_duration_seconds v) (vs_schedule v) (vs_status v)
    (vs_revocable v) (vs_index v) (vs_bump v).
Definition set_status (st : VestingStatus) (v : VestingSchedule) : VestingSchedule :=
  mkSchedule (vs_is_initialized v) (vs_registry v) (vs_beneficiary v) (vs_total_amount v) (vs_claimed_amount v)
    (vs_start_timestamp v) (vs_cliff_seconds v) (vs_duration_seconds v) (vs_schedule v) st
    (vs_revocable v) (vs_index v) (vs_bump v).
Definition set_total (t : Z) (v : VestingSchedule) : VestingSchedule :=
  mkSchedule (vs_is_initialized v) (vs_registry v) (vs_beneficiary v) t (vs_claimed_amount v)
    (vs_start_timestamp v) (vs_cliff_seconds v) (vs_duration_seconds v) (vs_schedule v) (vs_status v)
    (vs_revocable v) (vs_index v) (vs_bump v).
Definition set_totals (deposited claimed revoked active counter : Z) (r : VestingRegistry) : VestingRegistry :=
  mkRegistry (reg_is_initialized r) (reg_authority r) (reg_vault r) (reg_token_mint r)
    deposited claimed revoked active counter (reg_bump r).
Definition set_authority (k : Pubkey) (r : VestingRegistry) : VestingRegistry :=
  mkRegistry (reg_is_initialized r) k (reg_vault r) (reg_token_mint r) (reg_total_deposited r)
    (reg_total_claimed r) (reg_total_revoked r) (reg_active_schedules r) (reg_schedule_counter r) (reg_bump r).

(** ** Instructions *)

(** The SPL Token [Transfer] instruction. *)
Definition spl_token_transfer (token_program_id source destination authority : Pubkey) (amount : Z) : Instruction :=
  mkInstruction token_program_id
    [mkIA source false true; mkIA destination false true; mkIA authority true false]
    (byte_of_Z 3 :: le_bytes 8 amount).

Section Vesting.
Context {E : Env} {BR : Borsh VestingRegistry} {BS : Borsh VestingSchedule} {BI : Borsh VestingInstruction}.
Variable cx : Ctx.

Definition process_initialize_registry : M unit :=
  (let! '(authority, it) := next_account_info (cx_accounts cx) in
   let! '(registry_account, it) := next_account_info it in
   let! '(vault, it) := next_account_info it in
   let! '(token_mint, it) := next_account_info it in
   let! '(system_program, it) := next_account_info it in
   fail_if (negb (ia_is_signer authority)) MissingRequiredSignature ;;
   let '(registry_pda, bump) := find_program_address [REGISTRY_SEED] (cx_program_id cx) in
   fail_if (negb (registry_pda =? ia_key registry_account)) InvalidSeeds ;;
   let space := VestingRegistry_LEN in
   let lamports := minimum_balance space in
   invoke_signed cx
     (create_account_ix (ia_key authority) (ia_key registry_account) lamports space (cx_program_id cx))
     [authority; registry_account; system_program]
     [[REGISTRY_SEED; [byte_of_Z bump]]] ;;
   let registry := mkRegistry true (ia_key authority) (ia_key vault) (ia_key token_mint) 0 0 0 0 0 bump in
   serialize_into registry registry_account)%prog.

Definition process_create_schedule (beneficiary : Pubkey) (total_amount cliff_months duration_months : Z)
    (schedule : ReleaseSchedule) (revocable : bool) : M unit :=
  (let! '(authority, it) := next_account_info (cx_accounts cx) in
   let! '(registry_account, it) := next_account_info it in
   let! '(schedule_account, it) := next_account_info it in
   let! '(_beneficiary_account, it) := next_account_info it in
   let! '(system_program, it) := next_account_info it in
   fail_if (negb (ia_is_signer authority)) MissingRequiredSignature ;;
   let! registry := load VestingRegistry registry_account BorshIoError in
   fail_if (negb (reg_is_initialized registry)) (into NotInitialized) ;;
   fail_if (negb (reg_authority registry =? ia_key authority)) (into Unauthorized) ;;
   fail_if (total_amount =? 0) (into ZeroAmount) ;;
   fail_if (MAX_BENEFICIARIES <=? reg_active_schedules registry) (into MaxBeneficiaries) ;;
   let! cliff_seconds := lift (ok_or (i64_checked_mul cliff_months SECONDS_PER_MONTH) (into Overflow)) in
   let! duration_seconds := lift (ok_or (i64_checked_mul duration_months SECONDS_PER_MONTH) (into Overflow)) in
   fail_if ((duration_seconds <=? cliff_seconds) && (0 <? duration_months) && (0 <? cliff_months)) (into InvalidDuration) ;;
   let index := reg_schedule_counter registry in
   let index_bytes := le_bytes 8 index in
   let '(schedule_pda, schedule_bump) :=
     find_program_address [SCHEDULE_SEED; key_bytes (ia_key registry_account); index_bytes] (cx_program_id cx) in
   fail_if (negb (schedule_pda =? ia_key schedule_account)) InvalidSeeds ;;
   let space := VestingSchedule_LEN in
   let lamports := minimum_balance space in
   invoke_signed cx
     (create_account_ix (ia_key authority) (ia_key schedule_account) lamports space (cx_program_id cx))
     [authority; schedule_account; system_program]
     [[SCHEDULE_SEED; key_bytes (ia_key registry_account); index_bytes; [byte_of_Z schedule_bump]]] ;;
   let! clock := clock_get cx in
   let now := unix_timestamp clock in
   let vesting_schedule :=
     mkSchedule true (ia_key registry_account) beneficiary total_amount 0 now cliff_seconds duration_seconds
       schedule Active revocable index schedule_bump in
   serialize_into vesting_schedule schedule_account ;;
   let! deposited := lift (ok_or (u64_checked_add (reg_total_deposited registry) total_amount) (into Overflow)) in
   let! active := lift (ok_or (u32_checked_add (reg_active_schedules registry) 1) (into Overflow)) in
   let! counter := lift (ok_or (u64_checked_add (reg_schedule_counter registry) 1) (into Overflow)) in
   let registry := set_totals deposited (reg_total_claimed registry) (reg_total_revoked registry) active counter registry in
   serialize_into registry registry_account)%prog.

Definition process_claim : M unit :=
  (let! '(beneficiary, it) := next_account_info (cx_accounts cx) in
   let! '(schedule_account, it) := next_account_info it in
   let! '(registry_account, it) := next_account_info it in
   let! '(vault_token_account, it) := next_account_info it in
   let! '(beneficiary_token_account, it) := next_account_info it in
   let! '(vault_authority, it) := next_account_info it in
   let! '(token_program, it) := next_account_info it in
   let! '(clock_sysvar, it) := next_account_info it in
   fail_if (negb (ia_is_signer beneficiary)) MissingRequiredSignature ;;
   let! schedule := load VestingSchedule schedule_account BorshIoError in
   fail_if (negb (vs_is_initialized schedule)) (into ScheduleNotInitialized) ;;
   fail_if (negb (vs_beneficiary schedule =? ia_key beneficiary)) (into Unauthorized) ;;
   fail_if (bool_decide (vs_status schedule = Completed)) (into AlreadyCompleted) ;;
   let! clock := clock_from_account_info cx clock_sysvar in
   let now := unix_timestamp clock in
   let! vested := lift (calculate_vested_amount schedule now) in
   let! claimable := lift (ok_or (u64_checked_sub vested (vs_claimed_amount schedule)) (into Overflow)) in
   fail_if (claimable =? 0) (into NothingToClaim) ;;
   let '(vault_auth_pda, vault_auth_bump) :=
     find_program_address [VAULT_SEED; key_bytes (ia_key registry_account)] (cx_program_id cx) in
   fail_if (negb (vault_auth_pda =? ia_key vault_authority)) InvalidSeeds ;;
   let transfer_ix := spl_token_transfer (ia_key token_program) (ia_key vault_token_account)
                        (ia_key beneficiary_token_account) vault_auth_pda claimable in
   invoke_signed cx transfer_ix
     [vault_token_account; beneficiary_token_account; vault_authority; token_program]
     [[VAULT_SEED; key_bytes (ia_key registry_account); [byte_of_Z vault_auth_bump]]] ;;
   let! claimed := lift (ok_or (u64_checked_add (vs_claimed_amount schedule) claimable) (into Overflow)) in
   let schedule := set_claimed claimed schedule in
   let schedule := if vs_total_amount schedule <=? vs_claimed_amount schedule then set_status Completed schedule else schedule in
   serialize_into schedule schedule_account ;;
   let! registry := load VestingRegistry registry_account BorshIoError in
   let! total_claimed := lift (ok_or (u64_checked_add (reg_total_claimed registry) claimable) (into Overflow)) in
   let active := if bool_decide (vs_status schedule = Completed)
                 then u32_saturating_sub (reg_active_schedules registry) 1 else reg_active_schedules registry in
   let registry := set_totals (reg_total_deposited registry) total_claimed (reg_total_revoked registry) active
                     (reg_schedule_counter registry) registry in
   serialize_into registry registry_account)%prog.

Definition process_revoke : M unit :=
  (let! '(authority, it) := next_account_info (cx_accounts cx) in
   let! '(schedule_account, it) := next_account_info it in
   let! '(registry_account, it) := next_account_info it in
   let! '(clock_sysvar, it) := next_account_info it in
   fail_if (negb (ia_is_signer authority)) MissingRequiredSignature ;;
   let! registry := load VestingRegistry registry_account BorshIoError in
   fail_if (negb (reg_is_initialized registry)) (into NotInitialized) ;;
   fail_if (negb (reg_authority registry =? ia_key authority)) (into Unauthorized) ;;
   let! schedule := load VestingSchedule schedule_account BorshIoError in
   fail_if (negb (vs_is_initialized schedule)) (into ScheduleNotInitialized) ;;
   fail_if (negb (vs_revocable schedule)) (into NotRevocable) ;;
   fail_if (bool_decide (vs_status schedule = Revoked)) (into AlreadyRevoked) ;;
   fail_if (bool_decide (vs_status schedule = Completed)) (into AlreadyCompleted) ;;
   let! clock := clock_from_account_info cx clock_sysvar in
   let now := unix_timestamp clock in
   let! vested := lift (calculate_vested_amount schedule now) in
   let! unvested := lift (ok_or (u64_checked_sub (vs_total_amount schedule) vested) (into Overflow)) in
   let schedule := set_status Revoked (set_total vested schedule) in
   serialize_into schedule schedule_account ;;
   let! registry := load VestingRegistry registry_account BorshIoError in
   let! total_revoked := lift (ok_or (u64_checked_add (reg_total_revoked registry) unvested) (into Overflow)) in
   let active := u32_saturating_sub (reg_active_schedules registry) 1 in
   let registry := set_totals (reg_total_deposited registry) (reg_total_claimed registry) total_revoked active
                     (reg_schedule_counter registry) registry in
   serialize_into registry registry_account)%prog.

(** The figures the query logs. *)
Record ScheduleStatus := mkScheduleStatus {
  q_vested : Z; q_claimable : Z; q_remaining : Z; q_cliff_end : Z; q_vesting_end : Z;
  q_days_until_cliff : option Z;
}.

Definition query_schedule : M ScheduleStatus :=
  (let! '(schedule_account, it) := next_account_info (cx_accounts cx) in
   let! '(clock_sysvar, it) := next_account_info it in
   let! schedule := load VestingSchedule schedule_account BorshIoError in
   fail_if (negb (vs_is_initialized schedule)) (into ScheduleNotInitialized) ;;
   let! clock := clock_from_account_info cx clock_sysvar in
   let now := unix_timestamp clock in
   let! vested := lift (calculate_vested_amount schedule now) in
   let claimable := u64_saturating_sub vested (vs_claimed_amount schedule) in
   let remaining := u64_saturating_sub (vs_total_amount schedule) vested in
   let cliff_end := default I64_MAX (i64_checked_add (vs_start_timestamp schedule) (vs_cliff_seconds schedule)) in
   let vesting_end := default I64_MAX (i64_checked_add (vs_start_timestamp schedule) (vs_duration_seconds schedule)) in
   let days := if now <? cliff_end then Some (Z.quot (i64_wrapping_sub cliff_end now) 86400) else None in
   pret (mkScheduleStatus vested claimable remaining cliff_end vesting_end days))%prog.

Definition process_query_schedule : M unit := (query_schedule ;; pret tt)%prog.

Definition process_transfer_authority (new_authority : Pubkey) : M unit :=
  (let! '(current_authority, it) := next_account_info (cx_accounts cx) in
   let! '(registry_account, it) := next_account_info it in
   fail_if (negb (ia_is_signer current_authority)) MissingRequiredSignature ;;
   let! registry := load VestingRegistry registry_account BorshIoError in
   fail_if (negb (reg_is_initialized registry)) (into NotInitialized) ;;
   fail_if (negb (reg_authority registry =? ia_key current_authority)) (into Unauthorized) ;;
   serialize_into (set_authority new_authority registry) registry_account)%prog.

Definition process_instruction (instruction_data : list byte) : M unit :=
  (let! instruction := lift (ok_or (try_from_slice instruction_data) InvalidInstructionData) in
   match instruction with
   | InitializeRegistry => process_initialize_registry
   | CreateSchedule beneficiary total_amount cliff_months duration_months schedule revocable =>
       process_create_schedule beneficiary total_amount cliff_months duration_months schedule revocable
   | Claim => process_claim
   | Revoke => process_revoke
   | QuerySchedule => process_query_schedule
   | TransferAuthority new_authority => process_transfer_authority new_authority
   end)%prog.
End Vesting.
