(* ===== verification/VestingProofs.v ===== *)
(** * VestingProofs: correctness of the vesting program

    The vesting curve against its closed form, each handler against a
    transition on registries and schedules, and the accounting of the
    registry over every sequence of instructions. *)

From Stdlib Require Import Strings.Byte.
From S2P Require Import Prelude Borsh Accounts System Invoke Execution Cpi Vesting.
Open Scope Z_scope.

(** ** The vesting curve *)

(** The schedules [process_create_schedule] makes, while the clock is far from
    the end of its range. *)
Record schedule_wf (v : VestingSchedule) : Prop := {
  swf_total : is_u64 (vs_total_amount v);
  swf_cliff : 0 <= vs_cliff_seconds v <= I64_MAX;
  swf_duration : 0 <= vs_duration_seconds v <= I64_MAX;
  swf_cliff_end : is_i64 (vs_start_timestamp v + vs_cliff_seconds v);
  swf_vesting_end : is_i64 (vs_start_timestamp v + vs_duration_seconds v);
  swf_start : is_i64 (vs_start_timestamp v);
}.

(** Tokens vested at time [now], in exact integer arithmetic. *)
Definition vested_at (v : VestingSchedule) (now : Z) : Z :=
  let total := vs_total_amount v in
  let cliff_end := vs_start_timestamp v + vs_cliff_seconds v in
  let window := vs_duration_seconds v - vs_cliff_seconds v in
  if decide (vs_status v = Revoked) then total
  else if now <? cliff_end then 0
  else if vs_start_timestamp v + vs_duration_seconds v <=? now then total
  else match vs_schedule v with
       | Linear => total * (now - cliff_end) / window
       | Quarterly =>
           let quarters := window / SECONDS_PER_QUARTER in
           if quarters =? 0 then total
           else total * Z.min ((now - cliff_end) / SECONDS_PER_QUARTER) quarters / quarters
       end.

Lemma vested_at_bounds v now : schedule_wf v -> 0 <= vested_at v now <= vs_total_amount v.
Proof.
  intros [Ht Hc Hd _ _ _]. unfold vested_at, SECONDS_PER_QUARTER.
  case_decide; [ilia|].
  destruct (Z.ltb_spec now (vs_start_timestamp v + vs_cliff_seconds v)); [ilia|].
  destruct (Z.leb_spec (vs_start_timestamp v + vs_duration_seconds v) now); [ilia|].
  destruct (vs_schedule v).
  - apply mul_div_le; ilia.
  - set (w := vs_duration_seconds v - vs_cliff_seconds v) in *.
    assert (0 <= w / 7776000) by (apply Z.div_pos; lia).
    assert (0 <= (now - (vs_start_timestamp v + vs_cliff_seconds v)) / 7776000) by (apply Z.div_pos; lia).
    destruct (Z.eqb_spec (w / 7776000) 0); [ilia|]. apply mul_div_le; ilia.
Qed.

Lemma vested_at_mono v t t' : schedule_wf v -> t <= t' -> vested_at v t <= vested_at v t'.
Proof.
  intros Hwf Hle. pose proof (vested_at_bounds v t Hwf) as Hb. pose proof (vested_at_bounds v t' Hwf) as Hb'.
  destruct Hwf as [Ht Hc Hd _ _ _]. unfold vested_at in *. unfold SECONDS_PER_QUARTER in *.
  case_decide; [lia|].
  destruct (Z.ltb_spec t (vs_start_timestamp v + vs_cliff_seconds v)); [lia|].
  destruct (Z.ltb_spec t' (vs_start_timestamp v + vs_cliff_seconds v)); [lia|].
  destruct (Z.leb_spec (vs_start_timestamp v + vs_duration_seconds v) t').
  { destruct (Z.leb_spec (vs_start_timestamp v + vs_duration_seconds v) t); lia. }
  destruct (Z.leb_spec (vs_start_timestamp v + vs_duration_seconds v) t); [lia|].
  destruct (vs_schedule v).
  - apply mul_div_mono; ilia.
  - case_match eqn:Hq; [lia|]. bool_to_prop.
    assert (0 <= (vs_duration_seconds v - vs_cliff_seconds v) / 7776000) by (apply Z.div_pos; lia).
    apply mul_div_mono; [ilia| |lia].
    apply Z.min_le_compat_r, Z.div_le_mono; lia.
Qed.

(** The code computes the exact curve: no overflow is reported, and the cast of
    the quotient to [u64] loses nothing. *)
Lemma calculate_vested_amount_exact v now :
  schedule_wf v -> is_i64 now -> calculate_vested_amount v now = Ok (vested_at v now).
Proof.
  intros Hwf Hnow. pose proof (vested_at_bounds v now Hwf) as Hb. destruct Hwf as [Ht Hc Hd Hce Hve Hst].
  unfold calculate_vested_amount, vested_at in *. case_decide; [done|].
  rewrite checked_in by done. cbn [rbind ok_or].
  destruct (Z.ltb_spec now (vs_start_timestamp v + vs_cliff_seconds v)) as [|Hcl]; [done|].
  rewrite checked_in by done. cbn [rbind ok_or].
  destruct (Z.leb_spec (vs_start_timestamp v + vs_duration_seconds v) now) as [|Hend]; [done|].
  rewrite checked_in by ilia. cbn [rbind ok_or].
  destruct (Z.leb_spec (vs_duration_seconds v - vs_cliff_seconds v) 0); [lia|].
  rewrite checked_in by ilia. cbn [rbind ok_or].
  set (w := vs_duration_seconds v - vs_cliff_seconds v) in *.
  set (el := now - (vs_start_timestamp v + vs_cliff_seconds v)) in *.
  destruct (vs_schedule v).
  - rewrite !as_u128_id by (unfold el, w; ilia).
    rewrite checked_in by (unfold in_range, U128_MAX; unfold el; ilia || (unfold_ints; nia)).
    cbn [rbind ok_or]. rewrite as_u64_id; [done|]. ilia.
  - rewrite !Z.quot_div_nonneg by (unfold el, SECONDS_PER_QUARTER; lia).
    unfold SECONDS_PER_QUARTER in *.
    assert (0 <= w / 7776000 <= w) by (split; [apply Z.div_pos|apply Z.div_le_upper_bound]; lia).
    assert (0 <= el / 7776000) by (apply Z.div_pos; unfold el; lia).
    destruct (Z.leb_spec (w / 7776000) 0), (Z.eqb_spec (w / 7776000) 0); try lia; [done|].
    rewrite !as_u128_id by (unfold w in *; ilia).
    rewrite checked_in by (unfold w in *; unfold_ints; nia).
    cbn [rbind ok_or]. rewrite as_u64_id; [done|]. ilia.
Qed.

(** ** Transitions on registries and schedules *)

(** A claim pays everything vested so far. *)
Definition claim_schedule (now : Z) (v : VestingSchedule) : VestingSchedule :=
  let v' := set_claimed (vested_at v now) v in
  if vs_total_amount v <=? vested_at v now then set_status Completed v' else v'.
Definition claim_registry (now : Z) (v : VestingSchedule) (r : VestingRegistry) : VestingRegistry :=
  set_totals (reg_total_deposited r) (reg_total_claimed r + (vested_at v now - vs_claimed_amount v))
    (reg_total_revoked r)
    (if vs_total_amount v <=? vested_at v now then Z.max 0 (reg_active_schedules r - 1) else reg_active_schedules r)
    (reg_schedule_counter r) r.

(** A revocation fixes the total at what is vested. *)
Definition revoke_schedule (now : Z) (v : VestingSchedule) : VestingSchedule :=
  set_status Revoked (set_total (vested_at v now) v).
Definition revoke_registry (now : Z) (v : VestingSchedule) (r : VestingRegistry) : VestingRegistry :=
  set_totals (reg_total_deposited r) (reg_total_claimed r)
    (reg_total_revoked r + (vs_total_amount v - vested_at v now)) (Z.max 0 (reg_active_schedules r - 1))
    (reg_schedule_counter r) r.

Definition new_schedule (registry beneficiary : Pubkey) (total now cliff_months duration_months : Z)
    (schedule : ReleaseSchedule) (revocable : bool) (index bump : Z) : VestingSchedule :=
  mkSchedule true registry beneficiary total 0 now (cliff_months * SECONDS_PER_MONTH)
    (duration_months * SECONDS_PER_MONTH) schedule Active revocable index bump.
Definition create_registry (total : Z) (r : VestingRegistry) : VestingRegistry :=
  set_totals (reg_total_deposited r + total) (reg_total_claimed r) (reg_total_revoked r)
    (reg_active_schedules r + 1) (reg_schedule_counter r + 1) r.

(** ** The vesting system

    One registry, its schedules by account key, and the clock. *)

Record vsys := mkSys { sys_now : Z; sys_reg : VestingRegistry; sys_sched : gmap Pubkey VestingSchedule }.

Definition create_guard (r : VestingRegistry) (total cliff_months duration_months : Z) : Prop :=
  0 < total <= U64_MAX /\ is_u32 cliff_months /\ is_u32 duration_months /\
  (0 < cliff_months -> 0 < duration_months -> cliff_months < duration_months) /\
  reg_active_schedules r < MAX_BENEFICIARIES /\
  is_u64 (reg_total_deposited r + total) /\ is_u64 (reg_schedule_counter r + 1).

(** What each instruction does to the system, and who must have signed:
    [accounts] are the keys the instruction was given and [pda i] is the
    address and the bump of the schedule with index [i].  The clock does not
    move, and a registry is never set up a second time. *)
Inductive vtrans (rk : Pubkey) (signed : Pubkey -> Prop) (accounts : list Pubkey) (pda : Z -> Pubkey * Z) :
    VestingInstruction -> vsys -> vsys -> Prop :=
| trans_create n r m k beneficiary total cm dm schedule revocable bump :
    accounts !! 2%nat = Some k -> pda (reg_schedule_counter r) = (k, bump) ->
    signed (reg_authority r) -> m !! k = None -> create_guard r total cm dm ->
    vtrans rk signed accounts pda (CreateSchedule beneficiary total cm dm schedule revocable) (mkSys n r m)
      (mkSys n (create_registry total r)
         (<[k := new_schedule rk beneficiary total n cm dm schedule revocable (reg_schedule_counter r) bump]> m))
| trans_claim n r m k v :
    accounts !! 1%nat = Some k -> m !! k = Some v -> signed (vs_beneficiary v) -> vs_status v <> Completed ->
    vs_claimed_amount v < vested_at v n ->
    vtrans rk signed accounts pda Claim (mkSys n r m) (mkSys n (claim_registry n v r) (<[k := claim_schedule n v]> m))
| trans_revoke n r m k v :
    accounts !! 1%nat = Some k -> m !! k = Some v -> signed (reg_authority r) -> vs_revocable v = true ->
    vs_status v = Active ->
    vtrans rk signed accounts pda Revoke (mkSys n r m) (mkSys n (revoke_registry n v r) (<[k := revoke_schedule n v]> m))
| trans_query y : vtrans rk signed accounts pda QuerySchedule y y
| trans_authority n r m k :
    signed (reg_authority r) ->
    vtrans rk signed accounts pda (TransferAuthority k) (mkSys n r m) (mkSys n (set_authority k r) m).

(** A life of the system: the clock advances, or an instruction runs. *)
Inductive vstep (rk : Pubkey) : vsys -> vsys -> Prop :=
| step_tick n n' r m : n <= n' -> is_i64 (n' + 2 ^ 62) -> vstep rk (mkSys n r m) (mkSys n' r m)
| step_run signed accounts pda instruction y y' :
    vtrans rk signed accounts pda instruction y y' -> vstep rk y y'.

(** The state [process_initialize_registry] sets up. *)
Definition vinit (n : Z) (authority vault mint : Pubkey) (bump : Z) : vsys :=
  mkSys n (mkRegistry true authority vault mint 0 0 0 0 0 bump) ∅.

Record schedule_ok (now : Z) (v : VestingSchedule) : Prop := {
  sok_wf : schedule_wf v;
  sok_claimed : 0 <= vs_claimed_amount v <= vs_total_amount v;
  sok_vested : vs_status v <> Completed -> vs_claimed_amount v <= vested_at v now;
  sok_completed : vs_status v = Completed -> vs_claimed_amount v = vs_total_amount v;
}.

Definition is_active (v : VestingSchedule) : Z := if decide (vs_status v = Active) then 1 else 0.

(** Every token deposited is accounted for: claimed, revoked, or still owed to
    a schedule; and no schedule has paid more than was vested. *)
Record vinv (y : vsys) : Prop := {
  vinv_now : is_i64 (sys_now y + 2 ^ 62) /\ is_i64 (sys_now y);
  vinv_schedules k v : sys_sched y !! k = Some v -> schedule_ok (sys_now y) v;
  vinv_claimed : reg_total_claimed (sys_reg y) = msum vs_claimed_amount (sys_sched y);
  vinv_deposited : reg_total_deposited (sys_reg y) = reg_total_revoked (sys_reg y) + msum vs_total_amount (sys_sched y);
  vinv_revoked : 0 <= reg_total_revoked (sys_reg y) /\ is_u64 (reg_total_deposited (sys_reg y));
  vinv_active : 0 <= reg_active_schedules (sys_reg y) <= msum is_active (sys_sched y) /\
    reg_active_schedules (sys_reg y) <= MAX_BENEFICIARIES;
}.

Lemma schedule_ok_later n n' v : n <= n' -> schedule_ok n v -> schedule_ok n' v.
Proof. intros Hn [W C V D]. split; try done. pose proof (vested_at_mono v n n' W Hn). naive_solver lia. Qed.

Lemma vested_at_set_claimed c v n : vested_at (set_claimed c v) n = vested_at v n.
Proof. done. Qed.

Lemma vested_at_revoked v n : vs_status v = Revoked -> vested_at v n = vs_total_amount v.
Proof. intros Hs. unfold vested_at. by rewrite decide_True. Qed.

Lemma schedule_ok_claim n v :
  vs_status v <> Completed -> schedule_ok n v -> schedule_ok n (claim_schedule n v).
Proof.
  intros Hs [W C V D]. pose proof (vested_at_bounds v n W). destruct W. unfold claim_schedule.
  destruct (Z.leb_spec (vs_total_amount v) (vested_at v n)); split; simpl; try done; try lia; by split.
Qed.

Lemma schedule_ok_revoke n v :
  vs_status v = Active -> schedule_ok n v -> schedule_ok n (revoke_schedule n v).
Proof.
  intros Hs [W C V D]. pose proof (vested_at_bounds v n W) as Hb.
  assert (Hcl : vs_claimed_amount v <= vested_at v n) by (apply V; congruence).
  destruct W. split; simpl; try done; try lia. split; simpl; try done; ilia.
Qed.

Lemma schedule_ok_new rk b total n cm dm sch rev i bump :
  is_u64 total -> is_u32 cm -> is_u32 dm -> is_i64 n -> is_i64 (n + 2 ^ 62) ->
  schedule_ok n (new_schedule rk b total n cm dm sch rev i bump).
Proof.
  intros. assert (W : schedule_wf (new_schedule rk b total n cm dm sch rev i bump)).
  { split; simpl; try done; unfold SECONDS_PER_MONTH; ilia. }
  pose proof (vested_at_bounds _ n W). split; simpl in *; try done; ilia.
Qed.

Lemma is_active_le m k v : m !! k = Some v -> is_active v <= msum is_active m.
Proof. apply msum_ge. intros; unfold is_active; case_decide; lia. Qed.

(** The invariant holds in every reachable state. *)
Lemma vinv_init n authority vault mint bump :
  is_i64 n -> is_i64 (n + 2 ^ 62) -> vinv (vinit n authority vault mint bump).
Proof. intros. split; simpl; rewrite ?msum_empty; try done. Qed.

Lemma vinv_trans rk signed accounts pda i y y' : vinv y -> vtrans rk signed accounts pda i y y' -> vinv y'.
Proof.
  intros I Hstep. pose proof I as [N S C D R A]. destruct Hstep; simpl in *.
  - hyp (create_guard _ _ _ _) as G. destruct G as (?&?&?&?&?&?&?).
    split; simpl; rewrite ?msum_insert by done; simpl; try done; try ilia.
    + intros j v [[<- <-]|[_ Hj]]%lookup_insert_Some; [|by eapply S]. apply schedule_ok_new; done || ilia.
    + unfold new_schedule, is_active at 1. simpl. lia.
  - hyp (m !! _ = Some _) as Hk. pose proof (S _ _ Hk) as Sk. apply schedule_ok_claim in Sk as Sk'; [|done].
    split; simpl; try done.
    + intros j w [[<- <-]|[_ Hj]]%lookup_insert_Some; [done|by eapply S].
    + erewrite msum_update by done. unfold claim_schedule. case_match; simpl; lia.
    + erewrite msum_update by done. unfold claim_schedule. case_match; simpl; lia.
    + erewrite msum_update by done. pose proof (is_active_le _ _ _ Hk).
      unfold claim_schedule, is_active in *. repeat case_match; simpl in *; repeat case_decide; try lia; congruence.
  - hyp (m !! _ = Some _) as Hk. pose proof (S _ _ Hk) as Sk. apply schedule_ok_revoke in Sk as Sk'; [|done].
    pose proof (vested_at_bounds v n (sok_wf _ _ Sk)).
    split; simpl; try done; try (erewrite msum_update by done; simpl); try lia.
    + intros j w [[<- <-]|[_ Hj]]%lookup_insert_Some; [done|by eapply S].
    + split; [lia|apply R].
    + pose proof (is_active_le _ _ _ Hk). set (n0 := msum is_active m) in *. unfold is_active in *. simpl.
      case_decide; [lia|congruence].
  - exact I.
  - by split.
Qed.

Lemma vinv_step rk y y' : vinv y -> vstep rk y y' -> vinv y'.
Proof.
  intros I Hstep. destruct Hstep as [n n' r m Hn Hn'|? ? ? ? ? ? Ht]; [|by eapply vinv_trans in Ht].
  destruct I as [N S C D R A].
  split; simpl in *; try done; [ilia|]. intros k v Hk. by eapply schedule_ok_later, S.
Qed.

(** ** Handlers against the transitions *)

Section Handlers.
Context {E : Env} {BR : Borsh VestingRegistry} {BS : Borsh VestingSchedule} {BI : Borsh VestingInstruction}.
Context {LR : BorshLaws VestingRegistry} {LS : BorshLaws VestingSchedule} {LI : BorshLaws VestingInstruction}.
Context {ZR : BorshSized VestingRegistry VestingRegistry_LEN} {ZS : BorshSized VestingSchedule VestingSchedule_LEN}.
Context (cx : Ctx) (now_ok : is_i64 (unix_timestamp (cx_clock cx))).
Abbreviation now := (unix_timestamp (cx_clock cx)).

(** The token transfer a claim makes. *)
Definition claim_transfer (registry vault destination vault_authority token_program : AccountInfo) (amount : Z) : M unit :=
  let '(_, bump) := find_program_address [VAULT_SEED; key_bytes (ia_key registry)] (cx_program_id cx) in
  invoke_signed cx
    (spl_token_transfer (ia_key token_program) (ia_key vault) (ia_key destination) (ia_key vault_authority) amount)
    [vault; destination; vault_authority; token_program]
    [[VAULT_SEED; key_bytes (ia_key registry); [byte_of_Z bump]]].

(** What a successful claim found and did. *)
Record claim_run (s s' : PState) (b sc rg vt bt va tp ck : AccountInfo) (v : VestingSchedule) (r : VestingRegistry)
    (vested : Z) (s1 : PState) : Prop := {
  cr_accounts : exists rest, cx_accounts cx = b :: sc :: rg :: vt :: bt :: va :: tp :: ck :: rest;
  cr_signer : ia_is_signer b = true;
  cr_schedule : holds (mem s) (ia_key sc) v;
  cr_initialized : vs_is_initialized v = true;
  cr_beneficiary : vs_beneficiary v = ia_key b;
  cr_status : vs_status v <> Completed;
  cr_vested : calculate_vested_amount v now = Ok vested;
  cr_claimable : vs_claimed_amount v < vested <= U64_MAX + vs_claimed_amount v;
  cr_authority : (find_program_address [VAULT_SEED; key_bytes (ia_key rg)] (cx_program_id cx)).1 = ia_key va;
  cr_transfer : claim_transfer rg vt bt va tp (vested - vs_claimed_amount v) s = Ok (tt, s1);
  cr_vested_u64 : is_u64 vested;
  cr_registry : let v' := set_claimed vested v in
    let v' := if vs_total_amount v <=? vested then set_status Completed v' else v' in
    let m1 := stored v' (ia_key sc) (mem s1) in
    holds m1 (ia_key rg) r /\ zlen (borsh_ser v') <= zlen (acc_data (get_acc (mem s1) (ia_key sc))) /\
    is_u64 (reg_total_claimed r + (vested - vs_claimed_amount v)) /\
    s' = mkPState (stored (set_totals (reg_total_deposited r) (reg_total_claimed r + (vested - vs_claimed_amount v))
      (reg_total_revoked r) (if vs_total_amount v <=? vested then u32_saturating_sub (reg_active_schedules r) 1
                             else reg_active_schedules r) (reg_schedule_counter r) r) (ia_key rg) m1) (rt s1);
}.

Lemma process_claim_run s s' :
  process_claim cx s = Ok (tt, s') ->
  exists b sc rg vt bt va tp ck v r vested s1, claim_run s s' b sc rg vt bt va tp ck v r vested s1.
Proof.
  intros H. unfold process_claim, clock_from_account_info in H. pinv. bool_to_prop.
  hyp (bool_decide _ = false) as Hst. apply bool_decide_eq_false_1 in Hst.
  rewrite ?Zplus_minus in *. subst.
  do 12 eexists. unshelve econstructor; try done; [by eexists|ilia|by hyp (find_program_address _ _ = _) as Hf; rewrite Hf| |].
  - unfold claim_transfer. hyp (find_program_address _ _ = _) as Hf. by rewrite Hf.
  - simpl. split_and!; [done|done|done|].
    destruct (_ <=? _); simpl; [done|by rewrite bool_decide_false].
Qed.

(** ** Refinement *)

Definition vrefines (m : gmap Pubkey Account) (rk : Pubkey) (y : vsys) : Prop :=
  holds m rk (sys_reg y) /\ forall k v, sys_sched y !! k = Some v -> holds m k v.

Lemma vrefines_ne m rk y k v : vrefines m rk y -> sys_sched y !! k = Some v -> k <> rk.
Proof.
  intros [Hr Hs] Hk ->. apply holds_zlen in Hr. apply Hs, holds_zlen in Hk. rewrite Hr in Hk. done.
Qed.

Lemma vrefines_update m m' rk n r' y k v' :
  vrefines m rk y -> holds m' rk r' -> holds m' k v' ->
  (forall j w, j <> k -> sys_sched y !! j = Some w -> acc_data (get_acc m' j) = acc_data (get_acc m j)) ->
  vrefines m' rk (mkSys n r' (<[k := v']> (sys_sched y))).
Proof.
  intros [_ Hs] Hr' Hv' Hj. split; [done|]. simpl.
  intros j w [[<- <-]|[Hne Hl]]%lookup_insert_Some; [done|].
  unfold holds. rewrite (Hj j w) by done. by apply Hs.
Qed.

(** The accounts a claim is meant for: a schedule of the system, its registry,
    and token accounts that are neither. *)
Definition claim_targets (rk : Pubkey) (y : vsys) : Prop :=
  match cx_accounts cx with
  | _ :: sc :: rg :: vt :: bt :: va :: _ =>
      ia_key rg = rk /\ is_Some (sys_sched y !! ia_key sc) /\
      Forall (fun ia => ia_key ia <> rk /\ sys_sched y !! ia_key ia = None) [vt; bt; va]
  | _ => False
  end.

(** What a claim pays: the vested and unclaimed amount of the schedule, from the
    vault to the token account of the beneficiary. *)
Definition claim_paid (y : vsys) (s : PState) (instruction : VestingInstruction) : Prop :=
  match instruction, cx_accounts cx with
  | Claim, _ :: sc :: rg :: vt :: bt :: va :: tp :: _ =>
      exists v s1, sys_sched y !! ia_key sc = Some v /\
        claim_transfer rg vt bt va tp (vested_at v now - vs_claimed_amount v) s = Ok (tt, s1)
  | Claim, _ => False
  | _, _ => True
  end.

Lemma claim_transfer_get_acc rg vt bt va tp amount s s1 k :
  claim_transfer rg vt bt va tp amount s = Ok (tt, s1) -> k ∉ (ia_key <$> [vt; bt; va]) ->
  get_acc (mem s1) k = get_acc (mem s) k.
Proof.
  unfold claim_transfer. destruct (find_program_address _ _) as [pda bump].
  intros H Hk. by eapply invoke_signed_get_acc in H.
Qed.

Lemma well_typed_claim n v : is_u64 (vested_at v n) -> well_typed v -> well_typed (claim_schedule n v).
Proof.
  intros Hv W. unfold claim_schedule. unfold well_typed, VestingSchedule_well_typed in *.
  case_match; simpl; naive_solver.
Qed.

Lemma well_typed_set_totals d c v a n r :
  is_u64 d -> is_u64 c -> is_u64 v -> is_u32 a -> is_u64 n -> well_typed r -> well_typed (set_totals d c v a n r).
Proof. unfold well_typed, VestingRegistry_well_typed. simpl. naive_solver. Qed.

(** Writing a registry and one of its schedules. *)
Lemma store_pair rk y m m1 k v (v' : VestingSchedule) (r' : VestingRegistry) :
  vrefines m rk y -> sys_sched y !! k = Some v ->
  (forall j, j = rk \/ is_Some (sys_sched y !! j) -> get_acc m1 j = get_acc m j) -> well_typed v' -> well_typed r' ->
  let m' := stored r' rk (stored v' k m1) in
  holds m' rk r' /\ holds m' k v' /\
  (forall j w, j <> k -> sys_sched y !! j = Some w -> get_acc m' j = get_acc m j).
Proof.
  intros Href Hk Hsame Wv Wr m'. assert (Hne : k <> rk) by (by eapply vrefines_ne).
  pose proof Href as [Hrr Hss]. unfold m'. split_and!.
  - apply holds_stored; [|done]. rewrite stored_ne by congruence. rewrite Hsame by (by left). exact (holds_zlen _ _ _ Hrr).
  - rewrite holds_stored_ne by done. apply holds_stored; [|done].
    rewrite Hsame by (right; by eexists). exact (holds_zlen _ _ _ (Hss _ _ Hk)).
  - intros j w Hj Hw. assert (j <> rk) by (by eapply vrefines_ne).
    rewrite !stored_ne by done. apply Hsame. right. by eexists.
Qed.

(** The memory after a claim. *)
Lemma process_claim_refines rk y s s' :
  vinv y -> vrefines (mem s) rk y -> sys_now y = now -> claim_targets rk y ->
  process_claim cx s = Ok (tt, s') ->
  exists k v, (ia_key <$> cx_accounts cx) !! 1%nat = Some k /\ sys_sched y !! k = Some v /\
    signed cx (vs_beneficiary v) /\ vs_status v <> Completed /\
    vs_claimed_amount v < vested_at v now /\ claim_paid y s Claim /\ passed cx k /\ passed cx rk /\
    holds (mem s') rk (claim_registry now v (sys_reg y)) /\ holds (mem s') k (claim_schedule now v) /\
    (forall j w, j <> k -> sys_sched y !! j = Some w -> get_acc (mem s') j = get_acc (mem s) j).
Proof.
  intros Hinv Href Hnow Htg H. apply process_claim_run in H as (b & sc & rg & vt & bt & va & tp & ck & v & r & vested & s1 & R).
  destruct R as [[rest Hacc] Hsg Hsc _ Hben Hst Hv Hcl _ Htr Hv64 (Hr & Hlen & Hsum & ->)].
  unfold claim_targets in Htg. rewrite Hacc in Htg. destruct Htg as (<- & [v' Hk] & Hfr).
  assert (v' = v) as -> by (eapply holds_inj; [by apply Href|done]).
  destruct (vinv_schedules _ Hinv _ _ Hk) as [W C V D].
  rewrite calculate_vested_amount_exact in Hv by done. injection Hv as <-.
  assert (Hne : ia_key sc <> ia_key rg) by (by eapply vrefines_ne).
  assert (Hsame : forall j, j = ia_key rg \/ is_Some (sys_sched y !! j) -> get_acc (mem s1) j = get_acc (mem s) j).
  { intros j Hj. eapply claim_transfer_get_acc; [done|]. intros (ia & -> & Hia)%list_elem_of_fmap.
    eapply Forall_forall in Hfr as [F1 F2]; [|done]. destruct Hj as [|[w Hw]]; [done|congruence]. }
  fold (claim_schedule now v) in *. set (v1 := claim_schedule now v) in *.
  assert (r = sys_reg y) as ->.
  { rewrite holds_stored_ne in Hr by done. eapply holds_inj; [|apply Href].
    rewrite <- (holds_acc (mem s1)); [done|]. by apply Hsame; left. }
  pose proof Href as [Hrr Hss]. apply holds_well_typed in Hrr as Wr. apply holds_well_typed in Hsc as Wv.
  assert (Hact : u32_saturating_sub (reg_active_schedules (sys_reg y)) 1 = Z.max 0 (reg_active_schedules (sys_reg y) - 1)).
  { destruct Wr as (_&_&_&_&_&_&?&_). unfold clamp. ilia. }
  rewrite Hact. fold (claim_registry now v (sys_reg y)).
  assert (Wr' : well_typed (claim_registry now v (sys_reg y))).
  { destruct Wr as (?&?&?&?&?&?&?&?&?). apply well_typed_set_totals; try done. case_match; ilia. }
  pose proof (store_pair _ _ _ _ _ _ v1 _ Href Hk Hsame (well_typed_claim _ _ Hv64 Wv) Wr') as (S1 & S2 & S3).
  exists (ia_key sc), v. unfold passed, claim_paid. rewrite Hacc.
  split_and!; try done; [exists b; rewrite Hacc; by repeat split; [left|..]|lia|by exists v, s1|set_solver|set_solver].
Qed.

Definition revoke_targets (rk : Pubkey) (y : vsys) : Prop :=
  match cx_accounts cx with
  | _ :: sc :: rg :: _ => ia_key rg = rk /\ is_Some (sys_sched y !! ia_key sc)
  | _ => False
  end.

Lemma process_revoke_refines rk y s s' :
  vinv y -> vrefines (mem s) rk y -> sys_now y = now -> revoke_targets rk y ->
  process_revoke cx s = Ok (tt, s') ->
  exists k v, (ia_key <$> cx_accounts cx) !! 1%nat = Some k /\ sys_sched y !! k = Some v /\ vs_status v = Active /\ vs_revocable v = true /\
    signed cx (reg_authority (sys_reg y)) /\
    passed cx k /\ passed cx rk /\
    holds (mem s') rk (revoke_registry now v (sys_reg y)) /\ holds (mem s') k (revoke_schedule now v) /\
    (forall j w, j <> k -> sys_sched y !! j = Some w -> get_acc (mem s') j = get_acc (mem s) j).
Proof.
  intros Hinv Href Hnow Htg H. unfold revoke_targets in Htg.
  unfold process_revoke, clock_from_account_info in H.
  destruct (cx_accounts cx) as [|au [|sc [|rg rest]]] eqn:Hacc; try done. destruct Htg as [<- [v Hk]].
  pose proof (proj1 Href) as Hr. pose proof (proj2 Href _ _ Hk) as Hv. pinv. bool_to_prop. holds_eq.
  hyp (bool_decide (_ = Revoked) = false) as Hs1. hyp (bool_decide (_ = Completed) = false) as Hs2.
  apply bool_decide_eq_false_1 in Hs1, Hs2.
  assert (Hne : ia_key sc <> ia_key rg) by (by eapply vrefines_ne).
  rewrite holds_stored_ne in * by congruence. holds_eq.
  destruct (vinv_schedules _ Hinv _ _ Hk) as [W C V D]. pose proof (vested_at_bounds v now W).
  hyp (calculate_vested_amount _ _ = Ok _) as Hc. rewrite calculate_vested_amount_exact in Hc by done.
  injection Hc as <-. fold (revoke_schedule now v) in *.
  apply holds_well_typed in Hr as Wr. apply holds_well_typed in Hv as Wv.
  assert (Hact : u32_saturating_sub (reg_active_schedules (sys_reg y)) 1 = Z.max 0 (reg_active_schedules (sys_reg y) - 1)).
  { destruct Wr as (_&_&_&_&_&_&?&_). unfold clamp. ilia. }
  rewrite Hact in *. fold (revoke_registry now v (sys_reg y)) in *.
  assert (Wr' : well_typed (revoke_registry now v (sys_reg y))).
  { destruct Wr as (?&?&?&?&?&?&?&?&?). apply well_typed_set_totals; done || ilia. }
  assert (Wv' : well_typed (revoke_schedule now v)).
  { destruct Wv as (?&?&?&?&?&?&?&?&?). repeat split; simpl; done || ilia. }
  pose proof (store_pair _ _ (mem s) (mem s) _ _ _ _ Href Hk (fun _ _ => eq_refl) Wv' Wr') as (S1 & S2 & S3).
  exists (ia_key sc), v. unfold passed. rewrite Hacc.
  split_and!; try done; [by destruct (vs_status v)| |set_solver|set_solver].
  exists au. rewrite Hacc. by repeat split; [left|..].
Qed.

Lemma process_transfer_authority_refines rk y s s' new_authority :
  vrefines (mem s) rk y -> is_pubkey new_authority ->
  ia_key <$> cx_accounts cx !! 1%nat = Some rk ->
  process_transfer_authority cx new_authority s = Ok (tt, s') ->
  signed cx (reg_authority (sys_reg y)) /\ passed cx rk /\
  holds (mem s') rk (set_authority new_authority (sys_reg y)) /\
  (forall j, j <> rk -> get_acc (mem s') j = get_acc (mem s) j).
Proof.
  intros Href Hpk Hrk H. unfold process_transfer_authority in H.
  destruct (cx_accounts cx) as [|au [|rg rest]] eqn:Hacc; try done. injection Hrk as <-.
  pose proof (proj1 Href) as Hr. pinv. bool_to_prop. holds_eq. simpl.
  apply holds_well_typed in Hr as Wr. split_and!.
  - exists au. rewrite Hacc. by repeat split; [left|..].
  - unfold passed. rewrite Hacc. set_solver.
  - apply holds_stored; [exact (holds_zlen _ _ _ Hr)|].
    unfold well_typed, VestingRegistry_well_typed in *. simpl. naive_solver.
  - intros j Hj. by rewrite stored_ne.
Qed.

(** The address and the bump of the schedule with a given index. *)
Definition schedule_pda (rk : Pubkey) (index : Z) : Pubkey * Z :=
  find_program_address [SCHEDULE_SEED; key_bytes rk; le_bytes 8 index] (cx_program_id cx).

(** The accounts of a creation: the registry, and a payer and a schedule
    account the transaction has loaded. *)
Definition create_targets (rk : Pubkey) (s : PState) : Prop :=
  match cx_accounts cx with
  | au :: rg :: sc :: _ => ia_key rg = rk /\ exists af at_, create_ready cx s (ia_key au) (ia_key sc) af at_
  | _ => False
  end.

Lemma holds_unused m k (v : VestingSchedule) : acc_data (get_acc m k) = [] -> ~ holds m k v.
Proof. intros Hd H. apply holds_zlen in H. by rewrite Hd in H. Qed.

Lemma process_create_schedule_refines {L : EnvLaws} rk y s s' b total cm dm sch rev :
  vinv y -> vrefines (mem s) rk y -> sys_now y = now -> create_targets rk s -> is_pubkey (cx_program_id cx) ->
  is_pubkey rk -> is_pubkey b -> is_u64 total -> is_u32 cm -> is_u32 dm ->
  process_create_schedule cx b total cm dm sch rev s = Ok (tt, s') ->
  exists k bump, (ia_key <$> cx_accounts cx) !! 2%nat = Some k /\
    schedule_pda rk (reg_schedule_counter (sys_reg y)) = (k, bump) /\
    signed cx (reg_authority (sys_reg y)) /\ sys_sched y !! k = None /\
    create_guard (sys_reg y) total cm dm /\ passed cx k /\ passed cx rk /\
    holds (mem s') rk (create_registry total (sys_reg y)) /\
    holds (mem s') k (new_schedule rk b total now cm dm sch rev (reg_schedule_counter (sys_reg y)) bump) /\
    (forall j, j <> k -> j <> rk -> acc_data (get_acc (mem s') j) = acc_data (get_acc (mem s) j)).
Proof.
  intros Hinv Href Hnow Htg Hpid Hrk Hb Ht Hcm Hdm H. unfold create_targets in Htg. unfold process_create_schedule in H.
  destruct (cx_accounts cx) as [|au [|rg [|sc rest]]] eqn:Hacc; try done. destruct Htg as [<- (af & at_ & R)].
  pose proof (proj1 Href) as Hr. pinv. bool_to_prop. holds_eq.
  hyp (invoke_signed _ _ _ _ _ = Ok _) as Hcpi.
  eapply create_account_effect in Hcpi as [-> (signers & _ & G)]; try done; [|apply minimum_balance_u64].
  destruct G. destruct ccg_unused as (_ & Hempty & _). rewrite <- (mem_acc _ _ _ (ready_mem_to _ _ _ _ _ _ R)) in Hempty.
  set (s1 := created_state _ _ _ _ _ _ _) in *. set (v := mkSchedule _ _ _ _ _ _ _ _ _ _ _ _ _) in *.
  assert (Hne : ia_key sc <> ia_key rg).
  { intros Heq. apply holds_zlen in Hr. rewrite <- Heq, Hempty in Hr. done. }
  assert (Hd1 : forall j, j <> ia_key sc -> acc_data (get_acc (mem s1) j) = acc_data (get_acc (mem s) j)).
  { intros j Hj. by eapply created_data. }
  hyp (find_program_address _ _ = _) as Hf. pose proof Hf as [Hbump _]%find_create.
  apply holds_well_typed in Hr as Wr. destruct Wr as (?&?&?&?&?&?&?&?&?).
  assert (Wv : well_typed v) by (repeat split; simpl; ilia).
  assert (Wr' : well_typed (create_registry total (sys_reg y))).
  { apply well_typed_set_totals; try done. }
  exists (ia_key sc), z0. unfold passed. rewrite Hacc. split_and!; try done; try match goal with |- _ ∈ _ => set_solver end.
  - unfold schedule_pda. rewrite Hf. congruence.
  - exists au. rewrite Hacc. by repeat split; [left|..].
  - destruct (sys_sched y !! ia_key sc) as [w|] eqn:Hw; [|done]. apply Href in Hw. by apply holds_unused in Hw.
  - unfold create_guard. split_and!; try done; [ilia|ilia|]. intros Hc0 Hd0.
    hyp (_ && _ && _ = false) as Hg. rewrite !andb_false_iff, !Z.ltb_ge, Z.leb_gt in Hg.
    unfold SECONDS_PER_MONTH in *. lia.
  - cbn [mem]. apply holds_stored; [|done]. rewrite stored_ne by congruence. rewrite Hd1 by congruence.
    exact (holds_zlen _ _ _ Hr).
  - cbn [mem]. rewrite holds_stored_ne by done. apply holds_stored; [|done].
    unfold s1. by rewrite created_to.
  - intros j Hj Hj'. simpl. rewrite !stored_ne by done. by apply Hd1.
Qed.

Lemma process_initialize_registry_taken {L : EnvLaws} rk y s s' au rg rest af at_ :
  cx_accounts cx = au :: rg :: rest -> create_ready cx s (ia_key au) rk af at_ -> ia_key rg = rk ->
  is_pubkey (cx_program_id cx) -> vrefines (mem s) rk y -> process_initialize_registry cx s <> Ok (tt, s').
Proof.
  intros Hacc R <- Hpid [Hr _] H. unfold process_initialize_registry in H. rewrite Hacc in H. pinv.
  hyp (invoke_signed _ _ _ _ _ = Ok _) as Hcpi.
  eapply create_account_effect in Hcpi as [-> (signers & _ & G)]; try done; [|apply minimum_balance_u64].
  destruct G. destruct ccg_unused as (_ & Hempty & _).
  rewrite <- (mem_acc _ _ _ (ready_mem_to _ _ _ _ _ _ R)) in Hempty.
  apply holds_zlen in Hr. by rewrite Hempty in Hr.
Qed.

(** The accounts an instruction is meant for. *)
Definition targets (rk : Pubkey) (y : vsys) (s : PState) (instruction : VestingInstruction) : Prop :=
  match instruction with
  | InitializeRegistry => exists au rg rest af at_, cx_accounts cx = au :: rg :: rest /\ ia_key rg = rk /\
      create_ready cx s (ia_key au) rk af at_
  | CreateSchedule _ _ _ _ _ _ => create_targets rk s
  | Claim => claim_targets rk y
  | Revoke => revoke_targets rk y
  | QuerySchedule => True
  | TransferAuthority _ => ia_key <$> cx_accounts cx !! 1%nat = Some rk
  end.

Lemma safe_process_instruction {X : ExecLaws} data : safe (process_instruction cx data).
Proof.
  unfold process_instruction. psafe; unfold process_initialize_registry, process_create_schedule, process_claim,
    process_revoke, process_query_schedule, query_schedule, process_transfer_authority; psafe.
Qed.

Lemma confined_process_instruction {X : ExecLaws} data : confined cx (process_instruction cx data).
Proof.
  unfold process_instruction. psafe; unfold process_initialize_registry, process_create_schedule, process_claim,
    process_revoke, process_query_schedule, query_schedule, process_transfer_authority; psafe.
Qed.

Lemma same_state_query : same_state (process_query_schedule cx).
Proof.
  intros s u s' H. unfold process_query_schedule, query_schedule, clock_from_account_info in H. by pinv.
Qed.

(** The system after an instruction that writes a registry and a schedule. *)
Lemma final_update m m1 m' rk n y r' k v' :
  (forall j, passed cx j -> acc_data (get_acc m' j) = acc_data (get_acc m1 j)) ->
  (forall j, ~ passed cx j -> acc_data (get_acc m' j) = acc_data (get_acc m j)) ->
  vrefines m rk y -> passed cx k -> passed cx rk -> holds m1 rk r' -> holds m1 k v' ->
  (forall j w, j <> k -> sys_sched y !! j = Some w -> acc_data (get_acc m1 j) = acc_data (get_acc m j)) ->
  vrefines m' rk (mkSys n r' (<[k := v']> (sys_sched y))).
Proof.
  intros Hp Hn Href Hk Hrk Hr Hv Hj. eapply vrefines_update; [done| | |].
  - eapply holds_data; [symmetry; by apply Hp|done].
  - eapply holds_data; [symmetry; by apply Hp|done].
  - intros j w Hne Hw. destruct (decide (passed cx j)); [|by apply Hn]. rewrite Hp by done. by eapply Hj.
Qed.

Lemma instruction_refines {L : EnvLaws} {X : ExecLaws} data instruction rk y ta ta' :
  try_from_slice data = Some instruction -> targets rk y (mkPState (ta_accounts ta) ta) instruction ->
  vinv y -> vrefines (ta_accounts ta) rk y -> sys_now y = now ->
  lamports_ok (ta_accounts ta) -> is_pubkey (cx_program_id cx) -> is_pubkey rk ->
  execute cx (process_instruction cx data) ta = Ok ta' ->
  exists y', vtrans rk (signed cx) (ia_key <$> cx_accounts cx) (schedule_pda rk) instruction y y' /\
    vrefines (ta_accounts ta') rk y' /\ claim_paid y (mkPState (ta_accounts ta) ta) instruction.
Proof.
  destruct y as [n r m]. intros Hde Htg Hinv Href Hnow Hok Hpid Hrk H. cbn [sys_now] in Hnow. subst n. assert (Hwt := Hde). apply try_from_slice_some in Hwt as [Hwt _].
  apply execute_result in H as (s & Hrun & _ & Hp & Hn); [|apply safe_process_instruction|apply confined_process_instruction|done].
  assert (Hp' : forall j, passed cx j -> acc_data (get_acc (ta_accounts ta') j) = acc_data (get_acc (mem s) j))
    by (intros; by apply Hp). clear Hp.
  assert (Hn' : forall j, ~ passed cx j -> acc_data (get_acc (ta_accounts ta') j) = acc_data (get_acc (ta_accounts ta) j))
    by (intros; by rewrite Hn). clear Hn.
  unfold process_instruction in Hrun. rewrite Hde in Hrun. cbn [ok_or lift pbind] in Hrun.
  destruct instruction; cbn [targets] in Htg.
  - destruct Htg as (au & rg & rest & af & at_ & Ha & Hk & R). exfalso.
    by eapply process_initialize_registry_taken in Hrun.
  - destruct Hwt as (?&?&?&?).
    apply (process_create_schedule_refines rk (mkSys now r m)) in Hrun as (k & bump & ?&?&?&?&?&?&?&?&?& Hj); try done.
    eexists. split_and!; [by eapply trans_create| |done].
    eapply (final_update _ _ _ _ _ (mkSys _ _ _)); try done. intros j w Hjk Hw. apply Hj; [done|]. by eapply vrefines_ne.
  - apply (process_claim_refines rk (mkSys now r m)) in Hrun as (k & v & ?&?&?&?&?&?&?&?&?&?& Hj); try done.
    eexists. split_and!; [by eapply trans_claim| |done].
    eapply (final_update _ _ _ _ _ (mkSys _ _ _)); try done. intros j w Hjk Hw. by rewrite (Hj j w).
  - apply (process_revoke_refines rk (mkSys now r m)) in Hrun as (k & v & ?&?&?&?&?&?&?&?&?& Hj); try done.
    eexists. split_and!; [by eapply trans_revoke| |done].
    eapply (final_update _ _ _ _ _ (mkSys _ _ _)); try done. intros j w Hjk Hw. by rewrite (Hj j w).
  - apply same_state_query in Hrun as ->. exists (mkSys now r m). split_and!; [constructor| |done].
    assert (Hall : forall j, acc_data (get_acc (ta_accounts ta) j) = acc_data (get_acc (ta_accounts ta') j)).
    { intros j. symmetry. destruct (decide (passed cx j)); [by apply Hp'|by apply Hn']. }
    split; [|intros k v Hk]; (eapply holds_data; [apply Hall|]); by apply Href.
  - apply (process_transfer_authority_refines rk (mkSys now r m)) in Hrun as (?&?&?& Hj); try done.
    eexists. split_and!; [by apply trans_authority| |done].
    split; [eapply holds_data; [symmetry; by apply Hp'|done]|].
    intros k v Hk. assert (k <> rk) by (by eapply vrefines_ne). eapply holds_data; [symmetry|by apply Href].
    destruct (decide (passed cx k)); [|by apply Hn']. rewrite Hp' by done. by rewrite Hj.
Qed.

(** A claim changes the data of the schedule account. *)
Lemma claim_changes_schedule {X : ExecLaws} s s' b sc rg vt bt va rest :
  cx_accounts cx = b :: sc :: rg :: vt :: bt :: va :: rest -> ia_key sc ∉ (ia_key <$> [vt; bt; va]) ->
  pstate_ok s -> process_claim cx s = Ok (tt, s') -> mem s = ta_accounts (rt s) ->
  acc_data (get_acc (mem s') (ia_key sc)) <> acc_data (get_acc (ta_accounts (rt s')) (ia_key sc)) /\
  get_acc (ta_accounts (rt s')) (ia_key sc) = get_acc (ta_accounts (rt s)) (ia_key sc).
Proof.
  intros Hacc Hfr Hok H Hmem.
  apply process_claim_run in H as (b' & sc' & rg' & vt' & bt' & va' & tp & ck & v & r & vested & s1 & R).
  destruct R as [[rest' Hacc'] _ Hsc _ _ _ _ Hcl _ Htr Hv64 (Hr & Hlen & _ & ->)].
  rewrite Hacc in Hacc'. simplify_eq. set (v' := if _ <=? _ then _ else _) in *.
  assert (Hrt : get_acc (ta_accounts (rt s1)) (ia_key sc') = get_acc (ta_accounts (rt s)) (ia_key sc')).
  { unfold claim_transfer in Htr. destruct (find_program_address _ _). by eapply invoke_signed_rt_frame in Htr. }
  pose proof (claim_transfer_get_acc _ _ _ _ _ _ _ _ _ Htr Hfr) as Hm1.
  split; [|done]. simpl. rewrite Hrt, <- Hmem. apply holds_well_typed in Hsc as Wv.
  assert (Wv' : well_typed v').
  { destruct Wv as (?&?&?&?&?&?&?&?&?). unfold v'. case_match; repeat split; simpl; done || ilia. }
  assert (Hd : holds (stored v' (ia_key sc') (mem s1)) (ia_key sc') v').
  { apply holds_stored; [|done]. rewrite Hm1. exact (holds_zlen _ _ _ Hsc). }
  destruct (decide (ia_key sc' = ia_key rg')) as [Heq|Hne].
  - rewrite <- Heq in Hr. apply holds_zlen in Hr. apply holds_zlen in Hd. by rewrite Hr in Hd.
  - rewrite stored_ne by done. intros Heq. rewrite <- (holds_acc (mem s1)) in Hsc by done.
    assert (Hv : v' = v).
    { unfold holds in *. rewrite Heq in Hd. rewrite Hm1 in Hsc. congruence. }
    assert (Hc : vs_claimed_amount v' = vested) by (unfold v'; by case_match). rewrite Hv in Hc. lia.
Qed.
End Handlers.
