(* ===== verification/VestingTheorems.v ===== *)
(** * VestingTheorems: the properties of the vesting program

    The theorems about [src/programs/vesting/src/lib.rs], and the evaluation
    of the program on concrete accounts in the Borsh wire format. *)

From Stdlib Require Import Strings.Byte.
From S2P Require Import Prelude Borsh Accounts System Invoke Execution Concrete Cpi Vesting VestingProofs.
Open Scope Z_scope.

(** ** The account data on the wire *)

Abbreviation u64 := (codec_uint 8).
Abbreviation i64 := (codec_int 8).
Abbreviation u32 := (codec_uint 4).
Abbreviation u8 := (codec_uint 1).

Definition codec_registry : codec VestingRegistry :=
  codec_iso
    (fun '(i, (a, (v, (t, (d, (c, (r, (n, (k, b))))))))) => mkRegistry i a v t d c r n k b)
    (fun r => (reg_is_initialized r, (reg_authority r, (reg_vault r, (reg_token_mint r, (reg_total_deposited r,
      (reg_total_claimed r, (reg_total_revoked r, (reg_active_schedules r, (reg_schedule_counter r, reg_bump r))))))))))
    (codec_pair codec_bool (codec_pair codec_pubkey (codec_pair codec_pubkey (codec_pair codec_pubkey
      (codec_pair u64 (codec_pair u64 (codec_pair u64 (codec_pair u32 (codec_pair u64 u8))))))))).

Lemma codec_registry_laws : codec_laws codec_registry.
Proof. apply codec_iso_laws; [by intros []|by intros (?&?&?&?&?&?&?&?&?&?)|]. auto 20 with codec. Qed.

Lemma codec_registry_size : c_size codec_registry VestingRegistry_LEN.
Proof. codec_size. Qed.

Lemma codec_registry_wf r : well_typed r <-> c_wf codec_registry r.
Proof. unfold well_typed, VestingRegistry_well_typed. codec_wf. Qed.

Definition codec_release : codec ReleaseSchedule := codec_enum [Linear; Quarterly].
Definition codec_status : codec VestingStatus := codec_enum [Active; Completed; Revoked].

Definition codec_schedule : codec VestingSchedule :=
  codec_iso
    (fun '(i, (r, (b, (t, (c, (s, (f, (d, (k, (st, (rv, (n, bm)))))))))))) => mkSchedule i r b t c s f d k st rv n bm)
    (fun v => (vs_is_initialized v, (vs_registry v, (vs_beneficiary v, (vs_total_amount v, (vs_claimed_amount v,
      (vs_start_timestamp v, (vs_cliff_seconds v, (vs_duration_seconds v, (vs_schedule v, (vs_status v,
      (vs_revocable v, (vs_index v, vs_bump v)))))))))))))
    (codec_pair codec_bool (codec_pair codec_pubkey (codec_pair codec_pubkey (codec_pair u64 (codec_pair u64
      (codec_pair i64 (codec_pair i64 (codec_pair i64 (codec_pair codec_release (codec_pair codec_status
      (codec_pair codec_bool (codec_pair u64 u8)))))))))))).

Lemma codec_release_laws : codec_laws codec_release.
Proof. apply codec_enum_laws; [repeat constructor; set_solver|simpl; lia]. Qed.
Lemma codec_status_laws : codec_laws codec_status.
Proof. apply codec_enum_laws; [repeat constructor; set_solver|simpl; lia]. Qed.
#[local] Hint Resolve codec_release_laws codec_status_laws : codec.
#[local] Hint Extern 1 (0 < _)%nat => lia : codec.

Lemma codec_schedule_laws : codec_laws codec_schedule.
Proof. apply codec_iso_laws; [by intros []|by intros (?&?&?&?&?&?&?&?&?&?&?&?&?)|]. auto 20 with codec. Qed.

Lemma codec_schedule_size : c_size codec_schedule VestingSchedule_LEN.
Proof. codec_size. Qed.

Lemma codec_schedule_wf v : well_typed v <-> c_wf codec_schedule v.
Proof.
  unfold well_typed, VestingSchedule_well_typed.
  assert (vs_schedule v ∈ [Linear; Quarterly]) by (destruct (vs_schedule v); set_solver).
  assert (vs_status v ∈ [Active; Completed; Revoked]) by (destruct (vs_status v); set_solver).
  codec_wf.
Qed.

Definition instruction_index (i : VestingInstruction) : nat :=
  match i with
  | InitializeRegistry => 0 | CreateSchedule _ _ _ _ _ _ => 1 | Claim => 2 | Revoke => 3 | QuerySchedule => 4
  | TransferAuthority _ => 5
  end.

Definition codec_instruction : codec VestingInstruction :=
  codec_variants
    [mkVariant codec_unit (fun _ => InitializeRegistry) (fun _ => Some tt);
     mkVariant (codec_pair codec_pubkey (codec_pair u64 (codec_pair u32 (codec_pair u32 (codec_pair codec_release codec_bool)))))
       (fun '(b, (t, (c, (d, (s, r))))) => CreateSchedule b t c d s r)
       (fun i => match i with CreateSchedule b t c d s r => Some (b, (t, (c, (d, (s, r))))) | _ => None end);
     mkVariant codec_unit (fun _ => Claim) (fun _ => Some tt);
     mkVariant codec_unit (fun _ => Revoke) (fun _ => Some tt);
     mkVariant codec_unit (fun _ => QuerySchedule) (fun _ => Some tt);
     mkVariant codec_pubkey TransferAuthority (fun i => match i with TransferAuthority k => Some k | _ => None end)]
    instruction_index.

Lemma codec_instruction_laws : codec_laws codec_instruction.
Proof.
  apply codec_variants_laws; [simpl; lia|repeat apply Forall_cons_2; simpl; auto 10 with codec| |].
  - intros [|[|[|[|[|[|]]]]]] v a [= <-]; simpl in a;
      repeat match goal with x : _ * _ |- _ => destruct x | x : unit |- _ => destruct x end; done.
  - intros [] v a [= <-]; simpl; by intros [= <-].
Qed.

Lemma codec_instruction_wf i : well_typed i <-> c_wf codec_instruction i.
Proof.
  destruct i; simpl; try done; unfold well_typed; simpl.
  - assert (schedule ∈ [Linear; Quarterly]) by (destruct schedule; set_solver). codec_wf.
  - codec_wf.
Qed.

(** ** The program on the wire *)

#[global] Instance registry_borsh : Borsh VestingRegistry := borsh_of_codec codec_registry.
#[global] Instance registry_borsh_laws : BorshLaws VestingRegistry :=
  borsh_of_codec_laws _ codec_registry_laws codec_registry_wf.
#[global] Instance registry_borsh_sized : BorshSized VestingRegistry VestingRegistry_LEN :=
  borsh_of_codec_sized _ _ codec_registry_size codec_registry_wf.
#[global] Instance schedule_borsh : Borsh VestingSchedule := borsh_of_codec codec_schedule.
#[global] Instance schedule_borsh_laws : BorshLaws VestingSchedule :=
  borsh_of_codec_laws _ codec_schedule_laws codec_schedule_wf.
#[global] Instance schedule_borsh_sized : BorshSized VestingSchedule VestingSchedule_LEN :=
  borsh_of_codec_sized _ _ codec_schedule_size codec_schedule_wf.
#[global] Instance instruction_borsh : Borsh VestingInstruction := borsh_of_codec codec_instruction.
#[global] Instance instruction_borsh_laws : BorshLaws VestingInstruction :=
  borsh_of_codec_laws _ codec_instruction_laws codec_instruction_wf.

(** A registry (account 200, authority 300) with two schedules of 1000 tokens
    over 1000 seconds: one of beneficiary 400 (account 500), one of
    beneficiary 401 (account 600). *)
Module Demo.
Definition PROGRAM : Pubkey := 100.
Definition reg : VestingRegistry := mkRegistry true 300 700 701 2000 0 0 2 2 255.
Definition sched (beneficiary index : Z) : VestingSchedule :=
  mkSchedule true 200 beneficiary 1000 0 0 0 1000 Linear Active true index 255.
Definition vault_authority : Pubkey := derive [VAULT_SEED; key_bytes 200; [byte_of_Z 255]] PROGRAM.
Definition accounts : list (Pubkey * Account) :=
  [(200, mkAccount 1000000 (borsh_ser reg) PROGRAM false);
   (500, mkAccount 1000000 (borsh_ser (sched 400 0)) PROGRAM false);
   (600, mkAccount 1000000 (borsh_ser (sched 401 1)) PROGRAM false);
   (300, mkAccount 5000 [] 0 false); (400, mkAccount 5000 [] 0 false);
   (700, mkAccount 5000 [] 900 false); (800, mkAccount 5000 [] 900 false);
   (vault_authority, mkAccount 0 [] 0 false); (900, mkAccount 1 [] 1 true); (6, mkAccount 1 [] 1 false)].
Definition ta : TransactionAccounts := mkTA (store accounts) 0 0.
Definition len (k : Pubkey) : Z := zlen (acc_data (get_acc (store accounts) k)).
Definition sys (t : Z) : vsys := mkSys t reg {[500 := sched 400 0; 600 := sched 401 1]}.

(** A claim and a revocation of the first schedule. *)
Definition claim_cx (t : Z) : Ctx := demo_ctx PROGRAM
  [mkIA 400 true true; mkIA 500 false true; mkIA 200 false true; mkIA 700 false true; mkIA 800 false true;
   mkIA vault_authority false false; mkIA 900 false false; mkIA 6 false false] t len.
Definition revoke_cx (t : Z) : Ctx := demo_ctx PROGRAM
  [mkIA 300 true true; mkIA 500 false true; mkIA 200 false true; mkIA 6 false false] t len.
Definition claim_data : list byte := borsh_ser Claim.
Definition revoke_data : list byte := borsh_ser Revoke.

Lemma lamports : lamports_ok (ta_accounts ta).
Proof. apply lamports_ok_store, (bool_decide_unpack _). by vm_compute. Qed.

Lemma refines t : vrefines (ta_accounts ta) 200 (sys t).
Proof.
  split; [by vm_compute|]. intros k v. unfold sys. cbn [sys_sched].
  rewrite lookup_insert_Some, lookup_singleton_Some. intros [[<- <-]|[_ [<- <-]]]; by vm_compute.
Qed.

Lemma sched_ok b i t : 0 <= t <= 1000 -> schedule_ok t (sched b i).
Proof.
  intros Ht. assert (W : schedule_wf (sched b i)) by (split; simpl; ilia).
  pose proof (vested_at_bounds _ t W). split; simpl in *; done || lia.
Qed.

Lemma inv : vinv (sys 500).
Proof.
  split; unfold sys; cbn [sys_now sys_reg sys_sched reg reg_total_claimed reg_total_deposited reg_total_revoked
    reg_active_schedules]; [ilia| |by vm_compute|by vm_compute|ilia|].
  - intros k v. rewrite lookup_insert_Some, lookup_singleton_Some.
    intros [[<- <-]|[_ [<- <-]]]; apply sched_ok; lia.
  - assert (msum is_active {[500 := sched 400 0; 600 := sched 401 1]} = 2) as -> by (by vm_compute).
    unfold MAX_BENEFICIARIES. lia.
Qed.

Lemma claim_runs :
  is_ok (execute (claim_cx 500) (process_instruction (claim_cx 500) claim_data) ta) &&
  is_ok (process_claim (claim_cx 500) (mkPState (store accounts) ta)) &&
  is_ok (execute (claim_cx 500) (process_claim (claim_cx 500)) ta) = true.
Proof. vm_compute. reflexivity. Qed.
End Demo.

(** ** Properties *)

Section Properties.
Context {E : Env} {BR : Borsh VestingRegistry} {BS : Borsh VestingSchedule} {BI : Borsh VestingInstruction}.
Context {LR : BorshLaws VestingRegistry} {LS : BorshLaws VestingSchedule} {LI : BorshLaws VestingInstruction}.
Context {ZR : BorshSized VestingRegistry VestingRegistry_LEN} {ZS : BorshSized VestingSchedule VestingSchedule_LEN}.
Context {L : EnvLaws} {X : ExecLaws} (cx : Ctx).

(** C2. Every successful instruction of the vesting program, run by the
    validator on a registry and its schedules, performs exactly the transition
    of that instruction at the time of the clock: the authority creates a
    schedule at the address of the next index, revokes what is not vested yet
    or hands over; the beneficiary of the schedule claims, after the cliff and
    up to what the curve has vested at that moment, and exactly the vested and
    unclaimed amount is transferred from the vault; a query changes nothing and
    a second initialisation does not succeed.  The accounting invariant is
    kept. *)
Theorem vesting_refinement data instruction rk y ta ta' :
  is_i64 (unix_timestamp (cx_clock cx)) ->
  try_from_slice data = Some instruction -> targets cx rk y (mkPState (ta_accounts ta) ta) instruction ->
  vinv y -> vrefines (ta_accounts ta) rk y -> sys_now y = unix_timestamp (cx_clock cx) ->
  lamports_ok (ta_accounts ta) -> is_pubkey (cx_program_id cx) -> is_pubkey rk ->
  execute cx (process_instruction cx data) ta = Ok ta' ->
  exists y', vtrans rk (signed cx) (ia_key <$> cx_accounts cx) (schedule_pda cx rk) instruction y y' /\
    vrefines (ta_accounts ta') rk y' /\ claim_paid cx y (mkPState (ta_accounts ta) ta) instruction /\ vinv y'.
Proof.
  intros Hnow Hde Htg Hinv Href Ht Hok Hp Hr H.
  eapply instruction_refines in H as (y' & Hs & Hy' & Hpaid); try done.
  exists y'. split_and!; try done. by eapply vinv_trans.
Qed.

(** A claim pays the beneficiary of the schedule, who signed, exactly the
    vested and unclaimed amount: that amount is transferred from the vault
    under the vault authority of the registry, added to what the schedule and
    the registry count as claimed, and completes the schedule when nothing is
    left. *)
Theorem claim_pays_vested s s' :
  is_i64 (unix_timestamp (cx_clock cx)) ->
  process_claim cx s = Ok (tt, s') ->
  exists b sc rg vt bt va tp ck v r vested s1, claim_run cx s s' b sc rg vt bt va tp ck v r vested s1 /\
    (schedule_wf v -> vested = vested_at v (unix_timestamp (cx_clock cx))).
Proof.
  intros Hnow H. apply process_claim_run in H as (b & sc & rg & vt & bt & va & tp & ck & v & r & vested & s1 & R).
  do 12 eexists. split; [exact R|]. intros W. destruct R.
  rewrite calculate_vested_amount_exact in cr_vested by done. congruence.
Qed.

(** A claim on a forged schedule cannot succeed: although the handler does
    not check who owns the schedule account, the validator rejects the run
    unless the vesting program owns it and the transaction marked it
    writable. *)
Theorem claim_forged_schedule_rejected ta ta' b sc rg vt bt va rest :
  cx_accounts cx = b :: sc :: rg :: vt :: bt :: va :: rest -> ia_key sc ∉ (ia_key <$> [vt; bt; va]) ->
  lamports_ok (ta_accounts ta) -> execute cx (process_claim cx) ta = Ok ta' ->
  acc_owner (get_acc (ta_accounts ta) (ia_key sc)) = cx_program_id cx /\ writable_in (cx_accounts cx) (ia_key sc).
Proof.
  intros Hacc Hsc Hok H.
  assert (Hsafe : safe (process_claim cx)) by (unfold process_claim; psafe).
  assert (exists s, process_claim cx (mkPState (ta_accounts ta) ta) = Ok (tt, s)) as [s Hs].
  { unfold execute, pop in H. pinv. by eexists. }
  pose proof Hs as Hc. eapply claim_changes_schedule in Hc as [Hne Hsame]; try done.
  cbn [rt] in Hsame. rewrite <- Hsame. eapply execute_owned; try done. unfold passed. rewrite Hacc. set_solver.
Qed.
End Properties.

Lemma vesting_refinement_witness : exists ta' y',
  execute (Demo.claim_cx 500) (process_instruction (Demo.claim_cx 500) Demo.claim_data) Demo.ta = Ok ta' /\
  vtrans 200 (signed (Demo.claim_cx 500)) (ia_key <$> cx_accounts (Demo.claim_cx 500))
    (schedule_pda (Demo.claim_cx 500) 200) Claim (Demo.sys 500) y' /\
  vrefines (ta_accounts ta') 200 y' /\ vinv y'.
Proof.
  destruct (execute (Demo.claim_cx 500) (process_instruction (Demo.claim_cx 500) Demo.claim_data) Demo.ta)
    as [ta'|e] eqn:Hrun; [|pose proof Demo.claim_runs as Hk; rewrite Hrun in Hk; by rewrite ?andb_false_r in Hk].
  destruct (vesting_refinement (Demo.claim_cx 500) Demo.claim_data Claim 200 (Demo.sys 500) Demo.ta ta')
    as (y' & Ht & Hr & _ & Hi); [by split; vm_compute|by vm_compute| |exact Demo.inv|exact (Demo.refines 500)|done|
      exact Demo.lamports|by split; vm_compute|by split; vm_compute|exact Hrun|].
  - split; [done|]. split; [by eexists; vm_compute|]. apply (bool_decide_unpack _). by vm_compute.
  - exists ta', y'. exact (conj eq_refl (conj Ht (conj Hr Hi))).
Defined.

Lemma claim_pays_vested_witness : exists s',
  process_claim (Demo.claim_cx 500) (mkPState (store Demo.accounts) Demo.ta) = Ok (tt, s') /\
  exists b sc rg vt bt va tp ck v r vested s1,
    claim_run (Demo.claim_cx 500) (mkPState (store Demo.accounts) Demo.ta) s' b sc rg vt bt va tp ck v r vested s1.
Proof.
  destruct (process_claim (Demo.claim_cx 500) (mkPState (store Demo.accounts) Demo.ta)) as [[[] s']|e] eqn:Hrun;
    [|pose proof Demo.claim_runs as Hk; rewrite Hrun in Hk; by rewrite ?andb_false_r in Hk].
  exists s'. split; [exact eq_refl|].
  destruct (claim_pays_vested (Demo.claim_cx 500) _ s' ltac:(by split; vm_compute) Hrun)
    as (b & sc & rg & vt & bt & va & tp & ck & v & r & vested & s1 & R & _).
  exists b, sc, rg, vt, bt, va, tp, ck, v, r, vested, s1. exact R.
Defined.

Lemma claim_forged_schedule_rejected_witness :
  acc_owner (get_acc (ta_accounts Demo.ta) 500) = Demo.PROGRAM /\ writable_in (cx_accounts (Demo.claim_cx 500)) 500.
Proof.
  destruct (execute (Demo.claim_cx 500) (process_claim (Demo.claim_cx 500)) Demo.ta)
    as [ta'|e] eqn:Hrun; [|pose proof Demo.claim_runs as Hk; rewrite Hrun in Hk; by rewrite ?andb_false_r in Hk].
  refine (claim_forged_schedule_rejected (Demo.claim_cx 500) Demo.ta ta' _ (mkIA 500 false true) _ _ _ _ _
    eq_refl _ Demo.lamports Hrun).
  apply (bool_decide_unpack _). by vm_compute.
Defined.

(** C38. The vesting curve, for a schedule with a non-negative cliff and
    duration.  When both ends of it are 64-bit times, the code computes the
    exact amount at every time, without overflow and without loss in the casts;
    it is nothing before the cliff unless the schedule is revoked, everything
    once both the cliff and the duration are over, never more than the total,
    and it never decreases.  When the end of the cliff is no 64-bit time, the
    code reports an overflow at every time. *)
Theorem vested_amount_correct v t t' :
  is_u64 (vs_total_amount v) -> 0 <= vs_cliff_seconds v <= I64_MAX -> 0 <= vs_duration_seconds v <= I64_MAX ->
  is_i64 (vs_start_timestamp v) -> is_i64 t -> is_i64 t' -> t <= t' ->
  (is_i64 (vs_start_timestamp v + vs_cliff_seconds v) -> is_i64 (vs_start_timestamp v + vs_duration_seconds v) ->
   exists a a', calculate_vested_amount v t = Ok a /\ calculate_vested_amount v t' = Ok a' /\
     a = vested_at v t /\ 0 <= a <= a' /\ a' <= vs_total_amount v /\
     (vs_status v <> Revoked -> t < vs_start_timestamp v + vs_cliff_seconds v -> a = 0) /\
     (vs_start_timestamp v + Z.max (vs_cliff_seconds v) (vs_duration_seconds v) <= t -> a = vs_total_amount v)) /\
  (vs_status v <> Revoked -> I64_MAX < vs_start_timestamp v + vs_cliff_seconds v ->
   calculate_vested_amount v t = Err (into Overflow)).
Proof.
  intros Htot Hcl Hdu Hst Ht Ht' Hle. split.
  - intros Hce Hve. assert (W : schedule_wf v) by by split. exists (vested_at v t), (vested_at v t').
    rewrite !calculate_vested_amount_exact by done.
    pose proof (vested_at_bounds v t W). pose proof (vested_at_bounds v t' W). pose proof (vested_at_mono v t t' W Hle).
    split_and!; try done; try lia; unfold vested_at.
    + intros Hs Hc. rewrite decide_False by done. by rewrite (proj2 (Z.ltb_lt _ _)).
    + intros He. case_decide; [done|]. rewrite (proj2 (Z.ltb_ge _ _)) by lia. by rewrite (proj2 (Z.leb_le _ _)) by lia.
  - intros Hs Ho. unfold calculate_vested_amount. rewrite decide_False by done. by rewrite (proj2 (checked_none _ _ _)) by ilia.
Qed.

Lemma vested_amount_correct_witness : calculate_vested_amount (Demo.sched 400 0) 500 = Ok 500.
Proof.
  destruct (vested_amount_correct (Demo.sched 400 0) 500 500) as [H _]; [simpl; ilia..|lia|].
  destruct H as (a & a' & Ha & _ & -> & _); [simpl; ilia..|]. rewrite Ha. by vm_compute.
Defined.

(** The schedules [process_create_schedule] makes satisfy the hypotheses, while
    the clock is 2^62 seconds away from the end of its range. *)
Lemma created_schedule_wf rk b total now cm dm sch rev i bump :
  is_u64 total -> is_u32 cm -> is_u32 dm -> is_i64 now -> is_i64 (now + 2 ^ 62) ->
  schedule_wf (new_schedule rk b total now cm dm sch rev i bump).
Proof. intros. by eapply sok_wf, schedule_ok_new. Qed.

(** Finding: the check of the duration against the cliff is skipped when one of
    them is 0, so that a schedule of duration 0 with a cliff of twelve months
    can be created.  Its full duration is over at the start, when the code says
    that everything has vested, but nothing vests before the cliff. *)
Example duration_over_nothing_vested :
  let v := new_schedule 200 400 1000 0 12 0 Linear true 0 255 in
  vs_start_timestamp v + vs_duration_seconds v = 0 /\ calculate_vested_amount v 0 = Ok 0 /\
  calculate_vested_amount v (12 * SECONDS_PER_MONTH) = Ok 1000.
Proof. split_and!; by vm_compute. Qed.

(** In every state the vesting system reaches, the books balance: what the
    registry counts as claimed is what the schedules have paid, what it counts
    as deposited is what was revoked plus what the schedules owe in total, and
    no schedule has paid more than its total or more than was vested. *)
Theorem vesting_accounting rk n authority vault mint bump y :
  is_i64 n -> is_i64 (n + 2 ^ 62) ->
  rtc (vstep rk) (vinit n authority vault mint bump) y ->
  reg_total_claimed (sys_reg y) = msum vs_claimed_amount (sys_sched y) /\
  reg_total_deposited (sys_reg y) = reg_total_revoked (sys_reg y) + msum vs_total_amount (sys_sched y) /\
  reg_total_claimed (sys_reg y) + reg_total_revoked (sys_reg y) <= reg_total_deposited (sys_reg y) <= U64_MAX /\
  (forall k v, sys_sched y !! k = Some v -> 0 <= vs_claimed_amount v <= vs_total_amount v /\
     (vs_status v <> Completed -> calculate_vested_amount v (sys_now y) = Ok (vested_at v (sys_now y)) /\
        vs_claimed_amount v <= vested_at v (sys_now y))).
Proof.
  intros Hn Hn' Hs. assert (I : vinv y).
  { pose proof (vinv_init n authority vault mint bump Hn Hn') as I. revert I. clear - Hs.
    induction Hs; eauto using vinv_step. }
  destruct I as [[N1 N2] S C D R _]. split_and!; try done.
  - assert (0 <= msum vs_total_amount (sys_sched y) - msum vs_claimed_amount (sys_sched y)); [|lia].
    rewrite <- msum_minus. apply msum_nonneg. intros k v Hk. destruct (S k v Hk). lia.
  - ilia.
  - intros k v Hk. destruct (S k v Hk) as [W Hc Hv _]. split; [done|]. intros Hs'.
    by rewrite calculate_vested_amount_exact; auto.
Qed.

Lemma vesting_accounting_witness :
  let v := new_schedule 200 400 1000 0 0 12 Linear true 0 255 in
  let y := mkSys 0 (create_registry 1000 (sys_reg (vinit 0 300 700 701 255))) {[500 := v]} in
  reg_total_deposited (sys_reg y) = 1000 /\ msum vs_total_amount (sys_sched y) = 1000 /\
  reg_total_claimed (sys_reg y) = msum vs_claimed_amount (sys_sched y).
Proof.
  intros v y. split; [done|]. split; [by vm_compute|].
  refine (proj1 (vesting_accounting 200 0 300 700 701 255 y _ _ _)); [ilia|ilia|].
  apply rtc_once.
  refine (step_run 200 (fun _ => True) [300; 200; 500] (fun _ => (500, 255)) _ _ _
    (trans_create 200 (fun _ => True) [300; 200; 500] (fun _ => (500, 255)) 0 _ ∅ 500 400 1000 0 12 Linear true 255 eq_refl eq_refl I eq_refl _)).
  unfold create_guard, MAX_BENEFICIARIES. simpl. ilia.
Defined.

(** A schedule that is revoked and whose vested rest is then
    claimed is taken off the count of active schedules twice.  Of the two
    active schedules of this registry one is revoked half-way and paid out;
    the registry then counts no active schedule although the other one still
    is. *)
Theorem revoke_then_claim_decrements_twice :
  (let? ta1 := execute (Demo.revoke_cx 500) (process_instruction (Demo.revoke_cx 500) Demo.revoke_data) Demo.ta in
   let? ta2 := execute (Demo.claim_cx 500) (process_instruction (Demo.claim_cx 500) Demo.claim_data) ta1 in
   let data k := acc_data (get_acc (ta_accounts ta2) k) in
   Ok (reg_active_schedules <$> try_from_slice (data 200), vs_status <$> try_from_slice (data 500),
       vs_status <$> try_from_slice (data 600)))%result
  = Ok (Some 0, Some Completed, Some Active).
Proof. vm_compute. reflexivity. Qed.
