(* ===== verification/AtomicSwap.v ===== *)
(** * AtomicSwap: hash time-locked swaps

    Models [src/programs/atomic-swap/src/lib.rs]: the swap account, its hash
    lock and time lock, and the three instructions. *)

From Stdlib Require Import Strings.Byte Strings.String.
From S2P Require Import Prelude Borsh Accounts System Invoke Execution Cpi.
Open Scope Z_scope.

(** ** Constants and data *)

Definition MAX_LOCK_DURATION : Z := 7 * 24 * 60 * 60.
Definition MIN_LOCK_DURATION : Z := 10 * 60.
Definition HASH_SIZE : Z := 32.
Definition SECRET_SIZE : Z := 32.
Definition SWAP_SEED : list byte := list_byte_of_string "atomic_swap".
Definition VAULT_SEED : list byte := list_byte_of_string "swap_vault".

Inductive SwapError :=
| AlreadyInitialized | InvalidState | InvalidLockDuration | InvalidSecret | NotYetExpired | AlreadyExpired
| InsufficientFunds | Unauthorized | InvalidAmount | Overflow | InvalidPDA.

Definition into (e : SwapError) : InstructionError :=
  Custom match e with
  | AlreadyInitialized => 0 | InvalidState => 1 | InvalidLockDuration => 2 | InvalidSecret => 3
  | NotYetExpired => 4 | AlreadyExpired => 5 | InsufficientFunds => 6 | Unauthorized => 7
  | InvalidAmount => 8 | Overflow => 9 | InvalidPDA => 10
  end.

Inductive SwapState := Open | Claimed | Refunded.
Inductive AssetType := NativePrism | SplToken.
#[global] Instance SwapState_eq_dec : EqDecision SwapState.
Proof. solve_decision. Defined.
#[global] Instance AssetType_eq_dec : EqDecision AssetType.
Proof. solve_decision. Defined.

Record SwapAccount := mkSwap {
  sw_is_initialized : bool;
  sw_state : SwapState;
  sw_asset_type : AssetType;
  sw_initiator : Pubkey;
  sw_counterparty : Pubkey;
  sw_amount : Z;
  sw_hash_lock : list byte;
  sw_secret : list byte;
  sw_lock_duration : Z;
  sw_created_at : Z;
  sw_token_mint : Pubkey;
  sw_bump : Z;
}.
Definition SwapAccount_SIZE : Z := 188.

#[global] Instance SwapAccount_well_typed : WellTyped SwapAccount := fun w =>
  is_pubkey (sw_initiator w) /\ is_pubkey (sw_counterparty w) /\ is_u64 (sw_amount w) /\
  zlen (sw_hash_lock w) = HASH_SIZE /\ zlen (sw_secret w) = SECRET_SIZE /\ is_i64 (sw_lock_duration w) /\
  is_i64 (sw_created_at w) /\ is_pubkey (sw_token_mint w) /\ is_u8 (sw_bump w).

Definition is_expired (w : SwapAccount) (current_time : Z) : bool :=
  i64_saturating_add (sw_created_at w) (sw_lock_duration w) <=? current_time.

Definition verify_secret {E : Env} (w : SwapAccount) (secret : list byte) : bool :=
  bool_decide (sha256 secret = sw_hash_lock w).

Definition set_state (st : SwapState) (w : SwapAccount) : SwapAccount :=
  mkSwap (sw_is_initialized w) st (sw_asset_type w) (sw_initiator w) (sw_counterparty w) (sw_amount w)
    (sw_hash_lock w) (sw_secret w) (sw_lock_duration w) (sw_created_at w) (sw_token_mint w) (sw_bump w).
Definition set_secret (secret : list byte) (w : SwapAccount) : SwapAccount :=
  mkSwap (sw_is_initialized w) (sw_state w) (sw_asset_type w) (sw_initiator w) (sw_counterparty w) (sw_amount w)
    (sw_hash_lock w) secret (sw_lock_duration w) (sw_created_at w) (sw_token_mint w) (sw_bump w).

Inductive SwapInstruction :=
| CreateSwap (hash_lock : list byte) (amount : Z) (counterparty : Pubkey) (lock_duration : Z)
    (asset_type : AssetType) (token_mint : Pubkey)
| ClaimSwap (secret : list byte)
| RefundSwap.

#[global] Instance SwapInstruction_well_typed : WellTyped SwapInstruction := fun i =>
  match i with
  | CreateSwap hash_lock amount counterparty lock_duration _ token_mint =>
      zlen hash_lock = HASH_SIZE /\ is_u64 amount /\ is_pubkey counterparty /\ is_i64 lock_duration /\
      is_pubkey token_mint
  | ClaimSwap secret => zlen secret = SECRET_SIZE
  | RefundSwap => True
  end.

(** ** Instructions *)

Section AtomicSwap.
Context {E : Env} {BW : Borsh SwapAccount} {BI : Borsh SwapInstruction}.
Variable cx : Ctx.

Definition process_create_swap (hash_lock : list byte) (amount : Z) (counterparty : Pubkey) (lock_duration : Z)
    (asset_type : AssetType) (token_mint : Pubkey) : M unit :=
  (let! '(initiator, it) := next_account_info (cx_accounts cx) in
   let! '(swap_account, it) := next_account_info it in
   let! '(vault_account, it) := next_account_info it in
   let! '(system_program, it) := next_account_info it in
   fail_if (negb (ia_is_signer initiator)) MissingRequiredSignature ;;
   fail_if (amount =? 0) (into InvalidAmount) ;;
   fail_if ((lock_duration <? MIN_LOCK_DURATION) || (MAX_LOCK_DURATION <? lock_duration)) (into InvalidLockDuration) ;;
   let '(swap_pda, swap_bump) :=
     find_program_address [SWAP_SEED; hash_lock; key_bytes (ia_key initiator)] (cx_program_id cx) in
   fail_if (negb (swap_pda =? ia_key swap_account)) (into InvalidPDA) ;;
   let '(vault_pda, vault_bump) :=
     find_program_address [VAULT_SEED; key_bytes (ia_key swap_account)] (cx_program_id cx) in
   fail_if (negb (vault_pda =? ia_key vault_account)) (into InvalidPDA) ;;
   let space := SwapAccount_SIZE in
   let lamports := minimum_balance space in
   invoke_signed cx
     (create_account_ix (ia_key initiator) (ia_key swap_account) lamports space (cx_program_id cx))
     [initiator; swap_account; system_program]
     [[SWAP_SEED; hash_lock; key_bytes (ia_key initiator); [byte_of_Z swap_bump]]] ;;
   let! clock := clock_get cx in
   (if decide (asset_type = NativePrism) then
      invoke_signed cx
        (create_account_ix (ia_key initiator) (ia_key vault_account) amount 0 (cx_program_id cx))
        [initiator; vault_account; system_program]
        [[VAULT_SEED; key_bytes (ia_key swap_account); [byte_of_Z vault_bump]]]
    else pret tt) ;;
   let swap := mkSwap true Open asset_type (ia_key initiator) counterparty amount hash_lock
                 (replicate 32 Byte.x00) lock_duration (unix_timestamp clock) token_mint swap_bump in
   serialize_into swap swap_account)%prog.

Definition process_claim_swap (secret : list byte) : M unit :=
  (let! '(claimer, it) := next_account_info (cx_accounts cx) in
   let! '(swap_account, it) := next_account_info it in
   let! '(vault_account, it) := next_account_info it in
   let! '(claimer_receive, it) := next_account_info it in
   let! '(_system_program, it) := next_account_info it in
   fail_if (negb (ia_is_signer claimer)) MissingRequiredSignature ;;
   let! sa := account swap_account in
   fail_if (negb (acc_owner sa =? cx_program_id cx)) IncorrectProgramId ;;
   let! swap := load SwapAccount swap_account BorshIoError in
   fail_if (negb (sw_is_initialized swap)) (into InvalidState) ;;
   fail_if (negb (bool_decide (sw_state swap = Open))) (into InvalidState) ;;
   fail_if (negb (ia_key claimer =? sw_counterparty swap)) (into Unauthorized) ;;
   let! clock := clock_get cx in
   fail_if (is_expired swap (unix_timestamp clock)) (into AlreadyExpired) ;;
   fail_if (negb (verify_secret swap secret)) (into InvalidSecret) ;;
   (if decide (sw_asset_type swap = NativePrism) then drain_into (into Overflow) vault_account claimer_receive else pret tt) ;;
   let swap := set_secret secret (set_state Claimed swap) in
   serialize_into swap swap_account)%prog.

Definition process_refund_swap : M unit :=
  (let! '(initiator, it) := next_account_info (cx_accounts cx) in
   let! '(swap_account, it) := next_account_info it in
   let! '(vault_account, it) := next_account_info it in
   let! '(initiator_receive, it) := next_account_info it in
   let! '(_system_program, it) := next_account_info it in
   fail_if (negb (ia_is_signer initiator)) MissingRequiredSignature ;;
   let! sa := account swap_account in
   fail_if (negb (acc_owner sa =? cx_program_id cx)) IncorrectProgramId ;;
   let! swap := load SwapAccount swap_account BorshIoError in
   fail_if (negb (sw_is_initialized swap)) (into InvalidState) ;;
   fail_if (negb (bool_decide (sw_state swap = Open))) (into InvalidState) ;;
   fail_if (negb (ia_key initiator =? sw_initiator swap)) (into Unauthorized) ;;
   let! clock := clock_get cx in
   fail_if (negb (is_expired swap (unix_timestamp clock))) (into NotYetExpired) ;;
   (if decide (sw_asset_type swap = NativePrism) then drain_into (into Overflow) vault_account initiator_receive else pret tt) ;;
   serialize_into (set_state Refunded swap) swap_account)%prog.

Definition process_instruction (instruction_data : list byte) : M unit :=
  (let! instruction := lift (ok_or (try_from_slice instruction_data) InvalidInstructionData) in
   match instruction with
   | CreateSwap hash_lock amount counterparty lock_duration asset_type token_mint =>
       process_create_swap hash_lock amount counterparty lock_duration asset_type token_mint
   | ClaimSwap secret => process_claim_swap secret
   | RefundSwap => process_refund_swap
   end)%prog.
End AtomicSwap.
