(* ===== verification/AtomicSwapProofs.v ===== *)
(** * AtomicSwapProofs: correctness of the atomic swap program *)

From Stdlib Require Import Strings.Byte.
From S2P Require Import Prelude Borsh Accounts System Invoke Execution Concrete Cpi AtomicSwap.
Open Scope Z_scope.

(** ** Claim and refund, exactly *)

Section Swap.
Context {E : Env} {BW : Borsh SwapAccount} {BI : Borsh SwapInstruction}.
Context {LW : BorshLaws SwapAccount} {LI : BorshLaws SwapInstruction} {ZW : BorshSized SwapAccount SwapAccount_SIZE}.
Context (cx : Ctx).
Abbreviation now := (unix_timestamp (cx_clock cx)).

(** The memory after a settlement: the vault of a native swap is paid out, and
    the account records the outcome. *)
Definition settled (w w' : SwapAccount) (sw va re : Pubkey) (m : gmap Pubkey Account) : gmap Pubkey Account :=
  stored w' sw (if decide (sw_asset_type w = NativePrism) then drained va re m else m).

(** What claim and refund have in common: the swap account of the program is
    open, the party signed, and the payment is representable. *)
Record settle_guard (party : SwapAccount -> Pubkey) (s : PState) (p sw va re : AccountInfo) (w : SwapAccount) : Prop := {
  sg_accounts : exists sys rest, cx_accounts cx = p :: sw :: va :: re :: sys :: rest;
  sg_signer : ia_is_signer p = true;
  sg_owner : acc_owner (get_acc (mem s) (ia_key sw)) = cx_program_id cx;
  sg_holds : holds (mem s) (ia_key sw) w;
  sg_open : sw_is_initialized w = true /\ sw_state w = Open;
  sg_party : ia_key p = party w;
  sg_pay : sw_asset_type w = NativePrism -> is_u64 (received (ia_key va) (ia_key re) (mem s));
}.

Lemma settled_holds w w' sw va re m :
  holds m sw w -> well_typed w' -> holds (settled w w' sw va re m) sw w'.
Proof.
  intros Hw Hw'. unfold settled. apply holds_stored; [|done].
  transitivity (zlen (acc_data (get_acc m sw))); [|exact (holds_zlen _ _ _ Hw)].
  case_decide; [by rewrite drained_data|done].
Qed.

Lemma settled_ne w w' sw va re m j :
  j <> sw -> acc_data (get_acc (settled w w' sw va re m) j) = acc_data (get_acc m j) /\
    acc_owner (get_acc (settled w w' sw va re m) j) = acc_owner (get_acc m j).
Proof.
  intros Hj. unfold settled. rewrite stored_owner, stored_ne by done.
  case_decide; [by rewrite drained_data, drained_owner|done].
Qed.

(** The payment of a settlement. *)
Lemma pay_ok w va re s u s' :
  (if decide (sw_asset_type w = NativePrism) then drain_into (into Overflow) va re else pret tt) s = Ok (u, s') <->
  (sw_asset_type w = NativePrism -> is_u64 (received (ia_key va) (ia_key re) (mem s))) /\
  s' = mkPState (if decide (sw_asset_type w = NativePrism) then drained (ia_key va) (ia_key re) (mem s) else mem s) (rt s).
Proof.
  destruct u. case_decide; [rewrite drain_into_ok; naive_solver|]. rewrite pret_ok. destruct s. naive_solver.
Qed.

Ltac pay_inv :=
  repeat match goal with
  | H : (if decide (sw_asset_type _ = NativePrism) then drain_into _ _ _ else pret tt) _ = Ok _ |- _ =>
      apply pay_ok in H as [? ->]
  | _ => pinv_step
  end.

Lemma well_typed_settle secret w :
  zlen secret = SECRET_SIZE -> well_typed w -> well_typed (set_secret secret (set_state Claimed w)).
Proof. unfold well_typed, SwapAccount_well_typed. simpl. naive_solver. Qed.

(** When the time lock of a swap expires. *)
Definition expiry (w : SwapAccount) : Z := clamp I64_MIN I64_MAX (sw_created_at w + sw_lock_duration w).

Lemma is_expired_iff w t : is_expired w t = bool_decide (expiry w <= t).
Proof. unfold is_expired. fold (expiry w). destruct (Z.leb_spec (expiry w) t); symmetry; [by apply bool_decide_true|apply bool_decide_false; lia]. Qed.

Lemma claim_swap_iff secret s s' :
  zlen secret = SECRET_SIZE ->
  process_claim_swap cx secret s = Ok (tt, s') <->
  exists p sw va re w, settle_guard sw_counterparty s p sw va re w /\ now < expiry w /\
    sha256 secret = sw_hash_lock w /\
    s' = mkPState (settled w (set_secret secret (set_state Claimed w)) (ia_key sw) (ia_key va) (ia_key re) (mem s)) (rt s).
Proof.
  intros Hsec. unfold process_claim_swap, settled. split.
  - intros H. pay_inv. bool_to_prop. hyp (bool_decide (sw_state _ = Open) = true) as Ho. apply bool_decide_eq_true_1 in Ho.
    hyp (verify_secret _ _ = true) as Hv. apply bool_decide_eq_true_1 in Hv.
    hyp (is_expired _ _ = false) as Hex. rewrite is_expired_iff in Hex. apply bool_decide_eq_false_1, Z.nle_gt in Hex.
    eexists _, _, _, _, _. split; [split; [eexists _, _; eassumption|..]|]; done.
  - intros (p & sw & va & re & w & [(sys & rest & ->) Hsig Hown Hw [Hi Ho] Hp Hpay] & Hex & Hh & ->).
    assert (Hv : verify_secret w secret = true) by (by apply bool_decide_eq_true_2).
    assert (Hexp : is_expired w now = false) by (rewrite is_expired_iff; apply bool_decide_eq_false_2; lia). prun; try pcheck.
    apply pbind_ok; eexists tt, _. split; [by apply pay_ok|]. prun. simpl. apply serialize_fits.
    + case_decide; [rewrite drained_data|]; exact (holds_zlen _ _ _ Hw).
    + apply holds_well_typed in Hw. by apply well_typed_settle.
Qed.

Lemma refund_swap_iff s s' :
  process_refund_swap cx s = Ok (tt, s') <->
  exists p sw va re w, settle_guard sw_initiator s p sw va re w /\ expiry w <= now /\
    s' = mkPState (settled w (set_state Refunded w) (ia_key sw) (ia_key va) (ia_key re) (mem s)) (rt s).
Proof.
  unfold process_refund_swap, settled. split.
  - intros H. pay_inv. bool_to_prop.
    hyp (bool_decide (sw_state _ = Open) = true) as Ho. apply bool_decide_eq_true_1 in Ho.
    hyp (is_expired _ _ = true) as Hex. rewrite is_expired_iff in Hex. apply bool_decide_eq_true_1 in Hex.
    eexists _, _, _, _, _. split; [split; [eexists _, _; eassumption|..]|]; done.
  - intros (p & sw & va & re & w & [(sys & rest & ->) Hsig Hown Hw [Hi Ho] Hp Hpay] & Hex & ->).
    assert (Hexp : is_expired w now = true) by (rewrite is_expired_iff; by apply bool_decide_eq_true_2). prun; try pcheck.
    apply pbind_ok; eexists tt, _. split; [by apply pay_ok|]. prun. simpl. apply serialize_fits.
    + case_decide; [rewrite drained_data|]; exact (holds_zlen _ _ _ Hw).
    + by apply holds_well_typed in Hw.
Qed.

(** Creating a native swap locks the funds: the initiator, who signed, pays
    exactly the amount into the vault address of the swap and the rent of the
    swap account, both accounts belong to the program, and the swap account
    records the terms, open. *)
Theorem create_swap_locks_funds {L : EnvLaws} s s' ini sw va ai as_ av hash_lock amount cp lock mint :
  create_accounts cx s ini sw va ai as_ av -> well_typed (CreateSwap hash_lock amount cp lock NativePrism mint) ->
  process_create_swap cx hash_lock amount cp lock NativePrism mint s = Ok (tt, s') ->
  exists bump, let w := mkSwap true Open NativePrism (ia_key ini) cp amount hash_lock (replicate 32 Byte.x00) lock now mint bump in
    ia_is_signer ini = true /\ 0 < amount /\ MIN_LOCK_DURATION <= lock <= MAX_LOCK_DURATION /\
    find_program_address [SWAP_SEED; hash_lock; key_bytes (ia_key ini)] (cx_program_id cx) = (ia_key sw, bump) /\
    (find_program_address [VAULT_SEED; key_bytes (ia_key sw)] (cx_program_id cx)).1 = ia_key va /\
    holds (mem s') (ia_key sw) w /\
    acc_owner (get_acc (mem s') (ia_key sw)) = cx_program_id cx /\
    get_acc (mem s') (ia_key va) = mkAccount amount [] (cx_program_id cx) false /\
    acc_lamports (get_acc (mem s') (ia_key ini)) = acc_lamports ai - minimum_balance SwapAccount_SIZE - amount.
Proof.
  intros [(sys & rest & Hacc) R Rv Hd [Hp Hik] Hnow] (Hh & Ham & Hcp & Hlk & Hmint) H. unfold process_create_swap in H.
  rewrite Hacc in H. pinv; try done. bool_to_prop. subst.
  hyp (invoke_signed _ (create_account_ix _ (ia_key sw) _ _ _) _ _ _ = Ok _) as Hc1.
  hyp (invoke_signed _ (create_account_ix _ (ia_key va) _ _ _) _ _ _ = Ok _) as Hc2.
  hyp (find_program_address [SWAP_SEED; _; _] _ = _) as Hf1. hyp (find_program_address [VAULT_SEED; _] _ = _) as Hf2.
  destruct (find_create _ _ _ _ Hf1) as [Hbump _].
  exists z0. set (w := mkSwap _ _ _ _ _ _ _ _ _ _ _ _) in *.
  assert (Ww : well_typed w) by (repeat split; simpl; done || ilia).
  destruct (create_funded_record w Hc1 Hc2 R Rv) as (F1 & F2 & F3 & F4); try done; [apply minimum_balance_u64|].
  split_and!; (done || ilia || by rewrite Hf2).
Qed.

(** ** Settlements *)

Definition settles (i : SwapInstruction) : Prop :=
  match i with CreateSwap _ _ _ _ _ _ => False | _ => True end.

Lemma swap_safe {X : ExecLaws} data : safe (process_instruction cx data).
Proof.
  unfold process_instruction. psafe; unfold process_create_swap, process_claim_swap, process_refund_swap; psafe.
Qed.

Lemma swap_confined {X : ExecLaws} data : confined cx (process_instruction cx data).
Proof.
  unfold process_instruction. psafe; unfold process_create_swap, process_claim_swap, process_refund_swap; psafe.
Qed.

(** A settlement in memory: some open swap is closed, nothing else changes but
    balances. *)
Lemma settle_run data i s s' :
  try_from_slice data = Some i -> settles i -> process_instruction cx data s = Ok (tt, s') ->
  exists p sw va re w w', (exists sys rest, cx_accounts cx = p :: sw :: va :: re :: sys :: rest) /\
    holds (mem s) (ia_key sw) w /\ sw_state w = Open /\ well_typed w' /\ sw_state w' <> Open /\
    mem s' = settled w w' (ia_key sw) (ia_key va) (ia_key re) (mem s).
Proof.
  intros Hde Hst H. apply try_from_slice_some in Hde as Hwt. destruct Hwt as [Hwt _].
  unfold process_instruction in H. rewrite Hde in H. cbn [ok_or lift pbind] in H. destruct i as [|secret|]; [done| |].
  - apply claim_swap_iff in H as (p & sw & va & re & w & [] & _ & _ & ->); [|done].
    exists p, sw, va, re, w, (set_secret secret (set_state Claimed w)). split_and!;
      first [done|by eexists _, _|by destruct sg_open0|apply well_typed_settle; [done|by eapply holds_well_typed]].
  - apply refund_swap_iff in H as (p & sw & va & re & w & [] & _ & ->).
    exists p, sw, va, re, w, (set_state Refunded w). split_and!; first [done|by eexists _, _|by destruct sg_open0|by apply holds_well_typed in sg_holds0].
Qed.

Lemma execute_settle {X : ExecLaws} data i ta ta' :
  try_from_slice data = Some i -> settles i -> lamports_ok (ta_accounts ta) ->
  execute cx (process_instruction cx data) ta = Ok ta' ->
  exists k w w', ia_key <$> cx_accounts cx !! 1%nat = Some k /\
    holds (ta_accounts ta) k w /\ sw_state w = Open /\ holds (ta_accounts ta') k w' /\
    acc_owner (get_acc (ta_accounts ta') k) = acc_owner (get_acc (ta_accounts ta) k) /\ sw_state w' <> Open /\
    forall j, j <> k -> acc_data (get_acc (ta_accounts ta') j) = acc_data (get_acc (ta_accounts ta) j).
Proof.
  intros Hde Hst Hok H.
  apply execute_result in H as (s & Hrun & _ & Hp & Hn); [|apply swap_safe|apply swap_confined|done].
  apply (settle_run data i) in Hrun as (p & sw & va & re & w & w' & (sys & rest & Hacc) & Hw & Ho & Hw' & Hc & Hmem); try done.
  exists (ia_key sw), w, w'. rewrite Hacc. split_and!; try done.
  - eapply holds_data; [symmetry; apply Hp; unfold passed; rewrite Hacc; set_solver|].
    rewrite Hmem. by apply settled_holds.
  - assert (Hin : passed cx (ia_key sw)) by (unfold passed; rewrite Hacc; set_solver).
    destruct (Hp _ Hin) as (_ & _ & ->). rewrite Hmem. unfold settled. rewrite stored_owner.
    case_decide; [by rewrite drained_owner|done].
  - intros j Hj. destruct (decide (passed cx j)) as [Hin|Hin]; [|by rewrite Hn].
    rewrite (proj1 (Hp _ Hin)), Hmem. unfold settled. rewrite stored_ne by done.
    case_decide; [apply drained_data|done].
Qed.

(** A swap recorded in an account of the program. *)
Definition owned_swap (program : Pubkey) (m : gmap Pubkey Account) (k : Pubkey) (w : SwapAccount) : Prop :=
  acc_owner (get_acc m k) = program /\ holds m k w.

Lemma create_swap_keeps {L : EnvLaws} {X : ExecLaws} data hash_lock amount cp lock asset mint ta s' :
  try_from_slice data = Some (CreateSwap hash_lock amount cp lock asset mint) ->
  is_pubkey (cx_program_id cx) -> lamports_ok (ta_accounts ta) ->
  process_instruction cx data (mkPState (ta_accounts ta) ta) = Ok (tt, s') -> keeps_owned (mkPState (ta_accounts ta) ta) s'.
Proof.
  intros Hde Hp Hok H. apply try_from_slice_some in Hde as Hw. destruct Hw as [(_ & Ham & _) _].
  unfold process_instruction in H. rewrite Hde in H. cbn [ok_or lift pbind] in H. unfold process_create_swap in H.
  assert (Hs : pstate_ok (mkPState (ta_accounts ta) ta)) by done. pinv.
  - hyp (invoke_signed _ (create_account_ix _ _ (minimum_balance _) _ _) _ _ _ = Ok _) as C1.
    eapply (create_keeps cx); [exact C1|eassumption|done|done|apply minimum_balance_u64|by vm_compute|done|done].
  - eapply (create_record_keeps cx); [eassumption|by intros j _|done|done|apply minimum_balance_u64|by vm_compute|done].
Qed.

(** A settled swap stays what it is over every instruction of the program. *)
Lemma execute_settled_kept {L : EnvLaws} {X : ExecLaws} data ta ta' k w :
  is_pubkey (cx_program_id cx) -> cx_program_id cx <> system_program_id -> lamports_ok (ta_accounts ta) ->
  execute cx (process_instruction cx data) ta = Ok ta' -> owned_swap (cx_program_id cx) (ta_accounts ta) k w ->
  sw_state w <> Open -> owned_swap (cx_program_id cx) (ta_accounts ta') k w.
Proof.
  intros Hp Hsys Hok H [Ho Hk] Hc.
  apply execute_result in H as (s & Hrun & _ & Hpass & Hn); [|apply swap_safe|apply swap_confined|done].
  assert (K : acc_data (get_acc (mem s) k) = acc_data (get_acc (ta_accounts ta) k) /\
              acc_owner (get_acc (mem s) k) = acc_owner (get_acc (ta_accounts ta) k)).
  { assert (exists i, try_from_slice data = Some i) as [i Hde] by (unfold process_instruction in Hrun; pinv; by eexists).
    destruct i as [| |].
    - eapply create_swap_keeps in Hrun; [apply Hrun; simpl; congruence|exact Hde|done|done].
    - apply (settle_run _ _ _ _ Hde I) in Hrun as (p & sw & va & re & w0 & w' & _ & Hw & Hopen & _ & _ & ->).
      destruct (decide (k = ia_key sw)) as [->|Hne]; [by rewrite (holds_inj _ _ _ _ Hk Hw) in Hc|].
      by apply settled_ne.
    - apply (settle_run _ _ _ _ Hde I) in Hrun as (p & sw & va & re & w0 & w' & _ & Hw & Hopen & _ & _ & ->).
      destruct (decide (k = ia_key sw)) as [->|Hne]; [by rewrite (holds_inj _ _ _ _ Hk Hw) in Hc|].
      by apply settled_ne. }
  destruct K as [Kd Ko]. split.
  - destruct (decide (passed cx k)) as [Hin|Hin]; [|by rewrite Hn]. destruct (Hpass k Hin) as (_ & _ & ->). congruence.
  - eapply holds_data; [|exact Hk]. destruct (decide (passed cx k)) as [Hin|Hin]; [|by rewrite Hn].
    rewrite (proj1 (Hpass k Hin)). congruence.
Qed.
End Swap.
