(* ===== verification/AtomicSwapTheorems.v ===== *)
(** * AtomicSwapTheorems: the properties of the atomic swap program

    The theorems about [src/programs/atomic-swap/src/lib.rs], and the
    evaluation of the program on concrete accounts in the Borsh wire format. *)

From Stdlib Require Import Strings.Byte.
From S2P Require Import Prelude Borsh Accounts System Invoke Execution Concrete Cpi AtomicSwap AtomicSwapProofs.
Open Scope Z_scope.

(** ** The account data on the wire *)

Definition codec_state : codec SwapState := codec_enum [Open; Claimed; Refunded].
Definition codec_asset : codec AssetType := codec_enum [NativePrism; SplToken].
Definition codec_swap : codec SwapAccount :=
  codec_iso
    (fun '(i, (s, (a, (n, (c, (m, (h, (x, (l, (t, (k, b))))))))))) => mkSwap i s a n c m h x l t k b)
    (fun w => (sw_is_initialized w, (sw_state w, (sw_asset_type w, (sw_initiator w, (sw_counterparty w, (sw_amount w,
      (sw_hash_lock w, (sw_secret w, (sw_lock_duration w, (sw_created_at w, (sw_token_mint w, sw_bump w))))))))))))
    (codec_pair codec_bool (codec_pair codec_state (codec_pair codec_asset (codec_pair codec_pubkey
      (codec_pair codec_pubkey (codec_pair (codec_uint 8) (codec_pair (codec_array 32) (codec_pair (codec_array 32)
      (codec_pair (codec_int 8) (codec_pair (codec_int 8) (codec_pair codec_pubkey (codec_uint 1)))))))))))).

Definition swap_instruction_index (i : SwapInstruction) : nat :=
  match i with CreateSwap _ _ _ _ _ _ => 0 | ClaimSwap _ => 1 | RefundSwap => 2 end.

Definition codec_swap_instruction : codec SwapInstruction :=
  codec_variants
    [mkVariant (codec_pair (codec_array 32) (codec_pair (codec_uint 8) (codec_pair codec_pubkey
        (codec_pair (codec_int 8) (codec_pair codec_asset codec_pubkey)))))
       (fun '(h, (a, (c, (l, (t, m))))) => CreateSwap h a c l t m)
       (fun i => match i with CreateSwap h a c l t m => Some (h, (a, (c, (l, (t, m))))) | _ => None end);
     mkVariant (codec_array 32) ClaimSwap (fun i => match i with ClaimSwap s => Some s | _ => None end);
     mkVariant codec_unit (fun _ => RefundSwap) (fun _ => Some tt)]
    swap_instruction_index.

Lemma codec_state_laws : codec_laws codec_state.
Proof. apply codec_enum_laws; [repeat constructor; set_solver|simpl; lia]. Qed.
Lemma codec_asset_laws : codec_laws codec_asset.
Proof. apply codec_enum_laws; [repeat constructor; set_solver|simpl; lia]. Qed.
#[local] Hint Resolve codec_state_laws codec_asset_laws : codec.
#[local] Hint Extern 1 (0 < _)%nat => lia : codec.

Lemma codec_swap_laws : codec_laws codec_swap.
Proof. apply codec_iso_laws; [by intros []|by intros (?&?&?&?&?&?&?&?&?&?&?&?)|]. auto 20 with codec. Qed.
Lemma codec_swap_size : c_size codec_swap SwapAccount_SIZE.
Proof. codec_size. Qed.
Lemma codec_swap_wf w : well_typed w <-> c_wf codec_swap w.
Proof.
  unfold well_typed, SwapAccount_well_typed, zlen, HASH_SIZE, SECRET_SIZE.
  assert (sw_state w ∈ [Open; Claimed; Refunded]) by (destruct (sw_state w); set_solver).
  assert (sw_asset_type w ∈ [NativePrism; SplToken]) by (destruct (sw_asset_type w); set_solver).
  codec_wf.
Qed.

Lemma codec_swap_instruction_laws : codec_laws codec_swap_instruction.
Proof.
  apply codec_variants_laws; [simpl; lia|repeat apply Forall_cons_2; simpl; auto 10 with codec| |].
  - intros [|[|[|]]] v a [= <-]; simpl in a;
      repeat match goal with x : _ * _ |- _ => destruct x | x : unit |- _ => destruct x end; done.
  - intros [] v a [= <-]; simpl; by intros [= <-].
Qed.
Lemma codec_swap_instruction_wf i : well_typed i <-> c_wf codec_swap_instruction i.
Proof.
  destruct i; simpl; try done; unfold well_typed; simpl; unfold zlen, HASH_SIZE, SECRET_SIZE.
  - assert (asset_type ∈ [NativePrism; SplToken]) by (destruct asset_type; set_solver). codec_wf.
  - codec_wf.
Qed.

#[global] Instance swap_borsh : Borsh SwapAccount := borsh_of_codec codec_swap.
#[global] Instance swap_borsh_laws : BorshLaws SwapAccount := borsh_of_codec_laws _ codec_swap_laws codec_swap_wf.
#[global] Instance swap_borsh_sized : BorshSized SwapAccount SwapAccount_SIZE :=
  borsh_of_codec_sized _ _ codec_swap_size codec_swap_wf.
#[global] Instance swap_instruction_borsh : Borsh SwapInstruction := borsh_of_codec codec_swap_instruction.
#[global] Instance swap_instruction_borsh_laws : BorshLaws SwapInstruction :=
  borsh_of_codec_laws _ codec_swap_instruction_laws codec_swap_instruction_wf.

(** The swap of 300 with 301 for 2000 lamports (secret: 32 ones), and the swap
    of 400 with 401 for 5 lamports (secret: 32 twos). *)
Module SwapDemo.
Definition PROGRAM : Pubkey := 100.
Definition secret (b : byte) : list byte := replicate 32 b.
Definition swap_key (b : byte) (initiator : Pubkey) : Pubkey :=
  derive [SWAP_SEED; sha256 (secret b); key_bytes initiator; [byte_of_Z 255]] PROGRAM.
Definition vault_key (sw : Pubkey) : Pubkey := derive [VAULT_SEED; key_bytes sw; [byte_of_Z 255]] PROGRAM.
Definition swap (b : byte) (initiator counterparty amount : Z) : SwapAccount :=
  mkSwap true Open NativePrism initiator counterparty amount (sha256 (secret b)) (replicate 32 Byte.x00) 3600 0 0 255.
Definition k1 : Pubkey := swap_key Byte.x01 300.
Definition v1 : Pubkey := vault_key k1.
Definition k2 : Pubkey := swap_key Byte.x02 400.
Definition v2 : Pubkey := vault_key k2.
Definition accounts : list (Pubkey * Account) :=
  [(k1, mkAccount 1000000 (borsh_ser (swap Byte.x01 300 301 2000)) PROGRAM false);
   (v1, mkAccount 2000 [] PROGRAM false);
   (k2, mkAccount 1000000 (borsh_ser (swap Byte.x02 400 401 5)) PROGRAM false);
   (v2, mkAccount 5 [] PROGRAM false);
   (300, mkAccount 5000000 [] 0 false); (301, mkAccount 5000 [] 0 false);
   (400, mkAccount 5000 [] 0 false); (401, mkAccount 5000 [] 0 false); (0, mkAccount 1 [] 1 true)].
Definition ta : TransactionAccounts := mkTA (store accounts) 0 0.
Definition len (k : Pubkey) : Z := zlen (acc_data (get_acc (store accounts) k)).

(** [party] settles the swap [sw], naming [va] as its vault. *)
Definition settle_cx (party sw va t : Z) : Ctx := demo_ctx PROGRAM
  [mkIA party true true; mkIA sw false true; mkIA va false true; mkIA party true true; mkIA 0 false false] t len.
Definition claim_data (b : byte) : list byte := borsh_ser (ClaimSwap (secret b)).
Definition refund_data : list byte := borsh_ser RefundSwap.

(** Account 300 opens a third swap with 301. *)
Definition k3 : Pubkey := swap_key Byte.x03 300.
Definition v3 : Pubkey := vault_key k3.
Definition create_accounts_list : list (Pubkey * Account) := accounts ++ [(k3, empty_account); (v3, empty_account)].
Definition create_ta : TransactionAccounts := mkTA (store create_accounts_list) 0 0.
Definition create_cx (t : Z) : Ctx := demo_ctx PROGRAM
  [mkIA 300 true true; mkIA k3 false true; mkIA v3 false true; mkIA 0 false false] t (fun _ => 0).

Lemma swap_lamports : lamports_ok (ta_accounts ta).
Proof. apply lamports_ok_store, (bool_decide_unpack _). by vm_compute. Qed.

Lemma swap_runs :
  is_ok (process_claim_swap (settle_cx 301 k1 v1 10) (secret Byte.x01) (mkPState (store accounts) ta)) &&
  is_ok (process_refund_swap (settle_cx 300 k1 v1 3600) (mkPState (store accounts) ta)) &&
  is_ok (execute (settle_cx 301 k1 v1 10) (process_instruction (settle_cx 301 k1 v1 10) (claim_data Byte.x01)) ta) &&
  is_ok (process_create_swap (create_cx 10) (sha256 (secret Byte.x03)) 700 301 3600 NativePrism 0
           (mkPState (ta_accounts create_ta) create_ta)) = true.
Proof. vm_compute. reflexivity. Qed.

Lemma create_ok : create_accounts (create_cx 10) (mkPState (ta_accounts create_ta) create_ta) (mkIA 300 true true)
  (mkIA k3 false true) (mkIA v3 false true) (mkAccount 5000000 [] 0 false) empty_account empty_account.
Proof.
  split; [by eexists _, _|split|split|..]; evaluate.
Qed.
End SwapDemo.

(** ** Properties *)

Section SwapProperties.
Context {E : Env} {BW : Borsh SwapAccount} {BI : Borsh SwapInstruction}.
Context {LW : BorshLaws SwapAccount} {LI : BorshLaws SwapInstruction} {ZW : BorshSized SwapAccount SwapAccount_SIZE}.


(** A refund succeeds exactly when the initiator of an open swap signs
    once the time lock has expired; it then moves all lamports of the vault
    account to the receiving account and closes the swap.  With
    [claim_swap_exact]: at no time can both a claim and a refund succeed. *)
Theorem refund_swap_exact cx s s' :
  process_refund_swap cx s = Ok (tt, s') <->
  exists p sw va re w, settle_guard cx sw_initiator s p sw va re w /\
    expiry w <= unix_timestamp (cx_clock cx) /\
    s' = mkPState (settled w (set_state Refunded w) (ia_key sw) (ia_key va) (ia_key re) (mem s)) (rt s).
Proof. apply refund_swap_iff. Qed.

(** The accounts over time, as they concern the account [k]: the validator runs
    an instruction of the program (a creation, a claim or a refund, by anyone
    and with any accounts), or something happens that leaves the data and the
    owner of [k] alone. *)
Definition swap_event (program k : Pubkey) (ta ta' : TransactionAccounts) : Prop :=
  lamports_ok (ta_accounts ta') /\
  ((exists cx data, cx_program_id cx = program /\ execute cx (process_instruction cx data) ta = Ok ta') \/
   (acc_data (get_acc (ta_accounts ta') k) = acc_data (get_acc (ta_accounts ta) k) /\
    acc_owner (get_acc (ta_accounts ta') k) = acc_owner (get_acc (ta_accounts ta) k))).

(** C8. A settlement is final, as long as the validator does not purge the swap
    account: once a claim or a refund of a swap in an account of the program
    has gone through, then after any further instructions of the program
    (creations, claims and refunds of this or of other swaps, by anyone, with
    any accounts) and anything else that does not write the account, the swap
    still records the same outcome, and no claim or refund of it succeeds. *)
Theorem swap_settlement_final {L : EnvLaws} {X : ExecLaws} cx data i k ta ta1 ta2 cx' data' i' ta3 :
  is_pubkey (cx_program_id cx) -> cx_program_id cx <> system_program_id ->
  try_from_slice data = Some i -> settles i -> lamports_ok (ta_accounts ta) ->
  execute cx (process_instruction cx data) ta = Ok ta1 -> ia_key <$> cx_accounts cx !! 1%nat = Some k ->
  acc_owner (get_acc (ta_accounts ta) k) = cx_program_id cx ->
  rtc (swap_event (cx_program_id cx) k) ta1 ta2 ->
  try_from_slice data' = Some i' -> settles i' -> ia_key <$> cx_accounts cx' !! 1%nat = Some k ->
  (exists w, sw_state w <> Open /\ holds (ta_accounts ta1) k w /\ holds (ta_accounts ta2) k w) /\
  execute cx' (process_instruction cx' data') ta2 <> Ok ta3.
Proof.
  intros Hp Hsys Hde Hst Hok H Hk Hown Hrun Hde' Hst' Hk'.
  pose proof (execute_lamports_ok cx _ _ _ (swap_safe cx _) Hok H) as Hok1.
  eapply execute_settle in H as (k0 & w0 & w & Hk0 & _ & _ & Hw & Ho1 & Hc & _); try done.
  rewrite Hk in Hk0. injection Hk0 as <-.
  assert (Hw2 : owned_swap (cx_program_id cx) (ta_accounts ta2) k w /\ lamports_ok (ta_accounts ta2)).
  { assert (Hw1 : owned_swap (cx_program_id cx) (ta_accounts ta1) k w) by (split; [congruence|done]).
    clear - Hrun Hc Hp Hsys Hw1 Hok1 LW LI ZW L X. revert Hw1 Hok1.
    induction Hrun as [|t1 t2 t3 [Hl Hev] _ IH]; [done|]. intros Hw Hok. apply IH; [|done].
    destruct Hev as [(cx1 & d1 & Hpid & He)|[Hd Ho]].
    - rewrite <- Hpid in *. by eapply (execute_settled_kept cx1).
    - destruct Hw as [Hw1 Hw2]. split; [congruence|]. by eapply holds_data. }
  destruct Hw2 as [[_ Hw2] Hok2]. split; [by exists w|]. intros H'.
  eapply execute_settle in H' as (k1 & w1 & w1' & Hk1 & Hh1 & Ho & _); try done.
  rewrite Hk' in Hk1. injection Hk1 as <-. by rewrite (holds_inj _ _ _ _ Hw2 Hh1) in Hc.
Qed.

End SwapProperties.


Lemma refund_swap_exact_witness :
  let cx := SwapDemo.settle_cx 300 SwapDemo.k1 SwapDemo.v1 3600 in
  exists p sw va re w, settle_guard cx sw_initiator (mkPState (store SwapDemo.accounts) SwapDemo.ta) p sw va re w /\
    expiry w <= 3600.
Proof.
  intros cx. destruct (process_refund_swap cx (mkPState (store SwapDemo.accounts) SwapDemo.ta))
    as [[[] s']|e] eqn:Hrun; [|pose proof SwapDemo.swap_runs as Hk; unfold cx in Hrun; rewrite Hrun, ?andb_false_r in Hk; discriminate Hk].
  destruct (proj1 (refund_swap_exact cx _ s') Hrun) as (p & sw & va & re & w & G & Hx & _).
  exists p, sw, va, re, w. exact (conj G Hx).
Defined.

Lemma swap_settlement_final_witness :
  let cx := SwapDemo.settle_cx 301 SwapDemo.k1 SwapDemo.v1 10 in
  let cx' := SwapDemo.settle_cx 300 SwapDemo.k1 SwapDemo.v1 3600 in
  exists ta1, execute cx (process_instruction cx (SwapDemo.claim_data Byte.x01)) SwapDemo.ta = Ok ta1 /\
    execute cx' (process_instruction cx' SwapDemo.refund_data) ta1 <> Ok ta1.
Proof.
  intros cx cx'. destruct (execute cx (process_instruction cx (SwapDemo.claim_data Byte.x01)) SwapDemo.ta)
    as [ta1|e] eqn:Hrun; [|pose proof SwapDemo.swap_runs as Hk; unfold cx in Hrun; rewrite Hrun in Hk;
      rewrite ?andb_false_r in Hk; discriminate Hk].
  exists ta1. split; [exact eq_refl|].
  refine (proj2 (swap_settlement_final cx (SwapDemo.claim_data Byte.x01) (ClaimSwap (SwapDemo.secret Byte.x01)) SwapDemo.k1
    SwapDemo.ta ta1 ta1 cx' SwapDemo.refund_data RefundSwap ta1 _ _ _ I SwapDemo.swap_lamports Hrun eq_refl _ (rtc_refl _ _)
    _ I eq_refl)); evaluate.
Defined.

Lemma create_swap_locks_funds_witness :
  exists s', process_create_swap (SwapDemo.create_cx 10) (sha256 (SwapDemo.secret Byte.x03)) 700 301 3600 NativePrism 0
    (mkPState (ta_accounts SwapDemo.create_ta) SwapDemo.create_ta) = Ok (tt, s') /\
  get_acc (mem s') SwapDemo.v3 = mkAccount 700 [] SwapDemo.PROGRAM false.
Proof.
  destruct (process_create_swap (SwapDemo.create_cx 10) (sha256 (SwapDemo.secret Byte.x03)) 700 301 3600 NativePrism 0
    (mkPState (ta_accounts SwapDemo.create_ta) SwapDemo.create_ta)) as [[[] s']|e] eqn:Hrun;
    [|pose proof SwapDemo.swap_runs as Hk; rewrite Hrun, ?andb_false_r in Hk; discriminate Hk].
  exists s'. split; [exact eq_refl|].
  destruct (create_swap_locks_funds (SwapDemo.create_cx 10) (mkPState (ta_accounts SwapDemo.create_ta) SwapDemo.create_ta) s'
    (mkIA 300 true true) (mkIA SwapDemo.k3 false true)
    (mkIA SwapDemo.v3 false true) (mkAccount 5000000 [] 0 false) empty_account empty_account
    (sha256 (SwapDemo.secret Byte.x03)) 700 301 3600 0) as (bump & _ & _ & _ & _ & _ & _ & _ & Hv & _).
  - exact SwapDemo.create_ok.
  - cbv beta iota delta [well_typed SwapInstruction_well_typed]. repeat apply conj; evaluate.
  - exact Hrun.
  - exact Hv.
Defined.

(** Finding: claim does not check that the vault account is the vault of the
    swap.  The counterparty of a swap of 5 lamports, claiming it with the vault
    of another swap, receives the 2000 lamports locked there; the other swap
    stays open with an empty vault, and the attacker's own vault stays full. *)
Theorem claim_drains_foreign_vault :
  let cx := SwapDemo.settle_cx 401 SwapDemo.k2 SwapDemo.v1 10 in
  (let? ta' := execute cx (process_instruction cx (SwapDemo.claim_data Byte.x02)) SwapDemo.ta in
   let lamports k := acc_lamports (get_acc (ta_accounts ta') k) in
   let state k := sw_state <$> try_from_slice (acc_data (get_acc (ta_accounts ta') k)) in
   Ok (lamports 401, lamports SwapDemo.v1, lamports SwapDemo.v2, state SwapDemo.k1, state SwapDemo.k2))%result
  = Ok (5000 + 2000, 0, 5, Some Open, Some Claimed).
Proof. vm_compute. reflexivity. Qed.

(** The validator purges the accounts without lamports after a transaction. *)
Definition purge (ta : TransactionAccounts) : TransactionAccounts :=
  mkTA (fmap (fun a => if acc_lamports a =? 0 then empty_account else a) (ta_accounts ta)) (ta_resize_delta ta)
    (ta_lamports_delta ta).

(** Finding: a settlement does not check its vault account, so that the account
    of a settled swap can be named as the vault of another one and is emptied.
    Once the validator has purged it, the initiator creates the swap again at
    the same address, and it is open. *)
Example settled_swap_created_again :
  let cx1 := SwapDemo.settle_cx 301 SwapDemo.k1 SwapDemo.v1 10 in
  let cx2 := SwapDemo.settle_cx 401 SwapDemo.k2 SwapDemo.k1 10 in
  let cx3 := demo_ctx SwapDemo.PROGRAM
    [mkIA 300 true true; mkIA SwapDemo.k1 false true; mkIA SwapDemo.v1 false true; mkIA 0 false false] 20 (fun _ => 0) in
  let create := CreateSwap (sha256 (SwapDemo.secret Byte.x01)) 700 301 3600 NativePrism 0 in
  (let? ta1 := execute cx1 (process_instruction cx1 (SwapDemo.claim_data Byte.x01)) SwapDemo.ta in
   let? ta2 := execute cx2 (process_instruction cx2 (SwapDemo.claim_data Byte.x02)) ta1 in
   let? ta3 := execute cx3 (process_instruction cx3 (borsh_ser create)) (purge ta2) in
   let state ta := sw_state <$> try_from_slice (acc_data (get_acc (ta_accounts ta) SwapDemo.k1)) in
   Ok (state ta1, state ta2, acc_lamports (get_acc (ta_accounts ta2) SwapDemo.k1), state ta3))%result
  = Ok (Some Claimed, Some Claimed, 0, Some Open).
Proof. vm_compute. reflexivity. Qed.
