(* ===== verification/FlashLoan.v ===== *)
(** * FlashLoan: flash loan pools

    Models [src/programs/flash-loan/src/lib.rs]: the pool with its providers,
    the receipt of a loan, and the five instructions. *)

From Stdlib Require Import Strings.Byte Strings.String.
From S2P Require Import Prelude Borsh Accounts System Invoke Execution Cpi.
Open Scope Z_scope.

(** ** Constants and data *)

Definition FLASH_LOAN_FEE_BPS : Z := 9.
Definition FEE_DENOMINATOR : Z := 10000.
Definition MAX_PROVIDERS : Z := 256.
Definition POOL_SEED : list byte := list_byte_of_string "flash_pool".
Definition VAULT_SEED : list byte := list_byte_of_string "flash_vault".
Definition RECEIPT_SEED : list byte := list_byte_of_string "flash_receipt".

Inductive FlashLoanError :=
| AlreadyInitialized | NotInitialized | InsufficientLiquidity | LoanNotRepaid | InvalidAmount | Unauthorized
| Overflow | InvalidPDA | ReentrancyDetected | NoActiveLoan | MaxProvidersReached | ProviderNotFound
| InsufficientProviderBalance.

Definition into (e : FlashLoanError) : InstructionError :=
  Custom match e with
  | AlreadyInitialized => 0 | NotInitialized => 1 | InsufficientLiquidity => 2 | LoanNotRepaid => 3
  | InvalidAmount => 4 | Unauthorized => 5 | Overflow => 6 | InvalidPDA => 7 | ReentrancyDetected => 8
  | NoActiveLoan => 9 | MaxProvidersReached => 10 | ProviderNotFound => 11 | InsufficientProviderBalance => 12
  end.

Record ProviderShare := mkProvider {
  ps_owner : Pubkey;
  ps_deposited : Z;
  ps_fees_earned : Z;
  ps_last_updated : Z;
}.

Record FlashLoanPool := mkPool {
  pl_is_initialized : bool;
  pl_admin : Pubkey;
  pl_token_mint : Pubkey;
  pl_total_liquidity : Z;
  pl_total_fees_collected : Z;
  pl_total_loans_executed : Z;
  pl_is_paused : bool;
  pl_bump : Z;
  pl_provider_count : Z;
  pl_providers : list ProviderShare;
}.

Record FlashLoanReceipt := mkReceipt {
  rc_is_active : bool;
  rc_pool : Pubkey;
  rc_borrower : Pubkey;
  rc_amount : Z;
  rc_fee : Z;
  rc_vault_balance_before : Z;
  rc_bump : Z;
}.

Inductive FlashLoanInstruction :=
| InitializePool (token_mint : Pubkey)
| Deposit (amount : Z)
| Withdraw (amount : Z)
| Borrow (amount : Z)
| Repay.

Definition provider_ok (p : ProviderShare) : Prop :=
  is_pubkey (ps_owner p) /\ is_u64 (ps_deposited p) /\ is_u64 (ps_fees_earned p) /\ is_i64 (ps_last_updated p).

#[global] Instance FlashLoanPool_well_typed : WellTyped FlashLoanPool := fun p =>
  is_pubkey (pl_admin p) /\ is_pubkey (pl_token_mint p) /\ is_u64 (pl_total_liquidity p) /\
  is_u64 (pl_total_fees_collected p) /\ is_u64 (pl_total_loans_executed p) /\ is_u8 (pl_bump p) /\
  is_u32 (pl_provider_count p) /\ Forall provider_ok (pl_providers p) /\ is_u32 (zlen (pl_providers p)).
#[global] Instance FlashLoanReceipt_well_typed : WellTyped FlashLoanReceipt := fun r =>
  is_pubkey (rc_pool r) /\ is_pubkey (rc_borrower r) /\ is_u64 (rc_amount r) /\ is_u64 (rc_fee r) /\
  is_u64 (rc_vault_balance_before r) /\ is_u8 (rc_bump r).
#[global] Instance FlashLoanInstruction_well_typed : WellTyped FlashLoanInstruction := fun i =>
  match i with
  | InitializePool token_mint => is_pubkey token_mint
  | Deposit amount | Withdraw amount | Borrow amount => is_u64 amount
  | Repay => True
  end.

(** Field updates. *)
Definition with_providers (l : list ProviderShare) (count : Z) (p : FlashLoanPool) : FlashLoanPool :=
  mkPool (pl_is_initialized p) (pl_admin p) (pl_token_mint p) (pl_total_liquidity p) (pl_total_fees_collected p)
    (pl_total_loans_executed p) (pl_is_paused p) (pl_bump p) count l.
Definition with_totals (liquidity fees loans : Z) (p : FlashLoanPool) : FlashLoanPool :=
  mkPool (pl_is_initialized p) (pl_admin p) (pl_token_mint p) liquidity fees loans (pl_is_paused p) (pl_bump p)
    (pl_provider_count p) (pl_providers p).

(** ** Arithmetic and loops *)

Definition calculate_fee (amount : Z) : result InstructionError Z :=
  (let? product := ok_or (u64_checked_mul amount FLASH_LOAN_FEE_BPS) (into Overflow) in
   let? sum := ok_or (u64_checked_add product (FEE_DENOMINATOR - 1)) (into Overflow) in
   Ok (sum / FEE_DENOMINATOR))%result.

(** The loop of a deposit over the providers; the boolean is [found]. *)
Fixpoint deposit_loop (depositor amount now : Z) (l : list ProviderShare) : result InstructionError (list ProviderShare * bool) :=
  match l with
  | [] => Ok ([], false)
  | p :: l =>
      if ps_owner p =? depositor then
        (let? d := ok_or (u64_checked_add (ps_deposited p) amount) (into Overflow) in
         Ok (mkProvider (ps_owner p) d (ps_fees_earned p) now :: l, true))%result
      else
        (let? '(l', found) := deposit_loop depositor amount now l in Ok (p :: l', found))%result
  end.

(** The deduction of a withdrawal from one provider: fees first. *)
Definition deduct (amount now : Z) (p : ProviderShare) : result InstructionError ProviderShare :=
  (let? total_available := ok_or (u64_checked_add (ps_deposited p) (ps_fees_earned p)) (into Overflow) in
   err_if (total_available <? amount) (into InsufficientProviderBalance) ?>
   if amount <=? ps_fees_earned p then
     let? f := ok_or (u64_checked_sub (ps_fees_earned p) amount) ProgramFailedToComplete in
     Ok (mkProvider (ps_owner p) (ps_deposited p) f now)
   else
     let? remaining := ok_or (u64_checked_sub amount (ps_fees_earned p)) ProgramFailedToComplete in
     let? d := ok_or (u64_checked_sub (ps_deposited p) remaining) ProgramFailedToComplete in
     Ok (mkProvider (ps_owner p) d 0 now))%result.

Fixpoint withdraw_loop (provider amount now : Z) (l : list ProviderShare) : result InstructionError (list ProviderShare * bool) :=
  match l with
  | [] => Ok ([], false)
  | p :: l =>
      if ps_owner p =? provider then
        (let? p' := deduct amount now p in Ok (p' :: l, true))%result
      else
        (let? '(l', found) := withdraw_loop provider amount now l in Ok (p :: l', found))%result
  end.

(** A provider's share of a fee. *)
Definition fee_share (fee total_liquidity : Z) (p : ProviderShare) : Z :=
  let product := default 0 (u128_checked_mul fee (ps_deposited p)) in
  as_u64 (default 0 (u128_checked_div product total_liquidity)).

Definition distribute (fee total_liquidity : Z) (l : list ProviderShare) : list ProviderShare :=
  if 0 <? total_liquidity then
    map (fun p => mkProvider (ps_owner p) (ps_deposited p)
                    (u64_saturating_add (ps_fees_earned p) (fee_share fee total_liquidity p)) (ps_last_updated p)) l
  else l.

(** ** Instructions *)

Definition POOL_SPACE : Z := 1 + 32 + 32 + 8 + 8 + 8 + 1 + 1 + 4 + MAX_PROVIDERS * (32 + 8 + 8 + 8).
Definition RECEIPT_SPACE : Z := 1 + 32 + 32 + 8 + 8 + 8 + 1.

Section FlashLoan.
Context {E : Env} {BP : Borsh FlashLoanPool} {BR : Borsh FlashLoanReceipt} {BI : Borsh FlashLoanInstruction}.
Variable cx : Ctx.

Definition process_initialize_pool (token_mint : Pubkey) : M unit :=
  (let! '(admin, it) := next_account_info (cx_accounts cx) in
   let! '(pool_account, it) := next_account_info it in
   let! '(vault_account, it) := next_account_info it in
   let! '(_mint_account, it) := next_account_info it in
   let! '(system_program, it) := next_account_info it in
   fail_if (negb (ia_is_signer admin)) MissingRequiredSignature ;;
   let '(pool_pda, pool_bump) := find_program_address [POOL_SEED; key_bytes token_mint] (cx_program_id cx) in
   fail_if (negb (pool_pda =? ia_key pool_account)) (into InvalidPDA) ;;
   let '(vault_pda, vault_bump) :=
     find_program_address [VAULT_SEED; key_bytes (ia_key pool_account)] (cx_program_id cx) in
   fail_if (negb (vault_pda =? ia_key vault_account)) (into InvalidPDA) ;;
   let space := POOL_SPACE in
   let lamports := minimum_balance space in
   invoke_signed cx
     (create_account_ix (ia_key admin) (ia_key pool_account) lamports space (cx_program_id cx))
     [admin; pool_account; system_program]
     [[POOL_SEED; key_bytes token_mint; [byte_of_Z pool_bump]]] ;;
   invoke_signed cx
     (create_account_ix (ia_key admin) (ia_key vault_account) (minimum_balance 0) 0 (cx_program_id cx))
     [admin; vault_account; system_program]
     [[VAULT_SEED; key_bytes (ia_key pool_account); [byte_of_Z vault_bump]]] ;;
   let pool := mkPool true (ia_key admin) token_mint 0 0 0 false pool_bump 0 [] in
   serialize_into pool pool_account)%prog.

Definition process_deposit (amount : Z) : M unit :=
  (let! '(depositor, it) := next_account_info (cx_accounts cx) in
   let! '(pool_account, it) := next_account_info it in
   let! '(vault_account, it) := next_account_info it in
   let! '(system_program, it) := next_account_info it in
   fail_if (negb (ia_is_signer depositor)) MissingRequiredSignature ;;
   fail_if (amount =? 0) (into InvalidAmount) ;;
   let! pa := account pool_account in
   fail_if (negb (acc_owner pa =? cx_program_id cx)) IncorrectProgramId ;;
   let! pool := load FlashLoanPool pool_account BorshIoError in
   fail_if (negb (pl_is_initialized pool)) (into NotInitialized) ;;
   invoke_signed cx (transfer_ix (ia_key depositor) (ia_key vault_account) amount)
     [depositor; vault_account; system_program] [] ;;
   let! clock := clock_get cx in
   let! '(providers, found) :=
     lift (deposit_loop (ia_key depositor) amount (unix_timestamp clock) (pl_providers pool)) in
   let! pool :=
     (if found then pret (with_providers providers (pl_provider_count pool) pool)
      else
        fail_if (MAX_PROVIDERS <=? zlen providers) (into MaxProvidersReached) ;;
        let providers := providers ++ [mkProvider (ia_key depositor) amount 0 (unix_timestamp clock)] in
        let! count := lift (ok_or (u32_checked_add (pl_provider_count pool) 1) (into Overflow)) in
        pret (with_providers providers count pool)) in
   let! liquidity := lift (ok_or (u64_checked_add (pl_total_liquidity pool) amount) (into Overflow)) in
   serialize_into (with_totals liquidity (pl_total_fees_collected pool) (pl_total_loans_executed pool) pool)
     pool_account)%prog.

Definition process_withdraw (amount : Z) : M unit :=
  (let! '(provider, it) := next_account_info (cx_accounts cx) in
   let! '(pool_account, it) := next_account_info it in
   let! '(vault_account, it) := next_account_info it in
   let! '(provider_receive, it) := next_account_info it in
   let! '(_system_program, it) := next_account_info it in
   fail_if (negb (ia_is_signer provider)) MissingRequiredSignature ;;
   fail_if (amount =? 0) (into InvalidAmount) ;;
   let! pa := account pool_account in
   fail_if (negb (acc_owner pa =? cx_program_id cx)) IncorrectProgramId ;;
   let! pool := load FlashLoanPool pool_account BorshIoError in
   fail_if (negb (pl_is_initialized pool)) (into NotInitialized) ;;
   let! clock := clock_get cx in
   let! '(providers, provider_found) :=
     lift (withdraw_loop (ia_key provider) amount (unix_timestamp clock) (pl_providers pool)) in
   let pool := with_providers providers (pl_provider_count pool) pool in
   fail_if (negb provider_found) (into ProviderNotFound) ;;
   let! vault := account vault_account in
   let vault_lamports := acc_lamports vault in
   fail_if (vault_lamports <? amount) (into InsufficientLiquidity) ;;
   let! left := lift (ok_or (u64_checked_sub vault_lamports amount) (into Overflow)) in
   write_lamports vault_account left ;;
   let! receive := account provider_receive in
   let! received := lift (ok_or (u64_checked_add (acc_lamports receive) amount) (into Overflow)) in
   write_lamports provider_receive received ;;
   let! liquidity :=
     lift (ok_or (u64_checked_sub (pl_total_liquidity pool) (Z.min amount (pl_total_liquidity pool))) (into Overflow)) in
   serialize_into (with_totals liquidity (pl_total_fees_collected pool) (pl_total_loans_executed pool) pool)
     pool_account)%prog.

Definition process_borrow (amount : Z) : M unit :=
  (let! '(borrower, it) := next_account_info (cx_accounts cx) in
   let! '(pool_account, it) := next_account_info it in
   let! '(vault_account, it) := next_account_info it in
   let! '(receipt_account, it) := next_account_info it in
   let! '(borrower_receive, it) := next_account_info it in
   let! '(system_program, it) := next_account_info it in
   fail_if (negb (ia_is_signer borrower)) MissingRequiredSignature ;;
   fail_if (amount =? 0) (into InvalidAmount) ;;
   let! pa := account pool_account in
   fail_if (negb (acc_owner pa =? cx_program_id cx)) IncorrectProgramId ;;
   let! pool := load FlashLoanPool pool_account BorshIoError in
   fail_if (negb (pl_is_initialized pool)) (into NotInitialized) ;;
   fail_if (pl_is_paused pool) (into InsufficientLiquidity) ;;
   let! vault := account vault_account in
   let vault_balance := acc_lamports vault in
   fail_if (vault_balance <? amount) (into InsufficientLiquidity) ;;
   let! fee := lift (calculate_fee amount) in
   let '(receipt_pda, receipt_bump) :=
     find_program_address [RECEIPT_SEED; key_bytes (ia_key pool_account); key_bytes (ia_key borrower)] (cx_program_id cx) in
   fail_if (negb (receipt_pda =? ia_key receipt_account)) (into InvalidPDA) ;;
   let receipt_space := RECEIPT_SPACE in
   let receipt_lamports := minimum_balance receipt_space in
   invoke_signed cx
     (create_account_ix (ia_key borrower) (ia_key receipt_account) receipt_lamports receipt_space (cx_program_id cx))
     [borrower; receipt_account; system_program]
     [[RECEIPT_SEED; key_bytes (ia_key pool_account); key_bytes (ia_key borrower); [byte_of_Z receipt_bump]]] ;;
   let receipt := mkReceipt true (ia_key pool_account) (ia_key borrower) amount fee vault_balance receipt_bump in
   serialize_into receipt receipt_account ;;
   let! left := lift (ok_or (u64_checked_sub vault_balance amount) (into Overflow)) in
   write_lamports vault_account left ;;
   let! receive := account borrower_receive in
   let! received := lift (ok_or (u64_checked_add (acc_lamports receive) amount) (into Overflow)) in
   write_lamports borrower_receive received ;;
   let! loans := lift (ok_or (u64_checked_add (pl_total_loans_executed pool) 1) (into Overflow)) in
   serialize_into (with_totals (pl_total_liquidity pool) (pl_total_fees_collected pool) loans pool) pool_account)%prog.

Definition process_repay : M unit :=
  (let! '(borrower, it) := next_account_info (cx_accounts cx) in
   let! '(pool_account, it) := next_account_info it in
   let! '(vault_account, it) := next_account_info it in
   let! '(receipt_account, it) := next_account_info it in
   let! '(_system_program, it) := next_account_info it in
   fail_if (negb (ia_is_signer borrower)) MissingRequiredSignature ;;
   let! ra := account receipt_account in
   fail_if (negb (acc_owner ra =? cx_program_id cx)) IncorrectProgramId ;;
   let! receipt := load FlashLoanReceipt receipt_account BorshIoError in
   fail_if (negb (rc_is_active receipt)) (into NoActiveLoan) ;;
   fail_if (negb (rc_borrower receipt =? ia_key borrower)) (into Unauthorized) ;;
   fail_if (negb (rc_pool receipt =? ia_key pool_account)) (into InvalidPDA) ;;
   let! required_balance :=
     lift (ok_or (u64_checked_add (rc_vault_balance_before receipt) (rc_fee receipt)) (into Overflow)) in
   let! vault := account vault_account in
   fail_if (acc_lamports vault <? required_balance) (into LoanNotRepaid) ;;
   let! pool := load FlashLoanPool pool_account BorshIoError in
   let pool := with_providers (distribute (rc_fee receipt) (pl_total_liquidity pool) (pl_providers pool))
                 (pl_provider_count pool) pool in
   let! fees := lift (ok_or (u64_checked_add (pl_total_fees_collected pool) (rc_fee receipt)) (into Overflow)) in
   let! liquidity := lift (ok_or (u64_checked_add (pl_total_liquidity pool) (rc_fee receipt)) (into Overflow)) in
   serialize_into (with_totals liquidity fees (pl_total_loans_executed pool) pool) pool_account ;;
   let! ra := account receipt_account in
   let receipt_lamports := acc_lamports ra in
   write_lamports receipt_account 0 ;;
   let! b := account borrower in
   let! total := lift (ok_or (u64_checked_add (acc_lamports b) receipt_lamports) (into Overflow)) in
   write_lamports borrower total)%prog.

Definition process_instruction (instruction_data : list byte) : M unit :=
  (let! instruction := lift (ok_or (try_from_slice instruction_data) InvalidInstructionData) in
   match instruction with
   | InitializePool token_mint => process_initialize_pool token_mint
   | Deposit amount => process_deposit amount
   | Withdraw amount => process_withdraw amount
   | Borrow amount => process_borrow amount
   | Repay => process_repay
   end)%prog.
End FlashLoan.
