(* ===== verification/FlashLoanProofs.v ===== *)
(** * FlashLoanProofs: the flash loan pools *)

From Stdlib Require Import Strings.Byte.
From S2P Require Import Prelude Borsh Accounts System Invoke Execution Concrete Cpi FlashLoan.
Open Scope Z_scope.

(** ** Fees *)

Lemma calculate_fee_iff amount fee :
  is_u64 amount ->
  calculate_fee amount = Ok fee <->
  9 * amount + 9999 <= U64_MAX /\ 9 * amount <= 10000 * fee < 9 * amount + 10000.
Proof.
  intros Ha. unfold calculate_fee, FLASH_LOAN_FEE_BPS, FEE_DENOMINATOR.
  assert (Hq : forall q, q = (amount * 9 + 9999) / 10000 <-> 9 * amount <= 10000 * q < 9 * amount + 10000).
  { intros q. pose proof (Z.div_mod (amount * 9 + 9999) 10000). pose proof (Z.mod_pos_bound (amount * 9 + 9999) 10000).
    split; [intros ->; lia|]. intros. lia. }
  split.
  - intros H. rinv. split; [ilia|]. by apply Hq.
  - intros [Hb Hf]. apply Hq in Hf. rewrite checked_in by ilia. cbn [rbind ok_or]. rewrite checked_in by ilia.
    cbn [rbind ok_or]. by rewrite Hf.
Qed.

(** ** What the pool owes its providers *)

Definition claim (p : ProviderShare) : Z := ps_deposited p + ps_fees_earned p.
Definition sum_of (f : ProviderShare -> Z) (l : list ProviderShare) : Z := foldr (fun p acc => f p + acc) 0 l.

(** The first entry of [user] changes by [delta], the other entries stay. *)
Definition share_changed (user : Pubkey) (delta : Z) (l l' : list ProviderShare) : Prop :=
  exists l1 p p' l2, l = l1 ++ p :: l2 /\ l' = l1 ++ p' :: l2 /\ user ∉ (ps_owner <$> l1) /\
    ps_owner p = user /\ ps_owner p' = user /\ claim p' = claim p + delta.

Lemma share_changed_head user delta p p' l :
  ps_owner p = user -> ps_owner p' = user -> claim p' = claim p + delta -> share_changed user delta (p :: l) (p' :: l).
Proof. intros. exists [], p, p', l. split_and!; try done. apply not_elem_of_nil. Qed.

Lemma share_changed_cons user delta q l l' :
  ps_owner q <> user -> share_changed user delta l l' -> share_changed user delta (q :: l) (q :: l').
Proof.
  intros Hq (l1 & p & p' & l2 & -> & -> & Hn & ? & ? & ?). exists (q :: l1), p, p', l2.
  split_and!; try done. rewrite fmap_cons, not_elem_of_cons. done.
Qed.

Lemma sum_of_app f l1 l2 : sum_of f (l1 ++ l2) = sum_of f l1 + sum_of f l2.
Proof. induction l1 as [|p l1 IH]; simpl; [done|]. rewrite IH. lia. Qed.

Lemma share_changed_sums user delta l l' :
  share_changed user delta l l' ->
  sum_of claim l' = sum_of claim l + delta /\ user ∈ (ps_owner <$> l) /\ ps_owner <$> l' = ps_owner <$> l.
Proof.
  intros (l1 & p & p' & l2 & -> & -> & _ & Ho & Ho' & Hc). rewrite !sum_of_app, !fmap_app. simpl. split_and!.
  - lia.
  - rewrite Ho. set_solver.
  - by rewrite Ho, Ho'.
Qed.

Lemma deposit_loop_spec d a now l l' found :
  is_u64 a -> is_i64 now -> Forall provider_ok l -> deposit_loop d a now l = Ok (l', found) ->
  zlen l' = zlen l /\ Forall provider_ok l' /\
  if found then share_changed d a l l' else l' = l /\ d ∉ (ps_owner <$> l).
Proof.
  intros Ha Hn Hl. revert l'. induction Hl as [|p l Hp Hl IH]; intros l' H; simpl in H; rinv.
  { split_and!; try done. by intros ?%not_elem_of_nil. }
  destruct (Z.eqb_spec (ps_owner p) d) as [<-|Hne]; rinv.
  - split; [done|]. split; [constructor; [|done]; destruct Hp as (?&?&?&?); done|].
    apply share_changed_head; [done|done|]. unfold claim. simpl. lia.
  - destruct x as [l1 f]. rinv. hyp (deposit_loop _ _ _ _ = Ok _) as Hi. destruct (IH _ Hi) as (Hlen & Hok & Hf). unfold zlen in *. simpl.
    split; [lia|]. split; [by constructor|]. destruct found; [by apply share_changed_cons|].
    destruct Hf as [-> Hin]. split; [done|]. rewrite not_elem_of_cons. split; [congruence|done].
Qed.

Lemma deduct_spec a now p :
  is_u64 a -> is_i64 now -> provider_ok p ->
  (claim p <= U64_MAX /\ a <= claim p /\ exists p', deduct a now p = Ok p' /\ provider_ok p' /\ claim p' = claim p - a /\
     ps_owner p' = ps_owner p /\ ps_fees_earned p' = Z.max 0 (ps_fees_earned p - a)) \/
  ((U64_MAX < claim p /\ deduct a now p = Err (into Overflow)) \/
   (claim p <= U64_MAX /\ claim p < a /\ deduct a now p = Err (into InsufficientProviderBalance))).
Proof.
  intros Ha Hn (Ho & Hd & Hf & Ht). unfold deduct, claim.
  destruct (decide (ps_deposited p + ps_fees_earned p <= U64_MAX)) as [Hle|Hgt].
  2:{ right; left. split; [lia|]. assert (checked 0 U64_MAX (ps_deposited p + ps_fees_earned p) = None) as ->; [|done].
      apply checked_none. ilia. }
  rewrite checked_in by ilia. cbn [rbind ok_or].
  destruct (Z.ltb_spec (ps_deposited p + ps_fees_earned p) a); cbn [rbind err_if]; [by right; right|].
  left. split; [done|]. split; [done|].
  destruct (Z.leb_spec a (ps_fees_earned p)); rewrite !checked_in by ilia; cbn [rbind ok_or].
  - eexists. split; [done|]. repeat split; simpl; ilia.
  - rewrite checked_in by ilia. cbn [rbind ok_or]. eexists. split; [done|]. repeat split; simpl; ilia.
Qed.

Lemma withdraw_loop_spec d a now l l' found :
  is_u64 a -> is_i64 now -> Forall provider_ok l -> withdraw_loop d a now l = Ok (l', found) ->
  zlen l' = zlen l /\ Forall provider_ok l' /\ if found then share_changed d (- a) l l' else l' = l.
Proof.
  intros Ha Hn Hl. revert l'. induction Hl as [|p l Hp Hl IH]; intros l' H; simpl in H; rinv; [done|].
  destruct (Z.eqb_spec (ps_owner p) d) as [<-|Hne]; rinv.
  - hyp (deduct _ _ _ = Ok _) as Hd.
    destruct (deduct_spec a now p) as [(_ & _ & p' & Hp' & Hok & Hc & Ho & _)|[[_ Hb]|(_ & _ & Hb)]]; try done; [|congruence..].
    rewrite Hd in Hp'. simplify_eq. unfold zlen. simpl. split_and!; [done|by constructor|].
    apply share_changed_head; [done|done|lia].
  - destruct x as [l1 f]. rinv. hyp (withdraw_loop _ _ _ _ = Ok _) as Hi.
    destruct (IH _ Hi) as (Hlen & Hok & Hf). unfold zlen in *. simpl.
    split_and!; [lia|by constructor|]. destruct found; [by apply share_changed_cons|congruence].
Qed.

(** ** Distribution of a fee *)

Lemma fee_share_exact fee T p :
  is_u64 fee -> provider_ok p -> 0 < T -> ps_deposited p <= T -> fee_share fee T p = fee * ps_deposited p / T.
Proof.
  intros Hf (_ & Hd & _) HT Hle. unfold fee_share, u128_checked_div.
  rewrite checked_in by (unfold_ints; nia). cbn [default from_option id].
  destruct (Z.eqb_spec T 0); [lia|]. cbn [default from_option id]. apply as_u64_id.
  pose proof (mul_div_le fee (ps_deposited p) T). ilia.
Qed.

Lemma div_add_le a b T : 0 < T -> a / T + b / T <= (a + b) / T.
Proof.
  intros HT. apply Z.div_le_lower_bound; [done|].
  pose proof (Z.mul_div_le a T HT). pose proof (Z.mul_div_le b T HT). lia.
Qed.

Lemma sum_of_cons f p l : sum_of f (p :: l) = f p + sum_of f l.
Proof. done. Qed.

Lemma sum_of_nonneg f l : Forall (fun p => 0 <= f p) l -> 0 <= sum_of f l.
Proof. induction 1; simpl; lia. Qed.

Lemma distribute_spec fee T l :
  is_u64 fee -> Forall provider_ok l -> sum_of ps_deposited l <= T ->
  Forall provider_ok (distribute fee T l) /\ zlen (distribute fee T l) = zlen l /\
  ps_owner <$> distribute fee T l = ps_owner <$> l /\
  sum_of ps_deposited (distribute fee T l) = sum_of ps_deposited l /\
  sum_of claim l <= sum_of claim (distribute fee T l) <= sum_of claim l + fee.
Proof.
  intros Hf Hl Hs. unfold distribute. destruct (Z.ltb_spec 0 T) as [HT|HT]; [|split_and!; done || ilia].
  set (g := fun p => mkProvider _ _ _ _).
  assert (Hmain : Forall provider_ok (map g l) /\ ps_owner <$> map g l = ps_owner <$> l /\
    sum_of ps_deposited (map g l) = sum_of ps_deposited l /\
    sum_of claim l <= sum_of claim (map g l) <= sum_of claim l + fee * sum_of ps_deposited l / T).
  { induction Hl as [|p l Hp Hl IH]; [simpl; rewrite Z.mul_0_r, Z.div_0_l by lia; split_and!; done || lia|].
    cbn [map]. rewrite !sum_of_cons in *.
    assert (0 <= ps_deposited p) by (destruct Hp as (_&?&_); ilia).
    assert (0 <= sum_of ps_deposited l).
    { apply sum_of_nonneg. eapply Forall_impl; [exact Hl|]. intros q (_ & ? & _). ilia. }
    destruct IH as (I1 & I2 & I3 & I4); [lia|].
    assert (Hg : ps_fees_earned p <= ps_fees_earned (g p) <= ps_fees_earned p + fee * ps_deposited p / T).
    { simpl. rewrite fee_share_exact by (done || lia). pose proof (mul_div_le fee (ps_deposited p) T).
      destruct Hp as (_&_&?&_). unfold clamp. ilia. }
    pose proof (div_add_le (fee * ps_deposited p) (fee * sum_of ps_deposited l) T HT).
    split_and!.
    - constructor; [|done]. destruct Hp as (?&?&?&?). split_and!; try done. simpl. apply clamp_range. ilia.
    - by rewrite !fmap_cons, I2.
    - simpl. lia.
    - unfold claim at 1 3. simpl ps_deposited. lia.
    - rewrite Z.mul_add_distr_l. unfold claim at 1 3. simpl ps_deposited. lia. }
  destruct Hmain as (M1 & M2 & M3 & M4). split_and!; try done; try lia; [unfold zlen; by rewrite length_map|].
  assert (0 <= sum_of ps_deposited l).
  { apply sum_of_nonneg. eapply Forall_impl; [exact Hl|]. intros q (_ & ? & _). ilia. }
  pose proof (mul_div_le fee (sum_of ps_deposited l) T). ilia.
Qed.

(** A provider's part of a fee, rounded down. *)
Definition credit (fee T : Z) (p : ProviderShare) : ProviderShare :=
  mkProvider (ps_owner p) (ps_deposited p) (ps_fees_earned p + fee * ps_deposited p / T) (ps_last_updated p).

Lemma claim_le_sum l p : Forall provider_ok l -> p ∈ l -> claim p <= sum_of claim l.
Proof.
  induction 1 as [|q l (_ & Hd & Hf & _) Hl IH]; intros Hin; [by apply not_elem_of_nil in Hin|]. rewrite sum_of_cons.
  assert (0 <= sum_of claim l).
  { apply sum_of_nonneg. eapply Forall_impl; [exact Hl|]. intros r (_ & ? & ? & _). unfold claim. ilia. }
  apply elem_of_cons in Hin as [->|Hin]; [lia|]. specialize (IH Hin).
  assert (0 <= claim q) by (unfold claim; ilia). lia.
Qed.

(** In a pool that can pay its providers no part of a fee is lost to the casts or
    to the saturation. *)
Lemma distribute_exact fee T l :
  is_u64 fee -> Forall provider_ok l -> sum_of claim l <= T -> T + fee <= U64_MAX ->
  distribute fee T l = credit fee T <$> l.
Proof.
  intros Hf Hl Hs Hu. unfold distribute. destruct (Z.ltb_spec 0 T) as [HT|HT].
  - apply map_ext_in. intros p Hin%list_elem_of_In. assert (Hc : claim p <= T) by (pose proof (claim_le_sum _ _ Hl Hin); lia).
    eapply Forall_forall in Hl; [|exact Hin]. unfold claim in Hc. pose proof Hl as (_ & Hd & He & _).
    rewrite fee_share_exact by (done || ilia). unfold credit. f_equal.
    pose proof (mul_div_le fee (ps_deposited p) T). apply clamp_in. split; ilia.
  - transitivity (id <$> l); [symmetry; apply list_fmap_id|]. apply list_fmap_ext. intros i p Hp%list_elem_of_lookup_2.
    eapply Forall_forall in Hl as Hp'; [|exact Hp]. assert (Hc : claim p <= T) by (pose proof (claim_le_sum _ _ Hl Hp); lia).
    destruct Hp' as (_ & Hd & He & _). unfold claim in Hc. unfold credit.
    assert (ps_deposited p = 0) as Hz by ilia. destruct p as [o d f t]. simpl in *. subst d.
    by rewrite Z.mul_0_r, Zdiv_0_l, Z.add_0_r.
Qed.

(** ** The instructions on a pool *)

(** The documented length of an encoded pool. *)
Definition pool_len (p : FlashLoanPool) : Z := 99 + 56 * zlen (pl_providers p).

(** The pool owes its providers no more than its liquidity. *)
Definition solvent (p : FlashLoanPool) : Prop := sum_of claim (pl_providers p) <= pl_total_liquidity p.

Section Pools.
Context {E : Env} {BP : Borsh FlashLoanPool} {BR : Borsh FlashLoanReceipt} {BI : Borsh FlashLoanInstruction}.
Context {LP : BorshLaws FlashLoanPool} {LR : BorshLaws FlashLoanReceipt} {LI : BorshLaws FlashLoanInstruction}.
Context {ZP : BorshMeasured FlashLoanPool pool_len} {ZR : BorshSized FlashLoanReceipt RECEIPT_SPACE}.
Context (cx : Ctx) (now_ok : is_i64 (unix_timestamp (cx_clock cx))).

Lemma pool_rewrite m m' k pool pool' :
  holds m k pool -> acc_data (get_acc m' k) = acc_data (get_acc m k) -> well_typed pool' ->
  zlen (pl_providers pool') = zlen (pl_providers pool) -> holds (stored pool' k m') k pool'.
Proof.
  intros Hh Hd Hw Hn. apply holds_overwrite; [|done]. rewrite Hd.
  apply try_from_slice_some in Hh as [Hp ->]. rewrite !borsh_measured by done. unfold pool_len. by rewrite Hn.
Qed.

Lemma sum_deposited_le l : Forall provider_ok l -> sum_of ps_deposited l <= sum_of claim l.
Proof.
  induction 1 as [|p l (_ & _ & Hf & _) _ IH]; [done|]. rewrite !sum_of_cons. unfold claim at 1. ilia.
Qed.

Lemma sum_claim_nonneg l : Forall provider_ok l -> 0 <= sum_of claim l.
Proof. intros Hl. apply sum_of_nonneg. eapply Forall_impl; [exact Hl|]. intros p (_ & ? & ? & _). unfold claim. ilia. Qed.

(** The pool with new providers and totals. *)
Definition pool_with (providers : list ProviderShare) (liquidity fees loans : Z) (pool : FlashLoanPool) : FlashLoanPool :=
  with_totals liquidity fees loans (with_providers providers (pl_provider_count pool) pool).

Lemma process_withdraw_solvent amount s s' pr pa rest pool :
  is_u64 amount -> cx_accounts cx = pr :: pa :: rest -> holds (mem s) (ia_key pa) pool -> solvent pool ->
  process_withdraw cx amount s = Ok (tt, s') ->
  ia_is_signer pr = true /\
  exists l', share_changed (ia_key pr) (- amount) (pl_providers pool) l' /\
    let pool' := pool_with l' (pl_total_liquidity pool - amount) (pl_total_fees_collected pool)
      (pl_total_loans_executed pool) pool in
    holds (mem s') (ia_key pa) pool' /\ solvent pool'.
Proof.
  intros Ha Hacc Hp Hs H. unfold process_withdraw in H. rewrite Hacc in H. pinv. bool_to_prop. reads pool. subst.
  apply holds_well_typed in Hp as Wp. destruct Wp as (?&?&?&?&?&?&?& Wl &Wn).
  hyp (withdraw_loop _ _ _ _ = Ok _) as Hw. apply withdraw_loop_spec in Hw as (Hlen & Hok & Hch); try done.
  split; [done|]. destruct (share_changed_sums _ _ _ _ Hch) as (Hsum & _ & _).
  unfold solvent in *. cbn [pl_total_liquidity with_providers] in *. pose proof (sum_claim_nonneg _ Hok).
  rewrite Z.min_l by lia. eexists. split; [exact Hch|]. cbv zeta. split.
  - cbn [mem]. eapply pool_rewrite; [exact Hp| | |exact Hlen].
    + by rewrite !set_lamports_data.
    + repeat split; simpl; try done; ilia.
  - simpl. lia.
Qed.

(** What a repayment needs. *)
Record repay_guard (m : gmap Pubkey Account) (bo pa va ra : AccountInfo) (receipt : FlashLoanReceipt) : Prop := {
  rg_signer : ia_is_signer bo = true;
  rg_owner : acc_owner (get_acc m (ia_key ra)) = cx_program_id cx;
  rg_receipt : holds m (ia_key ra) receipt;
  rg_active : rc_is_active receipt = true;
  rg_borrower : rc_borrower receipt = ia_key bo;
  rg_pool : rc_pool receipt = ia_key pa;
  rg_repaid : rc_vault_balance_before receipt + rc_fee receipt <= acc_lamports (get_acc m (ia_key va));
}.

Lemma process_repay_solvent s s' bo pa va ra rest pool :
  cx_accounts cx = bo :: pa :: va :: ra :: rest -> holds (mem s) (ia_key pa) pool -> solvent pool ->
  process_repay cx s = Ok (tt, s') ->
  exists receipt, repay_guard (mem s) bo pa va ra receipt /\
    let pool' := pool_with (credit (rc_fee receipt) (pl_total_liquidity pool) <$> pl_providers pool)
      (pl_total_liquidity pool + rc_fee receipt) (pl_total_fees_collected pool + rc_fee receipt)
      (pl_total_loans_executed pool) pool in
    holds (mem s') (ia_key pa) pool' /\ solvent pool'.
Proof.
  intros Hacc Hp Hs H. unfold process_repay in H. rewrite Hacc in H. pinv. bool_to_prop. reads pool.
  apply holds_well_typed in Hp as Wp. destruct Wp as (?&?&?&?&?&?&?& Wl &Wn).
  read FlashLoanReceipt as receipt Hr. apply holds_well_typed in Hr as Wr. destruct Wr as (_&_&_&Hfee&_).
  pose proof (sum_deposited_le _ Wl). unfold solvent in *.
  destruct (distribute_spec (rc_fee receipt) (pl_total_liquidity pool) (pl_providers pool))
    as (D1 & D2 & D3 & _ & D4); try done; [lia|]. cbn [pl_total_liquidity pl_total_fees_collected with_providers] in *.
  exists receipt. split; [by split|]. rewrite <- distribute_exact by (done || ilia). cbv zeta. split.
  - cbn [mem]. apply holds_set_lamports, holds_set_lamports.
    eapply pool_rewrite; [exact Hp|done| |exact D2]. repeat split; simpl; try done; rewrite ?D2; done || ilia.
  - simpl. lia.
Qed.

Lemma holds_invoke ix infos seeds s u s' k (pool : FlashLoanPool) :
  invoke_signed cx ix infos seeds s = Ok (u, s') -> k ∉ (ia_key <$> ix_accounts ix) ->
  holds (mem s) k pool -> holds (mem s') k pool.
Proof. intros H Hk Hh. eapply holds_acc; [|exact Hh]. by eapply invoke_signed_get_acc. Qed.

(** A deposit on a stored pool is one of an existing provider: the encoding of
    a pool with one more provider does not fit the account. *)
Lemma process_deposit_solvent amount s s' de pa va rest pool :
  is_u64 amount -> cx_accounts cx = de :: pa :: va :: rest -> ia_key pa ∉ [ia_key de; ia_key va] ->
  is_pubkey (ia_key de) -> holds (mem s) (ia_key pa) pool -> solvent pool ->
  process_deposit cx amount s = Ok (tt, s') ->
  ia_is_signer de = true /\
  exists l', share_changed (ia_key de) amount (pl_providers pool) l' /\
    let pool' := pool_with l' (pl_total_liquidity pool + amount) (pl_total_fees_collected pool)
      (pl_total_loans_executed pool) pool in
    holds (mem s') (ia_key pa) pool' /\ solvent pool'.
Proof.
  intros Ha Hacc Hne Hk Hp Hs H. unfold process_deposit in H. rewrite Hacc in H. pinv; bool_to_prop; reads pool; subst;
    hyp (invoke_signed _ _ _ _ _ = Ok _) as Hi; (eapply holds_invoke in Hi as Hp1; [|exact Hne|exact Hp]);
    apply holds_well_typed in Hp as Wp; destruct Wp as (?&?&?&?&?&?&?& Wl &Wn);
    hyp (deposit_loop _ _ _ _ = Ok _) as Hw; (apply deposit_loop_spec in Hw as (Hlen & Hok & Hf); [|done..]).
  - split; [done|]. destruct (share_changed_sums _ _ _ _ Hf) as (Hsum & _ & _). unfold solvent in *.
    cbn [pl_total_liquidity with_providers] in *. eexists. split; [exact Hf|]. cbv zeta. split.
    + cbn [mem]. eapply pool_rewrite; [exact Hp1|done| |exact Hlen]. repeat split; simpl; try done; ilia.
    + simpl. lia.
  - exfalso. destruct Hf as [-> _]. unfold MAX_PROVIDERS in *.
    hyp (zlen (borsh_ser _) <= _) as Hfit. apply try_from_slice_some in Hp1 as [_ Hdata].
    rewrite Hdata, (borsh_measured pool) in Hfit by exact (holds_well_typed _ _ _ Hp).
    rewrite borsh_measured in Hfit.
    + unfold pool_len, zlen in Hfit. simpl in Hfit. rewrite length_app in Hfit. simpl in Hfit. lia.
    + repeat split; simpl; try done; try (unfold zlen in *; rewrite ?length_app; simpl; ilia).
      apply Forall_app. split; [done|]. apply Forall_singleton. split_and!; simpl; done || ilia.
Qed.

(** A loan: the pool counts it, the vault pays it, and nothing else of the pool
    changes. *)
Lemma process_borrow_solvent amount s s' bo pa va ra rest pool :
  cx_accounts cx = bo :: pa :: va :: ra :: rest -> ia_key pa ∉ [ia_key bo; ia_key ra] ->
  holds (mem s) (ia_key pa) pool -> process_borrow cx amount s = Ok (tt, s') ->
  ia_is_signer bo = true /\ pl_is_paused pool = false /\
  amount <= acc_lamports (get_acc (mem s) (ia_key va)) /\
  holds (mem s') (ia_key pa)
    (with_totals (pl_total_liquidity pool) (pl_total_fees_collected pool) (pl_total_loans_executed pool + 1) pool).
Proof.
  intros Hacc Hne Hp H. unfold process_borrow in H. rewrite Hacc in H. pinv; bool_to_prop; reads pool; subst.
  hyp (invoke_signed _ _ _ _ _ = Ok _) as Hi. eapply holds_invoke in Hi as Hp1; [|exact Hne|exact Hp].
  split_and!; try done.
  apply holds_well_typed in Hp as Wp. destruct Wp as (?&?&?&?&?&?&?& Wl &Wn).
  cbn [mem]. eapply pool_rewrite; [exact Hp1| | |done].
  - rewrite !set_lamports_data, stored_ne; [done|]. rewrite !not_elem_of_cons in Hne. naive_solver.
  - repeat split; simpl; done || ilia.
Qed.

Lemma flash_safe {X : ExecLaws} data : safe (process_instruction cx data).
Proof.
  unfold process_instruction. psafe; unfold process_initialize_pool, process_deposit, process_withdraw, process_borrow, process_repay; psafe.
Qed.

Lemma flash_confined {X : ExecLaws} data : confined cx (process_instruction cx data).
Proof.
  unfold process_instruction. psafe; unfold process_initialize_pool, process_deposit, process_withdraw, process_borrow, process_repay; psafe.
Qed.

(** What an instruction makes of a stored pool: the accounts are the user, the
    pool, the vault and, for loans, the receipt. *)
Definition pool_step (m : gmap Pubkey Account) (i : FlashLoanInstruction) (u pa va ra : AccountInfo)
    (pool pool' : FlashLoanPool) : Prop :=
  let liquidity := pl_total_liquidity pool in
  let fees := pl_total_fees_collected pool in
  let loans := pl_total_loans_executed pool in
  ia_is_signer u = true /\
  match i with
  | InitializePool _ => False
  | Deposit amount => exists l', share_changed (ia_key u) amount (pl_providers pool) l' /\
      pool' = pool_with l' (liquidity + amount) fees loans pool
  | Withdraw amount => exists l', share_changed (ia_key u) (- amount) (pl_providers pool) l' /\
      pool' = pool_with l' (liquidity - amount) fees loans pool
  | Borrow amount => pl_is_paused pool = false /\ amount <= acc_lamports (get_acc m (ia_key va)) /\
      pool' = with_totals liquidity fees (loans + 1) pool
  | Repay => exists receipt, repay_guard m u pa va ra receipt /\
      pool' = pool_with (credit (rc_fee receipt) liquidity <$> pl_providers pool)
        (liquidity + rc_fee receipt) (fees + rc_fee receipt) loans pool
  end.

Lemma instruction_solvent data i s s' u pa va ra rest pool :
  try_from_slice data = Some i -> match i with InitializePool _ => False | _ => True end ->
  cx_accounts cx = u :: pa :: va :: ra :: rest -> ia_key pa ∉ [ia_key u; ia_key va; ia_key ra] ->
  is_pubkey (ia_key u) -> holds (mem s) (ia_key pa) pool -> solvent pool ->
  process_instruction cx data s = Ok (tt, s') ->
  exists pool', holds (mem s') (ia_key pa) pool' /\ solvent pool' /\ pool_step (mem s) i u pa va ra pool pool'.
Proof.
  intros Hde Hi Hacc Hne Hu Hp Hs H. apply try_from_slice_some in Hde as Hwt. destruct Hwt as [Hwt _].
  rewrite !not_elem_of_cons in Hne. destruct Hne as (N1 & N2 & N3 & _).
  unfold process_instruction in H. rewrite Hde in H. cbn [ok_or lift pbind] in H.
  destruct i as [|amount|amount|amount|]; [done|..].
  - eapply process_deposit_solvent in H as (Hsig & l' & Hch & Hh & Hs'); try done.
    + eexists. split; [exact Hh|]. split; [exact Hs'|]. split; [done|]. by exists l'.
    + rewrite !not_elem_of_cons. split_and!; [done..|apply not_elem_of_nil].
  - eapply process_withdraw_solvent in H as (Hsig & l' & Hch & Hh & Hs'); try done.
    eexists. split; [exact Hh|]. split; [exact Hs'|]. split; [done|]. by exists l'.
  - eapply process_borrow_solvent in H as (? & ? & ? & Hh); try done; [|rewrite !not_elem_of_cons; split_and!; [done..|apply not_elem_of_nil]].
    eexists. split; [exact Hh|]. split; [exact Hs|]. by repeat split.
  - eapply process_repay_solvent in H as (receipt & G & Hh & Hs'); try done.
    eexists. split; [exact Hh|]. split; [exact Hs'|]. split; [apply G|]. by exists receipt.
Qed.
End Pools.
