(* ===== verification/FlashLoanTheorems.v ===== *)
(** * FlashLoanTheorems: the properties of the flash loan program

    The theorems about [src/programs/flash-loan/src/lib.rs], and the
    evaluation of the program on concrete accounts in the Borsh wire format. *)

From Stdlib Require Import Strings.Byte.
From S2P Require Import Prelude Borsh Accounts System Invoke Execution Concrete Cpi FlashLoan FlashLoanProofs.
Open Scope Z_scope.

(** ** The account data on the wire *)

Definition codec_provider : codec ProviderShare :=
  codec_iso (fun '(o, (d, (f, t))) => mkProvider o d f t)
    (fun p => (ps_owner p, (ps_deposited p, (ps_fees_earned p, ps_last_updated p))))
    (codec_pair codec_pubkey (codec_pair (codec_uint 8) (codec_pair (codec_uint 8) (codec_int 8)))).

Definition codec_pool_head : codec (bool * (Z * (Z * (Z * (Z * (Z * (bool * (Z * Z)))))))) :=
  codec_pair codec_bool (codec_pair codec_pubkey (codec_pair codec_pubkey (codec_pair (codec_uint 8)
    (codec_pair (codec_uint 8) (codec_pair (codec_uint 8) (codec_pair codec_bool (codec_pair (codec_uint 1)
    (codec_uint 4)))))))).

Definition codec_pool : codec FlashLoanPool :=
  codec_iso (fun '((i, (a, (m, (l, (f, (n, (p, (b, c)))))))), v) => mkPool i a m l f n p b c v)
    (fun p => ((pl_is_initialized p, (pl_admin p, (pl_token_mint p, (pl_total_liquidity p, (pl_total_fees_collected p,
      (pl_total_loans_executed p, (pl_is_paused p, (pl_bump p, pl_provider_count p)))))))), pl_providers p))
    (codec_pair codec_pool_head (codec_vec codec_provider)).

Definition codec_receipt : codec FlashLoanReceipt :=
  codec_iso (fun '(a, (p, (b, (m, (f, (v, u)))))) => mkReceipt a p b m f v u)
    (fun r => (rc_is_active r, (rc_pool r, (rc_borrower r, (rc_amount r, (rc_fee r, (rc_vault_balance_before r, rc_bump r)))))))
    (codec_pair codec_bool (codec_pair codec_pubkey (codec_pair codec_pubkey (codec_pair (codec_uint 8)
      (codec_pair (codec_uint 8) (codec_pair (codec_uint 8) (codec_uint 1))))))).

Definition flash_instruction_index (i : FlashLoanInstruction) : nat :=
  match i with InitializePool _ => 0 | Deposit _ => 1 | Withdraw _ => 2 | Borrow _ => 3 | Repay => 4 end.

Definition codec_flash_instruction : codec FlashLoanInstruction :=
  codec_variants
    [mkVariant codec_pubkey InitializePool (fun i => match i with InitializePool m => Some m | _ => None end);
     mkVariant (codec_uint 8) Deposit (fun i => match i with Deposit a => Some a | _ => None end);
     mkVariant (codec_uint 8) Withdraw (fun i => match i with Withdraw a => Some a | _ => None end);
     mkVariant (codec_uint 8) Borrow (fun i => match i with Borrow a => Some a | _ => None end);
     mkVariant codec_unit (fun _ => Repay) (fun _ => Some tt)]
    flash_instruction_index.

#[local] Hint Extern 1 (0 < _)%nat => lia : codec.

Lemma codec_provider_laws : codec_laws codec_provider.
Proof. apply codec_iso_laws; [by intros []|by intros (?&?&?&?)|]. auto 20 with codec. Qed.
Lemma codec_provider_size : c_size codec_provider 56.
Proof. codec_size. Qed.
Lemma codec_provider_wf p : provider_ok p <-> c_wf codec_provider p.
Proof. unfold provider_ok. codec_wf. Qed.

Lemma codec_pool_laws : codec_laws codec_pool.
Proof.
  apply codec_iso_laws; [by intros []|by intros ((?&?&?&?&?&?&?&?&?)&?)|].
  apply codec_pair_laws; [unfold codec_pool_head; auto 20 with codec|apply codec_vec_laws, codec_provider_laws].
Qed.
Lemma codec_pool_wf p : well_typed p <-> c_wf codec_pool p.
Proof.
  unfold well_typed, FlashLoanPool_well_typed, zlen.
  assert (Hf : Forall provider_ok (pl_providers p) <-> Forall (c_wf codec_provider) (pl_providers p)).
  { split; intros Hl; (eapply Forall_impl; [exact Hl|]); intros; by apply codec_provider_wf. }
  cbn [codec_pool codec_iso c_wf codec_pair codec_vec fst snd]. rewrite <- Hf. clear Hf. codec_wf.
Qed.
Lemma codec_pool_length p : c_wf codec_pool p -> zlen (c_ser codec_pool p) = pool_len p.
Proof.
  intros [H1 H2]. cbn [codec_pool codec_iso c_ser codec_pair fst snd] in *.
  unfold zlen at 1. rewrite length_app, Nat2Z.inj_add.
  pose proof (codec_vec_length _ _ _ codec_provider_size H2) as Hv.
  assert (Hs : c_size codec_pool_head 95) by codec_size. apply Hs in H1. unfold pool_len, zlen in *. lia.
Qed.

Lemma codec_receipt_laws : codec_laws codec_receipt.
Proof. apply codec_iso_laws; [by intros []|by intros (?&?&?&?&?&?&?)|]. auto 20 with codec. Qed.
Lemma codec_receipt_size : c_size codec_receipt RECEIPT_SPACE.
Proof. codec_size. Qed.
Lemma codec_receipt_wf r : well_typed r <-> c_wf codec_receipt r.
Proof. unfold well_typed, FlashLoanReceipt_well_typed. codec_wf. Qed.

Lemma codec_flash_instruction_laws : codec_laws codec_flash_instruction.
Proof.
  apply codec_variants_laws; [simpl; lia|repeat apply Forall_cons_2; simpl; auto 10 with codec| |].
  - intros [|[|[|[|[|]]]]] v a [= <-]; simpl in a; try (by destruct a); done.
  - intros [] v a [= <-]; simpl; by intros [= <-].
Qed.
Lemma codec_flash_instruction_wf i : well_typed i <-> c_wf codec_flash_instruction i.
Proof. destruct i; unfold well_typed; simpl; try done; codec_wf. Qed.

#[global] Instance pool_borsh : Borsh FlashLoanPool := borsh_of_codec codec_pool.
#[global] Instance pool_borsh_laws : BorshLaws FlashLoanPool := borsh_of_codec_laws _ codec_pool_laws codec_pool_wf.
#[global] Instance pool_borsh_measured : BorshMeasured FlashLoanPool pool_len.
Proof. intros p Hp. by apply codec_pool_length, codec_pool_wf. Qed.
#[global] Instance receipt_borsh : Borsh FlashLoanReceipt := borsh_of_codec codec_receipt.
#[global] Instance receipt_borsh_laws : BorshLaws FlashLoanReceipt :=
  borsh_of_codec_laws _ codec_receipt_laws codec_receipt_wf.
#[global] Instance receipt_borsh_sized : BorshSized FlashLoanReceipt RECEIPT_SPACE :=
  borsh_of_codec_sized _ _ codec_receipt_size codec_receipt_wf.
#[global] Instance flash_instruction_borsh : Borsh FlashLoanInstruction := borsh_of_codec codec_flash_instruction.
#[global] Instance flash_instruction_borsh_laws : BorshLaws FlashLoanInstruction :=
  borsh_of_codec_laws _ codec_flash_instruction_laws codec_flash_instruction_wf.

(** A pool with the providers 300 and 302, who have deposited a million lamports
    each, and the borrower 400. *)
Module FlashDemo.
Definition PROGRAM : Pubkey := 100.
Definition MINT : Pubkey := 700.
Definition pool_key : Pubkey := derive [POOL_SEED; key_bytes MINT; [byte_of_Z 255]] PROGRAM.
Definition vault_key : Pubkey := derive [VAULT_SEED; key_bytes pool_key; [byte_of_Z 255]] PROGRAM.
Definition receipt_key : Pubkey :=
  derive [RECEIPT_SEED; key_bytes pool_key; key_bytes 400; [byte_of_Z 255]] PROGRAM.
Definition pool : FlashLoanPool := mkPool true 301 MINT 2000000 0 0 false 255 2
  [mkProvider 300 1000000 0 0; mkProvider 302 1000000 0 0].
Definition accounts : list (Pubkey * Account) :=
  [(pool_key, mkAccount 5000000 (borsh_ser pool) PROGRAM false); (vault_key, mkAccount 2000000 [] PROGRAM false);
   (receipt_key, empty_account); (300, mkAccount 5000000 [] 0 false); (400, mkAccount 5000000 [] 0 false);
   (401, mkAccount 50 [] 0 false); (0, mkAccount 1 [] 1 true)].
Definition ta : TransactionAccounts := mkTA (store accounts) 0 0.
Definition len (t : TransactionAccounts) (k : Pubkey) : Z := zlen (acc_data (get_acc (ta_accounts t) k)).

Definition borrow_cx : Ctx := demo_ctx PROGRAM
  [mkIA 400 true true; mkIA pool_key false true; mkIA vault_key false true; mkIA receipt_key false true;
   mkIA 401 false true; mkIA 0 false false] 10 (len ta).
Definition deposit_cx (vault : Pubkey) : Ctx := demo_ctx PROGRAM
  [mkIA 300 true true; mkIA pool_key false true; mkIA vault false true; mkIA 0 false false] 10 (len ta).
Definition withdraw_cx : Ctx := demo_ctx PROGRAM
  [mkIA 300 true true; mkIA pool_key false true; mkIA vault_key false true; mkIA 300 true true; mkIA 0 false false] 10 (len ta).
Definition repay_cx (t : TransactionAccounts) : Ctx := demo_ctx PROGRAM
  [mkIA 400 true true; mkIA pool_key false true; mkIA vault_key false true; mkIA receipt_key false true;
   mkIA 0 false false] 10 (len t).

(** Account 301 wants to open the pool. *)
Definition init_state : PState :=
  let m := store [(301, mkAccount 1000000000 [] 0 false); (pool_key, empty_account); (vault_key, empty_account);
                  (MINT, empty_account); (0, mkAccount 1 [] 1 true)] in
  mkPState m (mkTA m 0 0).
Definition init_cx : Ctx := demo_ctx PROGRAM
  [mkIA 301 true true; mkIA pool_key false true; mkIA vault_key false true; mkIA MINT false false; mkIA 0 false false]
  10 (fun _ => 0).

Lemma init_ready : create_ready init_cx init_state 301 pool_key (mkAccount 1000000000 [] 0 false) empty_account.
Proof. split; evaluate. Qed.

(** The borrower pays back [amount] and the loan is closed [n] times. *)
Definition pay (amount : Z) (t : TransactionAccounts) : result InstructionError TransactionAccounts :=
  system_process create_with_seed [mkIA 400 true true; mkIA vault_key false true] (Transfer amount) t.
Definition repay (t : TransactionAccounts) : result InstructionError TransactionAccounts :=
  execute (repay_cx t) (process_instruction (repay_cx t) (borsh_ser Repay)) t.

Definition paid : TransactionAccounts :=
  match (let? t := execute borrow_cx (process_instruction borrow_cx (borsh_ser (Borrow 600000))) ta in pay 600540 t)%result
  with Ok t => t | Err _ => ta end.

Lemma flash_lamports : lamports_ok (ta_accounts ta).
Proof. apply lamports_ok_store, (bool_decide_unpack _). by vm_compute. Qed.

Lemma flash_runs :
  is_ok (execute withdraw_cx (process_instruction withdraw_cx (borsh_ser (Withdraw 400000))) ta) &&
  is_ok (execute borrow_cx (process_instruction borrow_cx (borsh_ser (Borrow 600000))) ta) &&
  is_ok (execute (deposit_cx vault_key) (process_instruction (deposit_cx vault_key) (borsh_ser (Deposit 5))) ta) &&
  is_ok (process_repay (repay_cx paid) (mkPState (ta_accounts paid) paid)) = true.
Proof. vm_compute. reflexivity. Qed.
End FlashDemo.

(** ** Properties *)

(** The fee of a loan is 0.09 percent rounded up: [calculate_fee] returns
    the least integer that is at least [9/10000] of the amount, and it fails,
    with the error [Overflow], exactly for the amounts whose product does not
    fit 64 bits. *)
Theorem flash_fee_exact amount :
  is_u64 amount ->
  (9 * amount + 9999 <= U64_MAX /\ exists fee, calculate_fee amount = Ok fee /\
     9 * amount <= 10000 * fee /\ (forall f, 9 * amount <= 10000 * f -> fee <= f)) \/
  (U64_MAX < 9 * amount + 9999 /\ calculate_fee amount = Err (into Overflow)).
Proof.
  intros Ha. destruct (decide (9 * amount + 9999 <= U64_MAX)) as [Hle|Hgt].
  - left. split; [done|]. exists ((9 * amount + 9999) / 10000).
    pose proof (Z.div_mod (9 * amount + 9999) 10000). pose proof (Z.mod_pos_bound (9 * amount + 9999) 10000).
    split_and!; [apply calculate_fee_iff; [done|lia]|lia|intros; lia].
  - right. split; [lia|]. destruct (calculate_fee amount) as [fee|e] eqn:Hf.
    + apply calculate_fee_iff in Hf as [? _]; [lia|done].
    + unfold calculate_fee in Hf. apply rbind_err in Hf as [Hf|(? & _ & Hf)]; [by destruct (checked _ _ _); simplify_eq/=|].
      apply rbind_err in Hf as [Hf|(? & _ & Hf)]; [by destruct (checked _ _ _); simplify_eq/=|done].
Qed.

Lemma flash_fee_exact_witness : is_u64 600000 /\ exists fee, calculate_fee 600000 = Ok fee /\ 9 * 600000 <= 10000 * fee.
Proof.
  split; [ilia|].
  destruct (flash_fee_exact 600000) as [(_ & fee & Hf & Hl & _)|[Hbad _]]; [ilia| |exfalso; ilia].
  exists fee. exact (conj Hf Hl).
Defined.

Section FlashProperties.
Context {E : Env} {BP : Borsh FlashLoanPool} {BR : Borsh FlashLoanReceipt} {BI : Borsh FlashLoanInstruction}.
Context {LP : BorshLaws FlashLoanPool} {LR : BorshLaws FlashLoanReceipt} {LI : BorshLaws FlashLoanInstruction}.
Context {ZP : BorshMeasured FlashLoanPool pool_len} {ZR : BorshSized FlashLoanReceipt RECEIPT_SPACE}.
Context (cx : Ctx).

(** C14. A pool's books stay solvent: whatever deposit, withdrawal, loan or
    repayment the validator runs on a stored pool that owes its providers no
    more than its liquidity (the pool account being none of the other three
    accounts), the pool then still does.  A deposit and a withdrawal change the
    share of the signing provider, the first entry with its key, and the
    liquidity by exactly the amount and no other share; a loan of what the vault
    holds changes neither; a repayment by the borrower of the receipt adds the
    fee of the receipt to the liquidity and to the fees collected and credits
    every provider with exactly its part of it, rounded down. *)
Theorem pool_stays_solvent {X : ExecLaws} data i ta ta' u pa va ra rest pool :
  is_i64 (unix_timestamp (cx_clock cx)) -> try_from_slice data = Some i -> (forall mint, i <> InitializePool mint) ->
  cx_accounts cx = u :: pa :: va :: ra :: rest -> ia_key pa ∉ [ia_key u; ia_key va; ia_key ra] -> is_pubkey (ia_key u) ->
  lamports_ok (ta_accounts ta) -> holds (ta_accounts ta) (ia_key pa) pool -> solvent pool ->
  execute cx (process_instruction cx data) ta = Ok ta' ->
  exists pool', holds (ta_accounts ta') (ia_key pa) pool' /\ solvent pool' /\
    pool_step cx (ta_accounts ta) i u pa va ra pool pool'.
Proof.
  intros Hnow Hde Hi Hacc Hne Hu Hok Hp Hs H.
  apply execute_result in H as (s & Hrun & _ & Hpass & _); [|exact (flash_safe cx data)|exact (flash_confined cx data)|done].
  eapply instruction_solvent in Hrun as (pool' & Hh & Hs' & Hst); try done; [|destruct i; naive_solver].
  exists pool'. split; [|done]. eapply holds_data; [symmetry; apply Hpass|exact Hh].
  unfold passed. rewrite Hacc. right. left.
Qed.

(** [InitializePool] can never succeed: it creates the pool account by a
    cross-program invocation with 14431 bytes, and the validator lets an account
    grow by at most 10240 bytes in one. *)
Theorem initialize_pool_always_fails {L : EnvLaws} mint s s' ad pa rest aa ap :
  cx_accounts cx = ad :: pa :: rest -> create_ready cx s (ia_key ad) (ia_key pa) aa ap ->
  cx_original_len cx (ia_key pa) = zlen (acc_data (get_acc (mem s) (ia_key pa))) -> is_pubkey (cx_program_id cx) ->
  process_initialize_pool cx mint s <> Ok (tt, s').
Proof.
  intros Hacc R Hlen Hpk H. unfold process_initialize_pool in H. rewrite Hacc in H. pinv. bool_to_prop. subst.
  hyp (invoke_signed _ (create_account_ix _ (ia_key pa) _ _ _) _ _ _ = Ok _) as Hc.
  eapply create_account_effect in Hc as [_ (? & _ & [_ _ _ _ (_ & Hempty & _) _ _ Hgrow])];
    [|exact R|apply minimum_balance_u64|unfold POOL_SPACE, MAX_PROVIDERS; ilia|done].
  rewrite Hlen, (mem_acc _ _ _ (ready_mem_to _ _ _ _ _ _ R)), Hempty in Hgrow.
  unfold POOL_SPACE, MAX_PROVIDERS, MAX_PERMITTED_DATA_INCREASE in Hgrow. change (zlen []) with 0 in Hgrow. lia.
Qed.

(** A repayment closes a loan only against the money: [Repay] succeeds only
    for the borrower the active receipt of this pool names, who signed, and only
    if the vault account given holds at least its balance before the loan plus
    the fee; the fee then counts as collected and as liquidity. *)
Theorem repay_requires_repayment s s' bo pa va ra rest pool :
  is_i64 (unix_timestamp (cx_clock cx)) ->
  cx_accounts cx = bo :: pa :: va :: ra :: rest -> holds (mem s) (ia_key pa) pool -> solvent pool ->
  process_repay cx s = Ok (tt, s') ->
  exists receipt pool', repay_guard cx (mem s) bo pa va ra receipt /\ holds (mem s') (ia_key pa) pool' /\
    pl_total_liquidity pool' = pl_total_liquidity pool + rc_fee receipt /\
    pl_total_fees_collected pool' = pl_total_fees_collected pool + rc_fee receipt.
Proof.
  intros Hnow Hacc Hp Hs H. eapply process_repay_solvent in H as (receipt & G & Hh & _); try done.
  by exists receipt, (pool_with (credit (rc_fee receipt) (pl_total_liquidity pool) <$> pl_providers pool)
    (pl_total_liquidity pool + rc_fee receipt) (pl_total_fees_collected pool + rc_fee receipt) (pl_total_loans_executed pool) pool).
Qed.
End FlashProperties.

Lemma pool_stays_solvent_witness : exists ta' pool',
  execute FlashDemo.withdraw_cx (process_instruction FlashDemo.withdraw_cx (borsh_ser (Withdraw 400000))) FlashDemo.ta = Ok ta' /\
  holds (ta_accounts ta') FlashDemo.pool_key pool' /\ pl_total_liquidity pool' = 1600000.
Proof.
  destruct (execute FlashDemo.withdraw_cx (process_instruction FlashDemo.withdraw_cx (borsh_ser (Withdraw 400000))) FlashDemo.ta)
    as [ta'|e] eqn:Hrun; [|pose proof FlashDemo.flash_runs as Hk; rewrite Hrun in Hk; discriminate Hk].
  exists ta'.
  destruct (pool_stays_solvent FlashDemo.withdraw_cx (borsh_ser (Withdraw 400000)) (Withdraw 400000) FlashDemo.ta ta'
    (mkIA 300 true true) (mkIA FlashDemo.pool_key false true) (mkIA FlashDemo.vault_key false true) (mkIA 300 true true)
    [mkIA 0 false false] FlashDemo.pool) as (pool' & Hh & _ & Hst);
    [evaluate|by vm_compute|intros ?; discriminate|reflexivity|apply (bool_decide_unpack _); by vm_compute|evaluate|
     exact FlashDemo.flash_lamports|by vm_compute|by vm_compute|exact Hrun|].
  exists pool'. destruct Hst as (_ & l' & _ & Hl). split; [exact eq_refl|]. split; [exact Hh|]. rewrite Hl. reflexivity.
Defined.

Lemma initialize_pool_always_fails_witness :
  process_initialize_pool FlashDemo.init_cx FlashDemo.MINT FlashDemo.init_state = Err InvalidRealloc /\
  process_initialize_pool FlashDemo.init_cx FlashDemo.MINT FlashDemo.init_state <> Ok (tt, FlashDemo.init_state).
Proof.
  split; [vm_compute; reflexivity|]. assert (Hp : is_pubkey FlashDemo.PROGRAM) by evaluate.
  exact (initialize_pool_always_fails FlashDemo.init_cx FlashDemo.MINT FlashDemo.init_state FlashDemo.init_state
    (mkIA 301 true true) (mkIA FlashDemo.pool_key false true) _ _ _ eq_refl FlashDemo.init_ready eq_refl Hp).
Defined.

Lemma repay_requires_repayment_witness : exists s' receipt pool',
  process_repay (FlashDemo.repay_cx FlashDemo.paid) (mkPState (ta_accounts FlashDemo.paid) FlashDemo.paid) = Ok (tt, s') /\
  holds (ta_accounts FlashDemo.paid) FlashDemo.receipt_key receipt /\
  holds (mem s') FlashDemo.pool_key pool' /\ pl_total_liquidity pool' = 2000000 + rc_fee receipt.
Proof.
  destruct (process_repay (FlashDemo.repay_cx FlashDemo.paid) (mkPState (ta_accounts FlashDemo.paid) FlashDemo.paid))
    as [[[] s']|e] eqn:Hrun; [|pose proof FlashDemo.flash_runs as Hk; rewrite Hrun, ?andb_false_r in Hk; discriminate Hk].
  exists s'.
  destruct (repay_requires_repayment (FlashDemo.repay_cx FlashDemo.paid)
    (mkPState (ta_accounts FlashDemo.paid) FlashDemo.paid) s' (mkIA 400 true true)
    (mkIA FlashDemo.pool_key false true) (mkIA FlashDemo.vault_key false true) (mkIA FlashDemo.receipt_key false true)
    [mkIA 0 false false] (with_totals 2000000 0 1 FlashDemo.pool)) as (receipt & pool' & [_ _ Hr _ _ _ _] & Hh & Hl & _);
    [evaluate|reflexivity|by vm_compute|by vm_compute|exact Hrun|].
  exists receipt, pool'. exact (conj eq_refl (conj Hr (conj Hh Hl))).
Defined.

(** Finding: no repayment is enforced.  An instruction that only borrows
    succeeds, with nothing else in the transaction: the 600000 lamports leave
    the vault and stay with the borrower's account. *)
Theorem borrow_is_never_forced_to_repay :
  (let? ta' := execute FlashDemo.borrow_cx (process_instruction FlashDemo.borrow_cx (borsh_ser (Borrow 600000))) FlashDemo.ta in
   let lamports k := acc_lamports (get_acc (ta_accounts ta') k) in
   Ok (lamports FlashDemo.vault_key, lamports 401))%result
  = Ok (2000000 - 600000, 50 + 600000).
Proof. vm_compute. reflexivity. Qed.

(** Finding: a deposit does not check the vault account.  The provider 300
    deposits a million lamports into its own account, is credited for it, and
    withdraws two millions from the vault, which holds nothing for the
    provider 302 any more. *)
Theorem deposit_to_self_drains_vault :
  (let? ta1 := execute (FlashDemo.deposit_cx 300) (process_instruction (FlashDemo.deposit_cx 300) (borsh_ser (Deposit 1000000))) FlashDemo.ta in
   let? ta2 := execute FlashDemo.withdraw_cx (process_instruction FlashDemo.withdraw_cx (borsh_ser (Withdraw 2000000))) ta1 in
   let lamports k := acc_lamports (get_acc (ta_accounts ta2) k) in
   Ok (lamports FlashDemo.vault_key, lamports 300,
       (fun p => claim <$> pl_providers p) <$> try_from_slice (acc_data (get_acc (ta_accounts ta2) FlashDemo.pool_key))))%result
  = Ok (0, 5000000 + 2000000, Some [0; 1000000]).
Proof. vm_compute. reflexivity. Qed.

(** A receipt can be redeemed again before the transaction ends,
    as [Repay] takes its lamports but leaves its data active.  After one loan,
    paid back with its fee of 540, three repayments make the pool count 1620
    lamports of fees and owe 1616 of them; the vault has received 540. *)
Theorem repay_replayed_inflates_fees :
  (let? ta1 := FlashDemo.repay FlashDemo.paid in
   let? ta2 := FlashDemo.repay ta1 in
   let? ta3 := FlashDemo.repay ta2 in
   Ok (acc_lamports (get_acc (ta_accounts ta3) FlashDemo.vault_key),
       pl_total_liquidity <$> try_from_slice (acc_data (get_acc (ta_accounts ta3) FlashDemo.pool_key)),
       (fun p => sum_of claim (pl_providers p)) <$> try_from_slice (acc_data (get_acc (ta_accounts ta3) FlashDemo.pool_key))))%result
  = Ok (2000000 + 540, Some (2000000 + 1620), Some (2000000 + 1616)).
Proof. vm_compute. reflexivity. Qed.
