(* ===== verification/FeeBurn.v ===== *)
(** * FeeBurn: distribution and burning of transaction fees

    Models [src/programs/fee-burn/src/lib.rs].  Log output is not modelled. *)

From Stdlib Require Import Strings.Byte Strings.String.
From S2P Require Import Prelude Borsh Accounts System Invoke Execution Cpi.
Open Scope Z_scope.

(** ** Constants and data *)

Definition FEE_STATE_SEED : list byte := list_byte_of_string "prism_fee_state".
Definition BPS_DENOMINATOR : Z := 10000.
Definition BURN_RATE_BPS : Z := 5000.
Definition VALIDATOR_SHARE_BPS : Z := 3000.
Definition TREASURY_SHARE_BPS : Z := 1000.
Definition STAKER_SHARE_BPS : Z := 1000.

Record FeeState := mkFeeState {
  fs_is_initialized : bool;
  fs_authority : Pubkey;
  fs_treasury : Pubkey;
  fs_staker_pool : Pubkey;
  fs_total_burned : Z;
  fs_total_validator_rewards : Z;
  fs_total_treasury_deposits : Z;
  fs_total_staker_rewards : Z;
  fs_total_events : Z;
  fs_burn_rate_bps : Z;
  fs_validator_share_bps : Z;
  fs_treasury_share_bps : Z;
  fs_staker_share_bps : Z;
  fs_last_event_slot : Z;
  fs_bump : Z;
}.
Definition FeeState_LEN : Z := 1 + 32 + 32 + 32 + 8 + 8 + 8 + 8 + 8 + 8 + 8 + 8 + 8 + 8 + 1.

Inductive FeeBurnInstruction :=
| Initialize
| DistributeFee (fee_amount : Z)
| UpdateParams (burn_rate_bps validator_share_bps treasury_share_bps staker_share_bps : Z)
| QueryStats.

Inductive FeeBurnError :=
| AlreadyInitialized | NotInitialized | Unauthorized | Overflow | InvalidFeeShares | ZeroFeeAmount.

Definition into (e : FeeBurnError) : InstructionError :=
  Custom match e with
  | AlreadyInitialized => 0 | NotInitialized => 1 | Unauthorized => 2 | Overflow => 3 | InvalidFeeShares => 4
  | ZeroFeeAmount => 5
  end.

#[global] Instance FeeState_well_typed : WellTyped FeeState := fun f =>
  is_pubkey (fs_authority f) /\ is_pubkey (fs_treasury f) /\ is_pubkey (fs_staker_pool f) /\
  is_u64 (fs_total_burned f) /\ is_u64 (fs_total_validator_rewards f) /\ is_u64 (fs_total_treasury_deposits f) /\
  is_u64 (fs_total_staker_rewards f) /\ is_u64 (fs_total_events f) /\ is_u64 (fs_burn_rate_bps f) /\
  is_u64 (fs_validator_share_bps f) /\ is_u64 (fs_treasury_share_bps f) /\ is_u64 (fs_staker_share_bps f) /\
  is_u64 (fs_last_event_slot f) /\ is_u8 (fs_bump f).
#[global] Instance FeeBurnInstruction_well_typed : WellTyped FeeBurnInstruction := fun i =>
  match i with
  | Initialize | QueryStats => True
  | DistributeFee fee_amount => is_u64 fee_amount
  | UpdateParams b v t k => is_u64 b /\ is_u64 v /\ is_u64 t /\ is_u64 k
  end.

(** Field updates. *)
Definition with_rates (b v t k : Z) (f : FeeState) : FeeState :=
  mkFeeState (fs_is_initialized f) (fs_authority f) (fs_treasury f) (fs_staker_pool f) (fs_total_burned f)
    (fs_total_validator_rewards f) (fs_total_treasury_deposits f) (fs_total_staker_rewards f) (fs_total_events f)
    b v t k (fs_last_event_slot f) (fs_bump f).
Definition with_event (burned validator treasury staker events slot : Z) (f : FeeState) : FeeState :=
  mkFeeState (fs_is_initialized f) (fs_authority f) (fs_treasury f) (fs_staker_pool f) burned validator treasury staker
    events (fs_burn_rate_bps f) (fs_validator_share_bps f) (fs_treasury_share_bps f) (fs_staker_share_bps f) slot (fs_bump f).

(** ** Arithmetic *)

Record FeeShares := mkShares {
  burn_amount : Z;
  validator_amount : Z;
  treasury_amount : Z;
  staker_amount : Z;
}.

Definition share_of (fee_amount bps : Z) : result InstructionError Z :=
  (let? product := ok_or (u64_checked_mul fee_amount bps) (into Overflow) in Ok (product / BPS_DENOMINATOR))%result.

(** The remainder of the rounding goes to the stakers. *)
Definition calculate_shares (state : FeeState) (fee_amount : Z) : result InstructionError FeeShares :=
  (let? burn := share_of fee_amount (fs_burn_rate_bps state) in
   let? validator := share_of fee_amount (fs_validator_share_bps state) in
   let? treasury := share_of fee_amount (fs_treasury_share_bps state) in
   let? rest := ok_or (u64_checked_sub fee_amount burn) (into Overflow) in
   let? rest := ok_or (u64_checked_sub rest validator) (into Overflow) in
   let? staker := ok_or (u64_checked_sub rest treasury) (into Overflow) in
   Ok (mkShares burn validator treasury staker))%result.

(** ** Instructions *)

Section FeeBurn.
Context {E : Env} {BS : Borsh FeeState} {BI : Borsh FeeBurnInstruction}.
Variable cx : Ctx.

Definition process_initialize : M unit :=
  (let! '(authority, it) := next_account_info (cx_accounts cx) in
   let! '(fee_state_account, it) := next_account_info it in
   let! '(treasury, it) := next_account_info it in
   let! '(staker_pool, it) := next_account_info it in
   let! '(system_program, it) := next_account_info it in
   fail_if (negb (ia_is_signer authority)) MissingRequiredSignature ;;
   let '(fee_state_pda, bump) := find_program_address [FEE_STATE_SEED] (cx_program_id cx) in
   fail_if (negb (fee_state_pda =? ia_key fee_state_account)) InvalidSeeds ;;
   let space := FeeState_LEN in
   let lamports := minimum_balance space in
   invoke_signed cx
     (create_account_ix (ia_key authority) (ia_key fee_state_account) lamports space (cx_program_id cx))
     [authority; fee_state_account; system_program]
     [[FEE_STATE_SEED; [byte_of_Z bump]]] ;;
   let state := mkFeeState true (ia_key authority) (ia_key treasury) (ia_key staker_pool) 0 0 0 0 0
                  BURN_RATE_BPS VALIDATOR_SHARE_BPS TREASURY_SHARE_BPS STAKER_SHARE_BPS 0 bump in
   serialize_into state fee_state_account)%prog.

Definition process_distribute_fee (fee_amount : Z) : M unit :=
  (let! '(fee_payer, it) := next_account_info (cx_accounts cx) in
   let! '(fee_state_account, it) := next_account_info it in
   let! '(validator_account, it) := next_account_info it in
   let! '(treasury_account, it) := next_account_info it in
   let! '(staker_pool_account, it) := next_account_info it in
   let! '(clock_sysvar, it) := next_account_info it in
   let! '(_system_program, it) := next_account_info it in
   fail_if (negb (ia_is_signer fee_payer)) MissingRequiredSignature ;;
   fail_if (fee_amount =? 0) (into ZeroFeeAmount) ;;
   let! state := load FeeState fee_state_account BorshIoError in
   fail_if (negb (fs_is_initialized state)) (into NotInitialized) ;;
   let! clock := clock_from_account_info cx clock_sysvar in
   let! shares := lift (calculate_shares state fee_amount) in
   debit fee_payer (burn_amount shares) ;;
   debit fee_payer (validator_amount shares) ;;
   credit validator_account (validator_amount shares) ;;
   debit fee_payer (treasury_amount shares) ;;
   credit treasury_account (treasury_amount shares) ;;
   debit fee_payer (staker_amount shares) ;;
   credit staker_pool_account (staker_amount shares) ;;
   let! burned := lift (ok_or (u64_checked_add (fs_total_burned state) (burn_amount shares)) (into Overflow)) in
   let! validator :=
     lift (ok_or (u64_checked_add (fs_total_validator_rewards state) (validator_amount shares)) (into Overflow)) in
   let! treasury :=
     lift (ok_or (u64_checked_add (fs_total_treasury_deposits state) (treasury_amount shares)) (into Overflow)) in
   let! staker :=
     lift (ok_or (u64_checked_add (fs_total_staker_rewards state) (staker_amount shares)) (into Overflow)) in
   let! events := lift (ok_or (u64_checked_add (fs_total_events state) 1) (into Overflow)) in
   serialize_into (with_event burned validator treasury staker events (clk_slot clock) state) fee_state_account)%prog.

Definition process_update_params (burn_rate_bps validator_share_bps treasury_share_bps staker_share_bps : Z) : M unit :=
  (let! '(authority, it) := next_account_info (cx_accounts cx) in
   let! '(fee_state_account, it) := next_account_info it in
   fail_if (negb (ia_is_signer authority)) MissingRequiredSignature ;;
   let! state := load FeeState fee_state_account BorshIoError in
   fail_if (negb (fs_is_initialized state)) (into NotInitialized) ;;
   fail_if (negb (fs_authority state =? ia_key authority)) (into Unauthorized) ;;
   let! total := lift (ok_or (u64_checked_add burn_rate_bps validator_share_bps) (into Overflow)) in
   let! total := lift (ok_or (u64_checked_add total treasury_share_bps) (into Overflow)) in
   let! total := lift (ok_or (u64_checked_add total staker_share_bps) (into Overflow)) in
   fail_if (negb (total =? BPS_DENOMINATOR)) (into InvalidFeeShares) ;;
   serialize_into (with_rates burn_rate_bps validator_share_bps treasury_share_bps staker_share_bps state)
     fee_state_account)%prog.

Definition process_query_stats : M unit :=
  (let! '(fee_state_account, it) := next_account_info (cx_accounts cx) in
   let! state := load FeeState fee_state_account BorshIoError in
   fail_if (negb (fs_is_initialized state)) (into NotInitialized))%prog.

Definition process_instruction (instruction_data : list byte) : M unit :=
  (let! instruction := lift (ok_or (try_from_slice instruction_data) InvalidInstructionData) in
   match instruction with
   | Initialize => process_initialize
   | DistributeFee fee_amount => process_distribute_fee fee_amount
   | UpdateParams b v t k => process_update_params b v t k
   | QueryStats => process_query_stats
   end)%prog.
End FeeBurn.
