(* ===== verification/FeeBurnTheorems.v ===== *)
(** * FeeBurnTheorems: the properties of the fee burn program

    The theorems about [src/programs/fee-burn/src/lib.rs], and the evaluation
    of the program on concrete accounts in the Borsh wire format. *)

From Stdlib Require Import Strings.Byte.
From S2P Require Import Prelude Borsh Accounts System Invoke Execution Concrete Cpi FeeBurn.
Open Scope Z_scope.

(** ** The account data on the wire *)

Definition codec_fee_state : codec FeeState :=
  codec_iso
    (fun '(i, (a, (t, (p, (b, (v, (d, (k, (n, (rb, (rv, (rt, (rk, (l, u)))))))))))))) =>
       mkFeeState i a t p b v d k n rb rv rt rk l u)
    (fun f => (fs_is_initialized f, (fs_authority f, (fs_treasury f, (fs_staker_pool f, (fs_total_burned f,
      (fs_total_validator_rewards f, (fs_total_treasury_deposits f, (fs_total_staker_rewards f, (fs_total_events f,
      (fs_burn_rate_bps f, (fs_validator_share_bps f, (fs_treasury_share_bps f, (fs_staker_share_bps f,
      (fs_last_event_slot f, fs_bump f)))))))))))))))
    (codec_pair codec_bool (codec_pair codec_pubkey (codec_pair codec_pubkey (codec_pair codec_pubkey
      (codec_pair (codec_uint 8) (codec_pair (codec_uint 8) (codec_pair (codec_uint 8) (codec_pair (codec_uint 8)
      (codec_pair (codec_uint 8) (codec_pair (codec_uint 8) (codec_pair (codec_uint 8) (codec_pair (codec_uint 8)
      (codec_pair (codec_uint 8) (codec_pair (codec_uint 8) (codec_uint 1))))))))))))))).

Definition fee_instruction_index (i : FeeBurnInstruction) : nat :=
  match i with Initialize => 0 | DistributeFee _ => 1 | UpdateParams _ _ _ _ => 2 | QueryStats => 3 end.

Definition codec_fee_instruction : codec FeeBurnInstruction :=
  codec_variants
    [mkVariant codec_unit (fun _ => Initialize) (fun _ => Some tt);
     mkVariant (codec_uint 8) DistributeFee (fun i => match i with DistributeFee a => Some a | _ => None end);
     mkVariant (codec_pair (codec_uint 8) (codec_pair (codec_uint 8) (codec_pair (codec_uint 8) (codec_uint 8))))
       (fun '(b, (v, (t, k))) => UpdateParams b v t k)
       (fun i => match i with UpdateParams b v t k => Some (b, (v, (t, k))) | _ => None end);
     mkVariant codec_unit (fun _ => QueryStats) (fun _ => Some tt)]
    fee_instruction_index.

Lemma codec_fee_state_laws : codec_laws codec_fee_state.
Proof. apply codec_iso_laws; [by intros []|by intros (?&?&?&?&?&?&?&?&?&?&?&?&?&?&?)|]. auto 20 with codec. Qed.
Lemma codec_fee_state_size : c_size codec_fee_state FeeState_LEN.
Proof. codec_size. Qed.
Lemma codec_fee_state_wf f : well_typed f <-> c_wf codec_fee_state f.
Proof. unfold well_typed, FeeState_well_typed. codec_wf. Qed.

Lemma codec_fee_instruction_laws : codec_laws codec_fee_instruction.
Proof.
  apply codec_variants_laws; [simpl; lia|repeat apply Forall_cons_2; simpl; auto 10 with codec| |].
  - intros [|[|[|[|]]]] v a [= <-]; simpl in a;
      repeat match goal with x : _ * _ |- _ => destruct x | x : unit |- _ => destruct x end; done.
  - intros [] v a [= <-]; simpl; by intros [= <-].
Qed.
Lemma codec_fee_instruction_wf i : well_typed i <-> c_wf codec_fee_instruction i.
Proof. destruct i; unfold well_typed; simpl; try done; codec_wf. Qed.

#[global] Instance fee_state_borsh : Borsh FeeState := borsh_of_codec codec_fee_state.
#[global] Instance fee_state_borsh_laws : BorshLaws FeeState := borsh_of_codec_laws _ codec_fee_state_laws codec_fee_state_wf.
#[global] Instance fee_state_borsh_sized : BorshSized FeeState FeeState_LEN :=
  borsh_of_codec_sized _ _ codec_fee_state_size codec_fee_state_wf.
#[global] Instance fee_instruction_borsh : Borsh FeeBurnInstruction := borsh_of_codec codec_fee_instruction.
#[global] Instance fee_instruction_borsh_laws : BorshLaws FeeBurnInstruction :=
  borsh_of_codec_laws _ codec_fee_instruction_laws codec_fee_instruction_wf.

(** ** The shares *)

(** The four rates are basis points of a whole. *)
Definition rates_ok (f : FeeState) : Prop :=
  0 <= fs_burn_rate_bps f /\ 0 <= fs_validator_share_bps f /\ 0 <= fs_treasury_share_bps f /\ 0 <= fs_staker_share_bps f /\
  fs_burn_rate_bps f + fs_validator_share_bps f + fs_treasury_share_bps f + fs_staker_share_bps f = BPS_DENOMINATOR.

Definition max_rate (f : FeeState) : Z :=
  Z.max (fs_burn_rate_bps f) (Z.max (fs_validator_share_bps f) (fs_treasury_share_bps f)).

Lemma share_of_spec fee bps :
  0 <= fee -> 0 <= bps ->
  share_of fee bps = if decide (fee * bps <= U64_MAX) then Ok (fee * bps / BPS_DENOMINATOR) else Err (into Overflow).
Proof.
  intros Hf Hb. unfold share_of. case_decide.
  - by rewrite checked_in by (unfold in_range; nia).
  - assert (checked 0 U64_MAX (fee * bps) = None) as ->; [|done]. apply checked_none. unfold in_range. lia.
Qed.

Lemma share_bounds fee bps : 0 <= fee -> 0 <= bps <= BPS_DENOMINATOR ->
  fee * bps - 9999 <= 10000 * (fee * bps / BPS_DENOMINATOR) <= fee * bps /\ 0 <= fee * bps / BPS_DENOMINATOR <= fee.
Proof.
  unfold BPS_DENOMINATOR. intros Hf Hb. pose proof (Z.div_mod (fee * bps) 10000). pose proof (Z.mod_pos_bound (fee * bps) 10000).
  pose proof (mul_div_le fee bps 10000). lia.
Qed.

Lemma calculate_shares_spec f fee :
  rates_ok f -> is_u64 fee -> fee * max_rate f <= U64_MAX ->
  exists sh, calculate_shares f fee = Ok sh /\
    burn_amount sh = fee * fs_burn_rate_bps f / BPS_DENOMINATOR /\
    validator_amount sh = fee * fs_validator_share_bps f / BPS_DENOMINATOR /\
    treasury_amount sh = fee * fs_treasury_share_bps f / BPS_DENOMINATOR /\
    burn_amount sh + validator_amount sh + treasury_amount sh + staker_amount sh = fee /\
    fee * fs_staker_share_bps f / BPS_DENOMINATOR <= staker_amount sh <= fee * fs_staker_share_bps f / BPS_DENOMINATOR + 3.
Proof.
  intros (Hb & Hv & Ht & Hk & Hsum) Hfee Hmax. assert (0 <= fee <= U64_MAX) by ilia. unfold max_rate in Hmax.
  unfold calculate_shares. rewrite !share_of_spec by lia. rewrite !decide_True by nia. cbn [rbind].
  unfold BPS_DENOMINATOR in Hsum.
  pose proof (share_bounds fee (fs_burn_rate_bps f)) as B1. pose proof (share_bounds fee (fs_validator_share_bps f)) as B2.
  pose proof (share_bounds fee (fs_treasury_share_bps f)) as B3. pose proof (share_bounds fee (fs_staker_share_bps f)) as B4.
  assert (Hdist : fee * fs_burn_rate_bps f + fee * fs_validator_share_bps f + fee * fs_treasury_share_bps f +
    fee * fs_staker_share_bps f = 10000 * fee) by nia.
  unfold BPS_DENOMINATOR in *.
  rewrite checked_in by (unfold in_range; lia). cbn [rbind ok_or]. rewrite checked_in by (unfold in_range; lia). cbn [rbind ok_or].
  rewrite checked_in by (unfold in_range; lia). cbn [rbind ok_or]. eexists. split; [done|]. simpl. lia.
Qed.

Section FeeProofs.
Context {E : Env} {BS : Borsh FeeState} {BI : Borsh FeeBurnInstruction}.
Context {LS : BorshLaws FeeState} {LI : BorshLaws FeeBurnInstruction} {ZS : BorshSized FeeState FeeState_LEN}.
Context (cx : Ctx).

Lemma fee_safe {X : ExecLaws} data : safe (process_instruction cx data).
Proof.
  unfold process_instruction. psafe; unfold process_initialize, process_distribute_fee, process_update_params, process_query_stats; psafe.
Qed.
Lemma fee_confined {X : ExecLaws} data : confined cx (process_instruction cx data).
Proof.
  unfold process_instruction. psafe; unfold process_initialize, process_distribute_fee, process_update_params, process_query_stats; psafe.
Qed.

(** What a distribution does to the memory. *)
Record distribute_run (fee : Z) (s s' : PState) (payer fsa va tr st : AccountInfo) (f : FeeState) (sh : FeeShares) : Prop := {
  dr_accounts : exists rest, cx_accounts cx = payer :: fsa :: va :: tr :: st :: rest;
  dr_signer : ia_is_signer payer = true;
  dr_state : holds (mem s) (ia_key fsa) f;
  dr_shares : calculate_shares f fee = Ok sh;
  dr_total : exists j, total_lamports (mem s') = total_lamports (mem s) - burn_amount sh + 2 ^ 64 * j;
  dr_frame k : k ∉ [ia_key payer; ia_key fsa; ia_key va; ia_key tr; ia_key st] -> get_acc (mem s') k = get_acc (mem s) k;
  dr_data k : k <> ia_key fsa -> acc_data (get_acc (mem s') k) = acc_data (get_acc (mem s) k);
  dr_totals : is_u64 (fs_total_burned f + burn_amount sh) /\ is_u64 (fs_total_validator_rewards f + validator_amount sh) /\
    is_u64 (fs_total_treasury_deposits f + treasury_amount sh) /\ is_u64 (fs_total_staker_rewards f + staker_amount sh) /\
    is_u64 (fs_total_events f + 1);
  dr_state' : is_u64 (clk_slot (cx_clock cx)) ->
    holds (mem s') (ia_key fsa)
      (with_event (fs_total_burned f + burn_amount sh) (fs_total_validator_rewards f + validator_amount sh)
        (fs_total_treasury_deposits f + treasury_amount sh) (fs_total_staker_rewards f + staker_amount sh)
        (fs_total_events f + 1) (clk_slot (cx_clock cx)) f);
}.

Lemma process_distribute_fee_run fee s s' :
  process_distribute_fee cx fee s = Ok (tt, s') ->
  exists payer fsa va tr st f sh, distribute_run fee s s' payer fsa va tr st f sh.
Proof.
  intros H. unfold process_distribute_fee in H.
  destruct (cx_accounts cx) as [|payer [|fsa [|va [|tr [|st rest]]]]] eqn:Hacc; try (by pinv). pinv. bool_to_prop.
  unfold clock_from_account_info in *. pinv. subst.
  read FeeState as f Hf. hyp (calculate_shares _ _ = Ok _) as Hsh. rename x11 into sh.
  repeat match goal with
  | X : debit _ _ _ = Ok _ |- _ => apply debit_ok in X
  | X : credit _ _ _ = Ok _ |- _ => apply credit_ok in X
  | X : move_effect _ _ s ?s1, Y : move_effect _ _ ?s1 _ |- _ => pose proof (move_trans _ _ _ _ _ _ _ X Y); clear X Y
  end.
  hyp (move_effect _ _ s _) as Hmove. destruct Hmove as [[j Htot] Hdata Hframe]. cbn [app] in Hframe.
  exists payer, fsa, va, tr, st, f, sh. split; try done.
  - by eexists.
  - exists j. cbn [mem]. rewrite stored_total. lia.
  - intros k Hk. rewrite !not_elem_of_cons in Hk. destruct Hk as (?&?&?&?&?&_).
    cbn [mem]. rewrite stored_ne by done. apply Hframe. rewrite !not_elem_of_cons. split_and!; [done..|apply not_elem_of_nil].
  - intros k Hk. cbn [mem]. by rewrite stored_ne.
  - intros Hslot. cbn [mem]. apply holds_stored; [rewrite Hdata; exact (holds_zlen _ _ _ Hf)|].
    apply holds_well_typed in Hf as (?&?&?&?&?&?&?&?&?&?&?&?&?&?). repeat split; simpl; done || ilia.
Qed.

(** ** Whole instructions *)

Lemma fee_instruction_run data i s s' :
  try_from_slice data = Some i -> process_instruction cx data s = Ok (tt, s') ->
  well_typed i /\
  match i with
  | Initialize => process_initialize cx
  | DistributeFee fee_amount => process_distribute_fee cx fee_amount
  | UpdateParams b v t k => process_update_params cx b v t k
  | QueryStats => process_query_stats cx
  end s = Ok (tt, s').
Proof.
  intros Hde H. apply try_from_slice_some in Hde as Hwt. destruct Hwt as [Hwt _].
  unfold process_instruction in H. rewrite Hde in H. by destruct i.
Qed.

(** What an instruction other than [Initialize] makes of a stored fee state. *)
Definition fee_step (f f' : FeeState) : Prop :=
  fs_authority f' = fs_authority f /\ fs_treasury f' = fs_treasury f /\ fs_staker_pool f' = fs_staker_pool f /\
  (signed cx (fs_authority f) \/
   fs_burn_rate_bps f' = fs_burn_rate_bps f /\ fs_validator_share_bps f' = fs_validator_share_bps f /\
   fs_treasury_share_bps f' = fs_treasury_share_bps f /\ fs_staker_share_bps f' = fs_staker_share_bps f) /\
  fs_total_burned f <= fs_total_burned f' /\ fs_total_validator_rewards f <= fs_total_validator_rewards f' /\
  fs_total_treasury_deposits f <= fs_total_treasury_deposits f' /\ fs_total_staker_rewards f <= fs_total_staker_rewards f'.

Lemma fee_step_refl f : fee_step f f.
Proof. unfold fee_step. split_and!; try done. by right. Qed.

Lemma shares_nonneg f fee sh :
  rates_ok f -> is_u64 fee -> calculate_shares f fee = Ok sh ->
  0 <= burn_amount sh /\ 0 <= validator_amount sh /\ 0 <= treasury_amount sh /\ 0 <= staker_amount sh.
Proof.
  intros (Hb & Hv & Ht & _) Hf H. unfold calculate_shares, share_of in H. rinv. simpl.
  assert (Hdiv : forall a, 0 <= a -> 0 <= a / BPS_DENOMINATOR) by (intros; by apply Z.div_pos).
  split_and!; try (apply Hdiv); ilia.
Qed.

Lemma fee_instruction_step data i s s' k f :
  try_from_slice data = Some i -> i <> Initialize -> is_u64 (clk_slot (cx_clock cx)) ->
  holds (mem s) k f -> rates_ok f -> process_instruction cx data s = Ok (tt, s') ->
  exists f', holds (mem s') k f' /\ rates_ok f' /\ fee_step f f'.
Proof.
  intros Hde Hi Hslot Hf Hr H. eapply fee_instruction_run in H as [Hwt H]; [|done].
  assert (Hkeep : acc_data (get_acc (mem s') k) = acc_data (get_acc (mem s) k) ->
    exists f', holds (mem s') k f' /\ rates_ok f' /\ fee_step f f').
  { intros Hd. exists f. split_and!; [by eapply holds_data|done|apply fee_step_refl]. }
  destruct i as [|fee|b v t q|]; [done| | |].
  - apply process_distribute_fee_run in H as (payer & fsa & va & tr & st & f1 & sh & [_ _ Hf1 Hsh _ _ Hd Htot Hf']).
    destruct (decide (k = ia_key fsa)) as [->|Hne]; [|by apply Hkeep, Hd].
    rewrite (holds_inj _ _ _ _ Hf1 Hf) in *. pose proof (shares_nonneg _ _ _ Hr Hwt Hsh).
    eexists. split; [by apply Hf'|]. split; [exact Hr|]. unfold fee_step. simpl. split_and!; try done; try lia.
  - unfold process_update_params in H.
    destruct (cx_accounts cx) as [|au [|fsa rest]] eqn:Hacc; try (by pinv). pinv. bool_to_prop. subst.
    destruct (decide (k = ia_key fsa)) as [->|Hne]; [|apply Hkeep; cbn [mem]; by rewrite stored_ne].
    reads f. eexists. split; [cbn [mem]; apply holds_stored; [exact (holds_zlen _ _ _ Hf)|]|].
    + apply holds_well_typed in Hf as (?&?&?&?&?&?&?&?&?&?&?&?&?&?). destruct Hwt as (?&?&?&?). unfold well_typed, FeeState_well_typed. simpl. by split_and!.
    + destruct Hwt as (?&?&?&?). split; [unfold rates_ok; simpl; ilia|]. unfold fee_step. simpl. split_and!; try done.
      left. exists au. rewrite Hacc. split_and!; [by left|done|done].
  - unfold process_query_stats in H. pinv. by apply Hkeep.
Qed.

(** Fee shares: the rates of a stored fee state stay a partition of the
    whole (10000 basis points), whatever instruction other than [Initialize]
    the validator runs, and change only if the authority signed; the authority
    and the recipients never change, and the cumulative totals never
    decrease. *)
Theorem fee_state_invariant {X : ExecLaws} data i ta ta' k f :
  try_from_slice data = Some i -> i <> Initialize -> is_u64 (clk_slot (cx_clock cx)) ->
  lamports_ok (ta_accounts ta) -> holds (ta_accounts ta) k f -> rates_ok f ->
  execute cx (process_instruction cx data) ta = Ok ta' ->
  exists f', holds (ta_accounts ta') k f' /\ rates_ok f' /\ fee_step f f'.
Proof.
  intros Hde Hi Hslot Hok Hf Hr H.
  apply execute_result in H as (s & Hrun & _ & Hp & Hn); [|exact (fee_safe data)|exact (fee_confined data)|done].
  eapply fee_instruction_step in Hrun as (f' & Hf' & Hr' & Hst); try done.
  destruct (decide (passed cx k)) as [Hk|Hk].
  - exists f'. split; [|done]. eapply holds_data; [symmetry; apply Hp, Hk|done].
  - exists f. split_and!; [|done|apply fee_step_refl]. eapply holds_acc; [by apply Hn|done].
Qed.

(** A distribution that burns can never go through: the handler burns by
    taking lamports off the payer without crediting anyone, and the validator
    rejects every instruction that does not conserve the lamports. *)
Theorem distribute_with_burn_always_fails {X : ExecLaws} data fee ta ta' payer fsa rest f :
  try_from_slice data = Some (DistributeFee fee) -> cx_accounts cx = payer :: fsa :: rest ->
  holds (ta_accounts ta) (ia_key fsa) f -> BPS_DENOMINATOR <= fee * fs_burn_rate_bps f ->
  lamports_ok (ta_accounts ta) -> ta_lamports_delta ta = 0 ->
  execute cx (process_instruction cx data) ta <> Ok ta'.
Proof.
  intros Hde Hacc Hf Hburn Hok Hd H.
  assert (exists s, process_instruction cx data (mkPState (ta_accounts ta) ta) = Ok (tt, s)) as [s Hrun].
  { unfold execute in H. pinv. by eexists. }
  pose proof Hrun as Hr. eapply fee_instruction_run in Hr as [Hwt Hr]; [|done].
  apply process_distribute_fee_run in Hr as (p1 & fsa1 & va & tr & st & f1 & sh & [(r1 & Hacc1) _ Hf1 Hsh [j Htot] Hfr _ _ _]).
  rewrite Hacc in Hacc1. simplify_eq. cbn [mem] in *. rewrite (holds_inj _ _ _ _ Hf1 Hf) in *.
  assert (Htotal : total_lamports (mem s) = total_lamports (ta_accounts ta)).
  { eapply execute_total; [exact (fee_safe data)|exact (fee_confined data)|done..|]. intros k Hk. apply Hfr.
    intros Hin. apply Hk. unfold passed. rewrite Hacc. set_solver. }
  assert (Hb : 1 <= burn_amount sh <= U64_MAX).
  { clear - Hsh Hburn. unfold calculate_shares, share_of in Hsh. rinv. simpl. unfold BPS_DENOMINATOR in *.
    pose proof (Z.div_le_lower_bound (fee * fs_burn_rate_bps f) 10000 1).
    pose proof (Z.div_le_upper_bound (fee * fs_burn_rate_bps f) 10000 U64_MAX). ilia. }
  unfold_ints. lia.
Qed.
End FeeProofs.

(** ** Evaluation *)

(** A fee state (account 200, authority 300), and a payer (400) that the program
    owns; [burning] has the initial rates, [plain] burns nothing. *)
Module FeeDemo.
Definition PROGRAM : Pubkey := 100.
Definition burning : FeeState :=
  mkFeeState true 300 500 600 0 0 0 0 0 BURN_RATE_BPS VALIDATOR_SHARE_BPS TREASURY_SHARE_BPS STAKER_SHARE_BPS 0 255.
Definition plain : FeeState := with_rates 0 6000 2000 2000 burning.
Definition ta (f : FeeState) : TransactionAccounts :=
  mkTA (store [(200, mkAccount 1000000 (borsh_ser f) PROGRAM false); (300, mkAccount 5000 [] 0 false);
               (400, mkAccount 5000 [] PROGRAM false); (401, mkAccount 50 [] 0 false); (500, mkAccount 50 [] 0 false);
               (600, mkAccount 50 [] 0 false); (6, mkAccount 1 [] 1 false); (0, mkAccount 1 [] 1 true)]) 0 0.
Definition cx : Ctx := demo_ctx PROGRAM
  [mkIA 400 true true; mkIA 200 false true; mkIA 401 false true; mkIA 500 false true; mkIA 600 false true;
   mkIA 6 false false; mkIA 0 false false] 10 (fun k => zlen (acc_data (get_acc (ta_accounts (ta plain)) k))).
Definition data : list byte := borsh_ser (DistributeFee 101).

Lemma fee_lamports f : lamports_ok (ta_accounts (ta f)).
Proof. apply lamports_ok_store. repeat apply Forall_cons_2; [evaluate..|apply Forall_nil_2]. Qed.

Lemma fee_runs : is_ok (execute cx (process_instruction cx data) (ta plain)) = true.
Proof. vm_compute. reflexivity. Qed.
End FeeDemo.

(** The split of a fee: with rates that partition the whole, every fee
    whose products fit 64 bits is split completely: burn, validator and
    treasury get their share rounded down, and the stakers the rest, which is
    their share plus at most 3 lamports. *)
Theorem fee_shares_exact f fee :
  rates_ok f -> is_u64 fee -> fee * max_rate f <= U64_MAX ->
  exists sh, calculate_shares f fee = Ok sh /\
    burn_amount sh = fee * fs_burn_rate_bps f / BPS_DENOMINATOR /\
    validator_amount sh = fee * fs_validator_share_bps f / BPS_DENOMINATOR /\
    treasury_amount sh = fee * fs_treasury_share_bps f / BPS_DENOMINATOR /\
    burn_amount sh + validator_amount sh + treasury_amount sh + staker_amount sh = fee /\
    fee * fs_staker_share_bps f / BPS_DENOMINATOR <= staker_amount sh <= fee * fs_staker_share_bps f / BPS_DENOMINATOR + 3.
Proof. apply calculate_shares_spec. Qed.

Lemma fee_shares_exact_witness : exists sh, calculate_shares FeeDemo.burning 101 = Ok sh /\
  burn_amount sh + validator_amount sh + treasury_amount sh + staker_amount sh = 101.
Proof.
  destruct (fee_shares_exact FeeDemo.burning 101) as (sh & H & _ & _ & _ & Hs & _); [evaluate|ilia|evaluate|].
  exists sh. exact (conj H Hs).
Defined.

Lemma fee_state_invariant_witness : exists ta' f',
  execute FeeDemo.cx (process_instruction FeeDemo.cx FeeDemo.data) (FeeDemo.ta FeeDemo.plain) = Ok ta' /\
  holds (ta_accounts ta') 200 f' /\ rates_ok f'.
Proof.
  destruct (execute FeeDemo.cx (process_instruction FeeDemo.cx FeeDemo.data) (FeeDemo.ta FeeDemo.plain)) as [ta'|e] eqn:Hrun;
    [|pose proof FeeDemo.fee_runs as Hk; rewrite Hrun in Hk; discriminate Hk].
  exists ta'.
  destruct (fee_state_invariant FeeDemo.cx FeeDemo.data (DistributeFee 101) (FeeDemo.ta FeeDemo.plain) ta' 200 FeeDemo.plain)
    as (f' & Hf & Hr & _); [by vm_compute|discriminate|evaluate|exact (FeeDemo.fee_lamports _)|by vm_compute|evaluate|exact Hrun|].
  exists f'. exact (conj eq_refl (conj Hf Hr)).
Defined.

Lemma distribute_with_burn_always_fails_witness :
  execute FeeDemo.cx (process_instruction FeeDemo.cx FeeDemo.data) (FeeDemo.ta FeeDemo.burning) = Err UnbalancedInstruction /\
  execute FeeDemo.cx (process_instruction FeeDemo.cx FeeDemo.data) (FeeDemo.ta FeeDemo.burning) <> Ok (FeeDemo.ta FeeDemo.burning).
Proof.
  split; [vm_compute; reflexivity|].
  assert (Hd : try_from_slice FeeDemo.data = Some (DistributeFee 101)) by (by vm_compute).
  assert (Hf : holds (ta_accounts (FeeDemo.ta FeeDemo.burning)) 200 FeeDemo.burning) by (by vm_compute).
  assert (Hb : BPS_DENOMINATOR <= 101 * fs_burn_rate_bps FeeDemo.burning) by (by vm_compute).
  exact (distribute_with_burn_always_fails FeeDemo.cx FeeDemo.data 101 (FeeDemo.ta FeeDemo.burning) _ (mkIA 400 true true)
    (mkIA 200 false true) _ FeeDemo.burning Hd eq_refl Hf Hb (FeeDemo.fee_lamports _) eq_refl).
Defined.
