(* ===== verification/Staking.v ===== *)
(** * Staking: the staking program

    Models [src/programs/staking/src/lib.rs]: the pool with its reward
    accumulator, the stake accounts, and the ten instructions.  Log output is
    not modelled. *)

From Stdlib Require Import Strings.Byte Strings.String.
From S2P Require Import Prelude Borsh Accounts System Invoke Execution Cpi.
Open Scope Z_scope.

(** ** Constants and data *)

Definition POOL_SEED : list byte := list_byte_of_string "prism_staking_pool".
Definition STAKE_SEED : list byte := list_byte_of_string "prism_stake".
Definition ST_PRISM_AUTHORITY_SEED : list byte := list_byte_of_string "st_prism_authority".
Definition BPS_DENOMINATOR : Z := 10000.
Definition INSURANCE_BPS : Z := 200.
Definition SECONDS_PER_DAY : Z := 86400.
Definition SLOTS_PER_YEAR : Z := 63072000.
(** The scale of the reward accumulator. *)
Definition SCALE : Z := 1000000000000.

Inductive LockTier := Flexible | Locked30 | Locked90 | Locked180 | Locked365.
#[global] Instance LockTier_eq_dec : EqDecision LockTier.
Proof. solve_decision. Defined.

Definition reward_multiplier_bps (t : LockTier) : Z :=
  match t with
  | Flexible => 10000 | Locked30 => 15000 | Locked90 => 20000 | Locked180 => 30000 | Locked365 => 50000
  end.

Definition lock_duration_seconds (t : LockTier) : Z :=
  match t with
  | Flexible => 0
  | Locked30 => 30 * SECONDS_PER_DAY
  | Locked90 => 90 * SECONDS_PER_DAY
  | Locked180 => 180 * SECONDS_PER_DAY
  | Locked365 => 365 * SECONDS_PER_DAY
  end.

Record StakingPool := mkStakingPool {
  sp_is_initialized : bool;
  sp_authority : Pubkey;
  sp_st_prism_mint : Pubkey;
  sp_total_staked : Z;
  sp_accumulated_reward_per_token : Z;
  sp_total_slashed : Z;
  sp_insurance_balance : Z;
  sp_base_reward_rate_bps : Z;
  sp_last_update_slot : Z;
  sp_bump : Z;
}.
Definition StakingPool_LEN : Z := 1 + 32 + 32 + 8 + 16 + 8 + 8 + 8 + 8 + 1.

Record StakeAccount := mkStake {
  sk_is_initialized : bool;
  sk_owner : Pubkey;
  sk_delegated_validator : Pubkey;
  sk_staked_amount : Z;
  sk_reward_debt : Z;
  sk_pending_rewards : Z;
  sk_lock_tier : LockTier;
  sk_stake_timestamp : Z;
  sk_unlock_timestamp : Z;
  sk_auto_compound : bool;
  sk_liquid_staking : bool;
  sk_st_prism_minted : Z;
  sk_validator_commission_bps : Z;
  sk_bump : Z;
}.
Definition StakeAccount_LEN : Z := 1 + 32 + 32 + 8 + 16 + 8 + 1 + 8 + 8 + 1 + 1 + 8 + 8 + 1.

Inductive StakingInstruction :=
| InitializePool (base_reward_rate_bps : Z)
| Stake (amount : Z) (lock_tier : LockTier) (auto_compound liquid_staking : bool)
| Unstake (amount : Z)
| ClaimRewards
| Delegate (validator : Pubkey) (commission_bps : Z)
| ToggleAutoCompound
| MintStPrism
| BurnStPrism (amount : Z)
| Slash (amount : Z)
| UpdateRewards.

Inductive StakingError :=
| AlreadyInitialized | NotInitialized | StakeAlreadyInitialized | StakeNotInitialized | LockNotExpired | InsufficientStake
| Unauthorized | Overflow | InvalidLockTier | LiquidStakingNotEnabled | NoRewards | InvalidOwner | InsufficientStPrism.

Definition into (e : StakingError) : InstructionError :=
  Custom match e with
  | AlreadyInitialized => 0 | NotInitialized => 1 | StakeAlreadyInitialized => 2 | StakeNotInitialized => 3
  | LockNotExpired => 4 | InsufficientStake => 5 | Unauthorized => 6 | Overflow => 7 | InvalidLockTier => 8
  | LiquidStakingNotEnabled => 9 | NoRewards => 10 | InvalidOwner => 11 | InsufficientStPrism => 12
  end.

#[global] Instance StakingPool_well_typed : WellTyped StakingPool := fun p =>
  is_pubkey (sp_authority p) /\ is_pubkey (sp_st_prism_mint p) /\ is_u64 (sp_total_staked p) /\
  is_u128 (sp_accumulated_reward_per_token p) /\ is_u64 (sp_total_slashed p) /\ is_u64 (sp_insurance_balance p) /\
  is_u64 (sp_base_reward_rate_bps p) /\ is_u64 (sp_last_update_slot p) /\ is_u8 (sp_bump p).
#[global] Instance StakeAccount_well_typed : WellTyped StakeAccount := fun k =>
  is_pubkey (sk_owner k) /\ is_pubkey (sk_delegated_validator k) /\ is_u64 (sk_staked_amount k) /\
  is_u128 (sk_reward_debt k) /\ is_u64 (sk_pending_rewards k) /\ is_i64 (sk_stake_timestamp k) /\
  is_i64 (sk_unlock_timestamp k) /\ is_u64 (sk_st_prism_minted k) /\ is_u64 (sk_validator_commission_bps k) /\
  is_u8 (sk_bump k).
#[global] Instance StakingInstruction_well_typed : WellTyped StakingInstruction := fun i =>
  match i with
  | InitializePool x | Unstake x | BurnStPrism x | Slash x => is_u64 x
  | Stake amount _ _ _ => is_u64 amount
  | Delegate validator commission_bps => is_pubkey validator /\ is_u64 commission_bps
  | ClaimRewards | ToggleAutoCompound | MintStPrism | UpdateRewards => True
  end.

(** Field updates. *)
Definition pool_with_staked (x : Z) (p : StakingPool) : StakingPool :=
  mkStakingPool (sp_is_initialized p) (sp_authority p) (sp_st_prism_mint p) x (sp_accumulated_reward_per_token p)
    (sp_total_slashed p) (sp_insurance_balance p) (sp_base_reward_rate_bps p) (sp_last_update_slot p) (sp_bump p).
Definition pool_with_insurance (x : Z) (p : StakingPool) : StakingPool :=
  mkStakingPool (sp_is_initialized p) (sp_authority p) (sp_st_prism_mint p) (sp_total_staked p)
    (sp_accumulated_reward_per_token p) (sp_total_slashed p) x (sp_base_reward_rate_bps p) (sp_last_update_slot p) (sp_bump p).
Definition pool_with_slashed (x : Z) (p : StakingPool) : StakingPool :=
  mkStakingPool (sp_is_initialized p) (sp_authority p) (sp_st_prism_mint p) (sp_total_staked p)
    (sp_accumulated_reward_per_token p) x (sp_insurance_balance p) (sp_base_reward_rate_bps p) (sp_last_update_slot p) (sp_bump p).
Definition pool_with_rewards (acc slot : Z) (p : StakingPool) : StakingPool :=
  mkStakingPool (sp_is_initialized p) (sp_authority p) (sp_st_prism_mint p) (sp_total_staked p) acc
    (sp_total_slashed p) (sp_insurance_balance p) (sp_base_reward_rate_bps p) slot (sp_bump p).
Definition with_position (staked debt pending : Z) (k : StakeAccount) : StakeAccount :=
  mkStake (sk_is_initialized k) (sk_owner k) (sk_delegated_validator k) staked debt pending (sk_lock_tier k)
    (sk_stake_timestamp k) (sk_unlock_timestamp k) (sk_auto_compound k) (sk_liquid_staking k) (sk_st_prism_minted k)
    (sk_validator_commission_bps k) (sk_bump k).
Definition with_delegation (validator commission : Z) (k : StakeAccount) : StakeAccount :=
  mkStake (sk_is_initialized k) (sk_owner k) validator (sk_staked_amount k) (sk_reward_debt k) (sk_pending_rewards k)
    (sk_lock_tier k) (sk_stake_timestamp k) (sk_unlock_timestamp k) (sk_auto_compound k) (sk_liquid_staking k)
    (sk_st_prism_minted k) commission (sk_bump k).
Definition with_auto_compound (b : bool) (k : StakeAccount) : StakeAccount :=
  mkStake (sk_is_initialized k) (sk_owner k) (sk_delegated_validator k) (sk_staked_amount k) (sk_reward_debt k)
    (sk_pending_rewards k) (sk_lock_tier k) (sk_stake_timestamp k) (sk_unlock_timestamp k) b (sk_liquid_staking k)
    (sk_st_prism_minted k) (sk_validator_commission_bps k) (sk_bump k).
Definition with_minted (x : Z) (k : StakeAccount) : StakeAccount :=
  mkStake (sk_is_initialized k) (sk_owner k) (sk_delegated_validator k) (sk_staked_amount k) (sk_reward_debt k)
    (sk_pending_rewards k) (sk_lock_tier k) (sk_stake_timestamp k) (sk_unlock_timestamp k) (sk_auto_compound k)
    (sk_liquid_staking k) x (sk_validator_commission_bps k) (sk_bump k).

(** ** Arithmetic *)

Definition ovf {A} (o : option A) : result InstructionError A := ok_or o (into Overflow).

Definition calculate_pending_rewards (stake : StakeAccount) (pool : StakingPool) : result InstructionError Z :=
  if sk_staked_amount stake =? 0 then Ok 0 else
  (let? accumulated := ovf (u128_checked_mul (sk_staked_amount stake) (sp_accumulated_reward_per_token pool)) in
   let? diff := ovf (u128_checked_sub accumulated (sk_reward_debt stake)) in
   let raw_pending := diff / SCALE in
   let? product := ovf (u128_checked_mul raw_pending (reward_multiplier_bps (sk_lock_tier stake))) in
   let multiplied := product / BPS_DENOMINATOR in
   let? after_commission :=
     (if negb (sk_delegated_validator stake =? 0) && (0 <? sk_validator_commission_bps stake) then
        let? product := ovf (u128_checked_mul multiplied (sk_validator_commission_bps stake)) in
        ovf (u128_checked_sub multiplied (product / BPS_DENOMINATOR))
      else Ok multiplied) in
   Ok (as_u64 after_commission))%result.

(** The accumulator after the elapsed slots. *)
Definition accrue (pool : StakingPool) (slots_elapsed : Z) : result InstructionError Z :=
  (let? product := ovf (u128_checked_mul (sp_total_staked pool) (sp_base_reward_rate_bps pool)) in
   let? product := ovf (u128_checked_mul product slots_elapsed) in
   let total_reward := product / BPS_DENOMINATOR / SLOTS_PER_YEAR in
   if 0 <? total_reward then
     let? scaled := ovf (u128_checked_mul total_reward SCALE) in
     let reward_per_token := scaled / sp_total_staked pool in
     ovf (u128_checked_add (sp_accumulated_reward_per_token pool) reward_per_token)
   else Ok (sp_accumulated_reward_per_token pool))%result.

(** ** Instructions of the SPL token program *)

Definition spl_token_mint_to (token_program_id mint destination authority : Pubkey) (amount : Z) : Instruction :=
  mkInstruction token_program_id [mkIA mint false true; mkIA destination false true; mkIA authority true false]
    (byte_of_Z 7 :: le_bytes 8 amount).
Definition spl_token_burn (token_program_id account mint authority : Pubkey) (amount : Z) : Instruction :=
  mkInstruction token_program_id [mkIA account false true; mkIA mint false true; mkIA authority true false]
    (byte_of_Z 8 :: le_bytes 8 amount).

(** ** Instructions *)

Section Staking.
Context {E : Env} {BP : Borsh StakingPool} {BK : Borsh StakeAccount} {BI : Borsh StakingInstruction}.
Variable cx : Ctx.

Definition process_initialize_pool (base_reward_rate_bps : Z) : M unit :=
  (let! '(authority, it) := next_account_info (cx_accounts cx) in
   let! '(pool_account, it) := next_account_info it in
   let! '(st_prism_mint, it) := next_account_info it in
   let! '(system_program, it) := next_account_info it in
   fail_if (negb (ia_is_signer authority)) MissingRequiredSignature ;;
   let '(pool_pda, bump) := find_program_address [POOL_SEED] (cx_program_id cx) in
   fail_if (negb (pool_pda =? ia_key pool_account)) InvalidSeeds ;;
   let space := StakingPool_LEN in
   let lamports := minimum_balance space in
   invoke_signed cx
     (create_account_ix (ia_key authority) (ia_key pool_account) lamports space (cx_program_id cx))
     [authority; pool_account; system_program]
     [[POOL_SEED; [byte_of_Z bump]]] ;;
   serialize_into (mkStakingPool true (ia_key authority) (ia_key st_prism_mint) 0 0 0 0 base_reward_rate_bps 0 bump)
     pool_account)%prog.

(** The new position of a first stake. *)
Definition create_stake (staker stake_account system_program : AccountInfo) (stake_bump amount : Z) (lock_tier : LockTier)
    (auto_compound liquid_staking : bool) (now : Z) : M unit :=
  (let space := StakeAccount_LEN in
   let lamports := minimum_balance space in
   invoke_signed cx
     (create_account_ix (ia_key staker) (ia_key stake_account) lamports space (cx_program_id cx))
     [staker; stake_account; system_program]
     [[STAKE_SEED; key_bytes (ia_key staker); [byte_of_Z stake_bump]]] ;;
   let! unlock_ts :=
     lift (if 0 <? lock_duration_seconds lock_tier then ovf (i64_checked_add now (lock_duration_seconds lock_tier)) else Ok 0) in
   serialize_into
     (mkStake true (ia_key staker) 0 amount 0 0 lock_tier now unlock_ts auto_compound liquid_staking 0 0 stake_bump)
     stake_account)%prog.

(** More stake on an existing position: pending rewards are settled first. *)
Definition add_stake (staker stake_account : AccountInfo) (pool : StakingPool) (amount : Z) : M unit :=
  (let! stake := load StakeAccount stake_account BorshIoError in
   fail_if (negb (sk_is_initialized stake)) (into StakeNotInitialized) ;;
   fail_if (negb (sk_owner stake =? ia_key staker)) (into Unauthorized) ;;
   let! pending := lift (calculate_pending_rewards stake pool) in
   let! pending_rewards := lift (ovf (u64_checked_add (sk_pending_rewards stake) pending)) in
   let! staked_amount := lift (ovf (u64_checked_add (sk_staked_amount stake) amount)) in
   let! reward_debt := lift (ovf (u128_checked_mul staked_amount (sp_accumulated_reward_per_token pool))) in
   serialize_into (with_position staked_amount reward_debt pending_rewards stake) stake_account)%prog.

Definition process_stake (amount : Z) (lock_tier : LockTier) (auto_compound liquid_staking : bool) : M unit :=
  (let! '(staker, it) := next_account_info (cx_accounts cx) in
   let! '(stake_account, it) := next_account_info it in
   let! '(pool_account, it) := next_account_info it in
   let! '(clock_sysvar, it) := next_account_info it in
   let! '(system_program, it) := next_account_info it in
   fail_if (negb (ia_is_signer staker)) MissingRequiredSignature ;;
   let! clock := clock_from_account_info cx clock_sysvar in
   let now := unix_timestamp clock in
   let '(stake_pda, stake_bump) := find_program_address [STAKE_SEED; key_bytes (ia_key staker)] (cx_program_id cx) in
   fail_if (negb (stake_pda =? ia_key stake_account)) InvalidSeeds ;;
   let! pool := load StakingPool pool_account BorshIoError in
   fail_if (negb (sp_is_initialized pool)) (into NotInitialized) ;;
   let! sa := account stake_account in
   (if zlen (acc_data sa) =? 0 then
      create_stake staker stake_account system_program stake_bump amount lock_tier auto_compound liquid_staking now
    else add_stake staker stake_account pool amount) ;;
   invoke cx (transfer_ix (ia_key staker) (ia_key pool_account) amount) [staker; pool_account; system_program] ;;
   let! total_staked := lift (ovf (u64_checked_add (sp_total_staked pool) amount)) in
   serialize_into (pool_with_staked total_staked pool) pool_account)%prog.

Definition process_unstake (amount : Z) : M unit :=
  (let! '(staker, it) := next_account_info (cx_accounts cx) in
   let! '(stake_account, it) := next_account_info it in
   let! '(pool_account, it) := next_account_info it in
   let! '(clock_sysvar, it) := next_account_info it in
   let! '(_system_program, it) := next_account_info it in
   fail_if (negb (ia_is_signer staker)) MissingRequiredSignature ;;
   let! clock := clock_from_account_info cx clock_sysvar in
   let now := unix_timestamp clock in
   let! stake := load StakeAccount stake_account BorshIoError in
   fail_if (negb (sk_is_initialized stake)) (into StakeNotInitialized) ;;
   fail_if (negb (sk_owner stake =? ia_key staker)) (into Unauthorized) ;;
   fail_if ((0 <? sk_unlock_timestamp stake) && (now <? sk_unlock_timestamp stake)) (into LockNotExpired) ;;
   fail_if (sk_staked_amount stake <? amount) (into InsufficientStake) ;;
   let! pool := load StakingPool pool_account BorshIoError in
   let! pending := lift (calculate_pending_rewards stake pool) in
   let! pending_rewards := lift (ovf (u64_checked_add (sk_pending_rewards stake) pending)) in
   let! staked_amount := lift (ovf (u64_checked_sub (sk_staked_amount stake) amount)) in
   let! reward_debt := lift (ovf (u128_checked_mul staked_amount (sp_accumulated_reward_per_token pool))) in
   serialize_into (with_position staked_amount reward_debt pending_rewards stake) stake_account ;;
   debit pool_account amount ;;
   credit staker amount ;;
   let! total_staked := lift (ovf (u64_checked_sub (sp_total_staked pool) amount)) in
   serialize_into (pool_with_staked total_staked pool) pool_account)%prog.

(** The shares of a claim: the insurance cut and the rest. *)
Definition insurance_split (total_claimable : Z) : result InstructionError (Z * Z) :=
  (let? product := ovf (u64_checked_mul total_claimable INSURANCE_BPS) in
   let insurance_cut := product / BPS_DENOMINATOR in
   let? net_reward := ovf (u64_checked_sub total_claimable insurance_cut) in
   Ok (insurance_cut, net_reward))%result.

Definition process_claim_rewards : M unit :=
  (let! '(staker, it) := next_account_info (cx_accounts cx) in
   let! '(stake_account, it) := next_account_info it in
   let! '(pool_account, it) := next_account_info it in
   let! '(_clock_sysvar, it) := next_account_info it in
   let! '(_system_program, it) := next_account_info it in
   fail_if (negb (ia_is_signer staker)) MissingRequiredSignature ;;
   let! stake := load StakeAccount stake_account BorshIoError in
   fail_if (negb (sk_is_initialized stake)) (into StakeNotInitialized) ;;
   fail_if (negb (sk_owner stake =? ia_key staker)) (into Unauthorized) ;;
   let! pool := load StakingPool pool_account BorshIoError in
   let! pending := lift (calculate_pending_rewards stake pool) in
   let! total_claimable := lift (ovf (u64_checked_add (sk_pending_rewards stake) pending)) in
   fail_if (total_claimable =? 0) (into NoRewards) ;;
   let! '(insurance_cut, net_reward) := lift (insurance_split total_claimable) in
   let! insurance_balance := lift (ovf (u64_checked_add (sp_insurance_balance pool) insurance_cut)) in
   let pool := pool_with_insurance insurance_balance pool in
   let! '(staked_amount, total_staked) :=
     (if sk_auto_compound stake then
        let! staked_amount := lift (ovf (u64_checked_add (sk_staked_amount stake) net_reward)) in
        let! total_staked := lift (ovf (u64_checked_add (sp_total_staked pool) net_reward)) in
        pret (staked_amount, total_staked)
      else
        debit pool_account net_reward ;;
        credit staker net_reward ;;
        pret (sk_staked_amount stake, sp_total_staked pool)) in
   let pool := pool_with_staked total_staked pool in
   let! reward_debt := lift (ovf (u128_checked_mul staked_amount (sp_accumulated_reward_per_token pool))) in
   serialize_into (with_position staked_amount reward_debt 0 stake) stake_account ;;
   serialize_into pool pool_account)%prog.

Definition process_delegate (validator : Pubkey) (commission_bps : Z) : M unit :=
  (let! '(staker, it) := next_account_info (cx_accounts cx) in
   let! '(stake_account, it) := next_account_info it in
   let! '(_validator_account, it) := next_account_info it in
   fail_if (negb (ia_is_signer staker)) MissingRequiredSignature ;;
   let! stake := load StakeAccount stake_account BorshIoError in
   fail_if (negb (sk_is_initialized stake)) (into StakeNotInitialized) ;;
   fail_if (negb (sk_owner stake =? ia_key staker)) (into Unauthorized) ;;
   serialize_into (with_delegation validator commission_bps stake) stake_account)%prog.

Definition process_toggle_auto_compound : M unit :=
  (let! '(staker, it) := next_account_info (cx_accounts cx) in
   let! '(stake_account, it) := next_account_info it in
   fail_if (negb (ia_is_signer staker)) MissingRequiredSignature ;;
   let! stake := load StakeAccount stake_account BorshIoError in
   fail_if (negb (sk_is_initialized stake)) (into StakeNotInitialized) ;;
   fail_if (negb (sk_owner stake =? ia_key staker)) (into Unauthorized) ;;
   serialize_into (with_auto_compound (negb (sk_auto_compound stake)) stake) stake_account)%prog.

Definition process_mint_st_prism : M unit :=
  (let! '(staker, it) := next_account_info (cx_accounts cx) in
   let! '(stake_account, it) := next_account_info it in
   let! '(st_prism_mint, it) := next_account_info it in
   let! '(staker_token_account, it) := next_account_info it in
   let! '(mint_authority, it) := next_account_info it in
   let! '(token_program, it) := next_account_info it in
   fail_if (negb (ia_is_signer staker)) MissingRequiredSignature ;;
   let! stake := load StakeAccount stake_account BorshIoError in
   fail_if (negb (sk_is_initialized stake)) (into StakeNotInitialized) ;;
   fail_if (negb (sk_owner stake =? ia_key staker)) (into Unauthorized) ;;
   fail_if (negb (sk_liquid_staking stake)) (into LiquidStakingNotEnabled) ;;
   let! mintable := lift (ovf (u64_checked_sub (sk_staked_amount stake) (sk_st_prism_minted stake))) in
   if mintable =? 0 then pret tt else
   let '(authority_pda, authority_bump) := find_program_address [ST_PRISM_AUTHORITY_SEED] (cx_program_id cx) in
   fail_if (negb (authority_pda =? ia_key mint_authority)) InvalidSeeds ;;
   invoke_signed cx
     (spl_token_mint_to (ia_key token_program) (ia_key st_prism_mint) (ia_key staker_token_account) authority_pda mintable)
     [st_prism_mint; staker_token_account; mint_authority; token_program]
     [[ST_PRISM_AUTHORITY_SEED; [byte_of_Z authority_bump]]] ;;
   let! minted := lift (ovf (u64_checked_add (sk_st_prism_minted stake) mintable)) in
   serialize_into (with_minted minted stake) stake_account)%prog.

Definition process_burn_st_prism (amount : Z) : M unit :=
  (let! '(staker, it) := next_account_info (cx_accounts cx) in
   let! '(stake_account, it) := next_account_info it in
   let! '(st_prism_mint, it) := next_account_info it in
   let! '(staker_token_account, it) := next_account_info it in
   let! '(token_program, it) := next_account_info it in
   fail_if (negb (ia_is_signer staker)) MissingRequiredSignature ;;
   let! stake := load StakeAccount stake_account BorshIoError in
   fail_if (negb (sk_is_initialized stake)) (into StakeNotInitialized) ;;
   fail_if (negb (sk_owner stake =? ia_key staker)) (into Unauthorized) ;;
   fail_if (sk_st_prism_minted stake <? amount) (into InsufficientStPrism) ;;
   invoke cx
     (spl_token_burn (ia_key token_program) (ia_key staker_token_account) (ia_key st_prism_mint) (ia_key staker) amount)
     [staker_token_account; st_prism_mint; staker; token_program] ;;
   let! minted := lift (ovf (u64_checked_sub (sk_st_prism_minted stake) amount)) in
   serialize_into (with_minted minted stake) stake_account)%prog.

Definition process_slash (amount : Z) : M unit :=
  (let! '(authority, it) := next_account_info (cx_accounts cx) in
   let! '(stake_account, it) := next_account_info it in
   let! '(pool_account, it) := next_account_info it in
   fail_if (negb (ia_is_signer authority)) MissingRequiredSignature ;;
   let! pool := load StakingPool pool_account BorshIoError in
   fail_if (negb (sp_authority pool =? ia_key authority)) (into Unauthorized) ;;
   let! stake := load StakeAccount stake_account BorshIoError in
   fail_if (negb (sk_is_initialized stake)) (into StakeNotInitialized) ;;
   let slash_amount := Z.min amount (sk_staked_amount stake) in
   let insurance_cover := Z.min slash_amount (sp_insurance_balance pool) in
   let! actual_slash := lift (ovf (u64_checked_sub slash_amount insurance_cover)) in
   let! insurance_balance := lift (ovf (u64_checked_sub (sp_insurance_balance pool) insurance_cover)) in
   let! staked_amount := lift (ovf (u64_checked_sub (sk_staked_amount stake) actual_slash)) in
   let! total_staked := lift (ovf (u64_checked_sub (sp_total_staked pool) actual_slash)) in
   let! total_slashed := lift (ovf (u64_checked_add (sp_total_slashed pool) slash_amount)) in
   serialize_into (with_position staked_amount (sk_reward_debt stake) (sk_pending_rewards stake) stake) stake_account ;;
   serialize_into
     (pool_with_slashed total_slashed (pool_with_staked total_staked (pool_with_insurance insurance_balance pool)))
     pool_account)%prog.

Definition process_update_rewards : M unit :=
  (let! '(pool_account, it) := next_account_info (cx_accounts cx) in
   let! '(clock_sysvar, it) := next_account_info it in
   let! clock := clock_from_account_info cx clock_sysvar in
   let current_slot := clk_slot clock in
   let! pool := load StakingPool pool_account BorshIoError in
   fail_if (negb (sp_is_initialized pool)) (into NotInitialized) ;;
   if sp_total_staked pool =? 0 then
     serialize_into (pool_with_rewards (sp_accumulated_reward_per_token pool) current_slot pool) pool_account
   else
     let slots_elapsed := u64_saturating_sub current_slot (sp_last_update_slot pool) in
     if slots_elapsed =? 0 then pret tt else
     let! acc := lift (accrue pool slots_elapsed) in
     serialize_into (pool_with_rewards acc current_slot pool) pool_account)%prog.

Definition process_instruction (instruction_data : list byte) : M unit :=
  (let! instruction := lift (ok_or (try_from_slice instruction_data) InvalidInstructionData) in
   match instruction with
   | InitializePool base_reward_rate_bps => process_initialize_pool base_reward_rate_bps
   | Stake amount lock_tier auto_compound liquid_staking => process_stake amount lock_tier auto_compound liquid_staking
   | Unstake amount => process_unstake amount
   | ClaimRewards => process_claim_rewards
   | Delegate validator commission_bps => process_delegate validator commission_bps
   | ToggleAutoCompound => process_toggle_auto_compound
   | MintStPrism => process_mint_st_prism
   | BurnStPrism amount => process_burn_st_prism amount
   | Slash amount => process_slash amount
   | UpdateRewards => process_update_rewards
   end)%prog.
End Staking.
