(* ===== verification/StakingProofs.v ===== *)
(** * StakingProofs: correctness of the staking program

    The reward arithmetic, the staking system as a step relation, and the
    refinement of its steps by the instructions of the program. *)

From Stdlib Require Import Strings.Byte.
From S2P Require Import Prelude Borsh Accounts System Invoke Execution Concrete Cpi Ledger Staking.
Open Scope Z_scope.

(** ** Rewards *)

(** What a position has earned beyond its debt, before commission. *)
Definition gross_pending (stake : StakeAccount) (acc : Z) : Z :=
  (sk_staked_amount stake * acc - sk_reward_debt stake) / SCALE * reward_multiplier_bps (sk_lock_tier stake) / BPS_DENOMINATOR.

Definition delegated (stake : StakeAccount) : bool :=
  negb (sk_delegated_validator stake =? 0) && (0 <? sk_validator_commission_bps stake).

Definition net_pending (stake : StakeAccount) (acc : Z) : Z :=
  let g := gross_pending stake acc in
  if delegated stake then g - g * sk_validator_commission_bps stake / BPS_DENOMINATOR else g.

(** A position whose rewards can be computed: the accumulator has not fallen
    behind the debt, the products fit, and the commission is a share. *)
Record pending_ok (stake : StakeAccount) (pool : StakingPool) : Prop := {
  po_debt : sk_reward_debt stake <= sk_staked_amount stake * sp_accumulated_reward_per_token pool;
  po_fits : sk_staked_amount stake * sp_accumulated_reward_per_token pool <= U128_MAX;
  po_gross : (sk_staked_amount stake * sp_accumulated_reward_per_token pool - sk_reward_debt stake) / SCALE
    * reward_multiplier_bps (sk_lock_tier stake) <= U128_MAX;
  po_commission : delegated stake = true -> sk_validator_commission_bps stake <= BPS_DENOMINATOR /\
    gross_pending stake (sp_accumulated_reward_per_token pool) * sk_validator_commission_bps stake <= U128_MAX;
}.

Lemma multiplier_range t : 10000 <= reward_multiplier_bps t <= 50000.
Proof. destruct t; simpl; lia. Qed.

Lemma ovf_ok {A} (o : option A) a : ovf o = Ok a <-> o = Some a.
Proof. apply ok_or_ok. Qed.

Lemma calculate_pending_rewards_spec stake pool :
  well_typed stake -> well_typed pool -> 0 < sk_staked_amount stake -> pending_ok stake pool ->
  calculate_pending_rewards stake pool = Ok (as_u64 (net_pending stake (sp_accumulated_reward_per_token pool))).
Proof.
  intros (_&_&Hs&Hd&_&_&_&_&Hc&_) (_&_&_&Ha&_) Hpos [P1 P2 P3 P4].
  unfold calculate_pending_rewards. rewrite (proj2 (Z.eqb_neq _ _)) by lia.
  pose proof (multiplier_range (sk_lock_tier stake)).
  rewrite checked_in by (unfold_ints; nia). cbn [ovf ok_or rbind].
  rewrite checked_in by (unfold_ints; nia). cbn [ovf ok_or rbind].
  assert (0 <= (sk_staked_amount stake * sp_accumulated_reward_per_token pool - sk_reward_debt stake) / SCALE)
    by (apply Z.div_pos; [lia|done]).
  rewrite checked_in by (unfold in_range; nia). cbn [ovf ok_or rbind].
  assert (0 <= gross_pending stake (sp_accumulated_reward_per_token pool)) by (apply Z.div_pos; [nia|done]).
  fold (gross_pending stake (sp_accumulated_reward_per_token pool)). fold (delegated stake). unfold net_pending.
  destruct (delegated stake); [|done]. destruct P4 as [P4 P5]; [done|].
  rewrite checked_in by (unfold_ints; nia). cbn [ovf ok_or rbind].
  pose proof (mul_div_le (gross_pending stake (sp_accumulated_reward_per_token pool)) (sk_validator_commission_bps stake) BPS_DENOMINATOR).
  rewrite checked_in; [done|]. unfold BPS_DENOMINATOR in *.
  assert (gross_pending stake (sp_accumulated_reward_per_token pool) <= U128_MAX).
  { unfold gross_pending. apply Z.div_le_upper_bound; [done|]. unfold BPS_DENOMINATOR. unfold_ints. lia. }
  unfold_ints. lia.
Qed.

(** A debt above the accumulated rewards makes every settlement fail. *)
Lemma calculate_pending_rewards_debt stake pool :
  well_typed stake -> well_typed pool -> 0 < sk_staked_amount stake ->
  sk_staked_amount stake * sp_accumulated_reward_per_token pool < sk_reward_debt stake ->
  calculate_pending_rewards stake pool = Err (into Overflow).
Proof.
  intros (_&_&Hs&Hd&_) (_&_&_&Ha&_) Hpos Hlt. unfold calculate_pending_rewards. rewrite (proj2 (Z.eqb_neq _ _)) by lia.
  rewrite checked_in by (unfold_ints; nia). cbn [ovf ok_or rbind].
  assert (checked 0 U128_MAX (sk_staked_amount stake * sp_accumulated_reward_per_token pool - sk_reward_debt stake) = None) as ->; [|done].
  apply checked_none. unfold in_range. lia.
Qed.

Lemma pending_range stake pool p : calculate_pending_rewards stake pool = Ok p -> is_u64 p.
Proof.
  unfold calculate_pending_rewards. destruct (sk_staked_amount stake =? 0); intros H; rinv; [ilia|]. apply as_u64_range.
Qed.

(** ** The accumulator *)

(** What the pool owes for the elapsed slots, in whole lamports. *)
Definition emission (pool : StakingPool) (slots : Z) : Z :=
  sp_total_staked pool * sp_base_reward_rate_bps pool * slots / BPS_DENOMINATOR / SLOTS_PER_YEAR.

Lemma accrue_spec pool slots acc :
  well_typed pool -> 0 < sp_total_staked pool -> 0 <= slots -> accrue pool slots = Ok acc ->
  let d := acc - sp_accumulated_reward_per_token pool in
  is_u128 acc /\ 0 <= d /\ d * sp_total_staked pool <= emission pool slots * SCALE < (d + 1) * sp_total_staked pool.
Proof.
  intros (_&_&HT&Ha&_&_&Hr&_) Hpos Hs H. unfold accrue, ovf in H. rinv. fold (emission pool slots) in H.
  assert (0 <= emission pool slots).
  { unfold emission. apply Z.div_pos; [apply Z.div_pos|]; unfold_ints; nia || done. }
  destruct (Z.ltb_spec 0 (emission pool slots)) as [He|He]; rinv.
  - assert (He' : emission pool slots * SCALE / sp_total_staked pool * sp_total_staked pool <= emission pool slots * SCALE <
      (emission pool slots * SCALE / sp_total_staked pool + 1) * sp_total_staked pool).
    { pose proof (Z.div_mod (emission pool slots * SCALE) (sp_total_staked pool)).
      pose proof (Z.mod_pos_bound (emission pool slots * SCALE) (sp_total_staked pool)). lia. }
    assert (0 <= emission pool slots * SCALE / sp_total_staked pool) by (apply Z.div_pos; unfold SCALE in *; lia).
    cbv zeta. replace (sp_accumulated_reward_per_token pool + emission pool slots * SCALE / sp_total_staked pool -
      sp_accumulated_reward_per_token pool) with (emission pool slots * SCALE / sp_total_staked pool) by lia. done.
  - cbv zeta. rewrite Z.sub_diag. assert (emission pool slots = 0) as -> by lia. split_and!; [done|lia|lia|lia].
Qed.

(** ** The staking system *)

Abbreviation ssys := (ledger StakingPool StakeAccount).

(** What the pool counts as staked is what the positions hold. *)
Definition sinv (y : ssys) : Prop := sp_total_staked (lg_root y) = msum sk_staked_amount (lg_items y).

(** The position can be withdrawn by its owner. *)
Definition unlocked (now : Z) (s : StakeAccount) : Prop := sk_unlock_timestamp s <= 0 \/ sk_unlock_timestamp s <= now.

(** The position after its rewards have been settled. *)
Definition settled (pool : StakingPool) (staked pending : Z) (s : StakeAccount) : StakeAccount :=
  with_position staked (staked * sp_accumulated_reward_per_token pool) pending s.

(** The same position under other settings. *)
Definition same_position (s s' : StakeAccount) : Prop :=
  sk_owner s' = sk_owner s /\ sk_staked_amount s' = sk_staked_amount s /\ sk_reward_debt s' = sk_reward_debt s /\
  sk_pending_rewards s' = sk_pending_rewards s /\ sk_lock_tier s' = sk_lock_tier s /\
  sk_unlock_timestamp s' = sk_unlock_timestamp s.

Inductive sstep (now : Z) (signed : Pubkey -> Prop) : ssys -> ssys -> Prop :=
| step_open k s pool stakes :
    stakes !! k = None -> signed (sk_owner s) -> sk_reward_debt s = 0 -> sk_pending_rewards s = 0 ->
    sk_unlock_timestamp s = (if 0 <? lock_duration_seconds (sk_lock_tier s) then now + lock_duration_seconds (sk_lock_tier s) else 0) ->
    sstep now signed (mkLedger pool stakes)
      (mkLedger (pool_with_staked (sp_total_staked pool + sk_staked_amount s) pool) (<[k := s]> stakes))
| step_add k s amount pending pool stakes :
    stakes !! k = Some s -> signed (sk_owner s) -> 0 <= amount -> calculate_pending_rewards s pool = Ok pending ->
    sstep now signed (mkLedger pool stakes)
      (mkLedger (pool_with_staked (sp_total_staked pool + amount) pool)
              (<[k := settled pool (sk_staked_amount s + amount) (sk_pending_rewards s + pending) s]> stakes))
| step_unstake k s amount pending pool stakes :
    stakes !! k = Some s -> signed (sk_owner s) -> unlocked now s -> 0 <= amount <= sk_staked_amount s ->
    calculate_pending_rewards s pool = Ok pending ->
    sstep now signed (mkLedger pool stakes)
      (mkLedger (pool_with_staked (sp_total_staked pool - amount) pool)
              (<[k := settled pool (sk_staked_amount s - amount) (sk_pending_rewards s + pending) s]> stakes))
| step_claim k s pending cut net compound pool stakes :
    stakes !! k = Some s -> signed (sk_owner s) -> calculate_pending_rewards s pool = Ok pending ->
    insurance_split (sk_pending_rewards s + pending) = Ok (cut, net) -> 0 <= net ->
    compound = (if sk_auto_compound s then net else 0) ->
    sstep now signed (mkLedger pool stakes)
      (mkLedger (pool_with_staked (sp_total_staked pool + compound) (pool_with_insurance (sp_insurance_balance pool + cut) pool))
              (<[k := settled pool (sk_staked_amount s + compound) 0 s]> stakes))
| step_config k s s' pool stakes :
    stakes !! k = Some s -> signed (sk_owner s) -> same_position s s' ->
    sstep now signed (mkLedger pool stakes) (mkLedger pool (<[k := s']> stakes))
| step_slash k s amount cover pool stakes :
    stakes !! k = Some s -> signed (sp_authority pool) -> 0 <= amount <= sk_staked_amount s ->
    cover = Z.min amount (sp_insurance_balance pool) ->
    sstep now signed (mkLedger pool stakes)
      (mkLedger (pool_with_slashed (sp_total_slashed pool + amount) (pool_with_staked (sp_total_staked pool - (amount - cover))
                 (pool_with_insurance (sp_insurance_balance pool - cover) pool)))
              (<[k := with_position (sk_staked_amount s - (amount - cover)) (sk_reward_debt s) (sk_pending_rewards s) s]> stakes))
| step_accrue acc slot pool stakes :
    sp_accumulated_reward_per_token pool <= acc ->
    sstep now signed (mkLedger pool stakes) (mkLedger (pool_with_rewards acc slot pool) stakes).

Lemma sinv_step now signed y y' : sstep now signed y y' -> sinv y -> sinv y'.
Proof.
  unfold sinv. intros H Hinv. destruct H; simpl in *.
  - rewrite msum_insert by done. lia.
  - erewrite msum_update by done. simpl. lia.
  - erewrite msum_update by done. simpl. lia.
  - erewrite msum_update by done. simpl. lia.
  - erewrite msum_update by done. hyp (same_position _ _) as Hp. destruct Hp as (_ & Hs & _). lia.
  - erewrite msum_update by done. simpl. lia.
  - done.
Qed.

(** Positions never disappear, keep their owner, and as long as they are locked
    lose stake only to the pool authority. *)
Lemma stake_step now signed y y' k s :
  sstep now signed y y' -> lg_items y !! k = Some s ->
  exists s', lg_items y' !! k = Some s' /\ sk_owner s' = sk_owner s /\ sk_unlock_timestamp s' = sk_unlock_timestamp s /\
    (sk_staked_amount s <= sk_staked_amount s' \/ signed (sp_authority (lg_root y)) \/ (signed (sk_owner s) /\ unlocked now s)).
Proof.
  intros H Hk. assert (Hsame : forall s', <[k := s']> (lg_items y) !! k = Some s') by (intros; by rewrite lookup_insert_eq).
  destruct H as [j s1 pool stakes Hj|j s1 a p pool stakes Hj|j s1 a p pool stakes Hj ? ? ?|j s1 p cut net c pool stakes Hj ? ? Hsp Hnet ->|
    j s1 s2 pool stakes Hj ? (Ho & Hs & _ & _ & _ & Hu)|j s1 a c pool stakes Hj ? ? ->|acc slot pool stakes]; cbn [lg_items lg_root] in *;
    try (destruct (decide (j = k)) as [->|Hne]; [|exists s; rewrite lookup_insert_ne by done; split_and!; [done..|by left]]);
    try (rewrite Hk in Hj; simplify_eq; eexists; split; [apply Hsame|]).
  - congruence.
  - simpl. split_and!; [done..|left; lia].
  - simpl. split_and!; [done..|right; right; done].
  - simpl. split_and!; [done..|left]. case_match; lia.
  - split_and!; [done..|left; lia].
  - simpl. split_and!; [done..|right; by left].
  - exists s. split_and!; [done..|by left].
Qed.

Lemma authority_step now signed y y' : sstep now signed y y' -> sp_authority (lg_root y') = sp_authority (lg_root y).
Proof. by intros []. Qed.

Lemma locked_steps now signed y y' k s :
  rtc (sstep now signed) y y' -> ~ signed (sp_authority (lg_root y)) -> lg_items y !! k = Some s ->
  0 < sk_unlock_timestamp s -> now < sk_unlock_timestamp s ->
  exists s', lg_items y' !! k = Some s' /\ sk_owner s' = sk_owner s /\ sk_unlock_timestamp s' = sk_unlock_timestamp s /\
    sk_staked_amount s <= sk_staked_amount s'.
Proof.
  intros H. revert s. induction H as [y|y1 y2 y3 Hs _ IH]; intros s Ha Hk H0 Hn; [by exists s|].
  destruct (stake_step _ _ _ _ _ _ Hs Hk) as (s2 & Hk2 & Ho & Hu & Hd).
  destruct Hd as [Hd|[?|[_ Hl]]]; [|done|unfold unlocked in Hl; lia].
  destruct (IH s2) as (s3 & ? & ? & ? & ?); [by rewrite (authority_step _ _ _ _ Hs)|done|lia|lia|].
  exists s3. split_and!; [done|congruence|congruence|lia].
Qed.

(** ** Refinement *)

#[export] Instance staking_sizes : DistinctSizes StakingPool_LEN StakeAccount_LEN.
Proof. by split_and!. Qed.

Section Refinement.
Context {E : Env} {BP : Borsh StakingPool} {BK : Borsh StakeAccount} {BI : Borsh StakingInstruction}.
Context {LP : BorshLaws StakingPool} {LK : BorshLaws StakeAccount} {LI : BorshLaws StakingInstruction}.
Context {ZP : BorshSized StakingPool StakingPool_LEN} {ZK : BorshSized StakeAccount StakeAccount_LEN}.
Context (cx : Ctx) (clock_ok : is_i64 (unix_timestamp (cx_clock cx)) /\ is_u64 (clk_slot (cx_clock cx))).
Context (keys_ok : Forall (fun ia => is_pubkey (ia_key ia)) (cx_accounts cx)).
Notation now := (unix_timestamp (cx_clock cx)).

Lemma settled_well_typed pool s staked pending :
  well_typed s -> is_u64 staked -> is_u128 (staked * sp_accumulated_reward_per_token pool) -> is_u64 pending ->
  well_typed (settled pool staked pending s).
Proof. intros (?&?&?&?&?&?&?&?&?&?) ? ? ?. unfold well_typed, StakeAccount_well_typed. simpl. by split_and!. Qed.

Lemma staked_well_typed x pool : well_typed pool -> is_u64 x -> well_typed (pool_with_staked x pool).
Proof. intros (?&?&?&?&?&?&?&?&?) ?. unfold well_typed, StakingPool_well_typed. simpl. by split_and!. Qed.

Lemma process_unstake_refines pk y amount st sk pa rest s s' :
  lrefines (mem s) pk y -> cx_accounts cx = st :: sk :: pa :: rest -> ia_key pa = pk ->
  is_Some (lg_items y !! ia_key sk) -> is_u64 amount -> process_unstake cx amount s = Ok (tt, s') -> lresult cx (sstep now (signed cx)) pk y s'.
Proof.
  destruct y as [pool stakes]. intros Href Hacc <- [v Hk] Ha H.
  pose proof (proj1 Href) as Hp. pose proof (proj2 Href _ _ Hk) as Hv. simpl in *.
  unfold process_unstake, clock_from_account_info, ovf in H. rewrite Hacc in H. pinv. bool_to_prop. holds_eq.
  hyp (debit _ _ _ = Ok _) as Hde. hyp (credit _ _ _ = Ok _) as Hcr. hyp (sk_owner v = _) as Ho. hyp (_ && _ = false) as Hlock.
  pose proof (move_trans _ _ _ _ _ _ _ (debit_ok _ _ _ _ _ Hde) (credit_ok _ _ _ _ _ Hcr)) as [_ Hd _].
  apply holds_well_typed in Hv as Wv. apply holds_well_typed in Hp as Wp.
  eapply write_result; [exact Href|exact Hk|exact Hd|by apply settled_well_typed|by apply staked_well_typed|by_passed|by_passed|].
  eapply step_unstake; try done; [rewrite Ho; by_signer| |ilia].
  unfold unlocked. rewrite andb_false_iff, !Z.ltb_ge in Hlock. lia.
Qed.

Lemma insurance_split_spec x cut net :
  is_u64 x -> insurance_split x = Ok (cut, net) -> is_u64 cut /\ is_u64 net /\ cut + net = x /\ cut = x * 200 / 10000.
Proof.
  intros Hx H. unfold insurance_split, ovf, INSURANCE_BPS, BPS_DENOMINATOR in H. rinv.
  pose proof (Z.div_mod (x * 200) 10000). pose proof (Z.mod_pos_bound (x * 200) 10000). split_and!; done || ilia.
Qed.

Lemma process_claim_rewards_refines pk y st sk pa rest s s' :
  lrefines (mem s) pk y -> cx_accounts cx = st :: sk :: pa :: rest -> ia_key pa = pk ->
  is_Some (lg_items y !! ia_key sk) -> process_claim_rewards cx s = Ok (tt, s') -> lresult cx (sstep now (signed cx)) pk y s'.
Proof.
  destruct y as [pool stakes]. intros Href Hacc <- [v Hk] H.
  pose proof (proj1 Href) as Hp. pose proof (proj2 Href _ _ Hk) as Hv. simpl in *.
  unfold process_claim_rewards, ovf in H. rewrite Hacc in H. apply holds_well_typed in Hv as Wv. apply holds_well_typed in Hp as Wp.
  pinv; bool_to_prop; holds_eq; hyp ((_, _) = (_, _)) as Heq; injection Heq as <- <-;
    hyp (insurance_split _ = _) as His; hyp (sk_owner v = _) as Ho; hyp (sk_auto_compound v = _) as Hauto;
    (apply insurance_split_spec in His as Hsp; [|done]); destruct Hsp as (Hc & Hn & _).
  - eapply write_result; [exact Href|exact Hk|done|by apply settled_well_typed| |by_passed|by_passed|].
    + apply staked_well_typed; [|done]. destruct Wp as (?&?&?&?&?&?&?&?&?). by split_and!.
    + eapply (step_claim _ _ _ _ _ _ z0 z0); try done; [rewrite Ho; by_signer|ilia|by rewrite Hauto].
  - hyp (debit _ _ _ = Ok _) as Hde. hyp (credit _ _ _ = Ok _) as Hcr.
    pose proof (move_trans _ _ _ _ _ _ _ (debit_ok _ _ _ _ _ Hde) (credit_ok _ _ _ _ _ Hcr)) as [_ Hd _].
    match type of Hcr with _ = Ok (_, ?s2) => pose proof (lrefines_data _ (mem s2) _ _ Href (fun j _ => Hd j)) as Href2 end.
    eapply write_result; [exact Href2|exact Hk|done| | |by_passed|by_passed|].
    + apply settled_well_typed; try done. by destruct Wv as (?&?&?&?).
    + destruct Wp as (?&?&?&?&?&?&?&?&?). by split_and!.
    + hyp (calculate_pending_rewards _ _ = Ok _) as Hpe.
      pose proof (fun Hs Hn Hc => step_claim now (signed cx) _ _ _ _ _ 0 pool stakes Hk Hs Hpe His Hn Hc) as Hst.
      rewrite !Z.add_0_r in Hst.
      apply Hst; [rewrite Ho; by_signer|ilia|by rewrite Hauto].
Qed.

Lemma process_slash_refines pk y amount st sk pa rest s s' :
  lrefines (mem s) pk y -> cx_accounts cx = st :: sk :: pa :: rest -> ia_key pa = pk ->
  is_Some (lg_items y !! ia_key sk) -> is_u64 amount -> process_slash cx amount s = Ok (tt, s') -> lresult cx (sstep now (signed cx)) pk y s'.
Proof.
  destruct y as [pool stakes]. intros Href Hacc <- [v Hk] Ha H.
  pose proof (proj1 Href) as Hp. pose proof (proj2 Href _ _ Hk) as Hv. simpl in *.
  unfold process_slash, ovf in H. rewrite Hacc in H. pinv. bool_to_prop. holds_eq.
  apply holds_well_typed in Hv as Wv. apply holds_well_typed in Hp as Wp. hyp (sp_authority _ = _) as Hauth.
  destruct Wv as (?&?&?&?&?&?&?&?&?&?). destruct Wp as (?&?&?&?&?&?&?&?&?).
  eapply write_result; [exact Href|exact Hk|done|by split_and!|by split_and!|by_passed|by_passed|].
  eapply step_slash; [done|rewrite Hauth; by_signer|ilia|done].
Qed.
Lemma config_well_typed v validator commission minted (compound : bool) :
  well_typed v -> is_pubkey validator -> is_u64 commission -> is_u64 minted ->
  well_typed (with_delegation validator commission v) /\ well_typed (with_auto_compound compound v) /\
  well_typed (with_minted minted v).
Proof. intros (?&?&?&?&?&?&?&?&?&?) ? ? ?. unfold well_typed, StakeAccount_well_typed. simpl. by split_and!. Qed.

Lemma process_delegate_refines pk y validator commission st sk rest s s' :
  lrefines (mem s) pk y -> cx_accounts cx = st :: sk :: rest -> is_Some (lg_items y !! ia_key sk) ->
  is_pubkey validator -> is_u64 commission -> process_delegate cx validator commission s = Ok (tt, s') -> lresult cx (sstep now (signed cx)) pk y s'.
Proof.
  destruct y as [pool stakes]. intros Href Hacc [v Hk] Hva Hco H. pose proof (proj2 Href _ _ Hk) as Hv. simpl in *.
  unfold process_delegate in H. rewrite Hacc in H. pinv. bool_to_prop. holds_eq. hyp (sk_owner v = _) as Ho.
  apply holds_well_typed in Hv as Wv. eapply write_item_result; [exact Href|exact Hk|done| |by_passed|eapply step_config; [exact Hk|rewrite Ho; by_signer|done]].
  by apply (config_well_typed v _ _ commission true).
Qed.

Lemma process_toggle_refines pk y st sk rest s s' :
  lrefines (mem s) pk y -> cx_accounts cx = st :: sk :: rest -> is_Some (lg_items y !! ia_key sk) ->
  process_toggle_auto_compound cx s = Ok (tt, s') -> lresult cx (sstep now (signed cx)) pk y s'.
Proof.
  destruct y as [pool stakes]. intros Href Hacc [v Hk] H. pose proof (proj2 Href _ _ Hk) as Hv. simpl in *.
  unfold process_toggle_auto_compound in H. rewrite Hacc in H. pinv. bool_to_prop. holds_eq. hyp (sk_owner v = _) as Ho.
  apply holds_well_typed in Hv as Wv. eapply write_item_result; [exact Href|exact Hk|done| |by_passed|eapply step_config; [exact Hk|rewrite Ho; by_signer|done]].
  apply (config_well_typed v 0 0 0); done || ilia.
Qed.

Lemma stays pool stakes k v : stakes !! k = Some v -> signed cx (sk_owner v) ->
  sstep now (signed cx) (mkLedger pool stakes) (mkLedger pool stakes).
Proof. intros Hk Hs. rewrite <- (insert_id stakes k v Hk) at 2. by eapply step_config. Qed.

Lemma process_mint_refines pk y st sk mi ta au rest s s' :
  lrefines (mem s) pk y -> cx_accounts cx = st :: sk :: mi :: ta :: au :: rest -> is_Some (lg_items y !! ia_key sk) ->
  Forall (fun ia => ~ lowns pk y (ia_key ia)) [mi; ta; au] ->
  process_mint_st_prism cx s = Ok (tt, s') -> lresult cx (sstep now (signed cx)) pk y s'.
Proof.
  destruct y as [pool stakes]. intros Href Hacc [v Hk] Hfr H. pose proof (proj2 Href _ _ Hk) as Hv. simpl in *.
  apply holds_well_typed in Hv as Wv.
  unfold process_mint_st_prism, ovf in H. rewrite Hacc in H. pinv; bool_to_prop; holds_eq; hyp (sk_owner v = _) as Ho.
  - exists (mkLedger pool stakes). split_and!; [eapply stays; [exact Hk|rewrite Ho; by_signer]|done|by right|by right].
  - hyp (invoke_signed _ _ _ _ _ = Ok _) as Hi. hyp (_ = ia_key au) as Hau. rewrite !Forall_cons in Hfr. destruct Hfr as (? & ? & ? & _).
    eapply write_item_result; [exact Href|exact Hk| | |by_passed|eapply step_config; [exact Hk|rewrite Ho; by_signer|done]].
    + eapply invoke_lowns; [exact Hi|]. repeat constructor; simpl; congruence.
    + apply (config_well_typed v 0 0 _ true); done || ilia.
Qed.

Lemma process_burn_refines pk y amount st sk mi ta rest s s' :
  lrefines (mem s) pk y -> cx_accounts cx = st :: sk :: mi :: ta :: rest -> is_Some (lg_items y !! ia_key sk) ->
  Forall (fun ia => ~ lowns pk y (ia_key ia)) [ta; mi; st] -> is_u64 amount ->
  process_burn_st_prism cx amount s = Ok (tt, s') -> lresult cx (sstep now (signed cx)) pk y s'.
Proof.
  destruct y as [pool stakes]. intros Href Hacc [v Hk] Hfr Ha H. pose proof (proj2 Href _ _ Hk) as Hv. simpl in *.
  apply holds_well_typed in Hv as Wv.
  unfold process_burn_st_prism, ovf in H. rewrite Hacc in H. pinv; bool_to_prop; holds_eq. hyp (sk_owner v = _) as Ho.
  hyp (invoke_signed _ _ _ _ _ = Ok _) as Hi. rewrite !Forall_cons in Hfr. destruct Hfr as (? & ? & ? & _).
  eapply write_item_result; [exact Href|exact Hk| | |by_passed|eapply step_config; [exact Hk|rewrite Ho; by_signer|done]].
  - eapply invoke_lowns; [exact Hi|]. by repeat constructor.
  - apply (config_well_typed v 0 0 _ true); done || ilia.
Qed.
Lemma rewards_well_typed acc slot pool : well_typed pool -> is_u128 acc -> is_u64 slot -> well_typed (pool_with_rewards acc slot pool).
Proof. intros (?&?&?&?&?&?&?&?&?) ? ?. unfold well_typed, StakingPool_well_typed. simpl. by split_and!. Qed.

Lemma process_update_rewards_refines pk y pa rest s s' :
  lrefines (mem s) pk y -> cx_accounts cx = pa :: rest -> ia_key pa = pk ->
  process_update_rewards cx s = Ok (tt, s') -> s' = s \/ lresult cx (sstep now (signed cx)) pk y s'.
Proof.
  destruct y as [pool stakes]. intros Href Hacc <- H. pose proof (proj1 Href) as Hp. simpl in *.
  apply holds_well_typed in Hp as Wp. destruct clock_ok as [_ Hslot].
  assert (Hres : forall acc r, is_u128 acc -> sp_accumulated_reward_per_token pool <= acc -> passed cx (ia_key pa) ->
    lresult cx (sstep now (signed cx)) (ia_key pa) (mkLedger pool stakes)
      (mkPState (stored (pool_with_rewards acc (clk_slot (cx_clock cx)) pool) (ia_key pa) (mem s)) r)).
  { intros acc r Hacc' Hle Hpass. eexists. split; [by apply step_accrue|].
    split; [eapply write_root; [done|by apply rewards_well_typed]|]. split; [by left|by right]. }
  unfold process_update_rewards, clock_from_account_info in H. rewrite Hacc in H. pinv; bool_to_prop; holds_eq.
  - right. apply Hres; [by destruct Wp as (_&_&_&?&_)|done|by_passed].
  - by left.
  - right. hyp (accrue _ _ = Ok _) as Hac. destruct Wp as (?&?&?&?&?&?&?&?&?) eqn:HW. clear HW.
    apply accrue_spec in Hac as (? & ? & _); [|done|ilia|unfold clamp; ilia]. apply Hres; [done|lia|by_passed].
Qed.

Lemma safe_create_stake {X : ExecLaws} st sk sys bump amount tier auto liquid t :
  safe (create_stake cx st sk sys bump amount tier auto liquid t).
Proof. unfold create_stake. psafe. Qed.

Lemma safe_add_stake {X : ExecLaws} st sk pool amount : safe (add_stake st sk pool amount).
Proof. unfold add_stake. psafe. Qed.

Lemma create_stake_effect {L : EnvLaws} st sk sys bump amount tier (auto liquid : bool) s s' af at_ :
  create_stake cx st sk sys bump amount tier auto liquid now s = Ok (tt, s') ->
  create_ready cx s (ia_key st) (ia_key sk) af at_ -> is_pubkey (ia_key st) -> is_pubkey (cx_program_id cx) ->
  is_u64 amount -> is_u8 bump ->
  let unlock := if 0 <? lock_duration_seconds tier then now + lock_duration_seconds tier else 0 in
  let v := mkStake true (ia_key st) 0 amount 0 0 tier now unlock auto liquid 0 0 bump in
  holds (mem s') (ia_key sk) v /\
    (forall j, j <> ia_key sk -> acc_data (get_acc (mem s') j) = acc_data (get_acc (mem s) j)) /\
    (forall j, j <> ia_key sk -> j <> ia_key st -> get_acc (mem s') j = get_acc (mem s) j).
Proof.
  intros H R Hst Hpid Ha Hb. unfold create_stake, ovf in H. pinv. hyp (invoke_signed _ _ _ _ _ = Ok _) as Hi.
  eapply create_account_effect in Hi as [-> _]; [|exact R|apply minimum_balance_u64|done|done]. cbn [mem].
  match goal with Hu : _ = Ok ?ts |- _ => assert (is_i64 ts /\
    ts = if 0 <? lock_duration_seconds tier then now + lock_duration_seconds tier else 0) as [Hts ->];
    [destruct (0 <? lock_duration_seconds tier); rinv; done|] end.
  cbv zeta. split; [eapply holds_stored|split_and!; try done].
  - by rewrite created_to.
  - destruct clock_ok. unfold well_typed, StakeAccount_well_typed. simpl. split_and!; done || ilia.
  - intros j Hj. rewrite stored_ne by done. by eapply created_data.
  - intros j Hj Hj'. rewrite stored_ne by done. by apply created_ne.
Qed.

Lemma add_stake_effect st sk pool amount s s' v :
  add_stake st sk pool amount s = Ok (tt, s') -> holds (mem s) (ia_key sk) v ->
  sk_owner v = ia_key st /\ exists pending, calculate_pending_rewards v pool = Ok pending /\
    let v' := settled pool (sk_staked_amount v + amount) (sk_pending_rewards v + pending) v in
    well_typed v' /\ s' = mkPState (stored v' (ia_key sk) (mem s)) (rt s).
Proof.
  intros H Hv. unfold add_stake, ovf in H. pinv. bool_to_prop. holds_eq. split; [done|]. eexists. split; [done|].
  split; [|done]. apply settled_well_typed; try done. by eapply holds_well_typed.
Qed.

(** The end of a stake: the deposit and the new total. *)
Lemma deposit_result {L : EnvLaws} {X : ExecLaws} from amount infos s1 u s2 r pk pool stakes stakes1 :
  invoke cx (transfer_ix from pk amount) infos s1 = Ok (u, s2) -> is_u64 amount -> pstate_ok s1 ->
  acc_owner (get_acc (mem s1) pk) <> system_program_id -> ~ lowns pk (mkLedger pool stakes1) from ->
  lrefines (mem s1) pk (mkLedger pool stakes1) -> well_typed pool -> is_u64 (sp_total_staked pool + amount) -> passed cx pk ->
  (forall j v, stakes1 !! j = Some v -> passed cx j \/ stakes !! j = Some v) ->
  let pool' := pool_with_staked (sp_total_staked pool + amount) pool in
  sstep now (signed cx) (mkLedger pool stakes) (mkLedger pool' stakes1) ->
  lresult cx (sstep now (signed cx)) pk (mkLedger pool stakes) (mkPState (stored pool' pk (mem s2)) r).
Proof.
  intros Hi Ha Hok Hown Hfrom Href Wp Ht Hpass Hold pool' Hstep. eexists. split; [exact Hstep|].
  split; [|split; [by left|done]]. eapply write_root; [|by apply staked_well_typed].
  eapply lrefines_data; [exact Href|]. unfold invoke in Hi. by eapply transfer_lowns.
Qed.

Lemma process_stake_refines {L : EnvLaws} {X : ExecLaws} pk y amount tier auto liquid st sk pa rest s s' :
  lrefines (mem s) pk y -> cx_accounts cx = st :: sk :: pa :: rest -> ia_key pa = pk ->
  ~ lowns pk y (ia_key st) -> pstate_ok s -> is_pubkey (cx_program_id cx) ->
  acc_owner (get_acc (mem s) pk) <> system_program_id ->
  (if zlen (acc_data (get_acc (mem s) (ia_key sk))) =? 0 then exists af at_, create_ready cx s (ia_key st) (ia_key sk) af at_
   else is_Some (lg_items y !! ia_key sk)) ->
  is_u64 amount -> process_stake cx amount tier auto liquid s = Ok (tt, s') -> lresult cx (sstep now (signed cx)) pk y s'.
Proof.
  destruct y as [pool stakes]. intros Href Hacc <- Hst Hok Hpid Hown Hsk Ha H. pose proof (proj1 Href) as Hp. simpl in *.
  apply holds_well_typed in Hp as Wp.
  unfold process_stake, clock_from_account_info, ovf in H. rewrite Hacc in H. pinv; bool_to_prop; holds_eq;
    hyp (invoke _ _ _ _ = Ok _) as Hi; hyp (is_u64 (sp_total_staked pool + amount)) as Ht.
  - hyp (zlen _ = 0) as Hz. rewrite (proj2 (Z.eqb_eq _ _)) in Hsk by done. destruct Hsk as (af & at_ & R).
    hyp (create_stake _ _ _ _ _ _ _ _ _ _ _ = Ok _) as Hc. hyp (find_program_address _ _ = _) as Hf. apply find_create in Hf as [Hb _].
    pose proof keys_ok as Hkeys. rewrite Hacc, !Forall_cons in Hkeys. destruct Hkeys as [Hkst _].
    pose proof (proj1 (safe_create_stake _ _ _ _ _ _ _ _ _ _ _ _ Hok Hc)) as Hok1.
    eapply create_stake_effect in Hc as (Hv & Hd & Hfr); try done. match type of Hv with holds _ _ ?w => set (v := w) in * end.
    destruct (open_item _ _ _ _ _ _ v (ia_key st) Href Hz Hv (ready_ne _ _ _ _ _ _ R) Hst Hd) as (Hnew & Hne & Hst1 & Href1).
    eapply deposit_result; [exact Hi|done|done| |exact Hst1|exact Href1|done|done|by_passed|apply update_passed; by_passed|].
    + rewrite Hfr; [done..|]. intros Heq. by apply Hst; left.
    + eapply (step_open _ _ _ v); try done. simpl. by_signer.
  - hyp (zlen _ <> 0) as Hz. rewrite (proj2 (Z.eqb_neq _ _)) in Hsk by done. destruct Hsk as [v Hk].
    hyp (add_stake _ _ _ _ _ = Ok _) as Hc. pose proof (proj1 (safe_add_stake _ _ _ _ _ _ _ Hok Hc)) as Hok1.
    eapply add_stake_effect in Hc as (Ho & pending & Hpe & Wv & Hs1); [|by apply Href]. subst.
    assert (Hne : ia_key pa <> ia_key sk) by (intros Heq; by eapply lrefines_ne).
    eapply deposit_result; [exact Hi|done|done| | |by eapply write_item|done|done|by_passed|apply update_passed; by_passed|].
    + simpl. by rewrite stored_ne.
    + intros [?|Hs]; [by apply Hst; left|]. apply Hst. right. simpl in *. rewrite lookup_insert in Hs. case_decide as Hd; [rewrite <- Hd; by eexists|done].
    + eapply step_add; try done; [rewrite Ho; by_signer|ilia].
Qed.
Lemma process_initialize_pool_taken {L : EnvLaws} pk (y : ssys) s s' rate au pa rest af at_ :
  cx_accounts cx = au :: pa :: rest -> create_ready cx s (ia_key au) pk af at_ -> ia_key pa = pk ->
  is_pubkey (cx_program_id cx) -> lrefines (mem s) pk y -> process_initialize_pool cx rate s <> Ok (tt, s').
Proof.
  intros Hacc R <- Hpid [Hr _] H. unfold process_initialize_pool in H. rewrite Hacc in H. pinv.
  hyp (invoke_signed _ _ _ _ _ = Ok _) as Hcpi.
  eapply create_account_effect in Hcpi as [-> (signers & _ & G)]; try done; [|apply minimum_balance_u64].
  destruct G. destruct ccg_unused as (_ & Hempty & _).
  rewrite <- (mem_acc _ _ _ (ready_mem_to _ _ _ _ _ _ R)) in Hempty.
  apply holds_zlen in Hr. by rewrite Hempty in Hr.
Qed.

(** The accounts an instruction is meant for: the pool, a position of the
    system, and wallets and token accounts that are neither. *)
Definition stargets (pk : Pubkey) (y : ssys) (s : PState) (instruction : StakingInstruction) : Prop :=
  let wallet ia := ~ lowns pk y (ia_key ia) in
  let position ia := is_Some (lg_items y !! ia_key ia) in
  match instruction, cx_accounts cx with
  | InitializePool _, au :: pa :: _ => ia_key pa = pk /\ exists af at_, create_ready cx s (ia_key au) pk af at_
  | Stake _ _ _ _, st :: sk :: pa :: _ => ia_key pa = pk /\ wallet st /\ acc_owner (get_acc (mem s) pk) <> system_program_id /\
      if zlen (acc_data (get_acc (mem s) (ia_key sk))) =? 0 then exists af at_, create_ready cx s (ia_key st) (ia_key sk) af at_
      else position sk
  | Unstake _, _ :: sk :: pa :: _ | ClaimRewards, _ :: sk :: pa :: _ | Slash _, _ :: sk :: pa :: _ => ia_key pa = pk /\ position sk
  | Delegate _ _, _ :: sk :: _ | ToggleAutoCompound, _ :: sk :: _ => position sk
  | MintStPrism, _ :: sk :: mi :: ta :: au :: _ => position sk /\ Forall wallet [mi; ta; au]
  | BurnStPrism _, st :: sk :: mi :: ta :: _ => position sk /\ Forall wallet [ta; mi; st]
  | UpdateRewards, pa :: _ => ia_key pa = pk
  | _, _ => False
  end.

Lemma staking_safe {X : ExecLaws} data : safe (process_instruction cx data).
Proof.
  unfold process_instruction. psafe; unfold process_initialize_pool, process_stake, create_stake, add_stake, process_unstake,
    process_claim_rewards, process_delegate, process_toggle_auto_compound, process_mint_st_prism, process_burn_st_prism,
    process_slash, process_update_rewards, invoke; psafe.
Qed.

Lemma staking_confined {X : ExecLaws} data : confined cx (process_instruction cx data).
Proof.
  unfold process_instruction. psafe; unfold process_initialize_pool, process_stake, create_stake, add_stake, process_unstake,
    process_claim_rewards, process_delegate, process_toggle_auto_compound, process_mint_st_prism, process_burn_st_prism,
    process_slash, process_update_rewards, invoke; psafe.
Qed.

Lemma process_instruction_refines {L : EnvLaws} {X : ExecLaws} data i pk y s s' :
  try_from_slice data = Some i -> stargets pk y s i -> lrefines (mem s) pk y -> pstate_ok s ->
  is_pubkey (cx_program_id cx) -> process_instruction cx data s = Ok (tt, s') -> s' = s \/ lresult cx (sstep now (signed cx)) pk y s'.
Proof.
  intros Hde Htg Href Hok Hpid H. assert (Hwt := Hde). apply try_from_slice_some in Hwt as [Hwt _].
  unfold process_instruction in H. rewrite Hde in H. cbn [ok_or lift pbind] in H. unfold stargets in Htg.
  assert (exists l, cx_accounts cx = l) as [l Hacc] by eauto. rewrite Hacc in Htg.
  destruct i; [destruct l as [|a [|b rest]]; try done; destruct Htg as (<- & af & at_ & R); by eapply process_initialize_pool_taken in H|..].
  9:{ destruct l as [|a rest]; try done. eapply process_update_rewards_refines; [exact Href|exact Hacc|done|exact H]. }
  all: right; destruct l as [|a [|b rest]]; try done.
  - destruct rest as [|c rest]; try done. destruct Htg as (<- & ? & ? & ?).
    eapply process_stake_refines; [exact Href|exact Hacc|done..|exact H].
  - destruct rest as [|c rest]; try done. destruct Htg as [<- ?]. eapply process_unstake_refines; [exact Href|exact Hacc|done..|exact H].
  - destruct rest as [|c rest]; try done. destruct Htg as [<- ?]. eapply process_claim_rewards_refines; [exact Href|exact Hacc|done..|exact H].
  - destruct Hwt. eapply process_delegate_refines; [exact Href|exact Hacc|done..|exact H].
  - eapply process_toggle_refines; [exact Href|exact Hacc|done..|exact H].
  - destruct rest as [|c [|d [|e rest]]]; try done. destruct Htg. eapply process_mint_refines; [exact Href|exact Hacc|done..|exact H].
  - destruct rest as [|c [|d rest]]; try done. destruct Htg. eapply process_burn_refines; [exact Href|exact Hacc|done..|exact H].
  - destruct rest as [|c rest]; try done. destruct Htg as [<- ?]. eapply process_slash_refines; [exact Href|exact Hacc|done..|exact H].
Qed.

Lemma staking_instruction_refines {L : EnvLaws} {X : ExecLaws} data i pk y ta ta' :
  try_from_slice data = Some i -> stargets pk y (mkPState (ta_accounts ta) ta) i -> lrefines (ta_accounts ta) pk y ->
  lamports_ok (ta_accounts ta) -> is_pubkey (cx_program_id cx) ->
  execute cx (process_instruction cx data) ta = Ok ta' ->
  exists y', rtc (sstep now (signed cx)) y y' /\ lrefines (ta_accounts ta') pk y'.
Proof.
  intros Hde Htg Href Hok Hpid H. eapply execute_ledger; [exact X|exact (staking_safe data)|exact (staking_confined data)|done|done| |exact H].
  intros s' Hrun. by eapply process_instruction_refines.
Qed.

(** A position whose rewards cannot be settled is stuck. *)
Lemma settlement_fails s sk pa v pool e st rest amount u s' :
  cx_accounts cx = st :: sk :: pa :: rest -> holds (mem s) (ia_key sk) v -> holds (mem s) (ia_key pa) pool ->
  calculate_pending_rewards v pool = Err e ->
  process_unstake cx amount s <> Ok (u, s') /\ process_claim_rewards cx s <> Ok (u, s').
Proof.
  intros Hacc Hv Hp He. split; intros H.
  - unfold process_unstake, clock_from_account_info in H. rewrite Hacc in H. pinv. reads v. reads pool. congruence.
  - unfold process_claim_rewards in H. rewrite Hacc in H. pinv; reads v; reads pool; congruence.
Qed.
End Refinement.
