(* ===== verification/StakingTheorems.v ===== *)
(** * StakingTheorems: the properties of the staking program

    The theorems about [src/programs/staking/src/lib.rs], and the evaluation
    of the program on concrete accounts in the Borsh wire format. *)

From Stdlib Require Import Strings.Byte.
From S2P Require Import Prelude Borsh Accounts System Invoke Execution Concrete Cpi Ledger Staking StakingProofs.
Open Scope Z_scope.

(** ** The account data on the wire *)

Definition codec_staking_pool : codec StakingPool :=
  codec_iso
    (fun '(i, (a, (m, (t, (r, (s, (b, (w, (l, bm))))))))) => mkStakingPool i a m t r s b w l bm)
    (fun p => (sp_is_initialized p, (sp_authority p, (sp_st_prism_mint p, (sp_total_staked p,
      (sp_accumulated_reward_per_token p, (sp_total_slashed p, (sp_insurance_balance p, (sp_base_reward_rate_bps p,
      (sp_last_update_slot p, sp_bump p))))))))))
    (codec_pair codec_bool (codec_pair codec_pubkey (codec_pair codec_pubkey (codec_pair (codec_uint 8)
      (codec_pair (codec_uint 16) (codec_pair (codec_uint 8) (codec_pair (codec_uint 8) (codec_pair (codec_uint 8)
      (codec_pair (codec_uint 8) (codec_uint 1)))))))))).

Definition tiers : list LockTier := [Flexible; Locked30; Locked90; Locked180; Locked365].
Definition codec_tier : codec LockTier := codec_enum tiers.

Definition codec_stake : codec StakeAccount :=
  codec_iso
    (fun '(i, (o, (d, (a, (r, (p, (t, (s, (u, (ac, (ls, (m, (c, bm))))))))))))) => mkStake i o d a r p t s u ac ls m c bm)
    (fun k => (sk_is_initialized k, (sk_owner k, (sk_delegated_validator k, (sk_staked_amount k, (sk_reward_debt k,
      (sk_pending_rewards k, (sk_lock_tier k, (sk_stake_timestamp k, (sk_unlock_timestamp k, (sk_auto_compound k,
      (sk_liquid_staking k, (sk_st_prism_minted k, (sk_validator_commission_bps k, sk_bump k))))))))))))))
    (codec_pair codec_bool (codec_pair codec_pubkey (codec_pair codec_pubkey (codec_pair (codec_uint 8)
      (codec_pair (codec_uint 16) (codec_pair (codec_uint 8) (codec_pair codec_tier (codec_pair (codec_int 8)
      (codec_pair (codec_int 8) (codec_pair codec_bool (codec_pair codec_bool (codec_pair (codec_uint 8)
      (codec_pair (codec_uint 8) (codec_uint 1)))))))))))))).

Definition staking_instruction_index (i : StakingInstruction) : nat :=
  match i with
  | InitializePool _ => 0 | Stake _ _ _ _ => 1 | Unstake _ => 2 | ClaimRewards => 3 | Delegate _ _ => 4
  | ToggleAutoCompound => 5 | MintStPrism => 6 | BurnStPrism _ => 7 | Slash _ => 8 | UpdateRewards => 9
  end.

Definition codec_staking_instruction : codec StakingInstruction :=
  codec_variants
    [mkVariant (codec_uint 8) InitializePool (fun i => match i with InitializePool x => Some x | _ => None end);
     mkVariant (codec_pair (codec_uint 8) (codec_pair codec_tier (codec_pair codec_bool codec_bool)))
       (fun '(a, (t, (c, l))) => Stake a t c l)
       (fun i => match i with Stake a t c l => Some (a, (t, (c, l))) | _ => None end);
     mkVariant (codec_uint 8) Unstake (fun i => match i with Unstake x => Some x | _ => None end);
     mkVariant codec_unit (fun _ => ClaimRewards) (fun _ => Some tt);
     mkVariant (codec_pair codec_pubkey (codec_uint 8)) (fun '(v, c) => Delegate v c)
       (fun i => match i with Delegate v c => Some (v, c) | _ => None end);
     mkVariant codec_unit (fun _ => ToggleAutoCompound) (fun _ => Some tt);
     mkVariant codec_unit (fun _ => MintStPrism) (fun _ => Some tt);
     mkVariant (codec_uint 8) BurnStPrism (fun i => match i with BurnStPrism x => Some x | _ => None end);
     mkVariant (codec_uint 8) Slash (fun i => match i with Slash x => Some x | _ => None end);
     mkVariant codec_unit (fun _ => UpdateRewards) (fun _ => Some tt)]
    staking_instruction_index.

Lemma codec_tier_laws : codec_laws codec_tier.
Proof. apply codec_enum_laws; [repeat constructor; set_solver|simpl; lia]. Qed.
#[local] Hint Resolve codec_tier_laws : codec.
#[local] Hint Extern 1 (0 < _)%nat => lia : codec.

Lemma tier_in t : t ∈ tiers.
Proof. destruct t; set_solver. Qed.

Lemma codec_staking_pool_laws : codec_laws codec_staking_pool.
Proof. apply codec_iso_laws; [by intros []|by intros (?&?&?&?&?&?&?&?&?&?)|]. auto 20 with codec. Qed.
Lemma codec_staking_pool_size : c_size codec_staking_pool StakingPool_LEN.
Proof. codec_size. Qed.
Lemma codec_staking_pool_wf p : well_typed p <-> c_wf codec_staking_pool p.
Proof. unfold well_typed, StakingPool_well_typed. codec_wf. Qed.

Lemma codec_stake_laws : codec_laws codec_stake.
Proof. apply codec_iso_laws; [by intros []|by intros (?&?&?&?&?&?&?&?&?&?&?&?&?&?)|]. auto 20 with codec. Qed.
Lemma codec_stake_size : c_size codec_stake StakeAccount_LEN.
Proof. codec_size. Qed.
Lemma codec_stake_wf k : well_typed k <-> c_wf codec_stake k.
Proof. unfold well_typed, StakeAccount_well_typed. pose proof (tier_in (sk_lock_tier k)). codec_wf. Qed.

Lemma codec_staking_instruction_laws : codec_laws codec_staking_instruction.
Proof.
  apply codec_variants_laws; [simpl; lia|repeat apply Forall_cons_2; simpl; auto 10 with codec| |].
  - intros [|[|[|[|[|[|[|[|[|[|]]]]]]]]]] v a [= <-]; simpl in a;
      repeat match goal with x : _ * _ |- _ => destruct x | x : unit |- _ => destruct x end; done.
  - intros [] v a [= <-]; simpl; by intros [= <-].
Qed.
Lemma codec_staking_instruction_wf i : well_typed i <-> c_wf codec_staking_instruction i.
Proof. destruct i; unfold well_typed; simpl; try done; try (pose proof (tier_in lock_tier)); codec_wf. Qed.

#[global] Instance pool_borsh : Borsh StakingPool := borsh_of_codec codec_staking_pool.
#[global] Instance pool_borsh_laws : BorshLaws StakingPool := borsh_of_codec_laws _ codec_staking_pool_laws codec_staking_pool_wf.
#[global] Instance pool_borsh_sized : BorshSized StakingPool StakingPool_LEN :=
  borsh_of_codec_sized _ _ codec_staking_pool_size codec_staking_pool_wf.
#[global] Instance stake_borsh : Borsh StakeAccount := borsh_of_codec codec_stake.
#[global] Instance stake_borsh_laws : BorshLaws StakeAccount := borsh_of_codec_laws _ codec_stake_laws codec_stake_wf.
#[global] Instance stake_borsh_sized : BorshSized StakeAccount StakeAccount_LEN :=
  borsh_of_codec_sized _ _ codec_stake_size codec_stake_wf.
#[global] Instance staking_instruction_borsh : Borsh StakingInstruction := borsh_of_codec codec_staking_instruction.
#[global] Instance staking_instruction_borsh_laws : BorshLaws StakingInstruction :=
  borsh_of_codec_laws _ codec_staking_instruction_laws codec_staking_instruction_wf.

(** A pool (account 200, authority 300) with a position of 1000 lamports
    locked for 30 days (account 500, owner 400) and a flexible one of 500
    (account 600, owner 401). *)
Module StakeDemo.
Definition PROGRAM : Pubkey := 100.
Definition pool : StakingPool := mkStakingPool true 300 700 1500 SCALE 0 10 500 0 255.
Definition locked : StakeAccount :=
  mkStake true 400 0 1000 (1000 * SCALE) 100 Locked30 0 2592000 false true 0 0 255.
Definition flexible : StakeAccount := mkStake true 401 0 500 (500 * SCALE) 0 Flexible 0 0 false false 0 0 255.
(** The address of the position of wallet 400, still empty. *)
Definition fresh : Pubkey := derive [STAKE_SEED; key_bytes 400; [byte_of_Z 255]] PROGRAM.
Definition accounts : list (Pubkey * Account) :=
  [(fresh, empty_account);
   (200, mkAccount 1000000 (borsh_ser pool) PROGRAM false);
   (500, mkAccount 1000000 (borsh_ser locked) PROGRAM false);
   (600, mkAccount 1000000 (borsh_ser flexible) PROGRAM false);
   (300, mkAccount 5000 [] 0 false); (400, mkAccount 100000000 [] 0 false); (401, mkAccount 5000 [] 0 false);
   (6, mkAccount 1 [] 1 false); (0, mkAccount 1 [] 1 true)].
Definition ta : TransactionAccounts := mkTA (store accounts) 0 0.
Definition len (k : Pubkey) : Z := zlen (acc_data (get_acc (store accounts) k)).
Definition sys : ssys := mkLedger pool {[500 := locked; 600 := flexible]}.
Definition cx (t : Z) : Ctx := demo_ctx PROGRAM
  [mkIA 400 true true; mkIA 500 false true; mkIA 200 false true; mkIA 6 false false; mkIA 0 false false] t len.
Definition unstake_data : list byte := borsh_ser (Unstake 400).
Definition claim_data : list byte := borsh_ser ClaimRewards.

Lemma stake_lamports : lamports_ok (ta_accounts ta).
Proof. apply lamports_ok_store, (bool_decide_unpack _). by vm_compute. Qed.

Lemma stake_refines : lrefines (ta_accounts ta) 200 sys.
Proof.
  split; [by vm_compute|]. intros k v. unfold sys. cbn [lg_items].
  rewrite lookup_insert_Some, lookup_singleton_Some. intros [[<- <-]|[_ [<- <-]]]; by vm_compute.
Qed.

Lemma runs :
  is_ok (execute (cx 3000000) (process_instruction (cx 3000000) unstake_data) ta) &&
  is_ok (execute (cx 1000) (process_instruction (cx 1000) claim_data) ta) = true.
Proof. vm_compute. reflexivity. Qed.

Definition state : PState := mkPState (store accounts) ta.
Definition slash_cx : Ctx := demo_ctx PROGRAM [mkIA 300 true true; mkIA 500 false true; mkIA 200 false true] 0 len.
Definition open_cx : Ctx := demo_ctx PROGRAM
  [mkIA 400 true true; mkIA fresh false true; mkIA 200 false true; mkIA 6 false false; mkIA 0 false false] 0 len.
Definition open_stake : M unit :=
  create_stake open_cx (mkIA 400 true true) (mkIA fresh false true) (mkIA 0 false false) 255 1000 Locked365 false false 0.

Lemma handlers_run : is_ok (process_slash slash_cx 100 state) && is_ok (open_stake state) = true.
Proof. vm_compute. reflexivity. Qed.

Lemma open_ready : create_ready open_cx state 400 fresh (mkAccount 100000000 [] 0 false) empty_account.
Proof. split; evaluate. Qed.

Lemma keys t : Forall (fun ia => is_pubkey (ia_key ia)) (cx_accounts (cx t)).
Proof. apply (bool_decide_unpack _). by vm_compute. Qed.

Lemma not_authority t : ~ signed (cx t) (sp_authority pool).
Proof.
  intros (ia & Hin & Hk & _). unfold cx, demo_ctx in Hin. cbn [cx_accounts] in Hin.
  rewrite !elem_of_cons, elem_of_nil in Hin. naive_solver.
Qed.
End StakeDemo.

(** ** Properties *)

Section Properties.
Context {E : Env} {BP : Borsh StakingPool} {BK : Borsh StakeAccount} {BI : Borsh StakingInstruction}.
Context {LP : BorshLaws StakingPool} {LK : BorshLaws StakeAccount} {LI : BorshLaws StakingInstruction}.
Context {ZP : BorshSized StakingPool StakingPool_LEN} {ZK : BorshSized StakeAccount StakeAccount_LEN}.
Context {L : EnvLaws} {X : ExecLaws} (cx : Ctx).


(** C19. Before its unlock time a position loses nothing: whatever instruction
    succeeds, unless the pool's authority signs it, the position is still
    there afterwards, with the same owner and unlock time and at least the
    same stake. *)
Theorem locked_stake_safe data instruction pk y ta ta' k v :
  is_i64 (unix_timestamp (cx_clock cx)) /\ is_u64 (clk_slot (cx_clock cx)) ->
  Forall (fun ia => is_pubkey (ia_key ia)) (cx_accounts cx) -> is_pubkey (cx_program_id cx) ->
  try_from_slice data = Some instruction -> stargets cx pk y (mkPState (ta_accounts ta) ta) instruction ->
  lrefines (ta_accounts ta) pk y -> lamports_ok (ta_accounts ta) ->
  lg_items y !! k = Some v -> 0 < sk_unlock_timestamp v -> unix_timestamp (cx_clock cx) < sk_unlock_timestamp v ->
  ~ signed cx (sp_authority (lg_root y)) ->
  execute cx (process_instruction cx data) ta = Ok ta' ->
  exists v', holds (ta_accounts ta') k v' /\ sk_owner v' = sk_owner v /\ sk_unlock_timestamp v' = sk_unlock_timestamp v /\
    sk_staked_amount v <= sk_staked_amount v'.
Proof.
  intros Hc Hks Hp Hde Htg Href Hok Hk H0 Hn Ha H. eapply staking_instruction_refines in H as (y' & Hs & Hy'); try done.
  destruct (locked_steps _ _ _ _ _ _ Hs Ha Hk H0 Hn) as (v' & Hk' & ? & ? & ?). exists v'. split; [by apply Hy'|done].
Qed.

(** A slash locks the position it leaves: the reward debt is not reduced
    with the stake, so that for a position whose rewards were settled every
    later withdrawal and claim, whoever runs it, fails. *)
Theorem slash_locks_position s s' au sk pa rest pool v amount :
  cx_accounts cx = au :: sk :: pa :: rest ->
  holds (mem s) (ia_key pa) pool -> holds (mem s) (ia_key sk) v ->
  sk_reward_debt v = sk_staked_amount v * sp_accumulated_reward_per_token pool ->
  0 < sp_accumulated_reward_per_token pool ->
  sp_insurance_balance pool < amount < sk_staked_amount v ->
  process_slash cx amount s = Ok (tt, s') ->
  forall cx2 st rest2 a u s2, cx_accounts cx2 = st :: sk :: pa :: rest2 ->
    process_unstake cx2 a s' <> Ok (u, s2) /\ process_claim_rewards cx2 s' <> Ok (u, s2).
Proof.
  intros Hacc Hp Hv Hdebt Hpos Hamt H.
  assert (Hne : ia_key sk <> ia_key pa).
  { intros Heq. pose proof (holds_zlen _ _ _ Hv) as Z1. pose proof (holds_zlen _ _ _ Hp) as Z2. by rewrite Heq, Z2 in Z1. }
  apply holds_well_typed in Hv as Wv. apply holds_well_typed in Hp as Wp.
  unfold process_slash, ovf in H. rewrite Hacc in H. pinv. bool_to_prop. reads v. reads pool.
  cbn [mem rt] in *. match goal with |- context [stored ?p (ia_key pa) (stored ?w (ia_key sk) _)] => set (pool' := p) in *; set (v' := w) in * end.
  destruct Wv as (?&?&?&?&?&?&?&?&?&?). destruct Wp as (?&?&?&?&?&?&?&?&?).
  assert (Wv' : well_typed v') by (by split_and!). assert (Wp' : well_typed pool') by (by split_and!).
  assert (Hfail : calculate_pending_rewards v' pool' = Err (into Overflow)).
  { apply calculate_pending_rewards_debt; [done..| |]; simpl; [ilia|]. rewrite Hdebt. unfold_ints. nia. }
  assert (Hv2 : holds (stored pool' (ia_key pa) (stored v' (ia_key sk) (mem s))) (ia_key sk) v').
  { rewrite holds_stored_ne by done. apply holds_stored; [|done]. exact (holds_zlen _ _ _ Hv). }
  assert (Hp2 : holds (stored pool' (ia_key pa) (stored v' (ia_key sk) (mem s))) (ia_key pa) pool').
  { apply holds_stored; [|done]. rewrite stored_ne by done. exact (holds_zlen _ _ _ Hp). }
  intros cx2 st rest2 a u s2 Hacc2. by eapply settlement_fails.
Qed.

(** The rewards of a position: with the accumulator at or above its debt
    and the products within 128 bits, they are the staked amount times the
    growth of the accumulator, rounded down to whole lamports, weighted by the
    lock tier, less the validator's commission, and cut to 64 bits.  With the
    accumulator below its debt they are an overflow. *)
Theorem pending_rewards_exact stake pool :
  well_typed stake -> well_typed pool -> 0 < sk_staked_amount stake ->
  (pending_ok stake pool ->
   calculate_pending_rewards stake pool = Ok (as_u64 (net_pending stake (sp_accumulated_reward_per_token pool)))) /\
  (sk_staked_amount stake * sp_accumulated_reward_per_token pool < sk_reward_debt stake ->
   calculate_pending_rewards stake pool = Err (into Overflow)).
Proof. intros Wk Wp Hs. split; intros; [by apply calculate_pending_rewards_spec|by apply calculate_pending_rewards_debt]. Qed.

(** An update of the accumulator distributes the emission of the elapsed
    slots, up to less than one unit of the accumulator: the accumulator never
    falls, and its growth times the total stake is the scaled emission, short
    of at most one unit per staked lamport. *)
Theorem accrual_exact pool slots acc :
  well_typed pool -> 0 < sp_total_staked pool -> 0 <= slots -> accrue pool slots = Ok acc ->
  let d := acc - sp_accumulated_reward_per_token pool in
  is_u128 acc /\ 0 <= d /\ d * sp_total_staked pool <= emission pool slots * SCALE < (d + 1) * sp_total_staked pool.
Proof. apply accrue_spec. Qed.

(** A new position earns the rewards of the past: whatever the accumulator
    has reached when it is opened, its whole value times the stake is pending
    at once, because the position starts without a reward debt. *)
Theorem new_stake_earns_past_rewards st sk sys bump amount tier auto liquid s s' af at_ pool :
  is_i64 (unix_timestamp (cx_clock cx)) /\ is_u64 (clk_slot (cx_clock cx)) ->
  create_ready cx s (ia_key st) (ia_key sk) af at_ -> is_pubkey (ia_key st) -> is_pubkey (cx_program_id cx) ->
  is_u64 amount -> 0 < amount -> is_u8 bump -> well_typed pool ->
  amount * sp_accumulated_reward_per_token pool * 5 <= U128_MAX ->
  create_stake cx st sk sys bump amount tier auto liquid (unix_timestamp (cx_clock cx)) s = Ok (tt, s') ->
  exists v, holds (mem s') (ia_key sk) v /\ sk_staked_amount v = amount /\
    calculate_pending_rewards v pool =
    Ok (as_u64 (amount * sp_accumulated_reward_per_token pool / SCALE * reward_multiplier_bps tier / BPS_DENOMINATOR)).
Proof.
  intros Hc R Hst Hpid Ha Hpos Hb Wp Hfit H.
  eapply create_stake_effect in H as (Hv & _ & _); try done. eexists. split; [exact Hv|]. split; [done|].
  pose proof (multiplier_range tier). destruct Wp as (?&?&?&?&?&?&?&?&?) eqn:HW. clear HW.
  set (acc := sp_accumulated_reward_per_token pool) in *.
  assert (0 <= amount * acc) by (unfold_ints; nia).
  assert (Hdiv : amount * acc / SCALE <= amount * acc / 1000000) by (apply Z.div_le_compat_l; unfold SCALE; lia).
  assert (1000000 * (amount * acc / 1000000) <= amount * acc) by (apply Z.mul_div_le; lia).
  assert (0 <= amount * acc / SCALE) by (apply Z.div_pos; [lia|done]).
  rewrite calculate_pending_rewards_spec; [|by eapply holds_well_typed|done|done|].
  - unfold net_pending, gross_pending, delegated. simpl. by rewrite Z.sub_0_r.
  - split; simpl; fold acc; rewrite ?Z.sub_0_r; [lia|unfold_ints; lia|unfold_ints; nia|done].
Qed.
End Properties.


Lemma locked_stake_safe_witness : exists ta' v',
  execute (StakeDemo.cx 1000) (process_instruction (StakeDemo.cx 1000) StakeDemo.claim_data) StakeDemo.ta = Ok ta' /\
  holds (ta_accounts ta') 500 v' /\ 1000 <= sk_staked_amount v'.
Proof.
  destruct (execute (StakeDemo.cx 1000) (process_instruction (StakeDemo.cx 1000) StakeDemo.claim_data) StakeDemo.ta)
    as [ta'|e] eqn:Hrun; [|pose proof StakeDemo.runs as Hk; rewrite Hrun, andb_false_r in Hk; discriminate Hk].
  destruct (locked_stake_safe (StakeDemo.cx 1000) StakeDemo.claim_data ClaimRewards 200 StakeDemo.sys StakeDemo.ta ta' 500 StakeDemo.locked)
    as (v' & Hh & _ & _ & Hs); [evaluate|exact (StakeDemo.keys _)|evaluate|by vm_compute| |exact StakeDemo.stake_refines|
      exact StakeDemo.stake_lamports|by vm_compute|by vm_compute|by vm_compute| |exact Hrun|].
  - split; [done|]. by eexists; vm_compute.
  - exact (StakeDemo.not_authority 1000).
  - exists ta', v'. exact (conj eq_refl (conj Hh Hs)).
Defined.

Lemma slash_locks_position_witness : exists s',
  process_slash StakeDemo.slash_cx 100 StakeDemo.state = Ok (tt, s') /\
  forall s2, process_unstake (StakeDemo.cx 3000000) 1 s' <> Ok (tt, s2).
Proof.
  destruct (process_slash StakeDemo.slash_cx 100 StakeDemo.state) as [[[] s']|e] eqn:Hrun;
    [|pose proof StakeDemo.handlers_run as Hk; rewrite Hrun in Hk; discriminate Hk].
  exists s'. split; [exact eq_refl|]. intros s2.
  refine (proj1 (slash_locks_position StakeDemo.slash_cx StakeDemo.state s' (mkIA 300 true true) (mkIA 500 false true)
    (mkIA 200 false true) [] StakeDemo.pool StakeDemo.locked 100 _ _ _ _ _ _ Hrun (StakeDemo.cx 3000000)
    (mkIA 400 true true) _ 1 tt s2 _)); clear Hrun; evaluate.
Defined.

Lemma pending_rewards_exact_witness :
  calculate_pending_rewards StakeDemo.locked (pool_with_rewards (3 * SCALE) 0 StakeDemo.pool) = Ok 3000.
Proof.
  rewrite (proj1 (pending_rewards_exact StakeDemo.locked (pool_with_rewards (3 * SCALE) 0 StakeDemo.pool)
    ltac:(evaluate) ltac:(evaluate) ltac:(evaluate))); [by vm_compute|]. split; [evaluate..|]. by intros ?.
Defined.

Lemma accrual_exact_witness : exists acc, accrue StakeDemo.pool SLOTS_PER_YEAR = Ok acc /\
  (acc - SCALE) * 1500 <= 75 * SCALE < (acc - SCALE + 1) * 1500.
Proof.
  eexists. split; [vm_compute; reflexivity|].
  refine (proj2 (proj2 (accrual_exact StakeDemo.pool SLOTS_PER_YEAR _ _ _ _ _))); [evaluate..|vm_compute; reflexivity].
Defined.

Lemma new_stake_earns_past_rewards_witness : exists s' v,
  StakeDemo.open_stake StakeDemo.state = Ok (tt, s') /\ holds (mem s') StakeDemo.fresh v /\
  calculate_pending_rewards v StakeDemo.pool = Ok 5000.
Proof.
  destruct (StakeDemo.open_stake StakeDemo.state) as [[[] s']|e] eqn:Hrun;
    [|pose proof StakeDemo.handlers_run as Hk; rewrite Hrun, andb_false_r in Hk; discriminate Hk].
  destruct (new_stake_earns_past_rewards StakeDemo.open_cx (mkIA 400 true true) (mkIA StakeDemo.fresh false true)
    (mkIA 0 false false) 255 1000 Locked365 false false StakeDemo.state s'
    (mkAccount 100000000 [] 0 false) empty_account StakeDemo.pool) as (v & Hv & _ & Hc);
    [evaluate|exact StakeDemo.open_ready|evaluate..|exact Hrun|].
  exists s', v. split; [exact eq_refl|]. split; [exact Hv|]. rewrite Hc. clear. by vm_compute.
Defined.
