(* ===== verification/Pusd.v ===== *)
(** * Pusd: the PUSD stablecoin program

    Models [src/programs/pusd-stablecoin/src/lib.rs]: the global configuration,
    the collateral vaults, the stability fee, the collateral ratio and the
    eight instructions.  Log output is not modelled. *)

From Stdlib Require Import Strings.Byte Strings.String.
From S2P Require Import Prelude Borsh Accounts System Invoke Execution Cpi.
Open Scope Z_scope.

(** ** Constants and data *)

Definition MIN_COLLATERAL_RATIO_BPS : Z := 15000.
Definition LIQUIDATION_THRESHOLD_BPS : Z := 12000.
Definition LIQUIDATION_PENALTY_BPS : Z := 1000.
Definition STABILITY_FEE_ANNUAL_BPS : Z := 200.
Definition BPS_DENOMINATOR : Z := 10000.
Definition SECONDS_PER_YEAR : Z := 31557600.
Definition MIN_DEBT : Z := 10000000.
Definition CONFIG_SEED : list byte := list_byte_of_string "pusd_config".
Definition VAULT_SEED : list byte := list_byte_of_string "pusd_vault".
Definition COLLATERAL_SEED : list byte := list_byte_of_string "pusd_collateral".

Record PusdConfig := mkConfig {
  pc_is_initialized : bool;
  pc_admin : Pubkey;
  pc_oracle_feed : Pubkey;
  pc_pusd_mint : Pubkey;
  pc_total_pusd_supply : Z;
  pc_total_collateral_locked : Z;
  pc_total_vaults : Z;
  pc_total_fees_collected : Z;
  pc_is_active : bool;
  pc_bump : Z;
}.
(** The space [process_initialize] asks for. *)
Definition CONFIG_SPACE : Z := 1 + 32 + 32 + 32 + 8 + 8 + 8 + 8 + 1 + 1.

Record Vault := mkVault {
  va_is_initialized : bool;
  va_owner : Pubkey;
  va_collateral : Z;
  va_debt : Z;
  va_accrued_fee : Z;
  va_last_fee_update : Z;
  va_created_at : Z;
  va_bump : Z;
  va_nonce : Z;
}.
(** The space [process_open_vault] asks for. *)
Definition VAULT_SPACE : Z := 1 + 32 + 8 + 8 + 8 + 8 + 8 + 1 + 8.

Inductive PusdInstruction :=
| Initialize (oracle_feed pusd_mint : Pubkey)
| OpenVault (collateral_amount nonce : Z)
| DepositCollateral (amount : Z)
| MintPusd (amount : Z)
| BurnPusd (amount : Z)
| WithdrawCollateral (amount : Z)
| Liquidate
| Redeem (pusd_amount : Z).

Inductive PusdError :=
| AlreadyInitialized | NotInitialized | BelowMinCollateralRatio | NotLiquidatable | InvalidAmount | BelowMinDebt
| WithdrawalWouldUndercollateralize | BurnExceedsDebt | Unauthorized | Overflow | InvalidPDA | InvalidOraclePrice
| InsufficientCollateral | RedemptionExceedsCollateral.

Definition into (e : PusdError) : InstructionError :=
  Custom match e with
  | AlreadyInitialized => 0 | NotInitialized => 1 | BelowMinCollateralRatio => 2 | NotLiquidatable => 3
  | InvalidAmount => 4 | BelowMinDebt => 5 | WithdrawalWouldUndercollateralize => 6 | BurnExceedsDebt => 7
  | Unauthorized => 8 | Overflow => 9 | InvalidPDA => 10 | InvalidOraclePrice => 11 | InsufficientCollateral => 12
  | RedemptionExceedsCollateral => 13
  end.

#[global] Instance PusdConfig_well_typed : WellTyped PusdConfig := fun c =>
  is_pubkey (pc_admin c) /\ is_pubkey (pc_oracle_feed c) /\ is_pubkey (pc_pusd_mint c) /\
  is_u64 (pc_total_pusd_supply c) /\ is_u64 (pc_total_collateral_locked c) /\ is_u64 (pc_total_vaults c) /\
  is_u64 (pc_total_fees_collected c) /\ is_u8 (pc_bump c).
#[global] Instance Vault_well_typed : WellTyped Vault := fun v =>
  is_pubkey (va_owner v) /\ is_u64 (va_collateral v) /\ is_u64 (va_debt v) /\ is_u64 (va_accrued_fee v) /\
  is_i64 (va_last_fee_update v) /\ is_i64 (va_created_at v) /\ is_u8 (va_bump v) /\ is_u64 (va_nonce v).
#[global] Instance PusdInstruction_well_typed : WellTyped PusdInstruction := fun i =>
  match i with
  | Initialize oracle_feed pusd_mint => is_pubkey oracle_feed /\ is_pubkey pusd_mint
  | OpenVault collateral_amount nonce => is_u64 collateral_amount /\ is_u64 nonce
  | DepositCollateral x | MintPusd x | BurnPusd x | WithdrawCollateral x | Redeem x => is_u64 x
  | Liquidate => True
  end.

(** Field updates. *)
Definition config_with (supply collateral vaults fees : Z) (c : PusdConfig) : PusdConfig :=
  mkConfig (pc_is_initialized c) (pc_admin c) (pc_oracle_feed c) (pc_pusd_mint c) supply collateral vaults fees
    (pc_is_active c) (pc_bump c).
Definition with_collateral (x : Z) (v : Vault) : Vault :=
  mkVault (va_is_initialized v) (va_owner v) x (va_debt v) (va_accrued_fee v) (va_last_fee_update v) (va_created_at v)
    (va_bump v) (va_nonce v).
Definition with_debt (debt fee : Z) (v : Vault) : Vault :=
  mkVault (va_is_initialized v) (va_owner v) (va_collateral v) debt fee (va_last_fee_update v) (va_created_at v)
    (va_bump v) (va_nonce v).
Definition with_fee_update (fee t : Z) (v : Vault) : Vault :=
  mkVault (va_is_initialized v) (va_owner v) (va_collateral v) (va_debt v) fee t (va_created_at v) (va_bump v) (va_nonce v).

(** ** Vaults *)

Definition ovf {A} (o : option A) : result InstructionError A := ok_or o (into Overflow).

Definition total_debt (v : Vault) : Z := u64_saturating_add (va_debt v) (va_accrued_fee v).

Definition collateral_ratio_bps (v : Vault) (prism_price : Z) : result InstructionError Z :=
  if va_debt v =? 0 then Ok U64_MAX else
  (let? collateral_value := ovf (u128_checked_mul (va_collateral v) prism_price) in
   let? debt_value := ovf (u128_checked_mul (total_debt v) 1000000000) in
   let? product := ovf (u128_checked_mul collateral_value BPS_DENOMINATOR) in
   let? ratio := ovf (u128_checked_div product debt_value) in
   Ok (as_u64 ratio))%result.

Definition accrue_fee (v : Vault) (current_timestamp : Z) : Vault :=
  if (va_debt v =? 0) || (current_timestamp <=? va_last_fee_update v) then v else
  let elapsed := as_u64 (as_i64 (current_timestamp - va_last_fee_update v)) in
  let fee := as_u64 (default 0
    (x ← u128_checked_mul (va_debt v) STABILITY_FEE_ANNUAL_BPS;
     x ← u128_checked_mul x elapsed;
     x ← u128_checked_div x SECONDS_PER_YEAR;
     u128_checked_div x BPS_DENOMINATOR)) in
  with_fee_update (u64_saturating_add (va_accrued_fee v) fee) current_timestamp v.

Definition usd_to_prism (usd_amount prism_price : Z) : result InstructionError Z :=
  (let? product := ovf (u128_checked_mul usd_amount 100000000000) in
   let? prism := ovf (u128_checked_div product prism_price) in
   Ok (as_u64 prism))%result.

Definition read_oracle_price (data : list byte) : result InstructionError Z :=
  if zlen data <? 8 then Err (into InvalidOraclePrice) else
  let price := le_val (take 8 data) in
  if price =? 0 then Err (into InvalidOraclePrice) else Ok price.

(** A payment of [amount] against the fee first and the principal then; [sub]
    is the subtraction the caller uses for the principal. *)
Definition pay_debt (sub : Z -> Z -> result InstructionError Z) (amount : Z) (v : Vault) : result InstructionError Vault :=
  if amount <=? va_accrued_fee v then
    (let? fee := ok_or (u64_checked_sub (va_accrued_fee v) amount) ProgramFailedToComplete in
     Ok (with_debt (va_debt v) fee v))%result
  else
    (let? remaining := ok_or (u64_checked_sub amount (va_accrued_fee v)) ProgramFailedToComplete in
     let? debt := sub (va_debt v) remaining in
     Ok (with_debt debt 0 v))%result.

(** ** Instructions *)

Section Pusd.
Context {E : Env} {BC : Borsh PusdConfig} {BV : Borsh Vault} {BI : Borsh PusdInstruction}.
Variable cx : Ctx.

Definition process_initialize (oracle_feed pusd_mint : Pubkey) : M unit :=
  (let! '(admin, it) := next_account_info (cx_accounts cx) in
   let! '(config_account, it) := next_account_info it in
   let! '(_oracle_account, it) := next_account_info it in
   let! '(_mint_account, it) := next_account_info it in
   let! '(system_program, it) := next_account_info it in
   fail_if (negb (ia_is_signer admin)) MissingRequiredSignature ;;
   let '(config_pda, config_bump) := find_program_address [CONFIG_SEED] (cx_program_id cx) in
   fail_if (negb (config_pda =? ia_key config_account)) (into InvalidPDA) ;;
   let space := CONFIG_SPACE in
   let lamports := minimum_balance space in
   invoke_signed cx
     (create_account_ix (ia_key admin) (ia_key config_account) lamports space (cx_program_id cx))
     [admin; config_account; system_program]
     [[CONFIG_SEED; [byte_of_Z config_bump]]] ;;
   serialize_into (mkConfig true (ia_key admin) oracle_feed pusd_mint 0 0 0 0 true config_bump) config_account)%prog.

Definition process_open_vault (collateral_amount nonce : Z) : M unit :=
  (let! '(owner, it) := next_account_info (cx_accounts cx) in
   let! '(config_account, it) := next_account_info it in
   let! '(vault_account, it) := next_account_info it in
   let! '(collateral_pool, it) := next_account_info it in
   let! '(system_program, it) := next_account_info it in
   fail_if (negb (ia_is_signer owner)) MissingRequiredSignature ;;
   fail_if (collateral_amount =? 0) (into InvalidAmount) ;;
   let! ca := account config_account in
   fail_if (negb (acc_owner ca =? cx_program_id cx)) IncorrectProgramId ;;
   let! config := load PusdConfig config_account BorshIoError in
   fail_if (negb (pc_is_initialized config) || negb (pc_is_active config)) (into NotInitialized) ;;
   let nonce_bytes := le_bytes 8 nonce in
   let '(vault_pda, vault_bump) :=
     find_program_address [VAULT_SEED; key_bytes (ia_key owner); nonce_bytes] (cx_program_id cx) in
   fail_if (negb (vault_pda =? ia_key vault_account)) (into InvalidPDA) ;;
   let '(collateral_pda, collateral_bump) :=
     find_program_address [COLLATERAL_SEED; key_bytes (ia_key vault_account)] (cx_program_id cx) in
   fail_if (negb (collateral_pda =? ia_key collateral_pool)) (into InvalidPDA) ;;
   let! clock := clock_get cx in
   let vault_space := VAULT_SPACE in
   let vault_lamports := minimum_balance vault_space in
   invoke_signed cx
     (create_account_ix (ia_key owner) (ia_key vault_account) vault_lamports vault_space (cx_program_id cx))
     [owner; vault_account; system_program]
     [[VAULT_SEED; key_bytes (ia_key owner); nonce_bytes; [byte_of_Z vault_bump]]] ;;
   invoke_signed cx
     (create_account_ix (ia_key owner) (ia_key collateral_pool) collateral_amount 0 (cx_program_id cx))
     [owner; collateral_pool; system_program]
     [[COLLATERAL_SEED; key_bytes (ia_key vault_account); [byte_of_Z collateral_bump]]] ;;
   serialize_into
     (mkVault true (ia_key owner) collateral_amount 0 0 (unix_timestamp clock) (unix_timestamp clock) vault_bump nonce)
     vault_account ;;
   let! locked := lift (ovf (u64_checked_add (pc_total_collateral_locked config) collateral_amount)) in
   let! vaults := lift (ovf (u64_checked_add (pc_total_vaults config) 1)) in
   serialize_into (config_with (pc_total_pusd_supply config) locked vaults (pc_total_fees_collected config) config)
     config_account)%prog.

(** The vault of an instruction, in an account of the program. *)
Definition load_vault (vault_account : AccountInfo) : M Vault :=
  (let! a := account vault_account in
   fail_if (negb (acc_owner a =? cx_program_id cx)) IncorrectProgramId ;;
   let! vault := load Vault vault_account BorshIoError in
   fail_if (negb (va_is_initialized vault)) (into NotInitialized) ;;
   pret vault)%prog.

Definition process_deposit_collateral (amount : Z) : M unit :=
  (let! '(owner, it) := next_account_info (cx_accounts cx) in
   let! '(vault_account, it) := next_account_info it in
   let! '(collateral_pool, it) := next_account_info it in
   let! '(config_account, it) := next_account_info it in
   let! '(system_program, it) := next_account_info it in
   fail_if (negb (ia_is_signer owner)) MissingRequiredSignature ;;
   fail_if (amount =? 0) (into InvalidAmount) ;;
   let! vault := load_vault vault_account in
   fail_if (negb (va_owner vault =? ia_key owner)) (into Unauthorized) ;;
   invoke_signed cx (transfer_ix (ia_key owner) (ia_key collateral_pool) amount)
     [owner; collateral_pool; system_program] [] ;;
   let! collateral := lift (ovf (u64_checked_add (va_collateral vault) amount)) in
   serialize_into (with_collateral collateral vault) vault_account ;;
   let! config := load PusdConfig config_account BorshIoError in
   let! locked := lift (ovf (u64_checked_add (pc_total_collateral_locked config) amount)) in
   serialize_into
     (config_with (pc_total_pusd_supply config) locked (pc_total_vaults config) (pc_total_fees_collected config) config)
     config_account)%prog.

Definition process_mint_pusd (amount : Z) : M unit :=
  (let! '(owner, it) := next_account_info (cx_accounts cx) in
   let! '(vault_account, it) := next_account_info it in
   let! '(config_account, it) := next_account_info it in
   let! '(oracle_account, it) := next_account_info it in
   let! '(_pusd_mint, it) := next_account_info it in
   let! '(_owner_pusd_account, it) := next_account_info it in
   let! '(_mint_authority, it) := next_account_info it in
   let! '(_token_program, it) := next_account_info it in
   fail_if (negb (ia_is_signer owner)) MissingRequiredSignature ;;
   fail_if (amount =? 0) (into InvalidAmount) ;;
   let! vault := load_vault vault_account in
   fail_if (negb (va_owner vault =? ia_key owner)) (into Unauthorized) ;;
   let! clock := clock_get cx in
   let vault := accrue_fee vault (unix_timestamp clock) in
   let! new_debt := lift (ovf (u64_checked_add (va_debt vault) amount)) in
   let! oa := account oracle_account in
   let! prism_price := lift (read_oracle_price (acc_data oa)) in
   let temp_vault := with_debt new_debt (va_accrued_fee vault) vault in
   let! ratio := lift (collateral_ratio_bps temp_vault prism_price) in
   fail_if (ratio <? MIN_COLLATERAL_RATIO_BPS) (into BelowMinCollateralRatio) ;;
   fail_if (new_debt <? MIN_DEBT) (into BelowMinDebt) ;;
   serialize_into (with_debt new_debt (va_accrued_fee vault) vault) vault_account ;;
   let! config := load PusdConfig config_account BorshIoError in
   let! supply := lift (ovf (u64_checked_add (pc_total_pusd_supply config) amount)) in
   serialize_into
     (config_with supply (pc_total_collateral_locked config) (pc_total_vaults config) (pc_total_fees_collected config) config)
     config_account)%prog.

Definition process_burn_pusd (amount : Z) : M unit :=
  (let! '(owner, it) := next_account_info (cx_accounts cx) in
   let! '(vault_account, it) := next_account_info it in
   let! '(config_account, it) := next_account_info it in
   let! '(_owner_pusd_account, it) := next_account_info it in
   let! '(_pusd_mint, it) := next_account_info it in
   let! '(_token_program, it) := next_account_info it in
   fail_if (negb (ia_is_signer owner)) MissingRequiredSignature ;;
   fail_if (amount =? 0) (into InvalidAmount) ;;
   let! vault := load_vault vault_account in
   fail_if (negb (va_owner vault =? ia_key owner)) (into Unauthorized) ;;
   let! clock := clock_get cx in
   let vault := accrue_fee vault (unix_timestamp clock) in
   fail_if (total_debt vault <? amount) (into BurnExceedsDebt) ;;
   let! vault := lift (pay_debt (fun d r => ok_or (u64_checked_sub d r) ProgramFailedToComplete) amount vault) in
   fail_if ((0 <? va_debt vault) && (va_debt vault <? MIN_DEBT)) (into BelowMinDebt) ;;
   serialize_into vault vault_account ;;
   let! config := load PusdConfig config_account BorshIoError in
   let fees := u64_saturating_add (pc_total_fees_collected config)
                 (Z.min amount (u64_saturating_add (va_accrued_fee vault) amount)) in
   serialize_into
     (config_with (u64_saturating_sub (pc_total_pusd_supply config) amount) (pc_total_collateral_locked config)
        (pc_total_vaults config) fees config)
     config_account)%prog.

(** [amount] lamports of the pool, which held [pool_balance], to [party]. *)
Definition pay_out (collateral_pool party : AccountInfo) (pool_balance amount : Z) : M unit :=
  (let! left := lift (ovf (u64_checked_sub pool_balance amount)) in
   write_lamports collateral_pool left ;;
   let! p := account party in
   let! received := lift (ovf (u64_checked_add (acc_lamports p) amount)) in
   write_lamports party received)%prog.

Definition process_withdraw_collateral (amount : Z) : M unit :=
  (let! '(owner, it) := next_account_info (cx_accounts cx) in
   let! '(vault_account, it) := next_account_info it in
   let! '(config_account, it) := next_account_info it in
   let! '(collateral_pool, it) := next_account_info it in
   let! '(oracle_account, it) := next_account_info it in
   let! '(_system_program, it) := next_account_info it in
   fail_if (negb (ia_is_signer owner)) MissingRequiredSignature ;;
   fail_if (amount =? 0) (into InvalidAmount) ;;
   let! vault := load_vault vault_account in
   fail_if (negb (va_owner vault =? ia_key owner)) (into Unauthorized) ;;
   fail_if (va_collateral vault <? amount) (into InsufficientCollateral) ;;
   let! clock := clock_get cx in
   let vault := accrue_fee vault (unix_timestamp clock) in
   (if 0 <? total_debt vault then
      let! oa := account oracle_account in
      let! prism_price := lift (read_oracle_price (acc_data oa)) in
      let! new_collateral := lift (ovf (u64_checked_sub (va_collateral vault) amount)) in
      let! ratio := lift (collateral_ratio_bps (with_collateral new_collateral vault) prism_price) in
      fail_if (ratio <? MIN_COLLATERAL_RATIO_BPS) (into WithdrawalWouldUndercollateralize)
    else pret tt) ;;
   let! pa := account collateral_pool in
   let pool_balance := acc_lamports pa in
   fail_if (pool_balance <? amount) (into InsufficientCollateral) ;;
   pay_out collateral_pool owner pool_balance amount ;;
   let! collateral := lift (ok_or (u64_checked_sub (va_collateral vault) amount) ProgramFailedToComplete) in
   serialize_into (with_collateral collateral vault) vault_account ;;
   let! config := load PusdConfig config_account BorshIoError in
   serialize_into
     (config_with (pc_total_pusd_supply config) (u64_saturating_sub (pc_total_collateral_locked config) amount)
        (pc_total_vaults config) (pc_total_fees_collected config) config)
     config_account)%prog.

(** The collateral a liquidation may seize. *)
Definition seizable (debt prism_price collateral : Z) : result InstructionError Z :=
  (let? debt_in_prism := usd_to_prism debt prism_price in
   let? product := ovf (u128_checked_mul debt_in_prism LIQUIDATION_PENALTY_BPS) in
   let? quotient := ovf (u128_checked_div product BPS_DENOMINATOR) in
   let penalty := as_u64 quotient in
   Ok (Z.min (u64_saturating_add debt_in_prism penalty) collateral))%result.

Definition process_liquidate : M unit :=
  (let! '(liquidator, it) := next_account_info (cx_accounts cx) in
   let! '(vault_account, it) := next_account_info it in
   let! '(config_account, it) := next_account_info it in
   let! '(collateral_pool, it) := next_account_info it in
   let! '(oracle_account, it) := next_account_info it in
   let! '(_liquidator_pusd, it) := next_account_info it in
   let! '(_pusd_mint, it) := next_account_info it in
   let! '(_token_program, it) := next_account_info it in
   let! '(_system_program, it) := next_account_info it in
   fail_if (negb (ia_is_signer liquidator)) MissingRequiredSignature ;;
   let! vault := load_vault vault_account in
   let! clock := clock_get cx in
   let vault := accrue_fee vault (unix_timestamp clock) in
   let! oa := account oracle_account in
   let! prism_price := lift (read_oracle_price (acc_data oa)) in
   let! ratio := lift (collateral_ratio_bps vault prism_price) in
   fail_if (LIQUIDATION_THRESHOLD_BPS <=? ratio) (into NotLiquidatable) ;;
   let debt := total_debt vault in
   let! total_seize := lift (seizable debt prism_price (va_collateral vault)) in
   let! pa := account collateral_pool in
   let pool_balance := acc_lamports pa in
   let seize_amount := Z.min total_seize pool_balance in
   pay_out collateral_pool liquidator pool_balance seize_amount ;;
   let remaining_collateral := u64_saturating_sub (va_collateral vault) seize_amount in
   let! config := load PusdConfig config_account BorshIoError in
   serialize_into
     (config_with (u64_saturating_sub (pc_total_pusd_supply config) debt)
        (u64_saturating_sub (pc_total_collateral_locked config) seize_amount)
        (pc_total_vaults config) (pc_total_fees_collected config) config)
     config_account ;;
   serialize_into (with_collateral remaining_collateral (with_debt 0 0 vault)) vault_account)%prog.

Definition process_redeem (pusd_amount : Z) : M unit :=
  (let! '(redeemer, it) := next_account_info (cx_accounts cx) in
   let! '(vault_account, it) := next_account_info it in
   let! '(config_account, it) := next_account_info it in
   let! '(collateral_pool, it) := next_account_info it in
   let! '(oracle_account, it) := next_account_info it in
   let! '(_redeemer_pusd, it) := next_account_info it in
   let! '(_pusd_mint, it) := next_account_info it in
   let! '(_token_program, it) := next_account_info it in
   let! '(_system_program, it) := next_account_info it in
   fail_if (negb (ia_is_signer redeemer)) MissingRequiredSignature ;;
   fail_if (pusd_amount =? 0) (into InvalidAmount) ;;
   let! vault := load_vault vault_account in
   let! clock := clock_get cx in
   let vault := accrue_fee vault (unix_timestamp clock) in
   fail_if (total_debt vault <? pusd_amount) (into BurnExceedsDebt) ;;
   let! oa := account oracle_account in
   let! prism_price := lift (read_oracle_price (acc_data oa)) in
   let! prism_to_return := lift (usd_to_prism pusd_amount prism_price) in
   fail_if (va_collateral vault <? prism_to_return) (into RedemptionExceedsCollateral) ;;
   let! pa := account collateral_pool in
   let pool_balance := acc_lamports pa in
   fail_if (pool_balance <? prism_to_return) (into RedemptionExceedsCollateral) ;;
   pay_out collateral_pool redeemer pool_balance prism_to_return ;;
   let! vault := lift (pay_debt (fun d r => Ok (u64_saturating_sub d r)) pusd_amount vault) in
   let vault := with_collateral (u64_saturating_sub (va_collateral vault) prism_to_return) vault in
   serialize_into vault vault_account ;;
   let! config := load PusdConfig config_account BorshIoError in
   serialize_into
     (config_with (u64_saturating_sub (pc_total_pusd_supply config) pusd_amount)
        (u64_saturating_sub (pc_total_collateral_locked config) prism_to_return)
        (pc_total_vaults config) (pc_total_fees_collected config) config)
     config_account)%prog.

Definition process_instruction (instruction_data : list byte) : M unit :=
  (let! instruction := lift (ok_or (try_from_slice instruction_data) InvalidInstructionData) in
   match instruction with
   | Initialize oracle_feed pusd_mint => process_initialize oracle_feed pusd_mint
   | OpenVault collateral_amount nonce => process_open_vault collateral_amount nonce
   | DepositCollateral amount => process_deposit_collateral amount
   | MintPusd amount => process_mint_pusd amount
   | BurnPusd amount => process_burn_pusd amount
   | WithdrawCollateral amount => process_withdraw_collateral amount
   | Liquidate => process_liquidate
   | Redeem pusd_amount => process_redeem pusd_amount
   end)%prog.
End Pusd.
