(* ===== verification/PusdProofs.v ===== *)
(** * PusdProofs: correctness of the stablecoin program

    The collateral ratio and the stability fee, the stablecoin system as a step
    relation on the configuration and the vaults, and the refinement of its
    steps by the instructions of the program. *)

From Stdlib Require Import Strings.Byte.
From S2P Require Import Prelude Borsh Accounts System Invoke Execution Concrete Cpi Ledger Pusd.
Open Scope Z_scope.

(** ** The collateral ratio and the fee *)

Lemma total_debt_range v : is_u64 (total_debt v).
Proof. unfold total_debt. apply clamp_range. ilia. Qed.

Lemma total_debt_ge v : well_typed v -> va_debt v <= total_debt v.
Proof. intros (_&_&?&?&_). unfold total_debt, clamp. ilia. Qed.

(** The quotient the program computes. *)
Lemma collateral_ratio_spec v price r :
  well_typed v -> is_u64 price -> 0 < va_debt v -> collateral_ratio_bps v price = Ok r ->
  r = as_u64 (va_collateral v * price * 10000 / (total_debt v * 1000000000)) /\ va_collateral v * price * 10000 <= U128_MAX.
Proof.
  intros Wv Hp Hd H. unfold collateral_ratio_bps, ovf in H. rewrite (proj2 (Z.eqb_neq _ _)) in H by lia.
  unfold u128_checked_div in H. rinv. case_match; [done|]. simplify_eq. split; [done|]. unfold BPS_DENOMINATOR in *. ilia.
Qed.

Lemma collateral_ratio_ok v price :
  well_typed v -> is_u64 price -> 0 < va_debt v -> va_collateral v * price * 10000 <= U128_MAX ->
  collateral_ratio_bps v price = Ok (as_u64 (va_collateral v * price * 10000 / (total_debt v * 1000000000))).
Proof.
  intros Wv Hp Hd Hfit. pose proof (total_debt_ge v Wv). pose proof (total_debt_range v). destruct Wv as (_&?&?&?&_).
  unfold collateral_ratio_bps, ovf, BPS_DENOMINATOR. rewrite (proj2 (Z.eqb_neq _ _)) by lia.
  rewrite checked_in by (unfold_ints; nia). cbn [ok_or rbind]. rewrite checked_in by (unfold_ints; nia). cbn [ok_or rbind].
  rewrite checked_in by (unfold_ints; nia). cbn [ok_or rbind].
  unfold u128_checked_div. rewrite (proj2 (Z.eqb_neq _ _)) by lia. done.
Qed.

(** What a ratio of [bps] means. *)
Definition covered (bps collateral debt price : Z) : Prop := bps * (debt * 1000000000) <= collateral * price * 10000.

(** What a ratio under [bps] means: the quotient is cut to 64 bits. *)
Definition below (bps collateral debt price : Z) : Prop :=
  ~ covered bps collateral debt price \/ U64_MAX < collateral * price * 10000 / (debt * 1000000000).

Lemma ratio_covered v price r bps :
  well_typed v -> is_u64 price -> 0 < va_debt v -> 0 <= bps -> collateral_ratio_bps v price = Ok r -> bps <= r ->
  covered bps (va_collateral v) (total_debt v) price.
Proof.
  intros Wv Hp Hd Hb Hr Hle. apply collateral_ratio_spec in Hr as [-> _]; try done.
  pose proof (total_debt_ge v Wv). destruct Wv as (_&?&?&?&_). unfold covered.
  set (a := va_collateral v * price * 10000) in *. set (b := total_debt v * 1000000000) in *.
  assert (0 <= a) by (unfold a; unfold_ints; nia). assert (0 < b) by (unfold b; lia).
  assert (bps <= a / b). { pose proof (Z.mod_le (a / b) (2 ^ 64)). pose proof (Z.div_pos a b). unfold as_u64 in Hle. lia. }
  pose proof (Z.mul_div_le a b). nia.
Qed.

Lemma read_oracle_price_range data p : read_oracle_price data = Ok p -> is_u64 p /\ 0 < p.
Proof.
  unfold read_oracle_price. intros H. destruct (Z.ltb_spec (zlen data) 8); [done|].
  pose proof (le_val_range (take 8 data)) as Hr. rewrite length_take in Hr.
  assert (Hmin : (8 `min` length data = 8)%nat) by (unfold zlen in *; lia). rewrite Hmin in Hr.
  change (256 ^ Z.of_nat 8) with (2 ^ 64) in Hr. destruct (Z.eqb_spec (le_val (take 8 data)) 0); [done|].
  simplify_eq. ilia.
Qed.

Lemma accrue_fee_spec v t :
  well_typed v -> is_i64 t ->
  let v' := accrue_fee v t in
  well_typed v' /\ va_owner v' = va_owner v /\ va_collateral v' = va_collateral v /\ va_debt v' = va_debt v /\
  va_is_initialized v' = va_is_initialized v /\ va_accrued_fee v <= va_accrued_fee v'.
Proof.
  intros (?&?&?&Hf&?&?&?&?) Ht. cbv zeta. unfold accrue_fee. case_match; [by split_and!|].
  match goal with |- context [as_u64 (default 0 ?o)] => pose proof (as_u64_range (default 0 o)) as Hr; revert Hr; generalize (as_u64 (default 0 o)) end.
  intros fee Hr.
  unfold well_typed, Vault_well_typed. simpl. split_and!; try done; [apply clamp_range; ilia|].
  unfold clamp. ilia.
Qed.

(** ** The stablecoin system *)

Abbreviation psys := (ledger PusdConfig Vault).

Definition vault_ok (v : Vault) : Prop := 0 <= va_collateral v /\ is_u64 (va_debt v) /\ 0 <= va_accrued_fee v.

(** The configuration counts the vaults and their collateral, and at most
    their debt. *)
Record pinv (y : psys) : Prop := {
  pi_collateral : pc_total_collateral_locked (lg_root y) = msum va_collateral (lg_items y);
  pi_supply : pc_total_pusd_supply (lg_root y) <= msum va_debt (lg_items y);
  pi_vaults : pc_total_vaults (lg_root y) = msum (fun _ => 1) (lg_items y);
  pi_range k v : lg_items y !! k = Some v -> vault_ok v;
}.

(** What an instruction sees: the clock, the signers, the keys of its accounts,
    the price the n-th account shows, the balance of the n-th account, and the
    address and the bump of a vault by its owner and number. *)
Record pview := mkView {
  vw_now : Z;
  vw_signed : Pubkey -> Prop;
  vw_keys : list Pubkey;
  vw_price : nat -> option Z;
  vw_balance : nat -> Z;
  vw_pda : Pubkey -> Z -> Pubkey * Z;
}.

(** A payment of [amount], to the fee first. *)
Definition pay (amount : Z) (v : Vault) : Vault :=
  with_debt (va_debt v - Z.max 0 (amount - va_accrued_fee v)) (Z.max 0 (va_accrued_fee v - amount)) v.

(** A signature of the first account. *)
Definition caller_signed (w : pview) : Prop := exists k, vw_keys w !! 0%nat = Some k /\ vw_signed w k.

(** The configuration with a new supply and a new total of the collateral. *)
Definition config_moved (supply collateral : Z) (c : PusdConfig) : PusdConfig :=
  config_with supply collateral (pc_total_vaults c) (pc_total_fees_collected c) c.

(** What each instruction does to a vault and to the configuration, and under
    which conditions.  The fee is accrued up to the clock first; the price is
    the one shown by the oracle account of the instruction. *)
Inductive vault_step (w : pview) : PusdInstruction -> Vault -> Vault -> PusdConfig -> PusdConfig -> Prop :=
| vs_deposit v amount c :
    vw_signed w (va_owner v) -> 0 < amount ->
    vault_step w (DepositCollateral amount) v (with_collateral (va_collateral v + amount) v) c
      (config_moved (pc_total_pusd_supply c) (pc_total_collateral_locked c + amount) c)
| vs_mint v amount price c :
    vw_signed w (va_owner v) -> 0 < amount -> is_u64 (va_debt v + amount) -> vw_price w 3 = Some price ->
    let v' := with_debt (va_debt v + amount) (va_accrued_fee (accrue_fee v (vw_now w))) (accrue_fee v (vw_now w)) in
    MIN_DEBT <= va_debt v' -> covered MIN_COLLATERAL_RATIO_BPS (va_collateral v') (total_debt v') price ->
    vault_step w (MintPusd amount) v v' c
      (config_moved (pc_total_pusd_supply c + amount) (pc_total_collateral_locked c) c)
| vs_burn v amount c :
    vw_signed w (va_owner v) -> 0 < amount <= total_debt (accrue_fee v (vw_now w)) ->
    let v' := pay amount (accrue_fee v (vw_now w)) in
    va_debt v' = 0 \/ MIN_DEBT <= va_debt v' ->
    vault_step w (BurnPusd amount) v v' c
      (config_with (Z.max 0 (pc_total_pusd_supply c - amount)) (pc_total_collateral_locked c) (pc_total_vaults c)
        (Z.min U64_MAX (pc_total_fees_collected c + amount)) c)
| vs_withdraw v amount c :
    vw_signed w (va_owner v) -> 0 < amount <= va_collateral v ->
    let v' := with_collateral (va_collateral v - amount) (accrue_fee v (vw_now w)) in
    (va_debt v = 0 \/
     exists price, vw_price w 4 = Some price /\ covered MIN_COLLATERAL_RATIO_BPS (va_collateral v') (total_debt v') price) ->
    vault_step w (WithdrawCollateral amount) v v' c
      (config_moved (pc_total_pusd_supply c) (Z.max 0 (pc_total_collateral_locked c - amount)) c)
| vs_liquidate v price total c :
    caller_signed w -> 0 < va_debt v -> vw_price w 4 = Some price ->
    let debt := total_debt (accrue_fee v (vw_now w)) in
    below LIQUIDATION_THRESHOLD_BPS (va_collateral v) debt price ->
    seizable debt price (va_collateral v) = Ok total ->
    let seized := Z.min total (vw_balance w 3) in
    0 <= seized <= va_collateral v ->
    vault_step w Liquidate v (with_collateral (va_collateral v - seized) (with_debt 0 0 (accrue_fee v (vw_now w)))) c
      (config_moved (Z.max 0 (pc_total_pusd_supply c - debt)) (Z.max 0 (pc_total_collateral_locked c - seized)) c)
| vs_redeem v amount price prism c :
    caller_signed w -> 0 < amount <= total_debt (accrue_fee v (vw_now w)) -> vw_price w 4 = Some price ->
    usd_to_prism amount price = Ok prism -> 0 <= prism <= va_collateral v -> prism <= vw_balance w 3 ->
    let v' := pay amount (accrue_fee v (vw_now w)) in
    vault_step w (Redeem amount) v (with_collateral (va_collateral v - prism) v') c
      (config_moved (Z.max 0 (pc_total_pusd_supply c - amount)) (Z.max 0 (pc_total_collateral_locked c - prism)) c).

(** The step of an instruction on the system.  A configuration is never set up
    a second time. *)
Inductive pstep (w : pview) : PusdInstruction -> psys -> psys -> Prop :=
| step_open k owner amount nonce bump c vaults :
    vw_keys w !! 0%nat = Some owner -> vw_signed w owner -> vw_keys w !! 2%nat = Some k ->
    vw_pda w owner nonce = (k, bump) -> vaults !! k = None -> 0 < amount ->
    pstep w (OpenVault amount nonce) (mkLedger c vaults)
      (mkLedger (config_with (pc_total_pusd_supply c) (pc_total_collateral_locked c + amount) (pc_total_vaults c + 1)
                   (pc_total_fees_collected c) c)
         (<[k := mkVault true owner amount 0 0 (vw_now w) (vw_now w) bump nonce]> vaults))
| step_vault i k v v' c c' vaults :
    vw_keys w !! 1%nat = Some k -> vaults !! k = Some v -> vault_step w i v v' c c' ->
    pstep w i (mkLedger c vaults) (mkLedger c' (<[k := v']> vaults)).

Lemma accrue_same v t :
  va_owner (accrue_fee v t) = va_owner v /\ va_collateral (accrue_fee v t) = va_collateral v /\
  va_debt (accrue_fee v t) = va_debt v /\ (0 <= va_accrued_fee v -> 0 <= va_accrued_fee (accrue_fee v t)).
Proof. unfold accrue_fee. case_match; [done|]. simpl. split_and!; try done. intros _. apply clamp_range. ilia. Qed.

(** A payment keeps the owner and the collateral and lowers the debt. *)
Lemma pay_facts amount v :
  0 <= amount <= total_debt v -> is_u64 (va_debt v) -> 0 <= va_accrued_fee v ->
  va_owner (pay amount v) = va_owner v /\ va_collateral (pay amount v) = va_collateral v /\
  0 <= va_debt (pay amount v) <= va_debt v /\ va_debt v - amount <= va_debt (pay amount v) /\
  0 <= va_accrued_fee (pay amount v).
Proof. unfold total_debt, clamp. intros. simpl. split_and!; done || ilia. Qed.

(** What a step of a vault does to the sums. *)
Lemma vault_step_sums w i v v' c c' :
  vault_step w i v v' c c' -> vault_ok v ->
  vault_ok v' /\ va_owner v' = va_owner v /\
  (va_collateral v <= pc_total_collateral_locked c ->
   pc_total_collateral_locked c' - va_collateral v' = pc_total_collateral_locked c - va_collateral v) /\
  (forall rest, 0 <= rest -> pc_total_pusd_supply c <= rest + va_debt v -> pc_total_pusd_supply c' <= rest + va_debt v') /\
  pc_total_vaults c' = pc_total_vaults c.
Proof.
  intros H (Kc & Kd & Kf). destruct (accrue_same v (vw_now w)) as (Ho & Hc & Hd & Hf). specialize (Hf Kf).
  assert (Hpay : forall amount, 0 < amount <= total_debt (accrue_fee v (vw_now w)) -> _)
    by (intros amount Ha; exact (pay_facts amount (accrue_fee v (vw_now w)) ltac:(lia) ltac:(by rewrite Hd) Hf)).
  destruct H; try subst v'; try (destruct (Hpay amount) as (Po & Pc & Pd & Pa & Pf); [done|]); unfold vault_ok;
    cbn [va_collateral va_debt va_owner va_accrued_fee with_collateral with_debt config_moved config_with
      pc_total_collateral_locked pc_total_pusd_supply pc_total_vaults];
    rewrite ?Po, ?Ho, ?Pc, ?Hc, ?Hd in *.
  all: try (assert (va_debt v <= debt) by (subst debt; unfold total_debt, clamp; rewrite Hd; ilia)).
  all: split_and!; try done; try ilia.
Qed.

Lemma pinv_step w i y y' : pstep w i y y' -> pinv y -> pinv y'.
Proof.
  intros H [I1 I2 I3 I4]. assert (Hge : forall k v, lg_items y !! k = Some v -> va_collateral v <= msum va_collateral (lg_items y) /\
    va_debt v <= msum va_debt (lg_items y)).
  { intros k v Hk. split; (eapply msum_ge; [|exact Hk]); intros j u Hw; destruct (I4 _ _ Hw) as (?&?&?); ilia. }
  destruct H as [k owner amount nonce bump c vaults _ _ _ _ Hk Ha|i k v v' c c' vaults _ Hk Hstep]; simpl in *.
  - split; simpl; rewrite ?msum_insert by done; simpl; try lia.
    intros j u. rewrite lookup_insert_Some. intros [[<- <-]|[_ Hj]]; [|by eapply I4]. split_and!; simpl; ilia.
  - destruct (vault_step_sums _ _ _ _ _ _ Hstep (I4 _ _ Hk)) as (Hok & _ & Sc & Ss & Sv). destruct (Hge _ _ Hk).
    split; simpl; try (erewrite msum_update by done).
    + rewrite I1 in *. lia.
    + pose proof (Ss (msum va_debt vaults - va_debt v)). lia.
    + lia.
    + intros j u. rewrite lookup_insert_Some. intros [[<- <-]|[_ Hj]]; [done|by eapply I4].
Qed.

(** ** Refinement *)

#[export] Instance pusd_sizes : DistinctSizes CONFIG_SPACE VAULT_SPACE.
Proof. by split_and!. Qed.

Section PusdRefinement.
Context {E : Env} {BC : Borsh PusdConfig} {BV : Borsh Vault} {BI : Borsh PusdInstruction}.
Context {LC : BorshLaws PusdConfig} {LV : BorshLaws Vault} {LI : BorshLaws PusdInstruction}.
Context {ZC : BorshSized PusdConfig CONFIG_SPACE} {ZV : BorshSized Vault VAULT_SPACE}.
Context (cx : Ctx) (clock_ok : is_i64 (unix_timestamp (cx_clock cx))).
Context (keys_ok : Forall (fun ia => is_pubkey (ia_key ia)) (cx_accounts cx)).
Notation now := (unix_timestamp (cx_clock cx)).

(** What an instruction of the program sees in the memory [m]. *)
Definition pusd_view (m : gmap Pubkey Account) : pview := {|
  vw_now := now;
  vw_signed := signed cx;
  vw_keys := ia_key <$> cx_accounts cx;
  vw_price n := ia ← cx_accounts cx !! n;
    match read_oracle_price (acc_data (get_acc m (ia_key ia))) with Ok price => Some price | Err _ => None end;
  vw_balance n := match cx_accounts cx !! n with Some ia => acc_lamports (get_acc m (ia_key ia)) | None => 0 end;
  vw_pda owner nonce := find_program_address [VAULT_SEED; key_bytes owner; le_bytes 8 nonce] (cx_program_id cx);
|}.
Notation presult s i := (lresult cx (pstep (pusd_view (mem s)) i)).

Lemma pay_out_ok pool party balance amount s u s' :
  pay_out pool party balance amount s = Ok (u, s') ->
  (forall j, acc_data (get_acc (mem s') j) = acc_data (get_acc (mem s) j)) /\ rt s' = rt s /\ amount <= balance.
Proof.
  intros H. unfold pay_out, ovf in H. pinv. split_and!; [intros j; cbn [mem]; by rewrite !set_lamports_data|done|ilia].
Qed.

Lemma load_vault_ok va s v s' :
  load_vault cx va s = Ok (v, s') ->
  s' = s /\ holds (mem s) (ia_key va) v /\ acc_owner (get_acc (mem s) (ia_key va)) = cx_program_id cx.
Proof. intros H. unfold load_vault in H. pinv. bool_to_prop. done. Qed.

Lemma pusd_config_well_typed c supply collateral vaults fees :
  well_typed c -> is_u64 supply -> is_u64 collateral -> is_u64 vaults -> is_u64 fees ->
  well_typed (config_with supply collateral vaults fees c).
Proof. intros (?&?&?&?&?&?&?&?) ? ? ? ?. by split_and!. Qed.

Lemma collateral_well_typed v x : well_typed v -> is_u64 x -> well_typed (with_collateral x v).
Proof. intros (?&?&?&?&?&?&?&?) ?. by split_and!. Qed.

Lemma debt_well_typed v d f : well_typed v -> is_u64 d -> is_u64 f -> well_typed (with_debt d f v).
Proof. intros (?&?&?&?&?&?&?&?) ? ?. by split_and!. Qed.

(** The saturating subtraction of a total. *)
Lemma sat_sub a b : is_u64 a -> 0 <= b -> u64_saturating_sub a b = Z.max 0 (a - b).
Proof. intros. unfold clamp. ilia. Qed.

(** The configuration, read back after the vault was written. *)
Lemma config_read (v' v : Vault) m k ck (c x : PusdConfig) vaults :
  lrefines m ck (mkLedger c vaults) -> vaults !! k = Some v -> holds (stored v' k m) ck x -> x = c.
Proof.
  intros Href Hk Hx. rewrite holds_stored_ne in Hx by (intros ->; by eapply lrefines_ne).
  eapply holds_inj; [exact Hx|apply Href].
Qed.

(** A step of a vault, written with the configuration. *)
Lemma vault_result s i m r ck c vaults k v v' c' :
  lrefines m ck (mkLedger c vaults) -> (ia_key <$> cx_accounts cx) !! 1%nat = Some k -> vaults !! k = Some v ->
  well_typed v' -> well_typed c' ->
  passed cx ck -> passed cx k -> vault_step (pusd_view (mem s)) i v v' c c' ->
  presult s i ck (mkLedger c vaults) (mkPState (stored c' ck (stored v' k m)) r).
Proof.
  intros Href Hkey Hk Wv Wc H1 H2 Hst. eapply write_result; [exact Href|exact Hk|done|done|done|done|done|]. by eapply step_vault.
Qed.

Lemma process_deposit_refines {L : EnvLaws} {X : ExecLaws} ck y amount ow va po co rest s s' :
  lrefines (mem s) ck y -> cx_accounts cx = ow :: va :: po :: co :: rest -> ia_key co = ck ->
  is_Some (lg_items y !! ia_key va) -> ~ lowns ck y (ia_key ow) -> ~ lowns ck y (ia_key po) -> is_u64 amount ->
  process_deposit_collateral cx amount s = Ok (tt, s') -> presult s (DepositCollateral amount) ck y s'.
Proof.
  destruct y as [c vaults]. intros Href Hacc <- [v Hk] Hw Hpo Ha H. pose proof (proj2 Href _ _ Hk) as Hv. simpl in *.
  unfold process_deposit_collateral, ovf in H. rewrite Hacc in H. pinv.
  hyp (load_vault _ _ _ = Ok _) as Hl. apply load_vault_ok in Hl as (-> & Hv' & _). bool_to_prop. reads v.
  hyp (invoke_signed _ _ _ _ _ = Ok _) as Hi. hyp (va_owner v = _) as Ho.
  assert (Hd : Forall (fun ia => ~ lowns (ia_key co) (mkLedger c vaults) (ia_key ia)) [mkIA (ia_key ow) true true; mkIA (ia_key po) false true])
    by (by repeat constructor).
  pose proof (lrefines_data _ _ _ _ Href (invoke_lowns _ _ _ _ _ _ _ _ _ Hi Hd)) as Href1.
  read PusdConfig as c1 Hc1. apply (config_read _ _ _ _ _ _ _ _ Href1 Hk) in Hc1 as ->.
  apply holds_well_typed in Hv as Wv. pose proof (holds_well_typed _ _ _ (proj1 Href)) as Wc. simpl in Wc.
  eapply vault_result; [exact Href1|by rewrite Hacc|exact Hk|by apply collateral_well_typed| |by_passed|by_passed|].
  - destruct Wc as (?&?&?&?&?&?&?&?). by apply pusd_config_well_typed.
  - apply vs_deposit; [rewrite Ho; by_signer|ilia].
Qed.

Lemma pay_debt_ok sub amount v v' :
  well_typed v -> 0 <= amount <= total_debt v ->
  (forall d r x, is_u64 d -> 0 <= r <= d -> sub d r = Ok x -> x = d - r) ->
  pay_debt sub amount v = Ok v' -> v' = pay amount v /\ well_typed v'.
Proof.
  intros Wv Ha Hsub H. pose proof Wv as (?&?&Hd&Hf&?&?&?&?).
  assert (amount <= va_debt v + va_accrued_fee v) by (unfold total_debt, clamp in Ha; ilia).
  unfold pay_debt in H. destruct (Z.leb_spec amount (va_accrued_fee v)); rinv.
  - unfold pay. rewrite (Z.max_l 0), (Z.max_r 0), Z.sub_0_r by lia. split; [done|by apply debt_well_typed].
  - hyp (sub _ _ = Ok _) as Hs. apply Hsub in Hs as ->; [|done|ilia].
    unfold pay. rewrite (Z.max_r 0), (Z.max_l 0) by lia. split; [done|apply debt_well_typed; done || ilia].
Qed.

(** The price an instruction has read. *)
Ltac by_price :=
  cbn [vw_price pusd_view]; match goal with Hacc : cx_accounts _ = _ |- _ => rewrite Hacc end;
  match goal with Hpr : read_oracle_price _ = Ok _ |- _ => by cbn; rewrite Hpr end.

(** The signature of the first account. *)
Ltac by_caller :=
  eexists; split; [cbn [vw_keys pusd_view]; match goal with Hacc : cx_accounts _ = _ |- _ => by rewrite Hacc end|by_signer].

(** Identifies the vault an instruction has loaded. *)
Ltac vault_loaded v :=
  match goal with Hl : load_vault _ _ _ = Ok _ |- _ =>
    let Hv' := fresh in apply load_vault_ok in Hl as (-> & Hv' & _) end; bool_to_prop; reads v.

Lemma process_mint_pusd_refines ck y amount ow va co orc rest s s' :
  lrefines (mem s) ck y -> cx_accounts cx = ow :: va :: co :: orc :: rest -> ia_key co = ck ->
  is_Some (lg_items y !! ia_key va) -> is_u64 amount ->
  process_mint_pusd cx amount s = Ok (tt, s') -> presult s (MintPusd amount) ck y s'.
Proof.
  destruct y as [c vaults]. intros Href Hacc <- [v Hk] Ha H. pose proof (proj2 Href _ _ Hk) as Hv. simpl in *.
  unfold process_mint_pusd, ovf in H. rewrite Hacc in H. pinv. vault_loaded v. hyp (va_owner v = _) as Ho.
  hyp (read_oracle_price _ = Ok _) as Hpr. pose proof Hpr as [Hp64 Hp0]%read_oracle_price_range.
  read PusdConfig as c1 Hc1. apply (config_read _ _ _ _ _ _ _ _ Href Hk) in Hc1 as ->.
  apply holds_well_typed in Hv as Wv. pose proof (holds_well_typed _ _ _ (proj1 Href)) as Wc. simpl in Wc.
  destruct (accrue_fee_spec v now Wv clock_ok) as (Wa & _ & Hc & Hd & _ & _).
  hyp (collateral_ratio_bps _ _ = Ok _) as Hr. rewrite Hd in *.
  match type of Hr with collateral_ratio_bps ?w _ = _ => assert (Ww : well_typed w) by (pose proof Wa as (_&_&_&?&_); by apply debt_well_typed) end.
  eapply vault_result; [exact Href|by rewrite Hacc|exact Hk|exact Ww| |by_passed|by_passed|].
  - destruct Wc as (?&?&?&?&?&?&?&?). by apply pusd_config_well_typed.
  - eapply vs_mint; [rewrite Ho; by_signer|ilia|done|by_price|done|].
    eapply ratio_covered; [exact Ww|exact Hp64|simpl; unfold MIN_DEBT in *; lia|done|exact Hr|done].
Qed.

(** The fee statistic counts the whole amount that is burned. *)
Lemma burn_fees fees fee amount :
  is_u64 fees -> 0 <= fee -> 0 <= amount <= U64_MAX ->
  u64_saturating_add fees (Z.min amount (u64_saturating_add fee amount)) = Z.min U64_MAX (fees + amount).
Proof. intros. unfold clamp. ilia. Qed.

Lemma process_burn_pusd_refines ck y amount ow va co rest s s' :
  lrefines (mem s) ck y -> cx_accounts cx = ow :: va :: co :: rest -> ia_key co = ck ->
  is_Some (lg_items y !! ia_key va) -> is_u64 amount ->
  process_burn_pusd cx amount s = Ok (tt, s') -> presult s (BurnPusd amount) ck y s'.
Proof.
  destruct y as [c vaults]. intros Href Hacc <- [v Hk] Ha H. pose proof (proj2 Href _ _ Hk) as Hv. simpl in *.
  unfold process_burn_pusd in H. rewrite Hacc in H. pinv. vault_loaded v. hyp (va_owner v = _) as Ho.
  read PusdConfig as c1 Hc1. apply (config_read _ _ _ _ _ _ _ _ Href Hk) in Hc1 as ->.
  apply holds_well_typed in Hv as Wv. pose proof (holds_well_typed _ _ _ (proj1 Href)) as Wc. simpl in Wc.
  destruct (accrue_fee_spec v now Wv clock_ok) as (Wa & Hao & Hc & Hd & _ & _).
  hyp (pay_debt _ _ _ = Ok _) as Hpd. apply pay_debt_ok in Hpd as [-> Wv']; [|done|ilia|intros ? ? ? ? ? Hs; by rinv].
  pose proof Wc as (?&?&?&?&?&?&?&?). rewrite sat_sub in * by ilia.
  eapply vault_result; [exact Href|by rewrite Hacc|exact Hk|exact Wv'| |by_passed|by_passed|].
  - apply pusd_config_well_typed; try done; [ilia|]. apply clamp_range. ilia.
  - hyp (_ && _ = false) as Hm. rewrite andb_false_iff, !Z.ltb_ge in Hm.
    assert (Hpf := pay_facts amount (accrue_fee v now)). destruct Wa as (_&_&?&?&_).
    rewrite burn_fees by ilia. apply vs_burn; cbn [vw_now pusd_view]; [rewrite Ho; by_signer|ilia|]. ilia.
Qed.

Lemma process_withdraw_refines ck y amount ow va co po orc rest s s' :
  lrefines (mem s) ck y -> cx_accounts cx = ow :: va :: co :: po :: orc :: rest -> ia_key co = ck ->
  is_Some (lg_items y !! ia_key va) -> is_u64 amount ->
  process_withdraw_collateral cx amount s = Ok (tt, s') -> presult s (WithdrawCollateral amount) ck y s'.
Proof.
  destruct y as [c vaults]. intros Href Hacc <- [v Hk] Ha H. pose proof (proj2 Href _ _ Hk) as Hv. simpl in *.
  apply holds_well_typed in Hv as Wv. pose proof (holds_well_typed _ _ _ (proj1 Href)) as Wc. simpl in Wc.
  pose proof Wc as (?&?&?&?&?&?&?&?). destruct (accrue_fee_spec v now Wv clock_ok) as (Wa & Hao & Hc & Hd & _ & _).
  unfold process_withdraw_collateral, ovf in H. rewrite Hacc in H. pinv; vault_loaded v; hyp (va_owner v = _) as Ho;
    hyp (pay_out _ _ _ _ _ = Ok _) as Hpay; apply pay_out_ok in Hpay as (Hdata & _ & _);
    pose proof (lrefines_data _ _ _ _ Href (fun j _ => Hdata j)) as Href1;
    read PusdConfig as c1 Hc1; apply (config_read _ _ _ _ _ _ _ _ Href1 Hk) in Hc1 as ->;
    rewrite sat_sub in * by ilia; rewrite Hc in *;
    (eapply vault_result; [exact Href1|by rewrite Hacc|exact Hk|by apply collateral_well_typed|apply pusd_config_well_typed; done || ilia|by_passed|by_passed|]).
  - hyp (read_oracle_price _ = Ok _) as Hpr. pose proof Hpr as [Hp64 Hp0]%read_oracle_price_range.
    apply vs_withdraw; [rewrite Ho; by_signer|ilia|].
    destruct (decide (va_debt v = 0)) as [|Hnz]; [by left|right]. eexists. split; [by_price|]. hyp (collateral_ratio_bps _ _ = Ok _) as Hr.
    eapply ratio_covered; [by apply collateral_well_typed|exact Hp64| |done|exact Hr|done].
    simpl. rewrite Hd. destruct Wv as (_&_&?&_). ilia.
  - apply vs_withdraw; [rewrite Ho; by_signer|ilia|]. left.
    pose proof (total_debt_ge _ Wa). destruct Wv as (_&_&?&_). ilia.
Qed.

(** A computed ratio under the threshold. *)
Lemma pusd_ratio_below v price r bps :
  well_typed v -> is_u64 price -> 0 < va_debt v -> collateral_ratio_bps v price = Ok r -> r < bps ->
  below bps (va_collateral v) (total_debt v) price.
Proof.
  intros Wv Hp Hd Hr Hlt. apply collateral_ratio_spec in Hr as [-> _]; try done.
  pose proof (total_debt_ge v Wv). destruct Wv as (_&?&?&?&_). unfold below, covered.
  set (a := va_collateral v * price * 10000) in *. set (b := total_debt v * 1000000000) in *.
  assert (0 <= a) by (unfold a; unfold_ints; nia). assert (0 < b) by (unfold b; lia).
  destruct (decide (a / b <= U64_MAX)) as [Hle|]; [left|right; lia].
  rewrite as_u64_id in Hlt by (pose proof (Z.div_pos a b); ilia).
  intros Hc. assert (bps <= a / b) by (apply Z.div_le_lower_bound; nia). lia.
Qed.

(** A ratio below the threshold is one of a vault with debt. *)
Lemma liquidatable_debt v price r : well_typed v -> collateral_ratio_bps v price = Ok r -> r < LIQUIDATION_THRESHOLD_BPS -> 0 < va_debt v.
Proof.
  intros (_&_&Hd&_) H Hr. unfold collateral_ratio_bps in H. destruct (Z.eqb_spec (va_debt v) 0); [|ilia].
  simplify_eq. unfold LIQUIDATION_THRESHOLD_BPS in Hr. ilia.
Qed.

Lemma usd_to_prism_range a p x : usd_to_prism a p = Ok x -> is_u64 x.
Proof. unfold usd_to_prism, ovf. intros H. rinv. apply as_u64_range. Qed.

Lemma seizable_range d p col x : 0 <= col -> seizable d p col = Ok x -> 0 <= x <= col.
Proof.
  intros Hcol H. unfold seizable, ovf in H. rinv. hyp (usd_to_prism _ _ = Ok _) as Hu. apply usd_to_prism_range in Hu.
  match goal with |- context [clamp 0 U64_MAX ?z] => pose proof (clamp_range 0 U64_MAX z) end. ilia.
Qed.

Lemma process_liquidate_refines ck y li va co po orc rest s s' :
  lrefines (mem s) ck y -> cx_accounts cx = li :: va :: co :: po :: orc :: rest -> ia_key co = ck ->
  is_Some (lg_items y !! ia_key va) -> pstate_ok s ->
  process_liquidate cx s = Ok (tt, s') -> presult s Liquidate ck y s'.
Proof.
  destruct y as [c vaults]. intros Href Hacc <- [v Hk] Hok H. pose proof (proj2 Href _ _ Hk) as Hv. simpl in *.
  apply holds_well_typed in Hv as Wv. pose proof (holds_well_typed _ _ _ (proj1 Href)) as Wc. simpl in Wc.
  pose proof Wc as (?&?&?&?&?&?&?&?). destruct (accrue_fee_spec v now Wv clock_ok) as (Wa & Hao & Hc & Hd & _ & _).
  unfold process_liquidate in H. rewrite Hacc in H. pinv. vault_loaded v.
  hyp (pay_out _ _ _ _ _ = Ok _) as Hpay. apply pay_out_ok in Hpay as (Hdata & _ & _).
  pose proof (lrefines_data _ _ _ _ Href (fun j _ => Hdata j)) as Href1.
  read PusdConfig as c1 Hc1. assert (c1 = c) as -> by (eapply holds_inj; [exact Hc1|apply Href1]).
  hyp (read_oracle_price _ = Ok _) as Hpr. pose proof Hpr as [Hp64 Hp0]%read_oracle_price_range.
  hyp (collateral_ratio_bps _ _ = Ok _) as Hr. pose proof (liquidatable_debt _ _ _ Wa Hr ltac:(done)) as Hdebt.
  apply pusd_ratio_below with (bps := LIQUIDATION_THRESHOLD_BPS) in Hr; [|done..].
  hyp (seizable _ _ _ = Ok _) as Hs. pose proof Wa as (_&Hcol&_&_). pose proof Hs as Hrange%seizable_range; [|ilia].
  destruct Hok as [Hok _]. pose proof (Hok (ia_key po)). set (sz := Z.min _ _) in *. assert (0 <= sz <= va_collateral v) by ilia.
  pose proof (total_debt_range (accrue_fee v now)). rewrite !sat_sub in * by ilia. rewrite Hc, Hd in *.
  rewrite Z.max_r in * by lia.
  match goal with |- lresult _ _ _ _ (mkPState (stored ?w _ (stored ?c1 _ _)) _) => exists (mkLedger c1 (<[ia_key va := w]> vaults)) end.
  split; [eapply step_vault; [cbn [vw_keys pusd_view]; by rewrite Hacc|exact Hk|]|].
  { match type of Hs with _ = Ok ?total =>
      assert (Hsz : sz = Z.min total (vw_balance (pusd_view (mem s)) 3)) by (cbn [vw_balance pusd_view]; by rewrite Hacc) end.
    rewrite Hsz in *. clear Hsz sz.
    eapply vs_liquidate; [by_caller|done|by_price|done|done|done]. }
  split; [eapply write_item; [eapply write_root; [exact Href1|]|exact Hk|]|split; [left; by_passed|apply update_passed; by_passed]].
  - apply pusd_config_well_typed; done || ilia.
  - apply collateral_well_typed; [apply debt_well_typed; done || ilia|ilia].
Qed.

Lemma process_redeem_refines ck y amount re va co po orc rest s s' :
  lrefines (mem s) ck y -> cx_accounts cx = re :: va :: co :: po :: orc :: rest -> ia_key co = ck ->
  is_Some (lg_items y !! ia_key va) -> is_u64 amount ->
  process_redeem cx amount s = Ok (tt, s') -> presult s (Redeem amount) ck y s'.
Proof.
  destruct y as [c vaults]. intros Href Hacc <- [v Hk] Ha H. pose proof (proj2 Href _ _ Hk) as Hv. simpl in *.
  apply holds_well_typed in Hv as Wv. pose proof (holds_well_typed _ _ _ (proj1 Href)) as Wc. simpl in Wc.
  pose proof Wc as (?&?&?&?&?&?&?&?). destruct (accrue_fee_spec v now Wv clock_ok) as (Wa & Hao & Hc & Hd & _ & _).
  unfold process_redeem in H. rewrite Hacc in H. pinv. vault_loaded v.
  hyp (pay_out _ _ _ _ _ = Ok _) as Hpay. apply pay_out_ok in Hpay as (Hdata & _ & _).
  pose proof (lrefines_data _ _ _ _ Href (fun j _ => Hdata j)) as Href1.
  hyp (usd_to_prism _ _ = Ok _) as Hu. pose proof Hu as Hx%usd_to_prism_range.
  read PusdConfig as c1 Hc1. apply (config_read _ _ _ _ _ _ _ _ Href1 Hk) in Hc1 as ->.
  hyp (pay_debt _ _ _ = Ok _) as Hpd. apply pay_debt_ok in Hpd as [-> Wv']; [|done|ilia|].
  2:{ intros ? ? ? ? ? Hs. rinv. unfold clamp. ilia. }
  pose proof Wv as (_&?&_). change (va_collateral (pay ?a ?x)) with (va_collateral x) in *. rewrite Hc in *.
  rewrite !sat_sub in * by ilia.
  eapply vault_result; [exact Href1|by rewrite Hacc|exact Hk|apply collateral_well_typed; [done|ilia]|apply pusd_config_well_typed; done || ilia|by_passed|by_passed|].
  rewrite (Z.max_r 0 (va_collateral v - _)) by lia.
  eapply vs_redeem; cbn [vw_now vw_balance pusd_view]; [by_caller|ilia|by_price|exact Hu|ilia|]. rewrite Hacc. cbn. ilia.
Qed.

(** An account without data is not one of the ledger. *)
Lemma empty_not_owned m ck (y : psys) k : lrefines m ck y -> acc_data (get_acc m k) = [] -> ~ lowns ck y k.
Proof.
  intros [Hc Hv] Hd [->|[v Hk]]; [apply holds_zlen in Hc|apply Hv, holds_zlen in Hk]; by rewrite Hd in *.
Qed.

Lemma process_open_refines {L : EnvLaws} ck y amount nonce ow co va po rest s s' ao av ap :
  lrefines (mem s) ck y -> cx_accounts cx = ow :: co :: va :: po :: rest -> ia_key co = ck ->
  create_ready cx s (ia_key ow) (ia_key va) ao av -> create_ready cx s (ia_key ow) (ia_key po) ao ap ->
  ia_key va <> ia_key po -> ~ lowns ck y (ia_key ow) -> is_pubkey (cx_program_id cx) -> is_u64 amount -> is_u64 nonce ->
  process_open_vault cx amount nonce s = Ok (tt, s') -> presult s (OpenVault amount nonce) ck y s'.
Proof.
  destruct y as [c vaults]. intros Href Hacc <- Rv Rp Hd Hw Hpid Ha Hn H. pose proof (proj1 Href) as Hc. simpl in *.
  apply holds_well_typed in Hc as Wc. pose proof Wc as (?&?&?&?&?&?&?&?).
  pose proof keys_ok as Hkeys. rewrite Hacc, !Forall_cons in Hkeys. destruct Hkeys as [Hko _].
  unfold process_open_vault, ovf in H. rewrite Hacc in H. pinv. bool_to_prop. reads c.
  hyp (invoke_signed _ (create_account_ix _ (ia_key va) _ _ _) _ _ _ = Ok _) as Hc1.
  hyp (invoke_signed _ (create_account_ix _ (ia_key po) _ _ _) _ _ _ = Ok _) as Hc2.
  hyp (find_program_address [VAULT_SEED; _; _] _ = _) as Hf. destruct (find_create _ _ _ _ Hf) as [Hbump _].
  destruct (create_pair_effect Hc1 Hc2 Rv Rp) as (Hs2 & Hs1 & R2 & Hev & Hep); [done|apply minimum_balance_u64|done..|]. subst.
  rewrite <- (mem_acc _ _ _ (ready_mem_to _ _ _ _ _ _ Rv)) in Hev.
  rewrite <- (mem_acc _ _ _ (ready_mem_to _ _ _ _ _ _ Rp)) in Hep.
  match goal with |- context [stored ?w (ia_key va) (mem ?x)] => set (v := w) in *; set (s2 := x) in * end.
  assert (Hdata : forall j, j <> ia_key va -> acc_data (get_acc (stored v (ia_key va) (mem s2)) j) = acc_data (get_acc (mem s) j)).
  { intros j Hj. rewrite stored_ne by done. destruct (decide (j = ia_key po)) as [->|Hjp].
    - unfold s2. by rewrite created_to, Hep.
    - unfold s2. erewrite (created_data _ _ _ _ _ _ _ _ _ R2) by done. by rewrite (created_data _ _ _ _ _ _ _ _ _ Rv). }
  assert (Hv : holds (stored v (ia_key va) (mem s2)) (ia_key va) v).
  { apply holds_stored.
    - unfold s2. rewrite created_ne, created_to; [done|intros Heq; by apply (ready_ne _ _ _ _ _ _ Rv)|done].
    - unfold well_typed, Vault_well_typed. simpl. split_and!; done || ilia. }
  destruct (open_item _ _ _ _ _ _ v (ia_key ow) Href ltac:(by rewrite Hev) Hv (ready_ne _ _ _ _ _ _ Rv) Hw Hdata)
    as (Hnew & _ & _ & Href1).
  match goal with |- context [stored ?c1 (ia_key co) _] => exists (mkLedger c1 (<[ia_key va := v]> vaults)) end.
  split; [|split; [eapply write_root; [exact Href1|apply pusd_config_well_typed; done || ilia]|split; [left; by_passed|apply update_passed; by_passed]]].
  eapply step_open; cbn [vw_keys vw_signed vw_pda pusd_view]; rewrite ?Hacc; try done; [by_signer|ilia].
Qed.

Lemma process_initialize_taken {L : EnvLaws} ck (y : psys) s s' feed mint ad co rest aa ac :
  cx_accounts cx = ad :: co :: rest -> create_ready cx s (ia_key ad) ck aa ac -> ia_key co = ck ->
  is_pubkey (cx_program_id cx) -> lrefines (mem s) ck y -> process_initialize cx feed mint s <> Ok (tt, s').
Proof.
  intros Hacc R <- Hpid [Hr _] H. unfold process_initialize in H. rewrite Hacc in H. pinv.
  hyp (invoke_signed _ _ _ _ _ = Ok _) as Hcpi.
  eapply create_account_effect in Hcpi as [-> (signers & _ & G)]; try done; [|apply minimum_balance_u64].
  destruct G. destruct ccg_unused as (_ & Hempty & _).
  rewrite <- (mem_acc _ _ _ (ready_mem_to _ _ _ _ _ _ R)) in Hempty.
  apply holds_zlen in Hr. by rewrite Hempty in Hr.
Qed.

(** The accounts an instruction is meant for: the configuration, a vault of
    the system, and wallets and collateral pools that are neither. *)
Definition ptargets (ck : Pubkey) (y : psys) (s : PState) (instruction : PusdInstruction) : Prop :=
  let foreign ia := ~ lowns ck y (ia_key ia) in
  let vault ia := is_Some (lg_items y !! ia_key ia) in
  match instruction, cx_accounts cx with
  | Initialize _ _, ad :: co :: _ => ia_key co = ck /\ exists aa ac, create_ready cx s (ia_key ad) ck aa ac
  | OpenVault _ _, ow :: co :: va :: po :: _ => ia_key co = ck /\ foreign ow /\ ia_key va <> ia_key po /\
      exists ao av ap, create_ready cx s (ia_key ow) (ia_key va) ao av /\ create_ready cx s (ia_key ow) (ia_key po) ao ap
  | DepositCollateral _, ow :: va :: po :: co :: _ => ia_key co = ck /\ vault va /\ foreign ow /\ foreign po
  | MintPusd _, _ :: va :: co :: _ :: _ | BurnPusd _, _ :: va :: co :: _ :: _ => ia_key co = ck /\ vault va
  | WithdrawCollateral _, _ :: va :: co :: _ :: _ :: _ | Liquidate, _ :: va :: co :: _ :: _ :: _
  | Redeem _, _ :: va :: co :: _ :: _ :: _ => ia_key co = ck /\ vault va
  | _, _ => False
  end.

Lemma pusd_safe {X : ExecLaws} data : safe (process_instruction cx data).
Proof.
  unfold process_instruction. psafe; unfold process_initialize, process_open_vault, process_deposit_collateral, process_mint_pusd,
    process_burn_pusd, process_withdraw_collateral, process_liquidate, process_redeem, load_vault, pay_out, ovf; psafe.
Qed.

Lemma pusd_confined {X : ExecLaws} data : confined cx (process_instruction cx data).
Proof.
  unfold process_instruction. psafe; unfold process_initialize, process_open_vault, process_deposit_collateral, process_mint_pusd,
    process_burn_pusd, process_withdraw_collateral, process_liquidate, process_redeem, load_vault, pay_out, ovf; psafe.
Qed.

Lemma process_pusd_refines {L : EnvLaws} {X : ExecLaws} data i ck y s s' :
  try_from_slice data = Some i -> ptargets ck y s i -> lrefines (mem s) ck y -> pstate_ok s ->
  is_pubkey (cx_program_id cx) -> process_instruction cx data s = Ok (tt, s') -> presult s i ck y s'.
Proof.
  intros Hde Htg Href Hok Hpid H. assert (Hwt := Hde). apply try_from_slice_some in Hwt as [Hwt _].
  unfold process_instruction in H. rewrite Hde in H. cbn [ok_or lift pbind] in H. unfold ptargets in Htg.
  assert (exists l, cx_accounts cx = l) as [l Hacc] by eauto. rewrite Hacc in Htg.
  destruct i.
  - destruct l as [|a [|b rest]]; try done. destruct Htg as (<- & aa & ac & R). by eapply process_initialize_taken in H.
  - destruct l as [|a [|b [|c [|d rest]]]]; try done. destruct Htg as (<- & ? & ? & ao & av & ap & R1 & R2). destruct Hwt.
    eapply (process_open_refines _ _ collateral_amount nonce); [exact Href|exact Hacc|done|exact R1|exact R2|done..|exact H].
  - destruct l as [|a [|b [|c [|d rest]]]]; try done. destruct Htg as (<- & ? & ? & ?).
    eapply process_deposit_refines; [exact Href|exact Hacc|done..|exact H].
  - destruct l as [|a [|b [|c [|d rest]]]]; try done. destruct Htg as [<- ?]. eapply process_mint_pusd_refines; [exact Href|exact Hacc|done..|exact H].
  - destruct l as [|a [|b [|c [|d rest]]]]; try done. destruct Htg as [<- ?]. eapply process_burn_pusd_refines; [exact Href|exact Hacc|done..|exact H].
  - destruct l as [|a [|b [|c [|d [|e rest]]]]]; try done. destruct Htg as [<- ?]. eapply process_withdraw_refines; [exact Href|exact Hacc|done..|exact H].
  - destruct l as [|a [|b [|c [|d [|e rest]]]]]; try done. destruct Htg as [<- ?]. eapply process_liquidate_refines; [exact Href|exact Hacc|done..|exact H].
  - destruct l as [|a [|b [|c [|d [|e rest]]]]]; try done. destruct Htg as [<- ?]. eapply process_redeem_refines; [exact Href|exact Hacc|done..|exact H].
Qed.

Lemma pusd_instruction_refines {L : EnvLaws} {X : ExecLaws} data i ck y ta ta' :
  try_from_slice data = Some i -> ptargets ck y (mkPState (ta_accounts ta) ta) i -> lrefines (ta_accounts ta) ck y ->
  lamports_ok (ta_accounts ta) -> is_pubkey (cx_program_id cx) ->
  execute cx (process_instruction cx data) ta = Ok ta' ->
  exists y', pstep (pusd_view (ta_accounts ta)) i y y' /\ lrefines (ta_accounts ta') ck y'.
Proof.
  intros Hde Htg Href Hok Hpid H. eapply execute_lresult; [exact X|exact (pusd_safe data)|exact (pusd_confined data)|done|done| |exact H].
  intros s' Hrun. by eapply (process_pusd_refines _ _ _ _ (mkPState _ _)).
Qed.
End PusdRefinement.
