(* ===== verification/PusdTheorems.v ===== *)
(** * PusdTheorems: the properties of the stablecoin program

    The theorems about [src/programs/pusd-stablecoin/src/lib.rs], and the
    evaluation of the program on concrete accounts in the Borsh wire format. *)

From Stdlib Require Import Strings.Byte.
From S2P Require Import Prelude Borsh Accounts System Invoke Execution Concrete Cpi Ledger Pusd PusdProofs.
Open Scope Z_scope.

(** ** The account data on the wire *)

Definition codec_config : codec PusdConfig :=
  codec_iso
    (fun '(i, (a, (o, (m, (s, (c, (n, (f, (x, b))))))))) => mkConfig i a o m s c n f x b)
    (fun c => (pc_is_initialized c, (pc_admin c, (pc_oracle_feed c, (pc_pusd_mint c, (pc_total_pusd_supply c,
      (pc_total_collateral_locked c, (pc_total_vaults c, (pc_total_fees_collected c, (pc_is_active c, pc_bump c))))))))))
    (codec_pair codec_bool (codec_pair codec_pubkey (codec_pair codec_pubkey (codec_pair codec_pubkey
      (codec_pair (codec_uint 8) (codec_pair (codec_uint 8) (codec_pair (codec_uint 8) (codec_pair (codec_uint 8)
      (codec_pair codec_bool (codec_uint 1)))))))))).

Definition codec_vault : codec Vault :=
  codec_iso
    (fun '(i, (o, (c, (d, (f, (l, (t, (b, n)))))))) => mkVault i o c d f l t b n)
    (fun v => (va_is_initialized v, (va_owner v, (va_collateral v, (va_debt v, (va_accrued_fee v, (va_last_fee_update v,
      (va_created_at v, (va_bump v, va_nonce v)))))))))
    (codec_pair codec_bool (codec_pair codec_pubkey (codec_pair (codec_uint 8) (codec_pair (codec_uint 8)
      (codec_pair (codec_uint 8) (codec_pair (codec_int 8) (codec_pair (codec_int 8) (codec_pair (codec_uint 1) (codec_uint 8))))))))).

Definition pusd_instruction_index (i : PusdInstruction) : nat :=
  match i with
  | Initialize _ _ => 0 | OpenVault _ _ => 1 | DepositCollateral _ => 2 | MintPusd _ => 3 | BurnPusd _ => 4
  | WithdrawCollateral _ => 5 | Liquidate => 6 | Redeem _ => 7
  end.

Definition codec_pusd_instruction : codec PusdInstruction :=
  codec_variants
    [mkVariant (codec_pair codec_pubkey codec_pubkey) (fun '(o, m) => Initialize o m)
       (fun i => match i with Initialize o m => Some (o, m) | _ => None end);
     mkVariant (codec_pair (codec_uint 8) (codec_uint 8)) (fun '(c, n) => OpenVault c n)
       (fun i => match i with OpenVault c n => Some (c, n) | _ => None end);
     mkVariant (codec_uint 8) DepositCollateral (fun i => match i with DepositCollateral x => Some x | _ => None end);
     mkVariant (codec_uint 8) MintPusd (fun i => match i with MintPusd x => Some x | _ => None end);
     mkVariant (codec_uint 8) BurnPusd (fun i => match i with BurnPusd x => Some x | _ => None end);
     mkVariant (codec_uint 8) WithdrawCollateral (fun i => match i with WithdrawCollateral x => Some x | _ => None end);
     mkVariant codec_unit (fun _ => Liquidate) (fun _ => Some tt);
     mkVariant (codec_uint 8) Redeem (fun i => match i with Redeem x => Some x | _ => None end)]
    pusd_instruction_index.

#[local] Hint Extern 1 (0 < _)%nat => lia : codec.

Lemma codec_config_laws : codec_laws codec_config.
Proof. apply codec_iso_laws; [by intros []|by intros (?&?&?&?&?&?&?&?&?&?)|]. auto 20 with codec. Qed.
Lemma codec_config_size : c_size codec_config CONFIG_SPACE.
Proof. codec_size. Qed.
Lemma codec_config_wf c : well_typed c <-> c_wf codec_config c.
Proof. unfold well_typed, PusdConfig_well_typed. codec_wf. Qed.

Lemma codec_vault_laws : codec_laws codec_vault.
Proof. apply codec_iso_laws; [by intros []|by intros (?&?&?&?&?&?&?&?&?)|]. auto 20 with codec. Qed.
Lemma codec_vault_size : c_size codec_vault VAULT_SPACE.
Proof. codec_size. Qed.
Lemma codec_vault_wf v : well_typed v <-> c_wf codec_vault v.
Proof. unfold well_typed, Vault_well_typed. codec_wf. Qed.

Lemma codec_pusd_instruction_laws : codec_laws codec_pusd_instruction.
Proof.
  apply codec_variants_laws; [simpl; lia|repeat apply Forall_cons_2; simpl; auto 10 with codec| |].
  - intros [|[|[|[|[|[|[|[|]]]]]]]] v a [= <-]; simpl in a;
      repeat match goal with x : _ * _ |- _ => destruct x | x : unit |- _ => destruct x end; done.
  - intros [] v a [= <-]; simpl; by intros [= <-].
Qed.
Lemma codec_pusd_instruction_wf i : well_typed i <-> c_wf codec_pusd_instruction i.
Proof. destruct i; unfold well_typed; simpl; try done; codec_wf. Qed.

#[global] Instance config_borsh : Borsh PusdConfig := borsh_of_codec codec_config.
#[global] Instance config_borsh_laws : BorshLaws PusdConfig := borsh_of_codec_laws _ codec_config_laws codec_config_wf.
#[global] Instance config_borsh_sized : BorshSized PusdConfig CONFIG_SPACE :=
  borsh_of_codec_sized _ _ codec_config_size codec_config_wf.
#[global] Instance vault_borsh : Borsh Vault := borsh_of_codec codec_vault.
#[global] Instance vault_borsh_laws : BorshLaws Vault := borsh_of_codec_laws _ codec_vault_laws codec_vault_wf.
#[global] Instance vault_borsh_sized : BorshSized Vault VAULT_SPACE :=
  borsh_of_codec_sized _ _ codec_vault_size codec_vault_wf.
#[global] Instance pusd_instruction_borsh : Borsh PusdInstruction := borsh_of_codec codec_pusd_instruction.
#[global] Instance pusd_instruction_borsh_laws : BorshLaws PusdInstruction :=
  borsh_of_codec_laws _ codec_pusd_instruction_laws codec_pusd_instruction_wf.

(** A configuration (account 200) with two vaults: 10 PRISM of collateral and
    50 PUSD of debt (account 500, pool 501, owner 400), and 1 PRISM without
    debt (account 600, owner 401).  Account 700 is a price feed at 10 USD. *)
Module PusdDemo.
Definition PROGRAM : Pubkey := 100.
Definition PRICE : Z := 1000000000.
Definition config : PusdConfig := mkConfig true 300 700 701 50000000 11000000000 2 0 true 255.
Definition vault : Vault := mkVault true 400 10000000000 50000000 0 1000 1000 255 0.
Definition other : Vault := mkVault true 401 1000000000 0 0 1000 1000 255 0.
Definition accounts : list (Pubkey * Account) :=
  [(200, mkAccount 1000000 (borsh_ser config) PROGRAM false);
   (500, mkAccount 1000000 (borsh_ser vault) PROGRAM false);
   (501, mkAccount 10000000000 [] PROGRAM false);
   (600, mkAccount 1000000 (borsh_ser other) PROGRAM false);
   (700, mkAccount 1000000 (le_bytes 8 PRICE) 900 false); (701, mkAccount 1000000 [] 900 false);
   (400, mkAccount 5000 [] 0 false); (402, mkAccount 5000 [] 0 false); (0, mkAccount 1 [] 1 true)].
Definition ta : TransactionAccounts := mkTA (store accounts) 0 0.
Definition len (k : Pubkey) : Z := zlen (acc_data (get_acc (store accounts) k)).

(** The owner mints 100 PUSD more. *)
Definition mint_cx : Ctx := demo_ctx PROGRAM
  [mkIA 400 true true; mkIA 500 false true; mkIA 200 false true; mkIA 700 false false; mkIA 701 false true;
   mkIA 701 false true; mkIA 701 false false; mkIA 900 false false] 1000 len.
Definition mint_data : list byte := borsh_ser (MintPusd 100000000).
(** A stranger (402) redeems the debt of the vault. *)
Definition redeem_cx : Ctx := demo_ctx PROGRAM
  [mkIA 402 true true; mkIA 500 false true; mkIA 200 false true; mkIA 501 false true; mkIA 700 false false;
   mkIA 701 false false; mkIA 701 false false; mkIA 900 false false; mkIA 0 false false] 1000 len.

Lemma pusd_lamports : lamports_ok (ta_accounts ta).
Proof. apply lamports_ok_store, (bool_decide_unpack _). by vm_compute. Qed.



Lemma pusd_runs :
  is_ok (execute mint_cx (process_instruction mint_cx mint_data) ta) &&
  is_ok (execute redeem_cx (process_redeem redeem_cx 50000000) ta) = true.
Proof. vm_compute. reflexivity. Qed.

End PusdDemo.

(** ** Properties *)

Section PusdProperties.
Context {E : Env} {BC : Borsh PusdConfig} {BV : Borsh Vault} {BI : Borsh PusdInstruction}.
Context {LC : BorshLaws PusdConfig} {LV : BorshLaws Vault} {LI : BorshLaws PusdInstruction}.
Context {ZC : BorshSized PusdConfig CONFIG_SPACE} {ZV : BorshSized Vault VAULT_SPACE}.
Context {L : EnvLaws} {X : ExecLaws} (cx : Ctx).


(** A redemption costs nothing: it pays the signer, whoever that is, the
    collateral of a vault worth the amount, and changes the data of no account
    but the vault and the configuration; so no PUSD is burned. *)
Theorem redeem_burns_nothing amount ta ta' re va co po orc rest :
  is_u64 amount -> cx_accounts cx = re :: va :: co :: po :: orc :: rest -> ia_key re <> ia_key po ->
  lamports_ok (ta_accounts ta) -> execute cx (process_redeem cx amount) ta = Ok ta' ->
  exists price prism, read_oracle_price (acc_data (get_acc (ta_accounts ta) (ia_key orc))) = Ok price /\
    usd_to_prism amount price = Ok prism /\ ia_is_signer re = true /\
    acc_lamports (get_acc (ta_accounts ta') (ia_key re)) = acc_lamports (get_acc (ta_accounts ta) (ia_key re)) + prism /\
    acc_lamports (get_acc (ta_accounts ta') (ia_key po)) = acc_lamports (get_acc (ta_accounts ta) (ia_key po)) - prism /\
    forall k, k <> ia_key va -> k <> ia_key co ->
      acc_data (get_acc (ta_accounts ta') k) = acc_data (get_acc (ta_accounts ta) k).
Proof.
  intros Ha Hacc Hne Hok H.
  assert (Hsafe : safe (process_redeem cx amount)) by (unfold process_redeem, load_vault, pay_out, ovf; psafe).
  assert (Hconf : confined cx (process_redeem cx amount)) by (unfold process_redeem, load_vault, pay_out, ovf; psafe).
  apply execute_result in H as (s & Hrun & _ & Hp & Hn); [|done..].
  unfold process_redeem, pay_out, ovf in Hrun. rewrite Hacc in Hrun. pinv. bool_to_prop.
  hyp (load_vault _ _ _ = Ok _) as Hl. apply load_vault_ok in Hl as (-> & Hv' & _). cbn [mem] in *.
  do 2 eexists. split_and!; [done|done|done| | |].
  - rewrite (proj1 (proj2 (Hp (ia_key re) ltac:(by_passed)))), !stored_lamports, get_acc_insert_eq. simpl.
    by rewrite get_acc_insert_ne.
  - rewrite (proj1 (proj2 (Hp (ia_key po) ltac:(by_passed)))), !stored_lamports.
    rewrite get_acc_insert_ne by done. by rewrite get_acc_insert_eq.
  - intros k Hk Hk'. destruct (decide (passed cx k)) as [Hpk|Hpk]; [|by rewrite Hn].
    rewrite (proj1 (Hp k Hpk)), !stored_ne by done. by rewrite !set_lamports_data.
Qed.
End PusdProperties.

(** The collateral ratio is a hundred times too high: for a vault with
    debt, the program's ratio is a hundred times the documented one, the value
    of the collateral (lamports at 9 decimals times a price at 8 decimals) over
    the debt (6 decimals) in basis points.  The 150 percent a mint requires are
    1.5 percent of the debt. *)
Theorem collateral_ratio_hundredfold v price r :
  well_typed v -> is_u64 price -> 0 < va_debt v -> collateral_ratio_bps v price = Ok r ->
  let documented := va_collateral v * price * 10000 / (total_debt v * 100000000000) in
  documented < 2 ^ 57 -> 100 * documented <= r < 100 * (documented + 1).
Proof.
  intros Wv Hp Hd H. cbv zeta. intros Hsmall. pose proof (total_debt_ge v Wv). apply collateral_ratio_spec in H as [-> _]; [|done..].
  set (a := va_collateral v * price * 10000) in *. set (t := total_debt v) in *.
  assert (0 <= a) by (destruct Wv as (_&?&_); unfold a; unfold_ints; nia).
  pose proof (Z.div_mod a (t * 1000000000)). pose proof (Z.mod_pos_bound a (t * 1000000000)).
  pose proof (Z.div_mod a (t * 100000000000)). pose proof (Z.mod_pos_bound a (t * 100000000000)).
  set (documented := a / (t * 100000000000)) in *. set (q := a / (t * 1000000000)) in *.
  assert (Hq : 100 * documented <= q < 100 * (documented + 1)) by nia.
  assert (0 <= documented) by (apply Z.div_pos; lia). rewrite as_u64_id by (unfold_ints; lia). exact Hq.
Qed.


Lemma redeem_burns_nothing_witness : exists ta' price prism,
  execute PusdDemo.redeem_cx (process_redeem PusdDemo.redeem_cx 50000000) PusdDemo.ta = Ok ta' /\
  usd_to_prism 50000000 price = Ok prism /\ acc_lamports (get_acc (ta_accounts ta') 402) = 5000 + prism.
Proof.
  destruct (execute PusdDemo.redeem_cx (process_redeem PusdDemo.redeem_cx 50000000) PusdDemo.ta) as [ta'|e] eqn:Hrun;
    [|pose proof PusdDemo.pusd_runs as Hk; rewrite Hrun, andb_false_r in Hk; discriminate Hk].
  destruct (redeem_burns_nothing PusdDemo.redeem_cx 50000000 PusdDemo.ta ta' (mkIA 402 true true) (mkIA 500 false true)
    (mkIA 200 false true) (mkIA 501 false true) (mkIA 700 false false)
    [mkIA 701 false false; mkIA 701 false false; mkIA 900 false false; mkIA 0 false false]) as (price & prism & _ & Hu & _ & Hl & _);
    [evaluate|exact eq_refl|evaluate|exact PusdDemo.pusd_lamports|exact Hrun|].
  exists ta', price, prism. exact (conj eq_refl (conj Hu Hl)).
Defined.

Lemma collateral_ratio_hundredfold_witness :
  collateral_ratio_bps PusdDemo.vault PusdDemo.PRICE = Ok 2000000 /\ 100 * 20000 <= 2000000 < 100 * (20000 + 1).
Proof.
  split; [vm_compute; reflexivity|].
  exact (collateral_ratio_hundredfold PusdDemo.vault PusdDemo.PRICE 2000000 ltac:(evaluate) ltac:(evaluate) ltac:(evaluate)
    ltac:(vm_compute; reflexivity) ltac:(evaluate)).
Defined.

(** Finding: the ratio is cut to 64 bits, so that a vault whose collateral is
    worth more than 2^64 basis points of its debt has the ratio 0, under the
    threshold of a liquidation. *)
Example rich_vault_has_ratio_zero :
  let v := mkVault true 400 (2 ^ 62) 50000000 0 1000 1000 255 0 in
  covered MIN_COLLATERAL_RATIO_BPS (va_collateral v) (total_debt v) 20000000000000 /\
  collateral_ratio_bps v 20000000000000 = Ok 0.
Proof. split; [by vm_compute|by vm_compute]. Qed.
