(* ===== verification/BatchTx.v ===== *)
(** * BatchTx: batch, scheduled, conditional and recurring transfers

    Models [src/programs/batch-tx/src/lib.rs]: a batch pays many recipients at
    once; the other transfers put lamports into an escrow account of the
    program and record when and to whom they are paid out. *)

From Stdlib Require Import Strings.Byte Strings.String.
From S2P Require Import Prelude Borsh Accounts System Invoke Execution Cpi.
Open Scope Z_scope.

(** ** Constants and data *)

Definition MAX_BATCH_RECIPIENTS : Z := 64.
Definition MIN_SCHEDULE_DELAY_SLOTS : Z := 5.
Definition SCHEDULE_SEED : list byte := list_byte_of_string "scheduled_tx".
Definition RECURRING_SEED : list byte := list_byte_of_string "recurring_tx".
Definition ESCROW_SEED : list byte := list_byte_of_string "batch_escrow".
Definition CONDITIONAL_SEED : list byte := list_byte_of_string "conditional_tx".

Inductive BatchTxError :=
| TooManyRecipients | MismatchedArrays | InvalidAmount | InsufficientFunds | NotYetDue | AlreadyExecuted
| ConditionNotMet | IntervalNotElapsed | Unauthorized | Overflow | InvalidPDA | NotInitialized
| MaxTransfersReached | ScheduleTooSoon.

Definition into (e : BatchTxError) : InstructionError :=
  Custom match e with
  | TooManyRecipients => 0 | MismatchedArrays => 1 | InvalidAmount => 2 | InsufficientFunds => 3
  | NotYetDue => 4 | AlreadyExecuted => 5 | ConditionNotMet => 6 | IntervalNotElapsed => 7
  | Unauthorized => 8 | Overflow => 9 | InvalidPDA => 10 | NotInitialized => 11
  | MaxTransfersReached => 12 | ScheduleTooSoon => 13
  end.

Inductive TransferStatus := Pending | Executed | Cancelled.
Inductive ConditionType := BalanceAbove | BalanceBelow.
#[global] Instance TransferStatus_eq_dec : EqDecision TransferStatus.
Proof. solve_decision. Defined.
#[global] Instance ConditionType_eq_dec : EqDecision ConditionType.
Proof. solve_decision. Defined.

Record BatchRecipient := mkRecipient { br_address : Pubkey; br_amount : Z; br_memo : list byte }.

Record ScheduledTransfer := mkScheduled {
  st_is_initialized : bool;
  st_status : TransferStatus;
  st_creator : Pubkey;
  st_recipient : Pubkey;
  st_amount : Z;
  st_execute_at_slot : Z;
  st_execute_at_timestamp : Z;
  st_created_at : Z;
  st_executed_at : Z;
  st_bump : Z;
  st_nonce : Z;
}.
Definition ScheduledTransfer_SIZE : Z := 1 + 1 + 32 + 32 + 8 + 8 + 8 + 8 + 8 + 1 + 8.

Record ConditionalTransfer := mkConditional {
  ct_is_initialized : bool;
  ct_status : TransferStatus;
  ct_creator : Pubkey;
  ct_recipient : Pubkey;
  ct_amount : Z;
  ct_condition_account : Pubkey;
  ct_condition_type : ConditionType;
  ct_threshold : Z;
  ct_expires_at : Z;
  ct_created_at : Z;
  ct_bump : Z;
}.
Definition ConditionalTransfer_SIZE : Z := 1 + 1 + 32 + 32 + 8 + 32 + 1 + 8 + 8 + 8 + 1.

Record RecurringTransfer := mkRecurring {
  rc_is_initialized : bool;
  rc_status : TransferStatus;
  rc_creator : Pubkey;
  rc_recipient : Pubkey;
  rc_amount : Z;
  rc_interval_seconds : Z;
  rc_max_executions : Z;
  rc_executions_completed : Z;
  rc_last_executed_at : Z;
  rc_created_at : Z;
  rc_bump : Z;
  rc_nonce : Z;
}.
Definition RecurringTransfer_SIZE : Z := 1 + 1 + 32 + 32 + 8 + 8 + 8 + 8 + 8 + 8 + 1 + 8.

Inductive BatchTxInstruction :=
| BatchTransfer (recipients : list BatchRecipient)
| CreateScheduledTransfer (recipient : Pubkey) (amount execute_at_slot execute_at_timestamp nonce : Z)
| ExecuteScheduledTransfer
| CancelScheduledTransfer
| CreateConditionalTransfer (recipient : Pubkey) (amount : Z) (condition_account : Pubkey)
    (condition_type : ConditionType) (threshold ttl_seconds : Z)
| ExecuteConditionalTransfer
| CreateRecurringTransfer (recipient : Pubkey) (amount interval_seconds max_executions nonce : Z)
| ExecuteRecurringTransfer.

#[global] Instance BatchRecipient_well_typed : WellTyped BatchRecipient := fun r =>
  is_pubkey (br_address r) /\ is_u64 (br_amount r) /\ zlen (br_memo r) = 64.
#[global] Instance ScheduledTransfer_well_typed : WellTyped ScheduledTransfer := fun t =>
  is_pubkey (st_creator t) /\ is_pubkey (st_recipient t) /\ is_u64 (st_amount t) /\ is_u64 (st_execute_at_slot t) /\
  is_i64 (st_execute_at_timestamp t) /\ is_i64 (st_created_at t) /\ is_i64 (st_executed_at t) /\ is_u8 (st_bump t) /\
  is_u64 (st_nonce t).
#[global] Instance ConditionalTransfer_well_typed : WellTyped ConditionalTransfer := fun t =>
  is_pubkey (ct_creator t) /\ is_pubkey (ct_recipient t) /\ is_u64 (ct_amount t) /\ is_pubkey (ct_condition_account t) /\
  is_u64 (ct_threshold t) /\ is_i64 (ct_expires_at t) /\ is_i64 (ct_created_at t) /\ is_u8 (ct_bump t).
#[global] Instance RecurringTransfer_well_typed : WellTyped RecurringTransfer := fun t =>
  is_pubkey (rc_creator t) /\ is_pubkey (rc_recipient t) /\ is_u64 (rc_amount t) /\ is_i64 (rc_interval_seconds t) /\
  is_u64 (rc_max_executions t) /\ is_u64 (rc_executions_completed t) /\ is_i64 (rc_last_executed_at t) /\
  is_i64 (rc_created_at t) /\ is_u8 (rc_bump t) /\ is_u64 (rc_nonce t).
#[global] Instance BatchTxInstruction_well_typed : WellTyped BatchTxInstruction := fun i =>
  match i with
  | BatchTransfer recipients => is_u32 (zlen recipients) /\ Forall well_typed recipients
  | CreateScheduledTransfer recipient amount slot timestamp nonce =>
      is_pubkey recipient /\ is_u64 amount /\ is_u64 slot /\ is_i64 timestamp /\ is_u64 nonce
  | CreateConditionalTransfer recipient amount condition_account _ threshold ttl_seconds =>
      is_pubkey recipient /\ is_u64 amount /\ is_pubkey condition_account /\ is_u64 threshold /\ is_i64 ttl_seconds
  | CreateRecurringTransfer recipient amount interval_seconds max_executions nonce =>
      is_pubkey recipient /\ is_u64 amount /\ is_i64 interval_seconds /\ is_u64 max_executions /\ is_u64 nonce
  | _ => True
  end.

(** Field updates of the handlers. *)
Definition close_scheduled (status : TransferStatus) (executed_at : Z) (t : ScheduledTransfer) : ScheduledTransfer :=
  mkScheduled (st_is_initialized t) status (st_creator t) (st_recipient t) (st_amount t) (st_execute_at_slot t)
    (st_execute_at_timestamp t) (st_created_at t) executed_at (st_bump t) (st_nonce t).
Definition close_conditional (status : TransferStatus) (t : ConditionalTransfer) : ConditionalTransfer :=
  mkConditional (ct_is_initialized t) status (ct_creator t) (ct_recipient t) (ct_amount t) (ct_condition_account t)
    (ct_condition_type t) (ct_threshold t) (ct_expires_at t) (ct_created_at t) (ct_bump t).
Definition advance_recurring (status : TransferStatus) (completed last : Z) (t : RecurringTransfer) : RecurringTransfer :=
  mkRecurring (rc_is_initialized t) status (rc_creator t) (rc_recipient t) (rc_amount t) (rc_interval_seconds t)
    (rc_max_executions t) completed last (rc_created_at t) (rc_bump t) (rc_nonce t).

(** ** Instructions *)

Section BatchTx.
Context {E : Env} {BS : Borsh ScheduledTransfer} {BC : Borsh ConditionalTransfer} {BR : Borsh RecurringTransfer}
  {BI : Borsh BatchTxInstruction}.
Variable cx : Ctx.

(** The loop over the recipients: a zero amount takes no account. *)
Fixpoint pay_recipients (sender system_program : AccountInfo) (recipients : list BatchRecipient)
    (it : list AccountInfo) : M unit :=
  match recipients with
  | [] => pret tt
  | recipient :: recipients =>
      if br_amount recipient =? 0 then pay_recipients sender system_program recipients it else
      (let! '(recipient_account, it) := next_account_info it in
       fail_if (negb (ia_key recipient_account =? br_address recipient)) InvalidAccountData ;;
       invoke cx (transfer_ix (ia_key sender) (br_address recipient) (br_amount recipient))
         [sender; recipient_account; system_program] ;;
       pay_recipients sender system_program recipients it)%prog
  end.

Definition process_batch_transfer (recipients : list BatchRecipient) : M unit :=
  (fail_if ((zlen recipients =? 0) || (MAX_BATCH_RECIPIENTS <? zlen recipients)) (into TooManyRecipients) ;;
   let! '(sender, it) := next_account_info (cx_accounts cx) in
   let! '(system_program, it) := next_account_info it in
   fail_if (negb (ia_is_signer sender)) MissingRequiredSignature ;;
   let! total := lift (foldM (fun acc r => ok_or (u64_checked_add acc (br_amount r)) (into Overflow)) 0 recipients) in
   let! sa := account sender in
   fail_if (acc_lamports sa <? total) (into InsufficientFunds) ;;
   pay_recipients sender system_program recipients it)%prog.

Definition process_create_scheduled (recipient : Pubkey) (amount execute_at_slot execute_at_timestamp nonce : Z)
    : M unit :=
  (let! '(creator, it) := next_account_info (cx_accounts cx) in
   let! '(schedule_account, it) := next_account_info it in
   let! '(escrow_account, it) := next_account_info it in
   let! '(system_program, it) := next_account_info it in
   fail_if (negb (ia_is_signer creator)) MissingRequiredSignature ;;
   fail_if (amount =? 0) (into InvalidAmount) ;;
   let! clock := clock_get cx in
   fail_if ((0 <? execute_at_slot) && (execute_at_slot <? as_u64 (clk_slot clock + MIN_SCHEDULE_DELAY_SLOTS)))
     (into ScheduleTooSoon) ;;
   fail_if ((0 <? execute_at_timestamp) && (execute_at_timestamp <=? unix_timestamp clock)) (into ScheduleTooSoon) ;;
   let nonce_bytes := le_bytes 8 nonce in
   let '(schedule_pda, schedule_bump) :=
     find_program_address [SCHEDULE_SEED; key_bytes (ia_key creator); nonce_bytes] (cx_program_id cx) in
   fail_if (negb (schedule_pda =? ia_key schedule_account)) (into InvalidPDA) ;;
   let '(escrow_pda, escrow_bump) :=
     find_program_address [ESCROW_SEED; key_bytes (ia_key schedule_account)] (cx_program_id cx) in
   fail_if (negb (escrow_pda =? ia_key escrow_account)) (into InvalidPDA) ;;
   let space := ScheduledTransfer_SIZE in
   let lamports := minimum_balance space in
   invoke_signed cx
     (create_account_ix (ia_key creator) (ia_key schedule_account) lamports space (cx_program_id cx))
     [creator; schedule_account; system_program]
     [[SCHEDULE_SEED; key_bytes (ia_key creator); nonce_bytes; [byte_of_Z schedule_bump]]] ;;
   invoke_signed cx
     (create_account_ix (ia_key creator) (ia_key escrow_account) amount 0 (cx_program_id cx))
     [creator; escrow_account; system_program]
     [[ESCROW_SEED; key_bytes (ia_key schedule_account); [byte_of_Z escrow_bump]]] ;;
   serialize_into (mkScheduled true Pending (ia_key creator) recipient amount execute_at_slot execute_at_timestamp
     (unix_timestamp clock) 0 schedule_bump nonce) schedule_account)%prog.

Definition process_execute_scheduled : M unit :=
  (let! '(_executor, it) := next_account_info (cx_accounts cx) in
   let! '(schedule_account, it) := next_account_info it in
   let! '(escrow_account, it) := next_account_info it in
   let! '(recipient_account, it) := next_account_info it in
   let! '(_system_program, it) := next_account_info it in
   let! sa := account schedule_account in
   fail_if (negb (acc_owner sa =? cx_program_id cx)) IncorrectProgramId ;;
   let! transfer := load ScheduledTransfer schedule_account BorshIoError in
   fail_if (negb (st_is_initialized transfer)) (into NotInitialized) ;;
   fail_if (negb (bool_decide (st_status transfer = Pending))) (into AlreadyExecuted) ;;
   fail_if (negb (ia_key recipient_account =? st_recipient transfer)) InvalidAccountData ;;
   let! clock := clock_get cx in
   let slot_ready := (st_execute_at_slot transfer =? 0) || (st_execute_at_slot transfer <=? clk_slot clock) in
   let time_ready :=
     (st_execute_at_timestamp transfer =? 0) || (st_execute_at_timestamp transfer <=? unix_timestamp clock) in
   fail_if (negb slot_ready || negb time_ready) (into NotYetDue) ;;
   drain_into (into Overflow) escrow_account recipient_account ;;
   serialize_into (close_scheduled Executed (unix_timestamp clock) transfer) schedule_account)%prog.

Definition process_cancel_scheduled : M unit :=
  (let! '(creator, it) := next_account_info (cx_accounts cx) in
   let! '(schedule_account, it) := next_account_info it in
   let! '(escrow_account, it) := next_account_info it in
   let! '(_system_program, it) := next_account_info it in
   fail_if (negb (ia_is_signer creator)) MissingRequiredSignature ;;
   let! sa := account schedule_account in
   fail_if (negb (acc_owner sa =? cx_program_id cx)) IncorrectProgramId ;;
   let! transfer := load ScheduledTransfer schedule_account BorshIoError in
   fail_if (negb (st_is_initialized transfer)) (into NotInitialized) ;;
   fail_if (negb (bool_decide (st_status transfer = Pending))) (into AlreadyExecuted) ;;
   fail_if (negb (st_creator transfer =? ia_key creator)) (into Unauthorized) ;;
   drain_into (into Overflow) escrow_account creator ;;
   serialize_into (close_scheduled Cancelled (st_executed_at transfer) transfer) schedule_account)%prog.

Definition process_create_conditional (recipient : Pubkey) (amount : Z) (condition_account : Pubkey)
    (condition_type : ConditionType) (threshold ttl_seconds : Z) : M unit :=
  (let! '(creator, it) := next_account_info (cx_accounts cx) in
   let! '(cond_transfer_account, it) := next_account_info it in
   let! '(escrow_account, it) := next_account_info it in
   let! '(system_program, it) := next_account_info it in
   fail_if (negb (ia_is_signer creator)) MissingRequiredSignature ;;
   fail_if (amount =? 0) (into InvalidAmount) ;;
   let! clock := clock_get cx in
   let amount_bytes := le_bytes 8 amount in
   let '(cond_pda, cond_bump) :=
     find_program_address [CONDITIONAL_SEED; key_bytes (ia_key creator); key_bytes condition_account; amount_bytes]
       (cx_program_id cx) in
   fail_if (negb (cond_pda =? ia_key cond_transfer_account)) (into InvalidPDA) ;;
   let '(escrow_pda, escrow_bump) :=
     find_program_address [ESCROW_SEED; key_bytes (ia_key cond_transfer_account)] (cx_program_id cx) in
   fail_if (negb (escrow_pda =? ia_key escrow_account)) (into InvalidPDA) ;;
   let space := ConditionalTransfer_SIZE in
   let lamports := minimum_balance space in
   invoke_signed cx
     (create_account_ix (ia_key creator) (ia_key cond_transfer_account) lamports space (cx_program_id cx))
     [creator; cond_transfer_account; system_program]
     [[CONDITIONAL_SEED; key_bytes (ia_key creator); key_bytes condition_account; amount_bytes; [byte_of_Z cond_bump]]] ;;
   invoke_signed cx
     (create_account_ix (ia_key creator) (ia_key escrow_account) amount 0 (cx_program_id cx))
     [creator; escrow_account; system_program]
     [[ESCROW_SEED; key_bytes (ia_key cond_transfer_account); [byte_of_Z escrow_bump]]] ;;
   serialize_into (mkConditional true Pending (ia_key creator) recipient amount condition_account condition_type threshold
     (i64_saturating_add (unix_timestamp clock) ttl_seconds) (unix_timestamp clock) cond_bump)
     cond_transfer_account)%prog.

(** The condition of a conditional transfer, on the balance of the account. *)
Definition condition_met (t : ConditionalTransfer) (balance : Z) : bool :=
  match ct_condition_type t with
  | BalanceAbove => ct_threshold t <=? balance
  | BalanceBelow => balance <=? ct_threshold t
  end.

Definition process_execute_conditional : M unit :=
  (let! '(_executor, it) := next_account_info (cx_accounts cx) in
   let! '(cond_account, it) := next_account_info it in
   let! '(escrow_account, it) := next_account_info it in
   let! '(recipient_account, it) := next_account_info it in
   let! '(condition_check_account, it) := next_account_info it in
   let! '(_system_program, it) := next_account_info it in
   let! ca := account cond_account in
   fail_if (negb (acc_owner ca =? cx_program_id cx)) IncorrectProgramId ;;
   let! cond := load ConditionalTransfer cond_account BorshIoError in
   fail_if (negb (ct_is_initialized cond)) (into NotInitialized) ;;
   fail_if (negb (bool_decide (ct_status cond = Pending))) (into AlreadyExecuted) ;;
   fail_if (negb (ia_key recipient_account =? ct_recipient cond)) InvalidAccountData ;;
   fail_if (negb (ia_key condition_check_account =? ct_condition_account cond)) InvalidAccountData ;;
   let! clock := clock_get cx in
   fail_if (ct_expires_at cond <? unix_timestamp clock) (into AlreadyExecuted) ;;
   let! check := account condition_check_account in
   fail_if (negb (condition_met cond (acc_lamports check))) (into ConditionNotMet) ;;
   drain_into (into Overflow) escrow_account recipient_account ;;
   serialize_into (close_conditional Executed cond) cond_account)%prog.

Definition process_create_recurring (recipient : Pubkey) (amount interval_seconds max_executions nonce : Z) : M unit :=
  (let! '(creator, it) := next_account_info (cx_accounts cx) in
   let! '(recurring_account, it) := next_account_info it in
   let! '(escrow_account, it) := next_account_info it in
   let! '(system_program, it) := next_account_info it in
   fail_if (negb (ia_is_signer creator)) MissingRequiredSignature ;;
   fail_if (amount =? 0) (into InvalidAmount) ;;
   fail_if (interval_seconds <=? 0) (into InvalidAmount) ;;
   let! clock := clock_get cx in
   let! total_escrow :=
     lift (ok_or (u64_checked_mul amount (if 0 <? max_executions then max_executions else 12)) (into Overflow)) in
   let nonce_bytes := le_bytes 8 nonce in
   let '(recurring_pda, recurring_bump) :=
     find_program_address [RECURRING_SEED; key_bytes (ia_key creator); nonce_bytes] (cx_program_id cx) in
   fail_if (negb (recurring_pda =? ia_key recurring_account)) (into InvalidPDA) ;;
   let '(escrow_pda, escrow_bump) :=
     find_program_address [ESCROW_SEED; key_bytes (ia_key recurring_account)] (cx_program_id cx) in
   fail_if (negb (escrow_pda =? ia_key escrow_account)) (into InvalidPDA) ;;
   let space := RecurringTransfer_SIZE in
   let lamports := minimum_balance space in
   invoke_signed cx
     (create_account_ix (ia_key creator) (ia_key recurring_account) lamports space (cx_program_id cx))
     [creator; recurring_account; system_program]
     [[RECURRING_SEED; key_bytes (ia_key creator); nonce_bytes; [byte_of_Z recurring_bump]]] ;;
   invoke_signed cx
     (create_account_ix (ia_key creator) (ia_key escrow_account) total_escrow 0 (cx_program_id cx))
     [creator; escrow_account; system_program]
     [[ESCROW_SEED; key_bytes (ia_key recurring_account); [byte_of_Z escrow_bump]]] ;;
   serialize_into (mkRecurring true Pending (ia_key creator) recipient amount interval_seconds max_executions 0
     (unix_timestamp clock) (unix_timestamp clock) recurring_bump nonce) recurring_account)%prog.

Definition process_execute_recurring : M unit :=
  (let! '(_executor, it) := next_account_info (cx_accounts cx) in
   let! '(recurring_account, it) := next_account_info it in
   let! '(escrow_account, it) := next_account_info it in
   let! '(recipient_account, it) := next_account_info it in
   let! '(_system_program, it) := next_account_info it in
   let! ra := account recurring_account in
   fail_if (negb (acc_owner ra =? cx_program_id cx)) IncorrectProgramId ;;
   let! recurring := load RecurringTransfer recurring_account BorshIoError in
   fail_if (negb (rc_is_initialized recurring)) (into NotInitialized) ;;
   fail_if (negb (bool_decide (rc_status recurring = Pending))) (into AlreadyExecuted) ;;
   fail_if (negb (ia_key recipient_account =? rc_recipient recurring)) InvalidAccountData ;;
   let! clock := clock_get cx in
   let elapsed := i64_saturating_sub (unix_timestamp clock) (rc_last_executed_at recurring) in
   fail_if (elapsed <? rc_interval_seconds recurring) (into IntervalNotElapsed) ;;
   let! escrow := account escrow_account in
   let escrow_balance := acc_lamports escrow in
   fail_if (escrow_balance <? rc_amount recurring) (into InsufficientFunds) ;;
   let! rest := lift (ok_or (u64_checked_sub escrow_balance (rc_amount recurring)) (into Overflow)) in
   write_lamports escrow_account rest ;;
   let! r := account recipient_account in
   let! total := lift (ok_or (u64_checked_add (acc_lamports r) (rc_amount recurring)) (into Overflow)) in
   write_lamports recipient_account total ;;
   let! completed := lift (ok_or (u64_checked_add (rc_executions_completed recurring) 1) (into Overflow)) in
   let status := if (0 <? rc_max_executions recurring) && (rc_max_executions recurring <=? completed)
                 then Executed else rc_status recurring in
   serialize_into (advance_recurring status completed (unix_timestamp clock) recurring) recurring_account)%prog.

Definition process_instruction (instruction_data : list byte) : M unit :=
  (let! instruction := lift (ok_or (try_from_slice instruction_data) InvalidInstructionData) in
   match instruction with
   | BatchTransfer recipients => process_batch_transfer recipients
   | CreateScheduledTransfer recipient amount execute_at_slot execute_at_timestamp nonce =>
       process_create_scheduled recipient amount execute_at_slot execute_at_timestamp nonce
   | ExecuteScheduledTransfer => process_execute_scheduled
   | CancelScheduledTransfer => process_cancel_scheduled
   | CreateConditionalTransfer recipient amount condition_account condition_type threshold ttl_seconds =>
       process_create_conditional recipient amount condition_account condition_type threshold ttl_seconds
   | ExecuteConditionalTransfer => process_execute_conditional
   | CreateRecurringTransfer recipient amount interval_seconds max_executions nonce =>
       process_create_recurring recipient amount interval_seconds max_executions nonce
   | ExecuteRecurringTransfer => process_execute_recurring
   end)%prog.
End BatchTx.
