(* ===== verification/BatchTxProofs.v ===== *)
(** * BatchTxProofs: correctness of the batch transfer program *)

From Stdlib Require Import Strings.Byte.
From S2P Require Import Prelude Borsh Accounts System Invoke Execution Cpi Ledger BatchTx.
Open Scope Z_scope.

(** ** Batch transfers *)

Definition total_amount (rs : list BatchRecipient) : Z := foldr (fun r t => br_amount r + t) 0 rs.
Definition amount_to (k : Pubkey) (rs : list BatchRecipient) : Z :=
  foldr (fun r t => (if decide (br_address r = k) then br_amount r else 0) + t) 0 rs.

(** The recipients that take part: a zero amount is skipped. *)
Definition payees (rs : list BatchRecipient) : list Pubkey :=
  br_address <$> filter (fun r => br_amount r <> 0) rs.

Lemma payees_cons r rs : payees (r :: rs) = if decide (br_amount r = 0) then payees rs else br_address r :: payees rs.
Proof. unfold payees. rewrite filter_cons. repeat case_decide; tauto || done. Qed.

(** The accounts after the payments. *)
Fixpoint paid (sender : Pubkey) (rs : list BatchRecipient) (m : gmap Pubkey Account) : gmap Pubkey Account :=
  match rs with
  | [] => m
  | r :: rs => paid sender rs (if decide (br_amount r = 0) then m else moved sender (br_address r) (br_amount r) m)
  end.
Definition paid_state (sender : Pubkey) (rs : list BatchRecipient) (s : PState) : PState :=
  mkPState (paid sender rs (mem s)) (mkTA (paid sender rs (ta_accounts (rt s))) (ta_resize_delta (rt s)) 0).

Lemma amount_to_nonneg k rs : Forall well_typed rs -> 0 <= amount_to k rs.
Proof. induction 1 as [|r rs (_ & Hr & _) _ IH]; simpl; [lia|]. case_decide; ilia. Qed.

Lemma total_amount_nonneg rs : Forall well_typed rs -> 0 <= total_amount rs.
Proof. induction 1 as [|r rs (_ & Hr & _) _ IH]; simpl; [lia|]. ilia. Qed.

Lemma total_amount_sum rs a t :
  Forall well_typed rs -> 0 <= a ->
  foldM (fun acc r => ok_or (u64_checked_add acc (br_amount r)) (into Overflow)) a rs = Ok t <->
  (rs = [] \/ a + total_amount rs <= U64_MAX) /\ t = a + total_amount rs.
Proof.
  intros Hrs. revert a. induction Hrs as [|r rs (_ & Hr & _) Hrs IH]; intros a Ha; simpl.
  { rewrite Z.add_0_r. naive_solver. }
  pose proof (total_amount_nonneg rs Hrs). split.
  - intros H1. rinv. apply IH in H1 as [H1 ->]; [|ilia]. split; [right; destruct H1; subst; simpl in *; ilia|lia].
  - intros [[?|H1] ->]; [done|]. rewrite checked_in by ilia. simpl. apply IH; [ilia|]. split; [right; lia|lia].
Qed.

Lemma moved_lamports from to amount m k :
  from <> to -> acc_lamports (get_acc (moved from to amount m) k) =
  acc_lamports (get_acc m k) + (if decide (to = k) then amount else 0) - (if decide (k = from) then amount else 0).
Proof.
  intros Hne. unfold moved. rewrite !get_acc_insert. repeat case_decide; subst; simpl; try done; lia.
Qed.

Lemma moved_same from to amount m k :
  let a := get_acc m k in let a' := get_acc (moved from to amount m) k in
  acc_data a' = acc_data a /\ acc_owner a' = acc_owner a /\ acc_executable a' = acc_executable a.
Proof. unfold moved. cbv zeta. rewrite !get_acc_insert. by repeat case_decide; subst. Qed.

Lemma moved_lookup from to amount m k a :
  m !! k = Some a -> moved from to amount m !! k = Some (get_acc (moved from to amount m) k).
Proof.
  intros Hk. unfold get_acc. assert (is_Some (moved from to amount m !! k)) as [b ->]; [|done].
  unfold moved. rewrite !lookup_insert. repeat case_decide; by eexists.
Qed.

(** Every recipient gets its amounts, the sender pays the total. *)
Lemma paid_lamports sender rs m k :
  sender ∉ payees rs ->
  acc_lamports (get_acc (paid sender rs m) k) =
  acc_lamports (get_acc m k) + amount_to k rs - (if decide (k = sender) then total_amount rs else 0).
Proof.
  revert m. induction rs as [|r rs IH]; intros m Hs; simpl; [case_decide; lia|].
  rewrite payees_cons in Hs. destruct (decide (br_amount r = 0)) as [Hz|Hz].
  - rewrite IH by done. repeat case_decide; lia.
  - apply not_elem_of_cons in Hs as [Hne Hs].
    rewrite IH by done. rewrite moved_lamports by congruence. repeat case_decide; lia.
Qed.

Section Batch.
Context {E : Env} {L : EnvLaws} (cx : Ctx) (sender sys : AccountInfo).
Abbreviation sk := (ia_key sender).

(** A state of the transaction in which the accounts of the batch are loaded. *)
Record batch_state (s : PState) (rs : list BatchRecipient) : Prop := {
  bs_synced : ta_accounts (rt s) = mem s;
  bs_lamports : lamports_ok (mem s);
  bs_delta : ta_lamports_delta (rt s) = 0 /\ is_i64 (ta_resize_delta (rt s));
  bs_system : contains (cx_callers cx ++ [cx_program_id cx]) system_program_id = false;
  bs_sender : exists a, mem s !! sk = Some a /\ acc_executable a = false;
  bs_payees : forall k, k ∈ payees rs -> k <> sk /\ exists a, mem s !! k = Some a /\ acc_executable a = false;
}.

(** What the sender and a recipient need. *)
Definition payer_ok (m : gmap Pubkey Account) : Prop :=
  may_sign cx [] sk /\ is_Some (find_account (cx_accounts cx) system_program_id) /\
  acc_data (get_acc m sk) = [] /\ acc_owner (get_acc m sk) = system_program_id.
Definition payee_ok (k : Pubkey) : Prop :=
  exists i c, find_account (cx_accounts cx) k = Some (i, c) /\ ia_is_writable c = true.

Lemma batch_skip s r rs : br_amount r = 0 -> batch_state s (r :: rs) -> batch_state s rs.
Proof. intros Hz [????? Hp]. rewrite payees_cons, decide_True in Hp by done. by split. Qed.

Lemma batch_ready s r rs :
  br_amount r <> 0 -> batch_state s (r :: rs) ->
  create_ready cx s sk (br_address r) (get_acc (mem s) sk) (get_acc (mem s) (br_address r)).
Proof.
  intros Hz [Hsy Hl [Hd Hr] Hc (a & Ha & Hxa) Hp].
  destruct (Hp (br_address r)) as (Hne & b & Hb & Hxb); [rewrite payees_cons, decide_False by done; left|].
  rewrite (mem_acc _ _ _ Ha), (mem_acc _ _ _ Hb). split; try (by rewrite ?Hsy); try done.
  by rewrite <- (mem_acc _ _ _ Ha), <- (mem_acc _ _ _ Hb).
Qed.

Lemma batch_next s r rs :
  br_amount r <> 0 -> well_typed r -> batch_state s (r :: rs) -> br_amount r <= acc_lamports (get_acc (mem s) sk) ->
  acc_lamports (get_acc (mem s) (br_address r)) + br_amount r <= U64_MAX ->
  batch_state (moved_state sk (br_address r) (br_amount r) s) rs.
Proof.
  intros Hz (_ & Hr & _) [Hsy Hl [Hd Hrd] Hc (a & Ha & Hxa) Hp] Hle Hmax.
  rewrite payees_cons, decide_False in Hp by done. destruct (Hp (br_address r)) as (Hne & b & Hb & Hxb); [left|].
  assert (Hx : forall k c, mem s !! k = Some c -> acc_executable c = false ->
    exists a, moved sk (br_address r) (br_amount r) (mem s) !! k = Some a /\ acc_executable a = false).
  { intros k c Hk Hxc. eexists. split; [by eapply moved_lookup|].
    by rewrite (proj2 (proj2 (moved_same _ _ _ _ _))), (mem_acc _ _ _ Hk). }
  split; simpl; try done.
  - by rewrite Hsy.
  - intros k. rewrite moved_lamports by congruence. pose proof (Hl k). repeat case_decide; subst; simplify_eq; ilia.
  - by eapply Hx.
  - intros k Hk. destruct (Hp k) as (Hnk & c & Hc' & Hxc); [by right|]. split; [done|by eapply Hx].
Qed.

(** What the payments of a batch need. *)
Definition payable (m : gmap Pubkey Account) (rs : list BatchRecipient) (it : list AccountInfo) : Prop :=
  payees rs `prefix_of` (ia_key <$> it) /\ (payees rs <> [] -> payer_ok m) /\ (forall k, k ∈ payees rs -> payee_ok k) /\
  (forall k, k <> sk -> acc_lamports (get_acc m k) + amount_to k rs <= U64_MAX).

Lemma payer_moved to amount m : payer_ok (moved sk to amount m) <-> payer_ok m.
Proof. unfold payer_ok. destruct (moved_same sk to amount m sk) as (-> & -> & _). done. Qed.

(** The needs of a batch are those of its first payment and of the rest. *)
Lemma payable_cons m r rs ra it :
  br_amount r <> 0 -> well_typed r -> Forall well_typed rs -> br_address r <> sk -> ia_key ra = br_address r ->
  br_amount r <= acc_lamports (get_acc m sk) ->
  payable m (r :: rs) (ra :: it) <->
  cpi_transfer_guard cx sk (br_address r) [sender; ra; sys] (get_acc m sk) (get_acc m (br_address r)) (br_amount r) /\
  payable (moved sk (br_address r) (br_amount r) m) rs it.
Proof.
  intros Hz (_ & Hr & _) Hrs Hne Hra Hle. unfold payable. rewrite payees_cons, decide_False by done. csimpl. rewrite Hra, payer_moved.
  pose proof (amount_to_nonneg (br_address r) rs Hrs) as Hnn.
  assert (Hlam : forall k, k <> sk -> acc_lamports (get_acc (moved sk (br_address r) (br_amount r) m) k) + amount_to k rs =
    acc_lamports (get_acc m k) + ((if decide (br_address r = k) then br_amount r else 0) + amount_to k rs)).
  { intros k Hk. rewrite moved_lamports by congruence. rewrite (decide_False (P := k = sk)) by done. lia. }
  split.
  - intros (Hpre & Hpay & Hw & Hmax). destruct (Hpay ltac:(done)) as (Hs & Hsys & Hd & Ho). split.
    + split; [done|apply Hw; left|done| |split_and!; [done|by right|done]|].
      * unfold find_account; simpl. rewrite decide_True by done. split; [by eexists|].
        rewrite decide_False by congruence. rewrite decide_True by done. by eexists.
      * specialize (Hmax _ Hne). rewrite decide_True in Hmax by done. lia.
    + split_and!; [by eapply prefix_cons_inv_2|done|intros k Hk; apply Hw; by right|].
      intros k Hk. rewrite Hlam by done. by apply Hmax.
  - intros [[Gs Gt Gp _ (Gd & Go & _) Gm] (Hpre & Hpay & Hw & Hmax)]. split_and!.
    + by apply prefix_cons.
    + intros _. by destruct Go.
    + intros k [->|Hk]%elem_of_cons; [done|by apply Hw].
    + intros k Hk. rewrite <- Hlam by done. by apply Hmax.
Qed.

(** The loop pays exactly the recipients, in order. *)
Lemma pay_recipients_iff rs it s s' :
  Forall well_typed rs -> batch_state s rs -> total_amount rs <= acc_lamports (get_acc (mem s) sk) ->
  pay_recipients cx sender sys rs it s = Ok (tt, s') <-> payable (mem s) rs it /\ s' = paid_state sk rs s.
Proof.
  intros Hrs. revert it s s'. induction Hrs as [|r rs Wr Hrs IH]; intros it s s' Hst Htot; simpl.
  { rewrite pret_ok. unfold paid_state, payable. simpl. destruct Hst as [Hsy Hl [Hd _] _ _ _]. destruct s as [m [ta r d]].
    simpl in *. subst. split; [|by intros [_ ->]]. intros [_ [= ->]]. split; [|done].
    split_and!; [apply prefix_nil|done|intros k []%not_elem_of_nil|]. intros k _. pose proof (Hl k). ilia. }
  pose proof (total_amount_nonneg rs Hrs). simpl in Htot. destruct (Z.eqb_spec (br_amount r) 0) as [Hz|Hz].
  - rewrite IH; [|by eapply batch_skip|lia]. unfold payable, paid_state. rewrite payees_cons. simpl.
    rewrite !(decide_True (P := br_amount r = 0)) by done. rewrite Hz. setoid_rewrite <- (Z.add_0_l (amount_to _ _)) at 1.
    split; intros ((? & ? & ? & Hm) & ->); (split; [split_and!; try done|done]); intros k Hk; specialize (Hm k Hk); case_decide; lia.
  - pose proof (batch_ready _ _ _ Hz Hst) as R.
    assert (Hne : br_address r <> sk) by (destruct R; congruence).
    assert (Hps : forall s1, s1 = moved_state sk (br_address r) (br_amount r) s ->
      paid_state sk (r :: rs) s = paid_state sk rs s1).
    { intros s1 ->. unfold paid_state. cbn [paid]. rewrite !(decide_False (P := br_amount r = 0)) by done. reflexivity. }
    assert (Hnext : acc_lamports (get_acc (mem s) (br_address r)) + br_amount r <= U64_MAX ->
      let s1 := moved_state sk (br_address r) (br_amount r) s in
      batch_state s1 rs /\ total_amount rs <= acc_lamports (get_acc (mem s1) sk)).
    { intros Hmax s1. split; [apply batch_next; done || lia|]. simpl.
      rewrite moved_lamports by congruence. rewrite decide_False, decide_True by congruence. lia. }
    split.
    + intros H1. pinv. bool_to_prop. subst. hyp (invoke _ _ _ _ = Ok _) as Hi.
      apply (invoke_transfer _ _ _ _ _ _ _ R) in Hi as [G ->]; [|apply Wr].
      destruct (Hnext (ctg_range _ _ _ _ _ _ _ G)) as [Hn1 Hn2]. apply IH in H1 as [Hp ->]; [|done..].
      split; [|symmetry; by apply Hps]. apply payable_cons; try done. lia.
    + intros [Hp ->]. destruct it as [|ra it].
      { destruct Hp as [Hp _]. rewrite payees_cons, decide_False in Hp by done. by apply prefix_nil_inv in Hp. }
      assert (Hra : ia_key ra = br_address r).
      { destruct Hp as [Hp _]. rewrite payees_cons, decide_False in Hp by done. csimpl in Hp. by apply prefix_cons_inv_1 in Hp. }
      apply payable_cons in Hp as [G Hp]; [|done || lia..].
      destruct (Hnext (ctg_range _ _ _ _ _ _ _ G)) as [Hn1 Hn2].
      prun; [pcheck|]. apply pbind_ok. exists tt, (moved_state sk (br_address r) (br_amount r) s).
      split; [apply (invoke_transfer _ _ _ _ _ _ _ R); [apply Wr|done]|]. rewrite (Hps _ eq_refl). by apply IH.
Qed.

(** A batch transfer succeeds exactly when the sender signed and can pay, and
    pays the recipients exactly. *)
Lemma batch_transfer_iff rs rest s s' :
  cx_accounts cx = sender :: sys :: rest -> Forall well_typed rs -> batch_state s rs ->
  process_batch_transfer cx rs s = Ok (tt, s') <->
  (1 <= zlen rs <= MAX_BATCH_RECIPIENTS /\ ia_is_signer sender = true /\
   total_amount rs <= acc_lamports (get_acc (mem s) sk) /\ payable (mem s) rs rest) /\
  s' = paid_state sk rs s.
Proof.
  intros Hacc Hrs Hst. pose proof (bs_lamports _ _ Hst sk) as Hsl. assert (0 <= zlen rs) by (unfold zlen; lia).
  unfold process_batch_transfer. rewrite Hacc. split.
  - intros H1. pinv. bool_to_prop. hyp (foldM _ _ _ = Ok _) as Hf. apply total_amount_sum in Hf as [_ ->]; [|done..].
    simpl in *. apply pay_recipients_iff in H1 as [Hp ->]; [|done..]. split; [|done]. split_and!; done || lia.
  - intros [(Hlen & Hsig & Htot & Hp) ->]. prun.
    + rewrite (proj2 (Z.eqb_neq _ _)), (proj2 (Z.ltb_ge _ _)) by lia. done.
    + by rewrite Hsig.
    + apply total_amount_sum; [done..|]. split; [right|reflexivity]. ilia.
    + apply Z.ltb_ge. lia.
    + by apply pay_recipients_iff.
Qed.
End Batch.

(** ** The lifecycle of the recorded transfers *)

Inductive Transfer :=
| TScheduled (t : ScheduledTransfer)
| TConditional (t : ConditionalTransfer)
| TRecurring (t : RecurringTransfer).

Section Lifecycle.
Context {E : Env} {BS : Borsh ScheduledTransfer} {BC : Borsh ConditionalTransfer} {BR : Borsh RecurringTransfer}
  {BI : Borsh BatchTxInstruction}.
Context {LS : BorshLaws ScheduledTransfer} {LC : BorshLaws ConditionalTransfer} {LR : BorshLaws RecurringTransfer}
  {LI : BorshLaws BatchTxInstruction}.
Context {ZS : BorshSized ScheduledTransfer ScheduledTransfer_SIZE}
  {ZC : BorshSized ConditionalTransfer ConditionalTransfer_SIZE} {ZR : BorshSized RecurringTransfer RecurringTransfer_SIZE}.
Context (cx : Ctx).
Abbreviation now := (unix_timestamp (cx_clock cx)).
Implicit Types (m : gmap Pubkey Account).

(** The account [k] records the transfer. *)
Definition records m (k : Pubkey) (t : Transfer) : Prop :=
  match t with
  | TScheduled t => holds m k t
  | TConditional t => holds m k t
  | TRecurring t => holds m k t
  end.

(** A transfer recorded in an account of the program [p]. *)
Definition owned_record (p : Pubkey) m (k : Pubkey) (t : Transfer) : Prop :=
  acc_owner (get_acc m k) = p /\ records m k t.

Lemma records_inj m k t t' : records m k t -> records m k t' -> t = t'.
Proof.
  destruct t, t'; simpl; intros H1 H2;
    solve [f_equal; by eapply holds_inj|apply holds_zlen in H1, H2; rewrite H1 in H2; discriminate H2].
Qed.

Lemma records_data m m' k t :
  acc_data (get_acc m' k) = acc_data (get_acc m k) -> records m k t -> records m' k t.
Proof. intros Hd. destruct t; simpl; by apply holds_data. Qed.

(** Both deadlines of a scheduled transfer have passed; 0 stands for none. *)
Definition scheduled_due (t : ScheduledTransfer) : Prop :=
  (st_execute_at_slot t = 0 \/ st_execute_at_slot t <= clk_slot (cx_clock cx)) /\
  (st_execute_at_timestamp t = 0 \/ st_execute_at_timestamp t <= now).

(** The recurring transfer after a further execution. *)
Definition recurring_next (t : RecurringTransfer) : RecurringTransfer :=
  let completed := rc_executions_completed t + 1 in
  advance_recurring (if decide (0 < rc_max_executions t <= completed) then Executed else Pending) completed now t.

(** What an instruction may do to a recorded transfer, given the balances. *)
Inductive tstep m : Transfer -> Transfer -> Prop :=
| step_execute t : st_status t = Pending -> scheduled_due t ->
    tstep m (TScheduled t) (TScheduled (close_scheduled Executed now t))
| step_cancel t : st_status t = Pending -> signed cx (st_creator t) ->
    tstep m (TScheduled t) (TScheduled (close_scheduled Cancelled (st_executed_at t) t))
| step_conditional t : ct_status t = Pending -> now <= ct_expires_at t ->
    condition_met t (acc_lamports (get_acc m (ct_condition_account t))) = true ->
    tstep m (TConditional t) (TConditional (close_conditional Executed t))
| step_recurring t : rc_status t = Pending -> rc_interval_seconds t <= i64_saturating_sub now (rc_last_executed_at t) ->
    tstep m (TRecurring t) (TRecurring (recurring_next t)).

(** An instruction writes one transfer, or leaves the data of all programs alone
    ([keeps_owned]). *)
Definition writes (s s' : PState) : Prop :=
  exists k t t', passed cx k /\ records (mem s) k t /\ tstep (mem s) t t' /\ records (mem s') k t' /\
    (forall j, j <> k -> acc_data (get_acc (mem s') j) = acc_data (get_acc (mem s) j)) /\
    (forall j, acc_owner (get_acc (mem s') j) = acc_owner (get_acc (mem s) j)).

Lemma execute_scheduled_iff s s' :
  is_i64 now ->
  process_execute_scheduled cx s = Ok (tt, s') <->
  exists ex sc es re sys rest t, cx_accounts cx = ex :: sc :: es :: re :: sys :: rest /\
    acc_owner (get_acc (mem s) (ia_key sc)) = cx_program_id cx /\ holds (mem s) (ia_key sc) t /\
    st_is_initialized t = true /\ st_status t = Pending /\ ia_key re = st_recipient t /\ scheduled_due t /\
    is_u64 (received (ia_key es) (ia_key re) (mem s)) /\
    s' = mkPState (stored (close_scheduled Executed now t) (ia_key sc) (drained (ia_key es) (ia_key re) (mem s))) (rt s).
Proof.
  intros Hnow. unfold process_execute_scheduled. split.
  - intros H. pinv. hyp (drain_into _ _ _ _ = Ok _) as Hp. apply drain_into_ok in Hp as [Hp ->]. bool_to_prop.
    hyp (bool_decide (st_status _ = Pending) = true) as Ho. apply bool_decide_eq_true_1 in Ho.
    eexists _, _, _, _, _, _, _. split_and!; try eassumption; try done.
    all: unfold scheduled_due; split_and!; bool_to_prop; lia.
  - intros (ex & sc & es & re & sys & rest & t & -> & Hown & Ht & Hi & Hs & Hre & [Hsl Hts] & Hp & ->).
    prun; try pcheck.
    + apply orb_false_iff. split; apply negb_false_iff, orb_true_iff; rewrite Z.eqb_eq, Z.leb_le; done.
    + apply pbind_ok. eexists tt, _. split; [by apply drain_into_ok|]. prun. simpl. apply serialize_fits.
      * rewrite drained_data. exact (holds_zlen _ _ _ Ht).
      * apply holds_well_typed in Ht. revert Ht. unfold well_typed, ScheduledTransfer_well_typed. simpl. naive_solver.
Qed.

(** A handler that changed balances and then wrote its record. *)
Lemma writes_stored {A} {BA : Borsh A} {WA : WellTyped A} {LA : BorshLaws A} {n : Z} {ZA : BorshSized A n}
    (inj : A -> Transfer) s m2 r k (t t' : A) :
  (forall m k v, records m k (inj v) <-> holds m k v) -> passed cx k -> holds (mem s) k t ->
  tstep (mem s) (inj t) (inj t') -> well_typed t' ->
  (forall j, acc_data (get_acc m2 j) = acc_data (get_acc (mem s) j)) ->
  (forall j, acc_owner (get_acc m2 j) = acc_owner (get_acc (mem s) j)) ->
  writes s (mkPState (stored t' k m2) r).
Proof.
  intros Hinj Hk Ht Hst Hw Hd Ho. exists k, (inj t), (inj t'). simpl. split_and!; [done|by apply Hinj|done| | |].
  - apply Hinj, holds_stored; [|done]. rewrite Hd. exact (holds_zlen _ _ _ Ht).
  - intros j Hj. by rewrite stored_ne.
  - intros j. by rewrite stored_owner.
Qed.

Lemma execute_scheduled_writes s s' :
  is_i64 now -> process_execute_scheduled cx s = Ok (tt, s') -> writes s s'.
Proof.
  intros Hnow H. apply execute_scheduled_iff in H as (ex & sc & es & re & sys & rest & t & Hacc & _ & Ht & _ & Hs & _ & Hdue & _ & ->); [|done].
  eapply (writes_stored TScheduled); [done|by_passed|done|by apply step_execute| |apply drained_data|apply drained_owner].
  apply holds_well_typed in Ht. revert Ht. unfold well_typed, ScheduledTransfer_well_typed. simpl. naive_solver.
Qed.

Lemma cancel_scheduled_writes s s' : process_cancel_scheduled cx s = Ok (tt, s') -> writes s s'.
Proof.
  intros H. unfold process_cancel_scheduled in H. pinv. hyp (drain_into _ _ _ _ = Ok _) as Hp. apply drain_into_ok in Hp as [_ ->].
  bool_to_prop. hyp (bool_decide (st_status _ = Pending) = true) as Ho. apply bool_decide_eq_true_1 in Ho.
  read ScheduledTransfer as t Ht. hyp (cx_accounts cx = _) as Hacc. hyp (st_creator t = _) as Hcr.
  eapply (writes_stored TScheduled); [done|by_passed|exact Ht|apply step_cancel; [done|rewrite Hcr; by_signer]|
    |apply drained_data|apply drained_owner].
  apply holds_well_typed in Ht. revert Ht. unfold well_typed, ScheduledTransfer_well_typed. simpl. naive_solver.
Qed.

Lemma execute_conditional_writes s s' : process_execute_conditional cx s = Ok (tt, s') -> writes s s'.
Proof.
  intros H. unfold process_execute_conditional in H. pinv. hyp (drain_into _ _ _ _ = Ok _) as Hp. apply drain_into_ok in Hp as [_ ->].
  bool_to_prop. hyp (bool_decide (ct_status _ = Pending) = true) as Ho. apply bool_decide_eq_true_1 in Ho.
  read ConditionalTransfer as t Ht. hyp (cx_accounts cx = _) as Hacc. hyp (_ = ct_condition_account t) as Hca.
  eapply (writes_stored TConditional); [done|by_passed|exact Ht|apply step_conditional; [done|done|by rewrite <- Hca]|
    |apply drained_data|apply drained_owner].
  by apply holds_well_typed in Ht.
Qed.

Lemma execute_recurring_writes s s' :
  is_i64 now -> process_execute_recurring cx s = Ok (tt, s') -> writes s s'.
Proof.
  intros Hnow H. unfold process_execute_recurring in H. pinv. bool_to_prop.
  hyp (bool_decide (rc_status _ = Pending) = true) as Ho. apply bool_decide_eq_true_1 in Ho.
  read RecurringTransfer as t Ht. hyp (cx_accounts cx = _) as Hacc. simpl.
  match goal with |- writes _ (mkPState (stored ?t' _ _) _) => assert (Hnext : t' = recurring_next t) end.
  { unfold recurring_next. f_equal. rewrite Ho.
    destruct (Z.ltb_spec 0 (rc_max_executions t)), (Z.leb_spec (rc_max_executions t) (rc_executions_completed t + 1));
      case_decide; done || lia. }
  rewrite Hnext. eapply (writes_stored TRecurring); [done|by_passed|exact Ht|by apply step_recurring| | |].
  - apply holds_well_typed in Ht. revert Ht. unfold well_typed, RecurringTransfer_well_typed. simpl.
    intros (? & ? & ? & ? & ? & ? & ? & ? & ? & ?). by split_and!.
  - intros j. by rewrite !set_lamports_data.
  - intros j. by rewrite !set_lamports_owner.
Qed.

(** ** Instructions that write no record *)

Context {L : EnvLaws} {X : ExecLaws}.

Lemma pay_recipients_keeps sender sys rs it s s' :
  Forall well_typed rs -> pstate_ok s -> pay_recipients cx sender sys rs it s = Ok (tt, s') -> keeps_owned s s'.
Proof.
  intros Hrs. revert it s. induction Hrs as [|r rs (_ & Hr & _) Hrs IH]; intros it s Hok H; simpl in H; [by pinv|].
  case_match; [by eapply IH|]. pinv. hyp (invoke _ _ _ _ = Ok _) as Hi.
  eapply keeps_owned_trans; [by eapply (transfer_keeps cx)|].
  eapply IH; [|exact H]. eapply (safe_invoke_signed cx); [exact Hok|exact Hi].
Qed.

Lemma batch_instruction_effect data ta s' :
  is_i64 now -> is_pubkey (cx_program_id cx) -> lamports_ok (ta_accounts ta) ->
  process_instruction cx data (mkPState (ta_accounts ta) ta) = Ok (tt, s') ->
  keeps_owned (mkPState (ta_accounts ta) ta) s' \/ writes (mkPState (ta_accounts ta) ta) s'.
Proof.
  intros Hnow Hp Hok H. unfold process_instruction in H. apply pbind_ok in H as (i & s0 & Hi & H).
  apply lift_ok in Hi as [Hi ->]. apply ok_or_ok, try_from_slice_some in Hi as [Wi _].
  assert (Hs : pstate_ok (mkPState (ta_accounts ta) ta)) by done.
  destruct i; [left|left|right|right|left|right|left|right];
    [|  |by apply execute_scheduled_writes|by apply cancel_scheduled_writes| |by apply execute_conditional_writes|
     |by apply execute_recurring_writes].
  - unfold process_batch_transfer in H. destruct Wi as [_ Wi]. pinv. by eapply pay_recipients_keeps.
  - unfold process_create_scheduled in H. destruct Wi as (? & ? & ? & ? & ?). pinv.
    eapply (create_keeps cx); [eassumption|eassumption|done|done|apply minimum_balance_u64|by vm_compute|done|done].
  - unfold process_create_conditional in H. destruct Wi as (? & ? & ? & ? & ?). pinv.
    eapply (create_keeps cx); [eassumption|eassumption|done|done|apply minimum_balance_u64|by vm_compute|done|done].
  - unfold process_create_recurring in H. destruct Wi as (? & ? & ? & ? & ?). pinv.
    eapply (create_keeps cx); [eassumption|eassumption|done|done|apply minimum_balance_u64|by vm_compute|done|done].
Qed.

Lemma safe_pay_recipients sender sys rs it : safe (pay_recipients cx sender sys rs it).
Proof. revert it. induction rs as [|r rs IH]; intros it; simpl; [psafe|]. case_match; [done|]. unfold invoke. psafe. Qed.
Lemma confined_pay_recipients sender sys rs it : confined cx (pay_recipients cx sender sys rs it).
Proof.
  revert it. induction rs as [|r rs IH]; intros it; simpl; [psafe|]. case_match; [done|]. unfold invoke. psafe.
Qed.
#[local] Hint Resolve safe_pay_recipients confined_pay_recipients : psafe.

Lemma batch_safe data : safe (process_instruction cx data).
Proof.
  unfold process_instruction. psafe; unfold process_batch_transfer, process_create_scheduled, process_execute_scheduled,
    process_cancel_scheduled, process_create_conditional, process_execute_conditional, process_create_recurring,
    process_execute_recurring; psafe.
Qed.
Lemma batch_confined data : confined cx (process_instruction cx data).
Proof.
  unfold process_instruction. psafe; unfold process_batch_transfer, process_create_scheduled, process_execute_scheduled,
    process_cancel_scheduled, process_create_conditional, process_execute_conditional, process_create_recurring,
    process_execute_recurring; psafe.
Qed.

(** Whatever instruction is executed, a recorded transfer stays as it is or
    makes a step of its lifecycle. *)
Lemma execute_lifecycle data ta ta' k t :
  is_i64 now -> is_pubkey (cx_program_id cx) -> cx_program_id cx <> system_program_id -> lamports_ok (ta_accounts ta) ->
  execute cx (process_instruction cx data) ta = Ok ta' -> owned_record (cx_program_id cx) (ta_accounts ta) k t ->
  exists t', owned_record (cx_program_id cx) (ta_accounts ta') k t' /\ (t' = t \/ tstep (ta_accounts ta) t t').
Proof.
  intros Hnow Hp Hsys Hok H [Ho Hk].
  apply execute_result in H as (s & Hrun & _ & Hpass & Hn); [|apply batch_safe|apply batch_confined|done].
  destruct (decide (passed cx k)) as [Hpk|Hpk].
  2:{ exists t. split; [|by left]. unfold owned_record. rewrite (Hn k Hpk). split; [done|].
      eapply records_data; [|exact Hk]. by rewrite Hn. }
  destruct (Hpass k Hpk) as (Hd & _ & Hown).
  assert (Hsame : acc_data (get_acc (mem s) k) = acc_data (get_acc (ta_accounts ta) k) ->
    acc_owner (get_acc (mem s) k) = acc_owner (get_acc (ta_accounts ta) k) -> owned_record (cx_program_id cx) (ta_accounts ta') k t).
  { intros D O. split; [congruence|]. eapply records_data; [|exact Hk]. congruence. }
  apply batch_instruction_effect in Hrun as [K|(k0 & t0 & t0' & _ & H0 & Hst & H1 & Hj & Hoj)]; [| |done..].
  - exists t. split; [|by left]. destruct (K k) as [? ?]; [simpl; congruence|]. by apply Hsame.
  - destruct (decide (k = k0)) as [->|Hne]; [|exists t; split; [|by left]; apply Hsame; [by apply Hj|by apply Hoj]].
    rewrite (records_inj _ _ _ _ Hk H0). exists t0'. split; [|by right]. split; [rewrite Hown, Hoj; done|].
    by eapply records_data.
Qed.
End Lifecycle.

(** ** Recurring transfers keep their pace *)

(** Every execution took an interval, and there are not more than agreed. *)
Definition well_paced (t : RecurringTransfer) : Prop :=
  0 < rc_interval_seconds t /\ is_i64 (rc_interval_seconds t) /\
  rc_executions_completed t * rc_interval_seconds t <= rc_last_executed_at t - rc_created_at t /\
  (0 < rc_max_executions t -> rc_executions_completed t <= rc_max_executions t /\
     (rc_status t = Pending -> rc_executions_completed t < rc_max_executions t)).

(** The terms of a recurring transfer. *)
Definition same_terms (t t' : RecurringTransfer) : Prop :=
  rc_creator t' = rc_creator t /\ rc_recipient t' = rc_recipient t /\ rc_amount t' = rc_amount t /\
  rc_interval_seconds t' = rc_interval_seconds t /\ rc_max_executions t' = rc_max_executions t /\
  rc_created_at t' = rc_created_at t.

Lemma recurring_next_paced cx t :
  well_paced t -> rc_status t = Pending ->
  rc_interval_seconds t <= i64_saturating_sub (unix_timestamp (cx_clock cx)) (rc_last_executed_at t) ->
  well_paced (recurring_next cx t).
Proof.
  intros (Hi & Hr & Hp & Hm) Hs Hel. unfold well_paced, recurring_next. simpl. split_and!; [done|done| |].
  - unfold clamp in Hel. ilia.
  - intros Hpos. destruct (Hm Hpos) as [_ Hlt]. specialize (Hlt Hs). split; [lia|]. case_decide; [done|lia].
Qed.

Section Runs.
Context {E : Env} {BS : Borsh ScheduledTransfer} {BC : Borsh ConditionalTransfer} {BR : Borsh RecurringTransfer}
  {BI : Borsh BatchTxInstruction}.
Context {LS : BorshLaws ScheduledTransfer} {LC : BorshLaws ConditionalTransfer} {LR : BorshLaws RecurringTransfer}
  {LI : BorshLaws BatchTxInstruction}.
Context {ZS : BorshSized ScheduledTransfer ScheduledTransfer_SIZE}
  {ZC : BorshSized ConditionalTransfer ConditionalTransfer_SIZE} {ZR : BorshSized RecurringTransfer RecurringTransfer_SIZE}.
Context {L : EnvLaws} {X : ExecLaws} (p : Pubkey) (Hp : is_pubkey p) (Hsys : p <> system_program_id).

(** Some instruction of the program [p], sent by anyone at any time. *)
Definition batch_run (ta ta' : TransactionAccounts) : Prop :=
  exists cx data, cx_program_id cx = p /\ is_i64 (unix_timestamp (cx_clock cx)) /\
    execute cx (process_instruction cx data) ta = Ok ta'.

(** What every step of a transfer keeps holds after any number of runs. *)
Lemma runs_invariant (I : Transfer -> Prop) ta ta' k t :
  (forall cx m t t', I t -> tstep cx m t t' -> I t') ->
  rtc batch_run ta ta' -> lamports_ok (ta_accounts ta) -> owned_record p (ta_accounts ta) k t -> I t ->
  exists t', owned_record p (ta_accounts ta') k t' /\ I t'.
Proof.
  intros Hstep Hrun. revert t. induction Hrun as [|ta1 ta2 ta3 (cx & data & Hpid & Hnow & Hex) _ IH]; intros t Hok Ht HI.
  { by exists t. }
  pose proof (execute_lamports_ok cx _ _ _ (batch_safe cx data) Hok Hex) as Hok2.
  eapply (execute_lifecycle cx) in Hex as (t' & Ht' & Hs); [|done|by rewrite Hpid..|done|by rewrite Hpid].
  rewrite Hpid in Ht'. eapply (IH t'); [done|done|]. destruct Hs as [->|Hs]; [done|by eapply Hstep].
Qed.
End Runs.
