(* ===== verification/BatchTxTheorems.v ===== *)
(** * BatchTxTheorems: the properties of the batch transfer program

    The theorems about [src/programs/batch-tx/src/lib.rs], and the evaluation
    of the program on concrete accounts in the Borsh wire format. *)

From Stdlib Require Import Strings.Byte.
From S2P Require Import Prelude Borsh Accounts System Invoke Execution Concrete Cpi Ledger BatchTx BatchTxProofs.
Open Scope Z_scope.

(** ** The data on the wire *)

Definition codec_transfer_status : codec TransferStatus := codec_enum [Pending; Executed; Cancelled].
Definition codec_condition : codec ConditionType := codec_enum [BalanceAbove; BalanceBelow].
Definition codec_recipient : codec BatchRecipient :=
  codec_iso (fun '(a, (n, m)) => mkRecipient a n m) (fun r => (br_address r, (br_amount r, br_memo r)))
    (codec_pair codec_pubkey (codec_pair (codec_uint 8) (codec_array 64))).

Definition codec_scheduled : codec ScheduledTransfer :=
  codec_iso
    (fun '(i, (s, (c, (r, (a, (l, (t, (n, (e, (b, x)))))))))) => mkScheduled i s c r a l t n e b x)
    (fun t => (st_is_initialized t, (st_status t, (st_creator t, (st_recipient t, (st_amount t, (st_execute_at_slot t,
      (st_execute_at_timestamp t, (st_created_at t, (st_executed_at t, (st_bump t, st_nonce t)))))))))))
    (codec_pair codec_bool (codec_pair codec_transfer_status (codec_pair codec_pubkey (codec_pair codec_pubkey
      (codec_pair (codec_uint 8) (codec_pair (codec_uint 8) (codec_pair (codec_int 8) (codec_pair (codec_int 8)
      (codec_pair (codec_int 8) (codec_pair (codec_uint 1) (codec_uint 8))))))))))).

Definition codec_conditional : codec ConditionalTransfer :=
  codec_iso
    (fun '(i, (s, (c, (r, (a, (k, (t, (h, (e, (n, b)))))))))) => mkConditional i s c r a k t h e n b)
    (fun t => (ct_is_initialized t, (ct_status t, (ct_creator t, (ct_recipient t, (ct_amount t, (ct_condition_account t,
      (ct_condition_type t, (ct_threshold t, (ct_expires_at t, (ct_created_at t, ct_bump t)))))))))))
    (codec_pair codec_bool (codec_pair codec_transfer_status (codec_pair codec_pubkey (codec_pair codec_pubkey
      (codec_pair (codec_uint 8) (codec_pair codec_pubkey (codec_pair codec_condition (codec_pair (codec_uint 8)
      (codec_pair (codec_int 8) (codec_pair (codec_int 8) (codec_uint 1))))))))))).

Definition codec_recurring : codec RecurringTransfer :=
  codec_iso
    (fun '(i, (s, (c, (r, (a, (v, (m, (n, (l, (t, (b, x))))))))))) => mkRecurring i s c r a v m n l t b x)
    (fun t => (rc_is_initialized t, (rc_status t, (rc_creator t, (rc_recipient t, (rc_amount t, (rc_interval_seconds t,
      (rc_max_executions t, (rc_executions_completed t, (rc_last_executed_at t, (rc_created_at t, (rc_bump t, rc_nonce t))))))))))))
    (codec_pair codec_bool (codec_pair codec_transfer_status (codec_pair codec_pubkey (codec_pair codec_pubkey
      (codec_pair (codec_uint 8) (codec_pair (codec_int 8) (codec_pair (codec_uint 8) (codec_pair (codec_uint 8)
      (codec_pair (codec_int 8) (codec_pair (codec_int 8) (codec_pair (codec_uint 1) (codec_uint 8)))))))))))).

Definition batch_instruction_index (i : BatchTxInstruction) : nat :=
  match i with
  | BatchTransfer _ => 0 | CreateScheduledTransfer _ _ _ _ _ => 1 | ExecuteScheduledTransfer => 2
  | CancelScheduledTransfer => 3 | CreateConditionalTransfer _ _ _ _ _ _ => 4 | ExecuteConditionalTransfer => 5
  | CreateRecurringTransfer _ _ _ _ _ => 6 | ExecuteRecurringTransfer => 7
  end.

Definition codec_batch_instruction : codec BatchTxInstruction :=
  codec_variants
    [mkVariant (codec_vec codec_recipient) BatchTransfer (fun i => match i with BatchTransfer l => Some l | _ => None end);
     mkVariant (codec_pair codec_pubkey (codec_pair (codec_uint 8) (codec_pair (codec_uint 8) (codec_pair (codec_int 8) (codec_uint 8)))))
       (fun '(r, (a, (s, (t, n)))) => CreateScheduledTransfer r a s t n)
       (fun i => match i with CreateScheduledTransfer r a s t n => Some (r, (a, (s, (t, n)))) | _ => None end);
     mkVariant codec_unit (fun _ => ExecuteScheduledTransfer) (fun _ => Some tt);
     mkVariant codec_unit (fun _ => CancelScheduledTransfer) (fun _ => Some tt);
     mkVariant (codec_pair codec_pubkey (codec_pair (codec_uint 8) (codec_pair codec_pubkey (codec_pair codec_condition
         (codec_pair (codec_uint 8) (codec_int 8))))))
       (fun '(r, (a, (c, (t, (h, l))))) => CreateConditionalTransfer r a c t h l)
       (fun i => match i with CreateConditionalTransfer r a c t h l => Some (r, (a, (c, (t, (h, l))))) | _ => None end);
     mkVariant codec_unit (fun _ => ExecuteConditionalTransfer) (fun _ => Some tt);
     mkVariant (codec_pair codec_pubkey (codec_pair (codec_uint 8) (codec_pair (codec_int 8) (codec_pair (codec_uint 8) (codec_uint 8)))))
       (fun '(r, (a, (v, (m, n)))) => CreateRecurringTransfer r a v m n)
       (fun i => match i with CreateRecurringTransfer r a v m n => Some (r, (a, (v, (m, n)))) | _ => None end);
     mkVariant codec_unit (fun _ => ExecuteRecurringTransfer) (fun _ => Some tt)]
    batch_instruction_index.

Lemma codec_transfer_status_laws : codec_laws codec_transfer_status.
Proof. apply codec_enum_laws; [repeat constructor; set_solver|simpl; lia]. Qed.
Lemma codec_condition_laws : codec_laws codec_condition.
Proof. apply codec_enum_laws; [repeat constructor; set_solver|simpl; lia]. Qed.
Lemma codec_recipient_laws : codec_laws codec_recipient.
Proof. apply codec_iso_laws; [by intros []|by intros (?&?&?)|]. auto with codec. Qed.
#[local] Hint Resolve codec_transfer_status_laws codec_condition_laws codec_recipient_laws : codec.
#[local] Hint Extern 1 (0 < _)%nat => lia : codec.

Lemma codec_scheduled_laws : codec_laws codec_scheduled.
Proof. apply codec_iso_laws; [by intros []|by intros (?&?&?&?&?&?&?&?&?&?&?)|]. auto 20 with codec. Qed.
Lemma codec_conditional_laws : codec_laws codec_conditional.
Proof. apply codec_iso_laws; [by intros []|by intros (?&?&?&?&?&?&?&?&?&?&?)|]. auto 20 with codec. Qed.
Lemma codec_recurring_laws : codec_laws codec_recurring.
Proof. apply codec_iso_laws; [by intros []|by intros (?&?&?&?&?&?&?&?&?&?&?&?)|]. auto 20 with codec. Qed.

Lemma codec_scheduled_size : c_size codec_scheduled ScheduledTransfer_SIZE.
Proof. codec_size. Qed.
Lemma codec_conditional_size : c_size codec_conditional ConditionalTransfer_SIZE.
Proof. codec_size. Qed.
Lemma codec_recurring_size : c_size codec_recurring RecurringTransfer_SIZE.
Proof. codec_size. Qed.

Lemma status_all (s : TransferStatus) : s ∈ [Pending; Executed; Cancelled].
Proof. destruct s; set_solver. Qed.
Lemma condition_all (c : ConditionType) : c ∈ [BalanceAbove; BalanceBelow].
Proof. destruct c; set_solver. Qed.
#[local] Hint Resolve status_all condition_all : core.

Lemma codec_recipient_wf r : well_typed r <-> c_wf codec_recipient r.
Proof. unfold well_typed, BatchRecipient_well_typed, zlen. codec_wf. Qed.
Lemma codec_scheduled_wf t : well_typed t <-> c_wf codec_scheduled t.
Proof. unfold well_typed, ScheduledTransfer_well_typed. pose proof (status_all (st_status t)). codec_wf. Qed.
Lemma codec_conditional_wf t : well_typed t <-> c_wf codec_conditional t.
Proof.
  unfold well_typed, ConditionalTransfer_well_typed. pose proof (status_all (ct_status t)).
  pose proof (condition_all (ct_condition_type t)). codec_wf.
Qed.
Lemma codec_recurring_wf t : well_typed t <-> c_wf codec_recurring t.
Proof. unfold well_typed, RecurringTransfer_well_typed. pose proof (status_all (rc_status t)). codec_wf. Qed.

Lemma codec_batch_instruction_laws : codec_laws codec_batch_instruction.
Proof.
  apply codec_variants_laws; [simpl; lia|repeat apply Forall_cons_2; simpl; auto 10 with codec| |].
  - intros [|[|[|[|[|[|[|[|]]]]]]]] v a [= <-]; simpl in a;
      repeat match goal with x : _ * _ |- _ => destruct x | x : unit |- _ => destruct x end; done.
  - intros [] v a [= <-]; simpl; by intros [= <-].
Qed.
Lemma codec_batch_instruction_wf i : well_typed i <-> c_wf codec_batch_instruction i.
Proof.
  destruct i; simpl; try done; unfold well_typed; simpl.
  - setoid_rewrite <- codec_recipient_wf.
    unfold zlen. split; intros [??]; split; (done || (unfold_ints; change (256 ^ 4) with (2 ^ 32) in *; lia)).
  - codec_wf.
  - pose proof (condition_all condition_type). codec_wf.
  - codec_wf.
Qed.

#[global] Instance scheduled_borsh : Borsh ScheduledTransfer := borsh_of_codec codec_scheduled.
#[global] Instance scheduled_borsh_laws : BorshLaws ScheduledTransfer :=
  borsh_of_codec_laws _ codec_scheduled_laws codec_scheduled_wf.
#[global] Instance scheduled_borsh_sized : BorshSized ScheduledTransfer ScheduledTransfer_SIZE :=
  borsh_of_codec_sized _ _ codec_scheduled_size codec_scheduled_wf.
#[global] Instance conditional_borsh : Borsh ConditionalTransfer := borsh_of_codec codec_conditional.
#[global] Instance conditional_borsh_laws : BorshLaws ConditionalTransfer :=
  borsh_of_codec_laws _ codec_conditional_laws codec_conditional_wf.
#[global] Instance conditional_borsh_sized : BorshSized ConditionalTransfer ConditionalTransfer_SIZE :=
  borsh_of_codec_sized _ _ codec_conditional_size codec_conditional_wf.
#[global] Instance recurring_borsh : Borsh RecurringTransfer := borsh_of_codec codec_recurring.
#[global] Instance recurring_borsh_laws : BorshLaws RecurringTransfer :=
  borsh_of_codec_laws _ codec_recurring_laws codec_recurring_wf.
#[global] Instance recurring_borsh_sized : BorshSized RecurringTransfer RecurringTransfer_SIZE :=
  borsh_of_codec_sized _ _ codec_recurring_size codec_recurring_wf.
#[global] Instance batch_instruction_borsh : Borsh BatchTxInstruction := borsh_of_codec codec_batch_instruction.
#[global] Instance batch_instruction_borsh_laws : BorshLaws BatchTxInstruction :=
  borsh_of_codec_laws _ codec_batch_instruction_laws codec_batch_instruction_wf.

(** Account 300 has scheduled 2000 lamports for 301 at time 50, promised 700
    lamports to 301 should 302 own 1000 by time 100, and pays 301 100 lamports
    every 10 seconds, three times; 400 has scheduled 1 lamport for 401. *)
Module BatchDemo.
Definition PROGRAM : Pubkey := 100.
Definition scheduled : ScheduledTransfer := mkScheduled true Pending 300 301 2000 0 50 0 0 255 1.
Definition small : ScheduledTransfer := mkScheduled true Pending 400 401 1 0 0 0 0 255 1.
Definition conditional : ConditionalTransfer := mkConditional true Pending 300 301 700 302 BalanceAbove 1000 100 0 255.
Definition recurring : RecurringTransfer := mkRecurring true Pending 300 301 100 10 3 0 0 0 255 1.
Definition accounts : list (Pubkey * Account) :=
  [(500, mkAccount 1000000 (borsh_ser scheduled) PROGRAM false); (501, mkAccount 2000 [] PROGRAM false);
   (510, mkAccount 1000000 (borsh_ser small) PROGRAM false); (511, mkAccount 1 [] PROGRAM false);
   (520, mkAccount 1000000 (borsh_ser conditional) PROGRAM false); (521, mkAccount 700 [] PROGRAM false);
   (530, mkAccount 1000000 (borsh_ser recurring) PROGRAM false); (531, mkAccount 300 [] PROGRAM false);
   (300, mkAccount 5000000 [] 0 false); (301, mkAccount 5000 [] 0 false); (302, mkAccount 800 [] 0 false);
   (400, mkAccount 5000 [] 0 false); (401, mkAccount 5000 [] 0 false); (0, mkAccount 1 [] 1 true)].
Definition ta : TransactionAccounts := mkTA (store accounts) 0 0.
Definition state : PState := mkPState (store accounts) ta.
Definition len (k : Pubkey) : Z := zlen (acc_data (get_acc (store accounts) k)).

(** Anyone executes the transfer of [k], naming [es] as its escrow. *)
Definition crank_cx (k es recipient t : Z) : Ctx := demo_ctx PROGRAM
  [mkIA 999 false false; mkIA k false true; mkIA es false true; mkIA recipient false true; mkIA 0 false false] t len.
Definition conditional_cx (t : Z) : Ctx := demo_ctx PROGRAM
  [mkIA 999 false false; mkIA 520 false true; mkIA 521 false true; mkIA 301 false true; mkIA 302 false false;
   mkIA 0 false false] t len.

(** 300 sends 10 and 5 lamports to 301 and nothing to 302. *)
Definition recipients : list BatchRecipient :=
  [mkRecipient 301 10 (replicate 64 Byte.x00); mkRecipient 302 0 (replicate 64 Byte.x00);
   mkRecipient 301 5 (replicate 64 Byte.x00)].
Definition sender : AccountInfo := mkIA 300 true true.
Definition sys : AccountInfo := mkIA 0 false false.
Definition batch_rest : list AccountInfo := [mkIA 301 false true; mkIA 301 false true].
Definition batch_cx : Ctx := demo_ctx PROGRAM (sender :: sys :: batch_rest) 10 len.

(** 300 sets up a further recurring transfer. *)
Definition new_key : Pubkey := derive [RECURRING_SEED; key_bytes 300; le_bytes 8 7; [byte_of_Z 255]] PROGRAM.
Definition new_escrow : Pubkey := derive [ESCROW_SEED; key_bytes new_key; [byte_of_Z 255]] PROGRAM.
Definition create_list : list (Pubkey * Account) := accounts ++ [(new_key, empty_account); (new_escrow, empty_account)].
Definition create_ta : TransactionAccounts := mkTA (store create_list) 0 0.
Definition create_cx : Ctx := demo_ctx PROGRAM
  [mkIA 300 true true; mkIA new_key false true; mkIA new_escrow false true; mkIA 0 false false] 10 (fun _ => 0).

Lemma batch_lamports : lamports_ok (ta_accounts ta).
Proof. apply lamports_ok_store, (bool_decide_unpack _). by vm_compute. Qed.

Definition execute_data : list byte := borsh_ser ExecuteScheduledTransfer.
Definition recurring_data : list byte := borsh_ser ExecuteRecurringTransfer.

Lemma batch_runs :
  is_ok (process_batch_transfer batch_cx recipients state) &&
  is_ok (process_execute_scheduled (crank_cx 500 501 301 50) state) &&
  is_ok (execute (crank_cx 500 501 301 50) (process_instruction (crank_cx 500 501 301 50) execute_data) ta) &&
  is_ok (execute (crank_cx 530 531 301 10) (process_instruction (crank_cx 530 531 301 10) recurring_data) ta) &&
  is_ok (process_create_recurring create_cx 301 100 10 5 7 (mkPState (ta_accounts create_ta) create_ta)) = true.
Proof. vm_compute. reflexivity. Qed.

Lemma recipients_typed : Forall well_typed recipients.
Proof. repeat apply Forall_cons_2; [..|apply Forall_nil_2]; unfold well_typed, BatchRecipient_well_typed; evaluate. Qed.

Lemma batch_ready_state : batch_state batch_cx sender state recipients.
Proof.
  split; [done|exact batch_lamports|evaluate|evaluate|by eexists|].
  intros k Hk. change (payees recipients) with [301; 301] in Hk.
  assert (k = 301) as -> by set_solver. split; [done|by eexists].
Qed.
End BatchDemo.

(** ** Properties *)

Section BatchProperties.
Context {E : Env} {BS : Borsh ScheduledTransfer} {BC : Borsh ConditionalTransfer} {BR : Borsh RecurringTransfer}
  {BI : Borsh BatchTxInstruction}.
Context {LS : BorshLaws ScheduledTransfer} {LC : BorshLaws ConditionalTransfer} {LR : BorshLaws RecurringTransfer}
  {LI : BorshLaws BatchTxInstruction}.
Context {ZS : BorshSized ScheduledTransfer ScheduledTransfer_SIZE}
  {ZC : BorshSized ConditionalTransfer ConditionalTransfer_SIZE} {ZR : BorshSized RecurringTransfer RecurringTransfer_SIZE}.
Context {L : EnvLaws} {X : ExecLaws}.

(** C36. A batch transfer succeeds exactly when there are 1 to 64 recipients,
    the sender signed and owns the total, and the accounts that follow are
    those of the recipients with an amount, in order, and can be paid.  It then
    pays every account exactly the sum of its amounts and takes exactly the
    total from the sender. *)
Theorem batch_transfer_exact cx sender sys rest rs s s' :
  cx_accounts cx = sender :: sys :: rest -> Forall well_typed rs -> batch_state cx sender s rs ->
  (process_batch_transfer cx rs s = Ok (tt, s') <->
   (1 <= zlen rs <= MAX_BATCH_RECIPIENTS /\ ia_is_signer sender = true /\
    total_amount rs <= acc_lamports (get_acc (mem s) (ia_key sender)) /\ payable cx sender (mem s) rs rest) /\
   s' = paid_state (ia_key sender) rs s) /\
  forall k, acc_lamports (get_acc (mem (paid_state (ia_key sender) rs s)) k) =
    acc_lamports (get_acc (mem s) k) + amount_to k rs - (if decide (k = ia_key sender) then total_amount rs else 0).
Proof.
  intros Hacc Hrs Hst. split; [by apply (batch_transfer_iff cx sender sys)|]. intros k. apply paid_lamports.
  intros Hk. by apply (bs_payees _ _ _ _ Hst) in Hk as [? _].
Qed.

(** C17. Whatever instruction of the program the validator executes, a transfer
    recorded in an account of the program keeps its data or makes a step of its
    lifecycle: a pending scheduled transfer is executed when both deadlines have
    passed or cancelled by its creator's signature, a pending conditional one is
    executed before it expires with its condition met, a pending recurring one
    is executed when its interval has elapsed. *)
Theorem transfer_lifecycle cx data ta ta' k t :
  is_i64 (unix_timestamp (cx_clock cx)) -> is_pubkey (cx_program_id cx) -> cx_program_id cx <> system_program_id ->
  lamports_ok (ta_accounts ta) -> execute cx (process_instruction cx data) ta = Ok ta' ->
  owned_record (cx_program_id cx) (ta_accounts ta) k t ->
  exists t', owned_record (cx_program_id cx) (ta_accounts ta') k t' /\ (t' = t \/ tstep cx (ta_accounts ta) t t').
Proof. intros. by eapply execute_lifecycle. Qed.

(** Whether a transfer is still open. *)
Definition transfer_pending (t : Transfer) : Prop :=
  match t with TScheduled t => st_status t | TConditional t => ct_status t | TRecurring t => rc_status t end = Pending.

(** A transfer is settled once: after any instructions, by anyone and at any
    time, an executed or cancelled transfer is still recorded unchanged. *)
Theorem settled_transfer_final p ta ta' k t :
  is_pubkey p -> p <> system_program_id -> lamports_ok (ta_accounts ta) -> rtc (batch_run p) ta ta' ->
  owned_record p (ta_accounts ta) k t -> ~ transfer_pending t -> owned_record p (ta_accounts ta') k t.
Proof.
  intros Hp Hsys Hok Hrun Ht Hs.
  destruct (runs_invariant p Hp Hsys (fun t' => t' = t) ta ta' k t) as (t' & Ht' & ->); try done.
  intros cx m t1 t2 -> Hst. by destruct Hst.
Qed.

(** C18. A recurring transfer keeps its pace: after any instructions its terms are
    the same, every execution since its creation took a whole interval, and
    there were not more than agreed. *)
Theorem recurring_pace p ta ta' k t :
  is_pubkey p -> p <> system_program_id -> lamports_ok (ta_accounts ta) -> rtc (batch_run p) ta ta' ->
  owned_record p (ta_accounts ta) k (TRecurring t) -> well_paced t ->
  exists t', owned_record p (ta_accounts ta') k (TRecurring t') /\ well_paced t' /\ same_terms t t' /\
    rc_executions_completed t <= rc_executions_completed t'.
Proof.
  intros Hp Hsys Hok Hrun Ht Hw.
  destruct (runs_invariant p Hp Hsys (fun x => exists t', x = TRecurring t' /\ well_paced t' /\ same_terms t t' /\
    rc_executions_completed t <= rc_executions_completed t') ta ta' k (TRecurring t)) as (x & Hx & t' & -> & H); try done.
  - intros cx m t1 t2 (r & -> & Hr & Hsame & Hle) Hst. inversion Hst; subst. eexists. split; [done|].
    split_and!; [by apply recurring_next_paced|exact Hsame|simpl; lia].
  - by exists t.
  - by exists t'.
Qed.

(** C37. A scheduled transfer is executed, by whoever asks for it, exactly when it
    is pending, both its deadlines have passed and the recipient is the recorded
    one; the lamports of the escrow account go to the recipient and the
    transfer is recorded as executed now. *)
Theorem scheduled_execution_exact cx s s' :
  is_i64 (unix_timestamp (cx_clock cx)) ->
  process_execute_scheduled cx s = Ok (tt, s') <->
  exists ex sc es re sys rest t, cx_accounts cx = ex :: sc :: es :: re :: sys :: rest /\
    acc_owner (get_acc (mem s) (ia_key sc)) = cx_program_id cx /\ holds (mem s) (ia_key sc) t /\
    st_is_initialized t = true /\ st_status t = Pending /\ ia_key re = st_recipient t /\ scheduled_due cx t /\
    is_u64 (received (ia_key es) (ia_key re) (mem s)) /\
    s' = mkPState (stored (close_scheduled Executed (unix_timestamp (cx_clock cx)) t) (ia_key sc)
                     (drained (ia_key es) (ia_key re) (mem s))) (rt s).
Proof. apply execute_scheduled_iff. Qed.

(** Finding: a conditional transfer that has expired stays pending for ever.
    No instruction of the program executes or cancels it any more, and there is
    none that pays its escrow back to the creator. *)
Theorem expired_conditional_stuck cx data ta ta' k t :
  is_i64 (unix_timestamp (cx_clock cx)) -> is_pubkey (cx_program_id cx) -> cx_program_id cx <> system_program_id ->
  lamports_ok (ta_accounts ta) -> execute cx (process_instruction cx data) ta = Ok ta' ->
  owned_record (cx_program_id cx) (ta_accounts ta) k (TConditional t) -> ct_expires_at t < unix_timestamp (cx_clock cx) ->
  owned_record (cx_program_id cx) (ta_accounts ta') k (TConditional t).
Proof.
  intros Hnow Hp Hsys Hok H Ht Hexp. eapply execute_lifecycle in H as (t' & Ht' & [->|Hst]); try done.
  inversion Hst; subst. lia.
Qed.

(** Creating a recurring transfer locks its funds: the creator, who signed,
    pays exactly the amount of all agreed executions (of 12 if there is no
    limit) into the escrow address and the rent of the record; both accounts
    belong to the program, and the record keeps the pace. *)
Theorem create_recurring_funded cx s s' cr rc es ac ar ae recipient amount interval max nonce :
  create_accounts cx s cr rc es ac ar ae -> well_typed (CreateRecurringTransfer recipient amount interval max nonce) ->
  process_create_recurring cx recipient amount interval max nonce s = Ok (tt, s') ->
  exists bump t, t = mkRecurring true Pending (ia_key cr) recipient amount interval max 0
      (unix_timestamp (cx_clock cx)) (unix_timestamp (cx_clock cx)) bump nonce /\
    ia_is_signer cr = true /\ 0 < amount /\ well_paced t /\
    (find_program_address [ESCROW_SEED; key_bytes (ia_key rc)] (cx_program_id cx)).1 = ia_key es /\
    owned_record (cx_program_id cx) (mem s') (ia_key rc) (TRecurring t) /\
    get_acc (mem s') (ia_key es) =
      mkAccount (amount * (if decide (0 < max) then max else 12)) [] (cx_program_id cx) false /\
    acc_lamports (get_acc (mem s') (ia_key cr)) = acc_lamports ac - minimum_balance RecurringTransfer_SIZE
      - amount * (if decide (0 < max) then max else 12).
Proof.
  intros [(sys & rest & Hacc) R Re Hd [Hp Hck] Hnow] (Hre & Ham & Hin & Hmx & Hno) H. unfold process_create_recurring in H.
  rewrite Hacc in H. pinv; try done. bool_to_prop. subst.
  hyp (invoke_signed _ (create_account_ix _ (ia_key rc) _ _ _) _ _ _ = Ok _) as Hc1.
  hyp (invoke_signed _ (create_account_ix _ (ia_key es) _ _ _) _ _ _ = Ok _) as Hc2.
  hyp (find_program_address [RECURRING_SEED; _; _] _ = _) as Hf1. hyp (find_program_address [ESCROW_SEED; _] _ = _) as Hf2.
  destruct (find_create _ _ _ _ Hf1) as [Hbump _].
  set (t := mkRecurring _ _ _ _ _ _ _ _ _ _ _ _) in *.
  assert (Wt : well_typed t) by (repeat split; simpl; done || ilia).
  assert (Hmul : (if 0 <? max then max else 12) = (if decide (0 < max) then max else 12)).
  { destruct (Z.ltb_spec 0 max); case_decide; done || lia. }
  destruct (create_funded_record t Hc1 Hc2 R Re) as (F1 & F2 & F3 & F4); try done; [apply minimum_balance_u64|].
  eexists _, t. rewrite <- Hmul. split_and!; try (done || ilia || by rewrite Hf2).
  split_and!; simpl; try done; ilia.
Qed.
End BatchProperties.

Lemma batch_transfer_exact_witness :
  exists s', process_batch_transfer BatchDemo.batch_cx BatchDemo.recipients BatchDemo.state = Ok (tt, s') /\
    acc_lamports (get_acc (mem s') 301) = 5015 /\ acc_lamports (get_acc (mem s') 300) = 4999985.
Proof.
  destruct (process_batch_transfer BatchDemo.batch_cx BatchDemo.recipients BatchDemo.state) as [[[] s']|e] eqn:Hrun;
    [|pose proof BatchDemo.batch_runs as Hk; rewrite Hrun in Hk; discriminate Hk].
  destruct (batch_transfer_exact BatchDemo.batch_cx BatchDemo.sender BatchDemo.sys BatchDemo.batch_rest BatchDemo.recipients
    BatchDemo.state s' eq_refl BatchDemo.recipients_typed BatchDemo.batch_ready_state) as [Hiff Hl].
  exists s'. split; [exact eq_refl|]. rewrite (proj2 (proj1 Hiff Hrun)). split; refine (eq_trans (Hl _) _); vm_compute; reflexivity.
Defined.

Lemma transfer_lifecycle_witness :
  let cx := BatchDemo.crank_cx 500 501 301 50 in
  exists ta', execute cx (process_instruction cx BatchDemo.execute_data) BatchDemo.ta = Ok ta' /\
    exists t', owned_record BatchDemo.PROGRAM (ta_accounts ta') 500 t'.
Proof.
  intros cx. destruct (execute cx (process_instruction cx BatchDemo.execute_data) BatchDemo.ta) as [ta'|e] eqn:Hrun;
    [|pose proof BatchDemo.batch_runs as Hk; unfold cx in Hrun; rewrite Hrun, ?andb_false_r in Hk; discriminate Hk].
  exists ta'. split; [exact eq_refl|].
  destruct (transfer_lifecycle cx BatchDemo.execute_data BatchDemo.ta ta' 500 (TScheduled BatchDemo.scheduled))
    as (t' & Ht' & _); [evaluate|evaluate|evaluate|exact BatchDemo.batch_lamports|exact Hrun|evaluate|].
  exists t'. exact Ht'.
Defined.

Lemma settled_transfer_final_witness :
  let cx := BatchDemo.crank_cx 530 531 301 10 in
  let t := TScheduled (close_scheduled Executed 50 BatchDemo.scheduled) in
  let accounts := (540, mkAccount 1000000 (borsh_ser (close_scheduled Executed 50 BatchDemo.scheduled)) BatchDemo.PROGRAM false)
                    :: BatchDemo.accounts in
  let ta := mkTA (store accounts) 0 0 in
  exists ta', execute cx (process_instruction cx BatchDemo.recurring_data) ta = Ok ta' /\
    owned_record BatchDemo.PROGRAM (ta_accounts ta') 540 t.
Proof.
  intros cx t accounts ta.
  assert (Hk : is_ok (execute cx (process_instruction cx BatchDemo.recurring_data) ta) = true) by (vm_compute; reflexivity).
  destruct (execute cx (process_instruction cx BatchDemo.recurring_data) ta) as [ta'|e] eqn:Hrun; [|discriminate Hk].
  exists ta'. split; [exact eq_refl|].
  apply (settled_transfer_final BatchDemo.PROGRAM ta ta' 540 t); [evaluate|evaluate| | |evaluate|].
  - apply lamports_ok_store, (bool_decide_unpack _). vm_compute. exact I.
  - apply rtc_once. exists cx, BatchDemo.recurring_data. split; [exact eq_refl|]. split; [evaluate|exact Hrun].
  - intros Hp. discriminate Hp.
Defined.

Lemma recurring_pace_witness :
  let cx := BatchDemo.crank_cx 530 531 301 10 in
  exists ta', execute cx (process_instruction cx BatchDemo.recurring_data) BatchDemo.ta = Ok ta' /\
    exists t', owned_record BatchDemo.PROGRAM (ta_accounts ta') 530 (TRecurring t') /\ well_paced t'.
Proof.
  intros cx. destruct (execute cx (process_instruction cx BatchDemo.recurring_data) BatchDemo.ta) as [ta'|e] eqn:Hrun;
    [|pose proof BatchDemo.batch_runs as Hk; unfold cx in Hrun; rewrite Hrun, ?andb_false_r in Hk; discriminate Hk].
  exists ta'. split; [exact eq_refl|].
  destruct (recurring_pace BatchDemo.PROGRAM BatchDemo.ta ta' 530 BatchDemo.recurring) as (t' & Ht' & Hw & _);
    [evaluate|evaluate|exact BatchDemo.batch_lamports| |evaluate| |].
  - apply rtc_once. exists cx, BatchDemo.recurring_data. split; [exact eq_refl|]. split; [evaluate|exact Hrun].
  - split; [evaluate|]. split; [evaluate|]. split; [evaluate|]. intros _. split; [evaluate|intros _; evaluate].
  - exists t'. exact (conj Ht' Hw).
Defined.

Lemma scheduled_execution_exact_witness :
  let cx := BatchDemo.crank_cx 500 501 301 50 in
  exists s', process_execute_scheduled cx BatchDemo.state = Ok (tt, s') /\
    exists t, holds (mem BatchDemo.state) 500 t /\ scheduled_due cx t.
Proof.
  intros cx. destruct (process_execute_scheduled cx BatchDemo.state) as [[[] s']|e] eqn:Hrun;
    [|pose proof BatchDemo.batch_runs as Hk; unfold cx in Hrun; rewrite Hrun, ?andb_false_r in Hk; discriminate Hk].
  exists s'. split; [exact eq_refl|].
  destruct (proj1 (scheduled_execution_exact cx BatchDemo.state s' ltac:(evaluate)) Hrun)
    as (ex & sc & es & re & sy & rest & t & Hacc & _ & Ht & _ & _ & _ & Hdue & _).
  injection Hacc as _ <- _ _ _ _. exists t. exact (conj Ht Hdue).
Defined.

Lemma expired_conditional_stuck_witness :
  let cx := BatchDemo.crank_cx 500 501 301 150 in
  exists ta', execute cx (process_instruction cx BatchDemo.execute_data) BatchDemo.ta = Ok ta' /\
    owned_record BatchDemo.PROGRAM (ta_accounts ta') 520 (TConditional BatchDemo.conditional).
Proof.
  intros cx.
  assert (Hk : is_ok (execute cx (process_instruction cx BatchDemo.execute_data) BatchDemo.ta) = true) by (vm_compute; reflexivity).
  destruct (execute cx (process_instruction cx BatchDemo.execute_data) BatchDemo.ta) as [ta'|e] eqn:Hrun; [|discriminate Hk].
  exists ta'. split; [exact eq_refl|].
  apply (expired_conditional_stuck cx BatchDemo.execute_data BatchDemo.ta ta' 520 BatchDemo.conditional);
    [evaluate|evaluate|evaluate|exact BatchDemo.batch_lamports|exact Hrun|evaluate|evaluate].
Defined.

Lemma create_recurring_funded_witness :
  exists s', process_create_recurring BatchDemo.create_cx 301 100 10 5 7
      (mkPState (ta_accounts BatchDemo.create_ta) BatchDemo.create_ta) = Ok (tt, s') /\
    get_acc (mem s') BatchDemo.new_escrow = mkAccount 500 [] BatchDemo.PROGRAM false.
Proof.
  destruct (process_create_recurring BatchDemo.create_cx 301 100 10 5 7
    (mkPState (ta_accounts BatchDemo.create_ta) BatchDemo.create_ta)) as [[[] s']|e] eqn:Hrun;
    [|pose proof BatchDemo.batch_runs as Hk; rewrite Hrun, ?andb_false_r in Hk; discriminate Hk].
  exists s'. split; [exact eq_refl|].
  destruct (create_recurring_funded BatchDemo.create_cx (mkPState (ta_accounts BatchDemo.create_ta) BatchDemo.create_ta) s'
    (mkIA 300 true true) (mkIA BatchDemo.new_key false true) (mkIA BatchDemo.new_escrow false true)
    (mkAccount 5000000 [] 0 false) empty_account empty_account 301 100 10 5 7)
    as (bump & t & _ & _ & _ & _ & _ & _ & He & _).
  - split; [exists BatchDemo.sys, []; exact eq_refl|split|split|..]; evaluate.
  - cbv beta iota delta [well_typed BatchTxInstruction_well_typed]. repeat apply conj; evaluate.
  - exact Hrun.
  - exact He.
Defined.

(** The execution of one transfer with the escrow of another: the recipient of 1
    lamport gets the 2000 lamports another creator has locked. *)
Theorem execute_drains_foreign_escrow :
  let cx := BatchDemo.crank_cx 510 501 401 1 in
  (let? ta' := execute cx (process_instruction cx BatchDemo.execute_data) BatchDemo.ta in
   let lamports k := acc_lamports (get_acc (ta_accounts ta') k) in
   let status k := st_status <$> try_from_slice (acc_data (get_acc (ta_accounts ta') k)) in
   Ok (lamports 401, lamports 501, lamports 511, status 500, status 510))%result
  = Ok (5000 + 2000, 0, 1, Some Pending, Some Executed).
Proof. vm_compute. reflexivity. Qed.
