(* ===== verification/Oracle.v ===== *)
(** * Oracle: price feeds aggregated from several oracles

    Models [src/programs/oracle/src/lib.rs]: a feed account keeps its
    authorized oracles, the submissions of the current round and the last
    rounds; enough submissions are aggregated to their median. *)

From Stdlib Require Import Strings.Byte Strings.String.
From stdpp Require Import sorting.
From S2P Require Import Prelude Borsh Accounts System Invoke Execution Cpi.
Open Scope Z_scope.

(** ** Constants and data *)

Definition MAX_ORACLES : Z := 16.
Definition MAX_STALENESS_SECONDS : Z := 60.
Definition DEFAULT_STALENESS : Z := 30.
Definition MIN_SUBMISSIONS : Z := 3.
Definition MAX_HISTORY : Z := 32.
Definition FEED_SEED : list byte := list_byte_of_string "price_feed".
Definition PRICE_DECIMALS : Z := 8.

Inductive OracleError :=
| AlreadyInitialized | NotInitialized | UnauthorizedOracle | StaleData | InsufficientSubmissions | InvalidPrice
| InvalidConfidence | MaxOraclesReached | OracleAlreadyRegistered | Unauthorized | Overflow | InvalidPDA
| InvalidAssetClass.

Definition into (e : OracleError) : InstructionError :=
  Custom match e with
  | AlreadyInitialized => 0 | NotInitialized => 1 | UnauthorizedOracle => 2 | StaleData => 3
  | InsufficientSubmissions => 4 | InvalidPrice => 5 | InvalidConfidence => 6 | MaxOraclesReached => 7
  | OracleAlreadyRegistered => 8 | Unauthorized => 9 | Overflow => 10 | InvalidPDA => 11 | InvalidAssetClass => 12
  end.

Inductive AssetClass := Crypto | Forex | Commodity | Equity.
#[global] Instance AssetClass_eq_dec : EqDecision AssetClass.
Proof. solve_decision. Defined.

Record OracleSubmission := mkSubmission {
  os_oracle : Pubkey;
  os_price : Z;
  os_confidence : Z;
  os_timestamp : Z;
  os_slot_timestamp : Z;
}.

Record PriceRound := mkRound {
  pr_round_id : Z;
  pr_price : Z;
  pr_confidence : Z;
  pr_num_submissions : Z;
  pr_timestamp : Z;
}.

Record PriceFeed := mkFeed {
  pf_is_initialized : bool;
  pf_admin : Pubkey;
  pf_symbol : list byte;
  pf_asset_class : AssetClass;
  pf_decimals : Z;
  pf_max_staleness : Z;
  pf_min_submissions : Z;
  pf_current_round : Z;
  pf_latest_price : Z;
  pf_latest_confidence : Z;
  pf_latest_timestamp : Z;
  pf_is_active : bool;
  pf_bump : Z;
  pf_oracle_count : Z;
  pf_oracles : list Pubkey;
  pf_current_submissions : list OracleSubmission;
  pf_history : list PriceRound;
}.

Inductive OracleInstruction :=
| InitializeFeed (symbol : list byte) (asset_class : AssetClass) (max_staleness min_submissions : Z)
| AddOracle (oracle : Pubkey)
| RemoveOracle (oracle : Pubkey)
| SubmitPrice (price confidence timestamp : Z)
| ForceAggregate
| ReadPrice.

Definition submission_ok (s : OracleSubmission) : Prop :=
  is_pubkey (os_oracle s) /\ is_i128 (os_price s) /\ is_u64 (os_confidence s) /\ is_i64 (os_timestamp s) /\
  is_i64 (os_slot_timestamp s).
Definition round_ok (r : PriceRound) : Prop :=
  is_u64 (pr_round_id r) /\ is_i128 (pr_price r) /\ is_u64 (pr_confidence r) /\ is_u32 (pr_num_submissions r) /\
  is_i64 (pr_timestamp r).
#[global] Instance PriceFeed_well_typed : WellTyped PriceFeed := fun f =>
  (is_pubkey (pf_admin f) /\ zlen (pf_symbol f) = 32 /\ is_u8 (pf_decimals f) /\ is_i64 (pf_max_staleness f) /\
   is_u32 (pf_min_submissions f) /\ is_u64 (pf_current_round f) /\ is_i128 (pf_latest_price f) /\
   is_u64 (pf_latest_confidence f) /\ is_i64 (pf_latest_timestamp f) /\ is_u8 (pf_bump f) /\ is_u32 (pf_oracle_count f)) /\
  (Forall is_pubkey (pf_oracles f) /\ is_u32 (zlen (pf_oracles f))) /\
  (Forall submission_ok (pf_current_submissions f) /\ is_u32 (zlen (pf_current_submissions f))) /\
  (Forall round_ok (pf_history f) /\ is_u32 (zlen (pf_history f))).
#[global] Instance OracleInstruction_well_typed : WellTyped OracleInstruction := fun i =>
  match i with
  | InitializeFeed symbol _ max_staleness min_submissions =>
      zlen symbol = 32 /\ is_i64 max_staleness /\ is_u32 min_submissions
  | AddOracle oracle | RemoveOracle oracle => is_pubkey oracle
  | SubmitPrice price confidence timestamp => is_i128 price /\ is_u64 confidence /\ is_i64 timestamp
  | ForceAggregate | ReadPrice => True
  end.

(** The length of an encoded feed. *)
Definition feed_len (f : PriceFeed) : Z :=
  137 + 32 * zlen (pf_oracles f) + 72 * zlen (pf_current_submissions f) + 44 * zlen (pf_history f).

(** Field updates. *)
Definition with_oracles (oracles : list Pubkey) (submissions : list OracleSubmission) (f : PriceFeed) : PriceFeed :=
  mkFeed (pf_is_initialized f) (pf_admin f) (pf_symbol f) (pf_asset_class f) (pf_decimals f) (pf_max_staleness f)
    (pf_min_submissions f) (pf_current_round f) (pf_latest_price f) (pf_latest_confidence f) (pf_latest_timestamp f)
    (pf_is_active f) (pf_bump f) (zlen oracles mod 2 ^ 32) oracles submissions (pf_history f).
Definition with_submissions (submissions : list OracleSubmission) (f : PriceFeed) : PriceFeed :=
  mkFeed (pf_is_initialized f) (pf_admin f) (pf_symbol f) (pf_asset_class f) (pf_decimals f) (pf_max_staleness f)
    (pf_min_submissions f) (pf_current_round f) (pf_latest_price f) (pf_latest_confidence f) (pf_latest_timestamp f)
    (pf_is_active f) (pf_bump f) (pf_oracle_count f) (pf_oracles f) submissions (pf_history f).
Definition with_round (r : PriceRound) (history : list PriceRound) (f : PriceFeed) : PriceFeed :=
  mkFeed (pf_is_initialized f) (pf_admin f) (pf_symbol f) (pf_asset_class f) (pf_decimals f) (pf_max_staleness f)
    (pf_min_submissions f) (pr_round_id r) (pr_price r) (pr_confidence r) (pr_timestamp r)
    (pf_is_active f) (pf_bump f) (pf_oracle_count f) (pf_oracles f) [] history.

(** ** Aggregation *)

(** The median; an empty slice is indexed out of bounds. *)
Definition median (values : list Z) : result InstructionError Z :=
  let values := merge_sort Z.le values in
  let mid := (length values / 2)%nat in
  if Nat.even (length values) then
    match values !! (mid - 1)%nat, values !! mid with
    | Some a, Some b => Ok (Z.quot (as_i128 (a + b)) 2)
    | _, _ => Err ProgramFailedToComplete
    end
  else ok_or (values !! mid) ProgramFailedToComplete.

(** The distance of a submission from the median, as the cast leaves it. *)
Definition deviation (median_price : Z) (s : OracleSubmission) : Z :=
  let diff := as_i128 (os_price s - median_price) in
  as_u64 (if diff <? 0 then as_i128 (- diff) else diff).

Definition aggregate_confidence (submissions : list OracleSubmission) (median_price : Z) : Z :=
  match submissions with
  | [] => 0
  | _ =>
      let max_confidence := foldr Z.max 0 (os_confidence <$> submissions) in
      let max_deviation := foldr Z.max 0 (deviation median_price <$> submissions) in
      Z.max max_confidence max_deviation
  end.

Definition aggregate_prices (feed : PriceFeed) (clock_timestamp : Z) : result InstructionError PriceFeed :=
  let submission_count := zlen (pf_current_submissions feed) in
  (err_if (submission_count <? pf_min_submissions feed) (into InsufficientSubmissions) ?>
   let? median_price := median (os_price <$> pf_current_submissions feed) in
   let confidence := aggregate_confidence (pf_current_submissions feed) median_price in
   let current_round := u64_saturating_add (pf_current_round feed) 1 in
   let round := mkRound current_round median_price confidence (submission_count mod 2 ^ 32) clock_timestamp in
   let history :=
     if MAX_HISTORY <=? zlen (pf_history feed)
     then <[Z.to_nat ((current_round - 1) mod MAX_HISTORY) := round]> (pf_history feed)
     else pf_history feed ++ [round] in
   Ok (with_round round history feed))%result.

(** ** Instructions *)

Definition FEED_SPACE : Z := 2048 + (MAX_ORACLES * 32) + (MAX_ORACLES * 128) + (MAX_HISTORY * 64).

(** A further submission, or the first one of the same oracle replaced. *)
Fixpoint replace_submission (sub : OracleSubmission) (l : list OracleSubmission) : list OracleSubmission :=
  match l with
  | [] => []
  | s :: l => if os_oracle s =? os_oracle sub then sub :: l else s :: replace_submission sub l
  end.
Definition record_submission (sub : OracleSubmission) (l : list OracleSubmission) : list OracleSubmission :=
  if existsb (fun s => os_oracle s =? os_oracle sub) l then replace_submission sub l else l ++ [sub].

Section Oracle.
Context {E : Env} {BF : Borsh PriceFeed} {BI : Borsh OracleInstruction}.
Variable cx : Ctx.

Definition process_initialize_feed (symbol : list byte) (asset_class : AssetClass) (max_staleness min_submissions : Z)
    : M unit :=
  (let! '(admin, it) := next_account_info (cx_accounts cx) in
   let! '(feed_account, it) := next_account_info it in
   let! '(system_program, it) := next_account_info it in
   fail_if (negb (ia_is_signer admin)) MissingRequiredSignature ;;
   let '(feed_pda, feed_bump) := find_program_address [FEED_SEED; symbol] (cx_program_id cx) in
   fail_if (negb (feed_pda =? ia_key feed_account)) (into InvalidPDA) ;;
   let staleness := if max_staleness <=? 0 then DEFAULT_STALENESS else Z.min max_staleness MAX_STALENESS_SECONDS in
   let min_subs := if min_submissions =? 0 then MIN_SUBMISSIONS else min_submissions in
   let space := FEED_SPACE in
   let lamports := minimum_balance space in
   invoke_signed cx (create_account_ix (ia_key admin) (ia_key feed_account) lamports space (cx_program_id cx))
     [admin; feed_account; system_program] [[FEED_SEED; symbol; [byte_of_Z feed_bump]]] ;;
   serialize_into (mkFeed true (ia_key admin) symbol asset_class PRICE_DECIMALS staleness min_subs 0 0 0 0 true feed_bump
     0 [] [] []) feed_account)%prog.

Definition process_add_oracle (oracle : Pubkey) : M unit :=
  (let! '(admin, it) := next_account_info (cx_accounts cx) in
   let! '(feed_account, it) := next_account_info it in
   fail_if (negb (ia_is_signer admin)) MissingRequiredSignature ;;
   let! fa := account feed_account in
   fail_if (negb (acc_owner fa =? cx_program_id cx)) IncorrectProgramId ;;
   let! feed := load PriceFeed feed_account BorshIoError in
   fail_if (negb (pf_is_initialized feed)) (into NotInitialized) ;;
   fail_if (negb (pf_admin feed =? ia_key admin)) (into Unauthorized) ;;
   fail_if (MAX_ORACLES <=? zlen (pf_oracles feed)) (into MaxOraclesReached) ;;
   fail_if (contains (pf_oracles feed) oracle) (into OracleAlreadyRegistered) ;;
   serialize_into (with_oracles (pf_oracles feed ++ [oracle]) (pf_current_submissions feed) feed) feed_account)%prog.

Definition process_remove_oracle (oracle : Pubkey) : M unit :=
  (let! '(admin, it) := next_account_info (cx_accounts cx) in
   let! '(feed_account, it) := next_account_info it in
   fail_if (negb (ia_is_signer admin)) MissingRequiredSignature ;;
   let! fa := account feed_account in
   fail_if (negb (acc_owner fa =? cx_program_id cx)) IncorrectProgramId ;;
   let! feed := load PriceFeed feed_account BorshIoError in
   fail_if (negb (pf_is_initialized feed)) (into NotInitialized) ;;
   fail_if (negb (pf_admin feed =? ia_key admin)) (into Unauthorized) ;;
   let oracles := filter (fun o => o <> oracle) (pf_oracles feed) in
   fail_if (zlen oracles =? zlen (pf_oracles feed)) (into UnauthorizedOracle) ;;
   let submissions := filter (fun s => os_oracle s <> oracle) (pf_current_submissions feed) in
   serialize_into (with_oracles oracles submissions feed) feed_account)%prog.

Definition process_submit_price (price confidence timestamp : Z) : M unit :=
  (let! '(oracle, it) := next_account_info (cx_accounts cx) in
   let! '(feed_account, it) := next_account_info it in
   fail_if (negb (ia_is_signer oracle)) MissingRequiredSignature ;;
   let! fa := account feed_account in
   fail_if (negb (acc_owner fa =? cx_program_id cx)) IncorrectProgramId ;;
   let! feed := load PriceFeed feed_account BorshIoError in
   fail_if (negb (pf_is_initialized feed) || negb (pf_is_active feed)) (into NotInitialized) ;;
   fail_if (negb (contains (pf_oracles feed) (ia_key oracle))) (into UnauthorizedOracle) ;;
   fail_if (price <=? 0) (into InvalidPrice) ;;
   let! clock := clock_get cx in
   let age := i64_saturating_sub (unix_timestamp clock) timestamp in
   fail_if (pf_max_staleness feed <? age) (into StaleData) ;;
   let sub := mkSubmission (ia_key oracle) price confidence timestamp (unix_timestamp clock) in
   let feed := with_submissions (record_submission sub (pf_current_submissions feed)) feed in
   let! feed :=
     if pf_min_submissions feed <=? zlen (pf_current_submissions feed)
     then lift (aggregate_prices feed (unix_timestamp clock)) else pret feed in
   serialize_into feed feed_account)%prog.

Definition process_force_aggregate : M unit :=
  (let! '(admin, it) := next_account_info (cx_accounts cx) in
   let! '(feed_account, it) := next_account_info it in
   fail_if (negb (ia_is_signer admin)) MissingRequiredSignature ;;
   let! fa := account feed_account in
   fail_if (negb (acc_owner fa =? cx_program_id cx)) IncorrectProgramId ;;
   let! feed := load PriceFeed feed_account BorshIoError in
   fail_if (negb (pf_is_initialized feed)) (into NotInitialized) ;;
   fail_if (negb (pf_admin feed =? ia_key admin)) (into Unauthorized) ;;
   let! clock := clock_get cx in
   let! feed := lift (aggregate_prices feed (unix_timestamp clock)) in
   serialize_into feed feed_account)%prog.

(** Reading a price only logs it. *)
Definition process_read_price : M unit :=
  (let! '(feed_account, it) := next_account_info (cx_accounts cx) in
   let! fa := account feed_account in
   fail_if (negb (acc_owner fa =? cx_program_id cx)) IncorrectProgramId ;;
   let! feed := load PriceFeed feed_account BorshIoError in
   fail_if (negb (pf_is_initialized feed)) (into NotInitialized) ;;
   let! clock := clock_get cx in
   pret tt)%prog.

Definition process_instruction (instruction_data : list byte) : M unit :=
  (let! instruction := lift (ok_or (try_from_slice instruction_data) InvalidInstructionData) in
   match instruction with
   | InitializeFeed symbol asset_class max_staleness min_submissions =>
       process_initialize_feed symbol asset_class max_staleness min_submissions
   | AddOracle oracle => process_add_oracle oracle
   | RemoveOracle oracle => process_remove_oracle oracle
   | SubmitPrice price confidence timestamp => process_submit_price price confidence timestamp
   | ForceAggregate => process_force_aggregate
   | ReadPrice => process_read_price
   end)%prog.
End Oracle.
