(* ===== verification/OracleProofs.v ===== *)
(** * OracleProofs: correctness of the price oracle *)

From Stdlib Require Import Strings.Byte.
From stdpp Require Import sorting.
From S2P Require Import Prelude Borsh Accounts System Invoke Execution Cpi Ledger Oracle.
Open Scope Z_scope.

(** ** Positions in a sorted list *)

(** The values of an interval. *)
Definition within (lo hi y : Z) : Prop := lo <= y <= hi.
#[global] Instance within_dec lo hi y : Decision (within lo hi y).
Proof. unfold within. apply _. Defined.

(** How many values satisfy a predicate. *)
Definition count (P : Z -> Prop) `{!forall x, Decision (P x)} (l : list Z) : nat := length (filter P l).

Section Count.
Context (P : Z -> Prop) {Pdec : forall x, Decision (P x)}.

Lemma count_perm l l' : l ≡ₚ l' -> count P l = count P l'.
Proof. intros H. unfold count. by rewrite H. Qed.

Lemma count_app l l' : count P (l ++ l') = (count P l + count P l')%nat.
Proof. unfold count. by rewrite filter_app, length_app. Qed.

Lemma count_le l : (count P l <= length l)%nat.
Proof. apply length_filter. Qed.

Lemma count_none l : Forall (fun x => ~ P x) l -> count P l = 0%nat.
Proof. unfold count. induction 1 as [|x l Hx _ IH]; [done|]. by rewrite filter_cons_False. Qed.
End Count.

Lemma sorted_parts l i x :
  StronglySorted Z.le l -> l !! i = Some x ->
  Forall (fun y => y <= x) (take (S i) l) /\ Forall (fun y => x <= y) (drop i l).
Proof.
  intros Hs. revert i. induction Hs as [|y l Hl IH Hy]; intros [|i] Hi; simplify_eq/=.
  - split; [constructor; [lia|by rewrite take_0; constructor]|]. constructor; [lia|done].
  - destruct (IH _ Hi) as [H1 H2]. split; [|done]. constructor; [|done].
    eapply Forall_forall in Hy; [exact Hy|]. by eapply list_elem_of_lookup_2.
Qed.

(** A value of a sorted list that is below (above) an interval has all the
    earlier (later) ones outside of it. *)
Lemma sorted_in_range l i x lo hi :
  StronglySorted Z.le l -> l !! i = Some x ->
  (length l - S i < count (within lo hi) l)%nat -> (i < count (within lo hi) l)%nat ->
  within lo hi x.
Proof.
  intros Hs Hi H1 H2. destruct (sorted_parts _ _ _ Hs Hi) as [Hl Hr].
  assert (i < length l)%nat by (by eapply lookup_lt_Some). split.
  - destruct (decide (lo <= x)) as [|Hx]; [done|exfalso].
    rewrite <- (take_drop (S i) l) in H1 at 2. rewrite count_app, count_none in H1.
    + pose proof (count_le (within lo hi) (drop (S i) l)) as Hc. rewrite length_drop in Hc. lia.
    + eapply Forall_impl; [exact Hl|]. unfold within. simpl. lia.
  - destruct (decide (x <= hi)) as [|Hx]; [done|exfalso].
    rewrite <- (take_drop i l) in H2 at 1. rewrite count_app, (count_none _ (drop i l)) in H2.
    + pose proof (count_le (within lo hi) (take i l)) as Hc. rewrite length_take in Hc. lia.
    + eapply Forall_impl; [exact Hr|]. unfold within. simpl. lia.
Qed.

(** ** The median *)

Lemma as_i128_id z : is_i128 z -> as_i128 z = z.
Proof. intros H. unfold as_i128. rewrite Z.mod_small; unfold_ints; lia. Qed.

Lemma sort_sorted l : StronglySorted Z.le (merge_sort Z.le l).
Proof. apply StronglySorted_merge_sort; apply _. Qed.

(** The median of a non-empty list exists. *)
Lemma median_total l : l <> [] -> exists z, median l = Ok z.
Proof.
  intros Hl. unfold median. assert (Hlen : length (merge_sort Z.le l) = length l).
  { by rewrite (merge_sort_Permutation Z.le l). }
  rewrite Hlen. destruct l as [|x l]; [done|]. set (n := length (x :: l)) in *.
  assert (0 < n)%nat by (subst n; simpl; lia).
  assert (Hat : forall i, (i < n)%nat -> exists a, merge_sort Z.le (x :: l) !! i = Some a).
  { intros i Hi. apply lookup_lt_is_Some. lia. }
  pose proof (Nat.div_mod_eq n 2).
  destruct (Nat.even n) eqn:Hev.
  - destruct (Hat (n / 2 - 1)%nat) as [a ->]; [lia|]. destruct (Hat (n / 2)%nat) as [b ->]; [lia|]. by eexists.
  - destruct (Hat (n / 2)%nat) as [a ->]; [lia|]. by eexists.
Qed.

(** A median lies where more than half of the values lie. *)
Lemma median_in_range l lo hi z :
  I128_MIN <= 2 * lo -> 2 * hi <= I128_MAX ->
  (length l < 2 * count (within lo hi) l)%nat -> median l = Ok z -> lo <= z <= hi.
Proof.
  intros Hlo Hhi Hmaj H. unfold median in H.
  pose proof (merge_sort_Permutation Z.le l) as Hp. pose proof (sort_sorted l) as Hs.
  set (s := merge_sort Z.le l) in *. assert (Hlen : length s = length l) by (by rewrite Hp).
  rewrite <- (count_perm _ _ _ Hp) in Hmaj. rewrite <- Hlen in Hmaj.
  set (n := length s) in *. pose proof (Nat.div_mod_eq n 2) as Hdm.
  destruct (Nat.even n) eqn:Hev.
  - apply Nat.even_spec in Hev as [h Hh]. assert (n / 2 = h)%nat as Hn2 by (rewrite Hh, Nat.mul_comm; by apply Nat.div_mul).
    rewrite Hn2 in H. destruct (s !! (h - 1)%nat) as [a|] eqn:Ha; [|done]. destruct (s !! h) as [b|] eqn:Hb; [|done].
    apply lookup_lt_Some in Hb as Hlt. fold n in Hlt.
    pose proof (sorted_in_range s _ a lo hi Hs Ha) as Ra. pose proof (sorted_in_range s _ b lo hi Hs Hb) as Rb.
    fold n in Ra, Rb. specialize (Ra ltac:(lia) ltac:(lia)). specialize (Rb ltac:(lia) ltac:(lia)).
    unfold within in Ra, Rb. injection H as <-. rewrite as_i128_id by ilia. Z.to_euclidean_division_equations. lia.
  - destruct (s !! (n / 2)%nat) as [a|] eqn:Ha; [|done]. injection H as <-.
    apply (sorted_in_range s _ a lo hi Hs Ha); fold n; [|lia].
    pose proof (Nat.mod_upper_bound n 2). lia.
Qed.

(** ** The confidence interval *)

Lemma foldr_max_elem x l : x ∈ l -> x <= foldr Z.max 0 l.
Proof. induction 1; simpl; lia. Qed.

Lemma deviation_exact m s : Z.abs (os_price s - m) <= U64_MAX -> deviation m s = Z.abs (os_price s - m).
Proof.
  intros H. unfold deviation. rewrite as_i128_id by ilia.
  destruct (Z.ltb_spec (os_price s - m) 0); rewrite ?as_i128_id by ilia; unfold as_u64; rewrite Z.mod_small; unfold_ints; lia.
Qed.

(** The aggregated interval covers every submission and its confidence, up to
    the width of the cast. *)
Lemma aggregate_confidence_covers l m s :
  s ∈ l -> os_confidence s <= aggregate_confidence l m /\
  (Z.abs (os_price s - m) <= U64_MAX -> Z.abs (os_price s - m) <= aggregate_confidence l m).
Proof.
  intros Hs. assert (aggregate_confidence l m = Z.max (foldr Z.max 0 (os_confidence <$> l)) (foldr Z.max 0 (deviation m <$> l))) as ->.
  { destruct l; [by apply not_elem_of_nil in Hs|done]. }
  pose proof (foldr_max_elem (os_confidence s) (os_confidence <$> l)) as H1.
  pose proof (foldr_max_elem (deviation m s) (deviation m <$> l)) as H2.
  split; [pose proof (H1 ltac:(by apply list_elem_of_fmap_2)); lia|].
  intros Hd. rewrite deviation_exact in H2 by done. pose proof (H2 ltac:(rewrite <- deviation_exact by done; by apply list_elem_of_fmap_2)). lia.
Qed.

(** ** The state of a feed *)

Definition slot (r : Z) : nat := Z.to_nat ((r - 1) mod MAX_HISTORY).

(** The history is a ring of the last 32 rounds, round [r] in its slot; the
    latest price is that of the last round. *)
Record history_ok (f : PriceFeed) : Prop := {
  ho_round : 0 <= pf_current_round f;
  ho_len : zlen (pf_history f) = Z.min (pf_current_round f) MAX_HISTORY;
  ho_entry r : 1 <= r -> pf_current_round f - MAX_HISTORY < r <= pf_current_round f ->
    exists p, pf_history f !! slot r = Some p /\ pr_round_id p = r;
  ho_latest : 0 < pf_current_round f -> exists p, pf_history f !! slot (pf_current_round f) = Some p /\
    pr_price p = pf_latest_price f /\ pr_confidence p = pf_latest_confidence f /\ pr_timestamp p = pf_latest_timestamp f;
}.

Record feed_inv (f : PriceFeed) : Prop := {
  fi_oracles : NoDup (pf_oracles f) /\ zlen (pf_oracles f) <= MAX_ORACLES /\ pf_oracle_count f = zlen (pf_oracles f);
  fi_submissions : NoDup (os_oracle <$> pf_current_submissions f);
  fi_authorized s : s ∈ pf_current_submissions f -> os_oracle s ∈ pf_oracles f /\ 0 < os_price s;
  fi_open : zlen (pf_current_submissions f) < pf_min_submissions f;
  fi_staleness : 0 < pf_max_staleness f <= MAX_STALENESS_SECONDS;
  fi_history : history_ok f;
}.

(** A further round enters the ring. *)
Lemma slot_inj n r r' : n - MAX_HISTORY < r <= n -> n - MAX_HISTORY < r' <= n -> slot r = slot r' -> r = r'.
Proof. unfold slot, MAX_HISTORY. intros H H' Heq. apply Z2Nat.inj in Heq; Z.to_euclidean_division_equations; lia. Qed.

Lemma slot_small r : 1 <= r <= MAX_HISTORY -> slot r = Z.to_nat (r - 1).
Proof. unfold slot, MAX_HISTORY. intros H. by rewrite Z.mod_small by lia. Qed.

Lemma history_push f p :
  history_ok f -> pf_current_round f < U64_MAX -> pr_round_id p = pf_current_round f + 1 ->
  let history := if MAX_HISTORY <=? zlen (pf_history f) then <[slot (pr_round_id p) := p]> (pf_history f) else pf_history f ++ [p] in
  history_ok (with_round p history f).
Proof.
  intros [H0 Hlen Hent _] Hmax Hp history. set (n := pf_current_round f) in *.
  assert (Hnew : history !! slot (n + 1) = Some p).
  { subst history. rewrite Hp. destruct (Z.leb_spec MAX_HISTORY (zlen (pf_history f))) as [Hle|Hlt].
    - apply list_lookup_insert_eq. unfold slot, MAX_HISTORY, zlen in *. Z.to_euclidean_division_equations. lia.
    - rewrite slot_small by (unfold MAX_HISTORY in *; lia). rewrite lookup_app_r by (unfold zlen, MAX_HISTORY in *; lia).
      replace (Z.to_nat (n + 1 - 1) - length (pf_history f))%nat with 0%nat by (unfold zlen, MAX_HISTORY in *; lia). done. }
  assert (Hold : forall r, 1 <= r -> n + 1 - MAX_HISTORY < r <= n -> history !! slot r = pf_history f !! slot r).
  { intros r Hr1 Hr. subst history. rewrite Hp. destruct (Z.leb_spec MAX_HISTORY (zlen (pf_history f))) as [Hle|Hlt].
    - apply list_lookup_insert_ne. intros Heq. apply (slot_inj (n + 1)) in Heq; unfold MAX_HISTORY in *; lia.
    - apply lookup_app_l. rewrite slot_small by (unfold MAX_HISTORY in *; lia). unfold zlen, MAX_HISTORY in *. lia. }
  split; simpl; rewrite ?Hp; [lia| | |intros _; by exists p].
  - subst history. destruct (Z.leb_spec MAX_HISTORY (zlen (pf_history f))) as [Hle|Hlt]; unfold zlen in *.
    + rewrite length_insert. unfold MAX_HISTORY in *. lia.
    + rewrite length_app. simpl. unfold MAX_HISTORY in *. lia.
  - intros r Hr1 Hr. destruct (decide (r = n + 1)) as [->|Hne]; [by exists p|].
    rewrite Hold by (done || lia). apply Hent; [done|lia].
Qed.

(** The effect of an aggregation. *)
Lemma aggregate_ok f t f' :
  aggregate_prices f t = Ok f' <->
  pf_min_submissions f <= zlen (pf_current_submissions f) /\
  exists m, median (os_price <$> pf_current_submissions f) = Ok m /\
    let p := mkRound (u64_saturating_add (pf_current_round f) 1) m (aggregate_confidence (pf_current_submissions f) m)
               (zlen (pf_current_submissions f) mod 2 ^ 32) t in
    f' = with_round p (if MAX_HISTORY <=? zlen (pf_history f) then <[slot (pr_round_id p) := p]> (pf_history f)
                       else pf_history f ++ [p]) f.
Proof.
  unfold aggregate_prices. split.
  - intros H. rinv. bool_to_prop. split; [done|]. eexists. split; [eassumption|reflexivity].
  - intros [Hm (m & Hmed & ->)]. rewrite (proj2 (Z.ltb_ge _ _)) by done. simpl. by rewrite Hmed.
Qed.

(** ** Updates of a feed keep its invariant *)

Lemma record_submission_oracles sub l :
  os_oracle <$> record_submission sub l =
  if decide (os_oracle sub ∈ os_oracle <$> l) then os_oracle <$> l else (os_oracle <$> l) ++ [os_oracle sub].
Proof.
  unfold record_submission. destruct (existsb _ l) eqn:Hex.
  - rewrite decide_True.
    + clear Hex. induction l as [|s l IH]; [done|]. simpl. destruct (Z.eqb_spec (os_oracle s) (os_oracle sub)); csimpl; congruence.
    + apply existsb_exists in Hex as (s & Hs%list_elem_of_In & He%Z.eqb_eq). rewrite <- He. by apply list_elem_of_fmap_2.
  - rewrite decide_False, fmap_app; [done|]. intros (s & Hs & Hin)%list_elem_of_fmap.
    apply not_true_iff_false in Hex. apply Hex, existsb_exists. exists s. split; [by apply list_elem_of_In|by apply Z.eqb_eq].
Qed.

Lemma replace_submission_elem sub l s : s ∈ replace_submission sub l -> s = sub \/ s ∈ l.
Proof.
  induction l as [|t l IH]; simpl; [by intros ?%not_elem_of_nil|]. rewrite elem_of_cons.
  case_match; intros [->|Hs]%elem_of_cons; auto. destruct (IH Hs); auto.
Qed.

Lemma record_submission_elem sub l s : s ∈ record_submission sub l -> s = sub \/ s ∈ l.
Proof.
  unfold record_submission. case_match; [apply replace_submission_elem|].
  rewrite elem_of_app, list_elem_of_singleton. intros [?|?]; auto.
Qed.

Lemma inv_add f o :
  feed_inv f -> o ∉ pf_oracles f -> zlen (pf_oracles f) < MAX_ORACLES ->
  feed_inv (with_oracles (pf_oracles f ++ [o]) (pf_current_submissions f) f).
Proof.
  intros [(Hn & Hl & Hc) Hs Ha Ho Hst [H0 Hlen Hent Hlat]] Hno Hlt. split; simpl; try done.
  - split_and!; [|unfold zlen in *; rewrite length_app; simpl; lia|].
    + apply NoDup_app. split_and!; [done|set_solver|apply NoDup_singleton].
    + apply Z.mod_small. unfold zlen, MAX_ORACLES in *. rewrite length_app. simpl. lia.
  - intros s Hin. destruct (Ha s Hin). split; [set_solver|done].
Qed.

Lemma inv_remove f o :
  feed_inv f -> feed_inv (with_oracles (filter (fun x => x <> o) (pf_oracles f))
    (filter (fun s => os_oracle s <> o) (pf_current_submissions f)) f).
Proof.
  intros [(Hn & Hl & Hc) Hs Ha Ho Hst [H0 Hlen Hent Hlat]].
  pose proof (length_filter (fun x => x <> o) (pf_oracles f)).
  pose proof (length_filter (fun s => os_oracle s <> o) (pf_current_submissions f)). split; simpl; try done.
  - split_and!; [by apply NoDup_filter|unfold zlen in *; lia|]. apply Z.mod_small. unfold zlen, MAX_ORACLES in *. lia.
  - eapply sublist_NoDup; [exact Hs|]. apply fmap_sublist, sublist_filter.
  - intros s [Hne Hin]%list_elem_of_filter. destruct (Ha s Hin). split; [by apply list_elem_of_filter|done].
  - unfold zlen in *. lia.
Qed.

Lemma inv_submit f sub :
  feed_inv f -> os_oracle sub ∈ pf_oracles f -> 0 < os_price sub ->
  let l := record_submission sub (pf_current_submissions f) in
  zlen l < pf_min_submissions f -> feed_inv (with_submissions l f).
Proof.
  intros [Ho Hs Ha Hopen Hst [H0 Hlen Hent Hlat]] Hin Hp l Hl. split; simpl; try done.
  - unfold l. rewrite record_submission_oracles. case_decide as Hd; [done|]. apply NoDup_app. split_and!; [done|set_solver|apply NoDup_singleton].
  - intros s [->|Hs']%record_submission_elem; [done|by apply Ha].
Qed.

Lemma inv_aggregate f subs t f' :
  feed_inv f -> pf_current_round f < U64_MAX ->
  aggregate_prices (with_submissions subs f) t = Ok f' -> feed_inv f'.
Proof.
  intros [Ho Hs Ha Hopen Hst Hh] Hmax (Hc & m & Hm & ->)%aggregate_ok. pose proof (ho_round _ Hh).
  assert (u64_saturating_add (pf_current_round f) 1 = pf_current_round f + 1) as Hsat by (unfold clamp; ilia).
  split; simpl; try done; [by apply NoDup_nil|by intros s []%not_elem_of_nil|unfold zlen in *; simpl; lia|].
  set (p := mkRound _ _ _ _ _). pose proof (history_push f p Hh Hmax Hsat) as Hp. exact Hp.
Qed.

(** ** What the instructions do to a feed *)

Section Steps.
Context {E : Env} {BF : Borsh PriceFeed} {BI : Borsh OracleInstruction}.
Context {LF : BorshLaws PriceFeed} {LI : BorshLaws OracleInstruction} {MF : BorshMeasured PriceFeed feed_len}.
Context (cx : Ctx).
Abbreviation now := (unix_timestamp (cx_clock cx)).

(** A submission the program accepts. *)
Record submission_allowed (f : PriceFeed) (sub : OracleSubmission) : Prop := {
  sa_signed : signed cx (os_oracle sub);
  sa_oracle : os_oracle sub ∈ pf_oracles f;
  sa_price : 0 < os_price sub;
  sa_age : i64_saturating_sub now (os_timestamp sub) <= pf_max_staleness f;
  sa_now : os_slot_timestamp sub = now;
  sa_active : pf_is_active f = true;
}.

(** The submission an oracle, the first account, makes. *)
Definition submitted (price confidence timestamp : Z) (sub : OracleSubmission) : Prop :=
  exists o, ia_key <$> cx_accounts cx !! 0%nat = Some o /\ sub = mkSubmission o price confidence timestamp now.

(** What each instruction does to a feed. *)
Inductive fstep : OracleInstruction -> PriceFeed -> PriceFeed -> Prop :=
| step_add f o : signed cx (pf_admin f) -> zlen (pf_oracles f) < MAX_ORACLES -> o ∉ pf_oracles f ->
    fstep (AddOracle o) f (with_oracles (pf_oracles f ++ [o]) (pf_current_submissions f) f)
| step_remove f o : signed cx (pf_admin f) -> o ∈ pf_oracles f ->
    fstep (RemoveOracle o) f (with_oracles (filter (fun x => x <> o) (pf_oracles f))
      (filter (fun s => os_oracle s <> o) (pf_current_submissions f)) f)
| step_submit f price confidence timestamp sub :
    submitted price confidence timestamp sub -> submission_allowed f sub ->
    let l := record_submission sub (pf_current_submissions f) in
    zlen l < pf_min_submissions f -> fstep (SubmitPrice price confidence timestamp) f (with_submissions l f)
| step_round f price confidence timestamp sub f' :
    submitted price confidence timestamp sub -> submission_allowed f sub ->
    aggregate_prices (with_submissions (record_submission sub (pf_current_submissions f)) f) now = Ok f' ->
    fstep (SubmitPrice price confidence timestamp) f f'
| step_force f f' : signed cx (pf_admin f) -> aggregate_prices f now = Ok f' -> fstep ForceAggregate f f'.

Lemma fstep_inv i f f' : fstep i f f' -> pf_current_round f < U64_MAX -> feed_inv f -> feed_inv f'.
Proof.
  intros Hst Hmax Hi. destruct Hst as [f o _ Hl Ho|f o _ _|f ? ? ? sub _ [_ Ho Hp _ _ _] l Hl|f ? ? ? sub f' _ _ Ha|f f' _ Ha].
  - by apply inv_add.
  - by apply inv_remove.
  - by apply inv_submit.
  - by eapply inv_aggregate.
  - apply aggregate_ok in Ha as [Hc _]. pose proof (fi_open _ Hi). lia.
Qed.

(** Which instruction writes a feed. *)
Definition feed_step (i : OracleInstruction) (s s' : PState) : Prop :=
  exists k f f', ia_key <$> cx_accounts cx !! 1%nat = Some k /\
    acc_owner (get_acc (mem s) k) = cx_program_id cx /\ holds (mem s) k f /\ pf_is_initialized f = true /\ fstep i f f' /\
    s' = mkPState (stored f' k (mem s)) (rt s).

Lemma removed_elem (o : Pubkey) l : zlen (filter (fun x => x <> o) l) <> zlen l -> o ∈ l.
Proof.
  unfold zlen. induction l as [|x l IH]; [done|]. rewrite filter_cons. rewrite elem_of_cons.
  destruct (decide (x <> o)) as [Hx|Hx]; [|destruct (decide (x = o)); [by left|tauto]].
  simpl. intros Hl. right. apply IH. lia.
Qed.

Ltac feed_step :=
  match goal with Hacc : cx_accounts _ = _, Hf : holds _ _ ?f |- _ =>
    eexists _, f, _; split_and!; [by rewrite Hacc|done|exact Hf|done| |reflexivity] end.

Lemma add_oracle_step o s s' : process_add_oracle cx o s = Ok (tt, s') -> feed_step (AddOracle o) s s'.
Proof.
  intros H. unfold process_add_oracle in H. pinv. bool_to_prop. feed_step.
  apply step_add; [|done|].
  - hyp (pf_admin _ = _) as Ha. rewrite Ha. by_signer.
  - intros Hin%contains_elem. congruence.
Qed.

Lemma remove_oracle_step o s s' : process_remove_oracle cx o s = Ok (tt, s') -> feed_step (RemoveOracle o) s s'.
Proof.
  intros H. unfold process_remove_oracle in H. pinv. bool_to_prop. feed_step.
  apply step_remove; [|by apply removed_elem]. hyp (pf_admin _ = _) as Ha. rewrite Ha. by_signer.
Qed.

Lemma force_aggregate_step s s' : process_force_aggregate cx s = Ok (tt, s') -> feed_step ForceAggregate s s'.
Proof.
  intros H. unfold process_force_aggregate in H. pinv. bool_to_prop. feed_step.
  apply step_force; [|done]. hyp (pf_admin _ = _) as Ha. rewrite Ha. by_signer.
Qed.

Lemma submit_price_step price confidence timestamp s s' :
  process_submit_price cx price confidence timestamp s = Ok (tt, s') ->
  feed_step (SubmitPrice price confidence timestamp) s s'.
Proof.
  intros H. unfold process_submit_price in H. pinv; bool_to_prop;
    hyp (contains _ _ = true) as Ho; apply contains_elem in Ho; feed_step;
    [eapply step_round; [..|eassumption]|eapply (step_submit _ _ _ _ (mkSubmission _ _ _ _ _)); [..|eassumption]];
    try (hyp (cx_accounts cx = _) as Hacc; eexists; split; [by rewrite Hacc|reflexivity]); split; try done; by_signer.
Qed.

Definition initializes (i : OracleInstruction) : Prop :=
  match i with InitializeFeed _ _ _ _ => True | _ => False end.

Lemma oracle_instruction_step data i s s' :
  try_from_slice data = Some i -> ~ initializes i -> process_instruction cx data s = Ok (tt, s') ->
  s' = s \/ feed_step i s s'.
Proof.
  intros Hde Hi H. unfold process_instruction in H. rewrite Hde in H. cbn [ok_or lift pbind] in H.
  destruct i; [by destruct Hi| | | | |].
  - right. by eapply add_oracle_step.
  - right. by eapply remove_oracle_step.
  - right. by eapply submit_price_step.
  - right. by eapply force_aggregate_step.
  - left. unfold process_read_price in H. by pinv.
Qed.

(** The account that stores the feed an instruction works on. *)
Definition feed_index (i : OracleInstruction) : nat := match i with ReadPrice => 0 | _ => 1 end.

Lemma oracle_instruction_reads data i s s' :
  try_from_slice data = Some i -> ~ initializes i -> process_instruction cx data s = Ok (tt, s') ->
  exists k (f : PriceFeed), ia_key <$> cx_accounts cx !! feed_index i = Some k /\ holds (mem s) k f.
Proof.
  intros Hde Hi H. unfold process_instruction in H. rewrite Hde in H. cbn [ok_or lift pbind] in H.
  destruct i; [by destruct Hi| | | | |]; simpl;
    [apply add_oracle_step in H|apply remove_oracle_step in H|apply submit_price_step in H|apply force_aggregate_step in H|];
    [destruct H as (k & f & _ & ? & _ & ? & _); by exists k, f..|].
  unfold process_read_price in H. pinv. hyp (cx_accounts cx = _) as Hacc. rewrite Hacc. by eexists _, _.
Qed.

(** A new feed is stored in front of the rest of its account, which stays zero. *)
Lemma initialize_feed_effect {L : EnvLaws} symbol cls ms mn ad fe rest s s' aa af :
  cx_accounts cx = ad :: fe :: rest -> create_ready cx s (ia_key ad) (ia_key fe) aa af ->
  well_typed (InitializeFeed symbol cls ms mn) -> is_pubkey (ia_key ad) -> is_pubkey (cx_program_id cx) ->
  process_initialize_feed cx symbol cls ms mn s = Ok (tt, s') ->
  exists f, well_typed f /\ feed_inv f /\ pf_admin f = ia_key ad /\ ia_is_signer ad = true /\ feed_len f = 137 /\
    acc_owner (get_acc (mem s') (ia_key fe)) = cx_program_id cx /\
    acc_data (get_acc (mem s') (ia_key fe)) = borsh_ser f ++ replicate (Z.to_nat (FEED_SPACE - feed_len f)) Byte.x00.
Proof.
  intros Hacc R (Hsy & Hms & Hmn) Hadk Hp H. unfold process_initialize_feed in H. rewrite Hacc in H. pinv. bool_to_prop. subst.
  hyp (invoke_signed _ _ _ _ _ = Ok _) as Hc. hyp (find_program_address _ _ = _) as Hf.
  destruct (find_create _ _ _ _ Hf) as [Hbump _].
  eapply create_account_effect in Hc as [-> _]; [|exact R|apply minimum_balance_u64|by vm_compute|done].
  set (f := mkFeed _ _ _ _ _ _ _ _ _ _ _ _ _ _ _ _ _).
  assert (Wf : well_typed f).
  { assert (is_u32 0 /\ is_u64 0 /\ is_i64 0 /\ is_i128 0 /\ is_u8 PRICE_DECIMALS) as (? & ? & ? & ? & ?) by (by vm_compute).
    split; [simpl; split_and!; try done|repeat split; simpl; constructor || done].
    - destruct (Z.leb_spec ms 0); unfold DEFAULT_STALENESS, MAX_STALENESS_SECONDS; ilia.
    - destruct (Z.eqb_spec mn 0); unfold MIN_SUBMISSIONS; ilia. }
  exists f. split_and!; [done| |done|done|done| |].
  - subst f. split; cbn [pf_oracles pf_oracle_count pf_current_submissions pf_min_submissions pf_max_staleness]; [by split_and!; [constructor| |]|constructor|by intros ? ?%not_elem_of_nil| | |].
    + destruct (Z.eqb_spec mn 0); unfold MIN_SUBMISSIONS, zlen; simpl; ilia.
    + destruct (Z.leb_spec ms 0); unfold DEFAULT_STALENESS, MAX_STALENESS_SECONDS; lia.
    + split; simpl; [done|done|lia|done].
  - by rewrite stored_owner, created_to.
  - rewrite stored_data, created_to. cbn [acc_data]. unfold overwrite. rewrite drop_replicate. do 2 f_equal.
    pose proof (borsh_measured f Wf) as Hm. unfold zlen in Hm. lia.
Qed.
End Steps.
