(* ===== verification/OracleTheorems.v ===== *)
(** * OracleTheorems: the properties of the price oracle

    The theorems about [src/programs/oracle/src/lib.rs], and the evaluation of
    the program on concrete accounts in the Borsh wire format. *)

From Stdlib Require Import Strings.Byte.
From S2P Require Import Prelude Borsh Accounts System Invoke Execution Concrete Cpi Ledger Oracle OracleProofs.
Open Scope Z_scope.

(** ** The data on the wire *)

Definition codec_class : codec AssetClass := codec_enum [Crypto; Forex; Commodity; Equity].
Definition codec_submission : codec OracleSubmission :=
  codec_iso (fun '(o, (p, (c, (t, s)))) => mkSubmission o p c t s)
    (fun s => (os_oracle s, (os_price s, (os_confidence s, (os_timestamp s, os_slot_timestamp s)))))
    (codec_pair codec_pubkey (codec_pair (codec_int 16) (codec_pair (codec_uint 8) (codec_pair (codec_int 8) (codec_int 8))))).
Definition codec_round : codec PriceRound :=
  codec_iso (fun '(r, (p, (c, (n, t)))) => mkRound r p c n t)
    (fun r => (pr_round_id r, (pr_price r, (pr_confidence r, (pr_num_submissions r, pr_timestamp r)))))
    (codec_pair (codec_uint 8) (codec_pair (codec_int 16) (codec_pair (codec_uint 8) (codec_pair (codec_uint 4) (codec_int 8))))).

Definition codec_feed_head : codec (bool * (Pubkey * (list byte * (AssetClass * (Z * (Z * (Z * (Z * (Z * (Z * (Z * (bool * (Z * Z))))))))))))) :=
  codec_pair codec_bool (codec_pair codec_pubkey (codec_pair (codec_array 32) (codec_pair codec_class
    (codec_pair (codec_uint 1) (codec_pair (codec_int 8) (codec_pair (codec_uint 4) (codec_pair (codec_uint 8)
    (codec_pair (codec_int 16) (codec_pair (codec_uint 8) (codec_pair (codec_int 8) (codec_pair codec_bool
    (codec_pair (codec_uint 1) (codec_uint 4))))))))))))).

Definition codec_feed : codec PriceFeed :=
  codec_iso
    (fun '((i, (a, (s, (c, (d, (x, (m, (r, (p, (f, (t, (v, (b, n))))))))))))), (o, (u, h))) =>
       mkFeed i a s c d x m r p f t v b n o u h)
    (fun f => ((pf_is_initialized f, (pf_admin f, (pf_symbol f, (pf_asset_class f, (pf_decimals f, (pf_max_staleness f,
       (pf_min_submissions f, (pf_current_round f, (pf_latest_price f, (pf_latest_confidence f, (pf_latest_timestamp f,
       (pf_is_active f, (pf_bump f, pf_oracle_count f))))))))))))),
       (pf_oracles f, (pf_current_submissions f, pf_history f))))
    (codec_pair codec_feed_head (codec_pair (codec_vec codec_pubkey) (codec_pair (codec_vec codec_submission) (codec_vec codec_round)))).

Definition oracle_instruction_index (i : OracleInstruction) : nat :=
  match i with
  | InitializeFeed _ _ _ _ => 0 | AddOracle _ => 1 | RemoveOracle _ => 2 | SubmitPrice _ _ _ => 3
  | ForceAggregate => 4 | ReadPrice => 5
  end.

Definition codec_oracle_instruction : codec OracleInstruction :=
  codec_variants
    [mkVariant (codec_pair (codec_array 32) (codec_pair codec_class (codec_pair (codec_int 8) (codec_uint 4))))
       (fun '(s, (c, (x, m))) => InitializeFeed s c x m)
       (fun i => match i with InitializeFeed s c x m => Some (s, (c, (x, m))) | _ => None end);
     mkVariant codec_pubkey AddOracle (fun i => match i with AddOracle o => Some o | _ => None end);
     mkVariant codec_pubkey RemoveOracle (fun i => match i with RemoveOracle o => Some o | _ => None end);
     mkVariant (codec_pair (codec_int 16) (codec_pair (codec_uint 8) (codec_int 8)))
       (fun '(p, (c, t)) => SubmitPrice p c t)
       (fun i => match i with SubmitPrice p c t => Some (p, (c, t)) | _ => None end);
     mkVariant codec_unit (fun _ => ForceAggregate) (fun _ => Some tt);
     mkVariant codec_unit (fun _ => ReadPrice) (fun _ => Some tt)]
    oracle_instruction_index.

Lemma codec_class_laws : codec_laws codec_class.
Proof. apply codec_enum_laws; [repeat constructor; set_solver|simpl; lia]. Qed.
Lemma class_all (c : AssetClass) : c ∈ [Crypto; Forex; Commodity; Equity].
Proof. destruct c; set_solver. Qed.
#[local] Hint Resolve codec_class_laws : codec.
#[local] Hint Extern 1 (0 < _)%nat => lia : codec.

Lemma codec_submission_laws : codec_laws codec_submission.
Proof. apply codec_iso_laws; [by intros []|by intros (?&?&?&?&?)|]. auto 20 with codec. Qed.
Lemma codec_submission_size : c_size codec_submission 72.
Proof. codec_size. Qed.
Lemma codec_submission_wf s : submission_ok s <-> c_wf codec_submission s.
Proof. unfold submission_ok. codec_wf. Qed.
Lemma codec_round_laws : codec_laws codec_round.
Proof. apply codec_iso_laws; [by intros []|by intros (?&?&?&?&?)|]. auto 20 with codec. Qed.
Lemma codec_round_size : c_size codec_round 44.
Proof. codec_size. Qed.
Lemma codec_round_wf r : round_ok r <-> c_wf codec_round r.
Proof. unfold round_ok. codec_wf. Qed.
#[local] Hint Resolve codec_submission_laws codec_round_laws : codec.

Lemma codec_feed_laws : codec_laws codec_feed.
Proof.
  apply codec_iso_laws; [by intros []|by intros ((?&?&?&?&?&?&?&?&?&?&?&?&?&?)&?&?&?)|].
  apply codec_pair_laws; [unfold codec_feed_head; auto 20 with codec|auto with codec].
Qed.

Lemma codec_feed_wf f : well_typed f <-> c_wf codec_feed f.
Proof.
  unfold well_typed, PriceFeed_well_typed.
  rewrite (codec_vec_wf _ _ _ codec_pubkey_wf), (codec_vec_wf _ _ _ codec_submission_wf), (codec_vec_wf _ _ _ codec_round_wf).
  cbn [codec_feed codec_iso c_wf codec_pair fst snd]. f_equiv. pose proof (class_all (pf_asset_class f)).
  unfold zlen. codec_wf.
Qed.

Lemma codec_feed_length f : c_wf codec_feed f -> zlen (c_ser codec_feed f) = feed_len f.
Proof.
  intros (H0 & H1 & H2 & H3). cbn [codec_feed codec_iso c_ser codec_pair fst snd] in *.
  unfold zlen at 1. rewrite !length_app, !Nat2Z.inj_add.
  pose proof (codec_vec_length _ _ _ codec_pubkey_size H1) as V1. pose proof (codec_vec_length _ _ _ codec_submission_size H2) as V2.
  pose proof (codec_vec_length _ _ _ codec_round_size H3) as V3.
  assert (Hs : c_size codec_feed_head 125) by codec_size. apply Hs in H0. unfold feed_len, zlen in *. lia.
Qed.

Lemma codec_oracle_instruction_laws : codec_laws codec_oracle_instruction.
Proof.
  apply codec_variants_laws; [simpl; lia|repeat apply Forall_cons_2; simpl; auto 10 with codec| |].
  - intros [|[|[|[|[|[|]]]]]] v a [= <-]; simpl in a;
      repeat match goal with x : _ * _ |- _ => destruct x | x : unit |- _ => destruct x end; done.
  - intros [] v a [= <-]; simpl; by intros [= <-].
Qed.
Lemma codec_oracle_instruction_wf i : well_typed i <-> c_wf codec_oracle_instruction i.
Proof.
  destruct i; simpl; try done; unfold well_typed; simpl; unfold zlen; try codec_wf.
  pose proof (class_all asset_class). codec_wf.
Qed.

#[global] Instance feed_borsh : Borsh PriceFeed := borsh_of_codec codec_feed.
#[global] Instance feed_borsh_laws : BorshLaws PriceFeed := borsh_of_codec_laws _ codec_feed_laws codec_feed_wf.
#[global] Instance feed_borsh_measured : BorshMeasured PriceFeed feed_len.
Proof. intros f Hf. by apply codec_feed_length, codec_feed_wf. Qed.
#[global] Instance oracle_instruction_borsh : Borsh OracleInstruction := borsh_of_codec codec_oracle_instruction.
#[global] Instance oracle_instruction_borsh_laws : BorshLaws OracleInstruction :=
  borsh_of_codec_laws _ codec_oracle_instruction_laws codec_oracle_instruction_wf.

(** The feed of 300 with the oracles 401, 402 and 403, of which the first two
    have submitted; an unused feed address. *)
Module OracleDemo.
Definition PROGRAM : Pubkey := 100.
Definition symbol : list byte := replicate 32 Byte.x41.
Definition sub (o p : Z) : OracleSubmission := mkSubmission o p 5 90 95.
Definition feed : PriceFeed :=
  mkFeed true 300 symbol Crypto 8 30 3 0 0 0 0 true 255 3 [401; 402; 403] [sub 401 100; sub 402 9000] [].
Definition accounts : list (Pubkey * Account) :=
  [(500, mkAccount 1000000 (borsh_ser feed) PROGRAM false); (300, mkAccount 900000000 [] 0 false);
   (403, mkAccount 5000 [] 0 false); (0, mkAccount 1 [] 1 true)].
Definition ta : TransactionAccounts := mkTA (store accounts) 0 0.
Definition state : PState := mkPState (store accounts) ta.
Definition len (k : Pubkey) : Z := zlen (acc_data (get_acc (store accounts) k)).

(** [who] acts on the feed at time 100. *)
Definition feed_cx (who : Pubkey) : Ctx := demo_ctx PROGRAM [mkIA who true true; mkIA 500 false true] 100 len.
Definition submit_data : list byte := borsh_ser (SubmitPrice 102 5 95).

Definition new_key : Pubkey := derive [FEED_SEED; symbol; [byte_of_Z 255]] PROGRAM.
Definition create_list : list (Pubkey * Account) := accounts ++ [(new_key, empty_account)].
Definition create_ta : TransactionAccounts := mkTA (store create_list) 0 0.
Definition use_cx : Ctx := demo_ctx PROGRAM [mkIA 401 true true; mkIA new_key false true] 100 (fun _ => 0).
Definition create_cx : Ctx := demo_ctx PROGRAM
  [mkIA 300 true true; mkIA new_key false true; mkIA 0 false false] 100 (fun _ => 0).

Lemma oracle_runs :
  is_ok (process_instruction (feed_cx 403) submit_data state) &&
  is_ok (process_initialize_feed create_cx symbol Crypto 0 0 (mkPState (ta_accounts create_ta) create_ta)) = true.
Proof. vm_compute. reflexivity. Qed.

Lemma feed_ok : feed_inv feed.
Proof.
  split; [split_and!; [apply (bool_decide_unpack _); vm_compute; exact I|evaluate|evaluate]| | |evaluate|evaluate|].
  - apply (bool_decide_unpack _). vm_compute. exact I.
  - intros s Hs. simpl in Hs. rewrite !elem_of_cons, elem_of_nil in Hs. destruct Hs as [->|[->|[]]]; (split; [set_solver|evaluate]).
  - split; [evaluate|evaluate| |]; simpl; lia.
Qed.
End OracleDemo.

(** ** Properties *)

Section OracleProperties.
Context {E : Env} {BF : Borsh PriceFeed} {BI : Borsh OracleInstruction}.
Context {LF : BorshLaws PriceFeed} {LI : BorshLaws OracleInstruction} {MF : BorshMeasured PriceFeed feed_len}.







(** C22. Every instruction keeps the invariant of a feed: at most 16 different
    oracles, counted correctly; at most one submission of each of them in the
    open round, which has not enough to be aggregated; a history that is the
    ring of the last 32 rounds and ends with the latest price.  Only the admin
    changes the oracles, and only the admin or a registered oracle the rest. *)
Theorem oracle_feed_invariant cx data i s s' :
  try_from_slice data = Some i -> ~ initializes i -> process_instruction cx data s = Ok (tt, s') ->
  s' = s \/ exists k f f', holds (mem s) k f /\ s' = mkPState (stored f' k (mem s)) (rt s) /\
    (feed_inv f -> pf_current_round f < U64_MAX -> feed_inv f') /\
    (signed cx (pf_admin f) \/ pf_oracles f' = pf_oracles f /\ exists o, o ∈ pf_oracles f /\ signed cx o) /\
    pf_admin f' = pf_admin f.
Proof.
  intros Hde Hi H. eapply oracle_instruction_step in H as [->|(k & f & f' & _ & _ & Hf & _ & Hst & ->)]; [by left| |done..].
  right. exists k, f, f'. split_and!; [done|done|by intros; eapply fstep_inv| |].
  - destruct Hst as [| |f ? ? ? sub _ [Hs Ho _ _ _ _]|f ? ? ? sub f' _ [Hs Ho _ _ _ _] Hag|]; [by left..| | |by left];
      right; (split; [|by exists (os_oracle sub)]); [done|]. by apply aggregate_ok in Hag as (_ & m & _ & ->).
  - destruct Hst as [| | |f ? ? ? sub f' _ _ Hag|f f' _ Hag]; [done..| |]; by apply aggregate_ok in Hag as (_ & m & _ & ->).
Qed.

(** Finding: a feed can never be used.  [InitializeFeed] stores it in front of
    a larger account, the rest of which stays zero, while every other
    instruction decodes the whole account and wants all of it used: none of
    them ever succeeds on that account. *)
Theorem initialized_feed_unusable {L : EnvLaws} cx symbol cls ms mn ad fe rest s s' aa af :
  cx_accounts cx = ad :: fe :: rest -> create_ready cx s (ia_key ad) (ia_key fe) aa af ->
  well_typed (InitializeFeed symbol cls ms mn) -> is_pubkey (ia_key ad) -> is_pubkey (cx_program_id cx) ->
  process_initialize_feed cx symbol cls ms mn s = Ok (tt, s') ->
  forall cx' data i s1 s2, try_from_slice data = Some i -> ~ initializes i ->
    ia_key <$> cx_accounts cx' !! feed_index i = Some (ia_key fe) ->
    acc_data (get_acc (mem s1) (ia_key fe)) = acc_data (get_acc (mem s') (ia_key fe)) ->
    process_instruction cx' data s1 <> Ok (tt, s2).
Proof.
  intros Hacc R Wi Ha Hp H cx' data i s1 s2 Hde Hi Hk Hd Hrun.
  eapply initialize_feed_effect in H as (f & Wf & _ & _ & _ & Hlen & _ & Hdata); [|done..].
  eapply oracle_instruction_reads in Hrun as (k & g & Hk' & Hg); [|done..]. rewrite Hk in Hk'. injection Hk' as <-.
  unfold holds in Hg. rewrite Hd, Hdata, Hlen, try_from_slice_trailing in Hg; done.
Qed.

(** Finding: [ForceAggregate] never does anything.  A price is aggregated as
    soon as there are enough submissions, so that a feed in its invariant never
    has enough for it: it always fails, and with no effect. *)
Theorem force_aggregate_never_succeeds cx s s' k f :
  ia_key <$> cx_accounts cx !! 1%nat = Some k -> holds (mem s) k f -> feed_inv f ->
  process_force_aggregate cx s <> Ok (tt, s').
Proof.
  intros Hk Hf Hi H. unfold process_force_aggregate in H. pinv. hyp (cx_accounts cx = _) as Hacc. rewrite Hacc in Hk.
  injection Hk as <-. holds_eq.
  hyp (aggregate_prices _ _ = Ok _) as Ha. apply aggregate_ok in Ha as [Hc _]. pose proof (fi_open _ Hi). lia.
Qed.
End OracleProperties.

(** ** The hypotheses can hold *)


Lemma oracle_feed_invariant_witness : exists s',
  process_instruction (OracleDemo.feed_cx 403) OracleDemo.submit_data OracleDemo.state = Ok (tt, s') /\
  (s' = OracleDemo.state \/ exists k f f', holds (mem OracleDemo.state) k f /\
     s' = mkPState (stored f' k (mem OracleDemo.state)) (rt OracleDemo.state) /\ pf_admin f' = pf_admin f).
Proof.
  destruct (process_instruction (OracleDemo.feed_cx 403) OracleDemo.submit_data OracleDemo.state) as [[[] s']|e] eqn:Hrun;
    [|pose proof OracleDemo.oracle_runs as Hk; rewrite Hrun in Hk; discriminate Hk].
  exists s'. split; [exact eq_refl|].
  destruct (oracle_feed_invariant (OracleDemo.feed_cx 403) OracleDemo.submit_data (SubmitPrice 102 5 95) OracleDemo.state s')
    as [H|(k & f & f' & Hf & Hs & _ & _ & Ha)]; [evaluate|intros []|exact Hrun|left; exact H|].
  right. exists k, f, f'. exact (conj Hf (conj Hs Ha)).
Defined.

Lemma force_aggregate_never_succeeds_witness : forall s', process_force_aggregate (OracleDemo.feed_cx 300) OracleDemo.state <> Ok (tt, s').
Proof.
  intros s'. apply (force_aggregate_never_succeeds _ _ _ 500 OracleDemo.feed); [evaluate|evaluate|apply OracleDemo.feed_ok].
Defined.

(** A submission to a feed that was just created. *)
Lemma initialized_feed_unusable_witness :
  exists s', process_initialize_feed OracleDemo.create_cx OracleDemo.symbol Crypto 0 0
      (mkPState (ta_accounts OracleDemo.create_ta) OracleDemo.create_ta) = Ok (tt, s') /\
    forall s2, process_instruction OracleDemo.use_cx OracleDemo.submit_data s' <> Ok (tt, s2).
Proof.
  destruct (process_initialize_feed OracleDemo.create_cx OracleDemo.symbol Crypto 0 0
    (mkPState (ta_accounts OracleDemo.create_ta) OracleDemo.create_ta)) as [[[] s']|e] eqn:Hrun;
    [|pose proof OracleDemo.oracle_runs as Hk; rewrite Hrun, ?andb_false_r in Hk; discriminate Hk].
  exists s'. split; [exact eq_refl|]. intros s2.
  eapply (initialized_feed_unusable OracleDemo.create_cx OracleDemo.symbol Crypto 0 0 (mkIA 300 true true)
    (mkIA OracleDemo.new_key false true) [mkIA 0 false false] (mkPState (ta_accounts OracleDemo.create_ta) OracleDemo.create_ta)
    s' (mkAccount 900000000 [] 0 false) empty_account) with (i := SubmitPrice 102 5 95).
  - exact eq_refl.
  - split; evaluate.
  - cbv beta iota delta [well_typed OracleInstruction_well_typed]. repeat apply conj; evaluate.
  - evaluate.
  - evaluate.
  - exact Hrun.
  - evaluate.
  - intros [].
  - exact eq_refl.
  - exact eq_refl.
Defined.
