(* ===== verification/Multisig.v ===== *)
(** * Multisig: M-of-N approval of instructions

    Models [src/programs/multisig/src/lib.rs]: the multisig account with its
    signers and threshold, the proposed transactions with their approvals and
    rejections, and the nine instructions. *)

From Stdlib Require Import Strings.Byte Strings.String.
From S2P Require Import Prelude Borsh Accounts System Invoke Execution Cpi Records.
Open Scope Z_scope.

(** ** Constants and data *)

Definition MULTISIG_SEED : list byte := list_byte_of_string "multisig".
Definition TRANSACTION_SEED : list byte := list_byte_of_string "ms_transaction".
Definition MAX_SIGNERS : Z := 11.
Definition MIN_SIGNERS : Z := 2.
Definition MAX_INSTRUCTION_DATA_LEN : Z := 1024.
Definition MAX_INSTRUCTION_ACCOUNTS : Z := 16.
Definition MAX_TIME_LOCK_SECS : Z := 30 * 24 * 60 * 60.

Inductive MultisigError :=
| NotEnoughSigners | TooManySigners | ThresholdTooHigh | ThresholdTooLow | NotASigner | AlreadyApproved
| AlreadyRejected | ThresholdNotMet | AlreadyExecuted | AlreadyCancelled | TimeLockNotElapsed | TimeLockTooLong
| SignerAlreadyExists | CannotRemoveBelowThreshold | InvalidAuthority | AlreadyInitialized | TransactionNotPending
| InstructionDataTooLarge | TooManyInstructionAccounts | Overflow | BadAccountData | TransactionRejected.

(** [BadAccountData] is [MultisigError::InvalidAccountData]. *)
Definition into (e : MultisigError) : InstructionError :=
  Custom match e with
  | NotEnoughSigners => 0 | TooManySigners => 1 | ThresholdTooHigh => 2 | ThresholdTooLow => 3 | NotASigner => 4
  | AlreadyApproved => 5 | AlreadyRejected => 6 | ThresholdNotMet => 7 | AlreadyExecuted => 8 | AlreadyCancelled => 9
  | TimeLockNotElapsed => 10 | TimeLockTooLong => 11 | SignerAlreadyExists => 12 | CannotRemoveBelowThreshold => 13
  | InvalidAuthority => 14 | AlreadyInitialized => 15 | TransactionNotPending => 16 | InstructionDataTooLarge => 17
  | TooManyInstructionAccounts => 18 | Overflow => 19 | BadAccountData => 20 | TransactionRejected => 21
  end.

Inductive TransactionStatus := Pending | Approved | Executed | Rejected | Cancelled.
#[global] Instance TransactionStatus_eq_dec : EqDecision TransactionStatus.
Proof. solve_decision. Defined.

Record MultisigAccountMeta := mkMeta { am_pubkey : Pubkey; am_is_signer : bool; am_is_writable : bool }.

Record MultisigInstructionData := mkInstructionData {
  mi_program_id : Pubkey;
  mi_accounts : list MultisigAccountMeta;
  mi_data : list byte;
}.

Record Multisig := mkMultisig {
  ms_is_initialized : bool;
  ms_threshold : Z;
  ms_signers : list Pubkey;
  ms_transaction_count : Z;
  ms_time_lock_seconds : Z;
  ms_label : list byte;
  ms_bump : Z;
}.

Record MultisigTransaction := mkTransaction {
  mt_is_initialized : bool;
  mt_multisig : Pubkey;
  mt_tx_id : Z;
  mt_proposer : Pubkey;
  mt_instruction : MultisigInstructionData;
  mt_status : TransactionStatus;
  mt_approvals : list Pubkey;
  mt_rejections : list Pubkey;
  mt_approved_at : Z;
  mt_created_at : Z;
  mt_executed_at : Z;
  mt_bump : Z;
}.

Inductive MultisigInstruction :=
| CreateMultisig (threshold : Z) (signers : list Pubkey) (time_lock_seconds : Z) (label : list byte)
| ProposeTransaction (instruction : MultisigInstructionData)
| ApproveTransaction
| RejectTransaction
| ExecuteTransaction
| CancelTransaction
| AddSigner (new_signer : Pubkey)
| RemoveSigner (signer_to_remove : Pubkey)
| ChangeThreshold (new_threshold : Z).

Definition instruction_data_ok (i : MultisigInstructionData) : Prop :=
  is_pubkey (mi_program_id i) /\
  (Forall (fun m => is_pubkey (am_pubkey m)) (mi_accounts i) /\ is_u32 (zlen (mi_accounts i))) /\
  is_u32 (zlen (mi_data i)).
#[global] Instance Multisig_well_typed : WellTyped Multisig := fun m =>
  (Forall is_pubkey (ms_signers m) /\ is_u32 (zlen (ms_signers m))) /\ is_u8 (ms_threshold m) /\
  is_u64 (ms_transaction_count m) /\ is_i64 (ms_time_lock_seconds m) /\ zlen (ms_label m) = 32 /\ is_u8 (ms_bump m).
#[global] Instance MultisigTransaction_well_typed : WellTyped MultisigTransaction := fun t =>
  instruction_data_ok (mt_instruction t) /\
  (Forall is_pubkey (mt_approvals t) /\ is_u32 (zlen (mt_approvals t))) /\
  (Forall is_pubkey (mt_rejections t) /\ is_u32 (zlen (mt_rejections t))) /\
  is_pubkey (mt_multisig t) /\ is_u64 (mt_tx_id t) /\ is_pubkey (mt_proposer t) /\ is_i64 (mt_approved_at t) /\
  is_i64 (mt_created_at t) /\ is_i64 (mt_executed_at t) /\ is_u8 (mt_bump t).
#[global] Instance MultisigInstruction_well_typed : WellTyped MultisigInstruction := fun i =>
  match i with
  | CreateMultisig threshold signers time_lock_seconds label =>
      (Forall is_pubkey signers /\ is_u32 (zlen signers)) /\ is_u8 threshold /\ is_i64 time_lock_seconds /\ zlen label = 32
  | ProposeTransaction instruction => instruction_data_ok instruction
  | AddSigner k | RemoveSigner k => is_pubkey k
  | ChangeThreshold new_threshold => is_u8 new_threshold
  | _ => True
  end.

(** The lengths of the encodings. *)
Definition multisig_len (m : Multisig) : Z := 55 + 32 * zlen (ms_signers m).
Definition transaction_len (t : MultisigTransaction) : Z :=
  147 + 34 * zlen (mi_accounts (mt_instruction t)) + zlen (mi_data (mt_instruction t)) +
  32 * zlen (mt_approvals t) + 32 * zlen (mt_rejections t).

(** Field updates. *)
Definition with_signers (threshold : Z) (signers : list Pubkey) (count : Z) (m : Multisig) : Multisig :=
  mkMultisig (ms_is_initialized m) threshold signers count (ms_time_lock_seconds m) (ms_label m) (ms_bump m).
Definition with_votes (status : TransactionStatus) (approvals rejections : list Pubkey) (approved_at executed_at : Z)
    (t : MultisigTransaction) : MultisigTransaction :=
  mkTransaction (mt_is_initialized t) (mt_multisig t) (mt_tx_id t) (mt_proposer t) (mt_instruction t) status approvals
    rejections approved_at (mt_created_at t) executed_at (mt_bump t).

(** ** Helpers *)

Definition is_signer_of (multisig : Multisig) (key : Pubkey) : bool := contains (ms_signers multisig) key.

(** The instruction a transaction executes. *)
Definition target_instruction (i : MultisigInstructionData) : Instruction :=
  mkInstruction (mi_program_id i) ((fun m => mkIA (am_pubkey m) (am_is_signer m) (am_is_writable m)) <$> mi_accounts i)
    (mi_data i).

(** ** Instructions *)

Section Multisig.
Context {E : Env} {BM : Borsh Multisig} {BT : Borsh MultisigTransaction} {BI : Borsh MultisigInstruction}.
Variable cx : Ctx.

Definition process_create_multisig (threshold : Z) (signers : list Pubkey) (time_lock_seconds : Z) (label : list byte)
    : M unit :=
  (let! '(multisig_info, it) := next_account_info (cx_accounts cx) in
   let! '(payer_info, it) := next_account_info it in
   let! '(_system_program, it) := next_account_info it in
   let! '(_rent_sysvar, it) := next_account_info it in
   fail_if (negb (ia_is_signer payer_info)) MissingRequiredSignature ;;
   fail_if (zlen signers <? MIN_SIGNERS) (into NotEnoughSigners) ;;
   fail_if (MAX_SIGNERS <? zlen signers) (into TooManySigners) ;;
   fail_if (threshold <? 1) (into ThresholdTooLow) ;;
   fail_if (zlen signers <? threshold) (into ThresholdTooHigh) ;;
   fail_if (MAX_TIME_LOCK_SECS <? time_lock_seconds) (into TimeLockTooLong) ;;
   fail_if (has_duplicates signers) (into SignerAlreadyExists) ;;
   let '(expected_pda, bump) := find_program_address [MULTISIG_SEED; label] (cx_program_id cx) in
   fail_if (negb (ia_key multisig_info =? expected_pda)) InvalidSeeds ;;
   let! ma := account multisig_info in
   fail_if (occupied ms_is_initialized (acc_data ma)) (into AlreadyInitialized) ;;
   copy_into (mkMultisig true threshold signers 0 time_lock_seconds label bump) multisig_info)%prog.

Definition process_propose_transaction (instruction : MultisigInstructionData) : M unit :=
  (let! '(multisig_info, it) := next_account_info (cx_accounts cx) in
   let! '(transaction_info, it) := next_account_info it in
   let! '(proposer_info, it) := next_account_info it in
   let! '(clock_sysvar, it) := next_account_info it in
   let! '(_system_program, it) := next_account_info it in
   let! '(_rent_sysvar, it) := next_account_info it in
   fail_if (negb (ia_is_signer proposer_info)) MissingRequiredSignature ;;
   fail_if (MAX_INSTRUCTION_DATA_LEN <? zlen (mi_data instruction)) (into InstructionDataTooLarge) ;;
   fail_if (MAX_INSTRUCTION_ACCOUNTS <? zlen (mi_accounts instruction)) (into TooManyInstructionAccounts) ;;
   let! multisig := load Multisig multisig_info (into BadAccountData) in
   fail_if (negb (is_signer_of multisig (ia_key proposer_info))) (into NotASigner) ;;
   let tx_id := ms_transaction_count multisig in
   let! count := lift (ok_or (u64_checked_add (ms_transaction_count multisig) 1) (into Overflow)) in
   let! clock := clock_from_account_info cx clock_sysvar in
   let '(expected_pda, bump) :=
     find_program_address [TRANSACTION_SEED; key_bytes (ia_key multisig_info); le_bytes 8 tx_id] (cx_program_id cx) in
   fail_if (negb (ia_key transaction_info =? expected_pda)) InvalidSeeds ;;
   copy_into (with_signers (ms_threshold multisig) (ms_signers multisig) count multisig) multisig_info ;;
   copy_into (mkTransaction true (ia_key multisig_info) tx_id (ia_key proposer_info) instruction Pending
     [ia_key proposer_info] [] 0 (unix_timestamp clock) 0 bump) transaction_info)%prog.

Definition process_approve_transaction : M unit :=
  (let! '(multisig_info, it) := next_account_info (cx_accounts cx) in
   let! '(transaction_info, it) := next_account_info it in
   let! '(approver_info, it) := next_account_info it in
   let! '(clock_sysvar, it) := next_account_info it in
   fail_if (negb (ia_is_signer approver_info)) MissingRequiredSignature ;;
   let! multisig := load Multisig multisig_info (into BadAccountData) in
   fail_if (negb (is_signer_of multisig (ia_key approver_info))) (into NotASigner) ;;
   let! transaction := load MultisigTransaction transaction_info (into BadAccountData) in
   fail_if (negb (bool_decide (mt_status transaction = Pending))) (into TransactionNotPending) ;;
   fail_if (contains (mt_approvals transaction) (ia_key approver_info)) (into AlreadyApproved) ;;
   fail_if (contains (mt_rejections transaction) (ia_key approver_info)) (into AlreadyRejected) ;;
   let approvals := mt_approvals transaction ++ [ia_key approver_info] in
   let! transaction :=
     if ms_threshold multisig <=? zlen approvals then
       let! clock := clock_from_account_info cx clock_sysvar in
       pret (with_votes Approved approvals (mt_rejections transaction) (unix_timestamp clock) (mt_executed_at transaction)
               transaction)
     else pret (with_votes (mt_status transaction) approvals (mt_rejections transaction) (mt_approved_at transaction)
                  (mt_executed_at transaction) transaction) in
   copy_into transaction transaction_info)%prog.

Definition process_reject_transaction : M unit :=
  (let! '(multisig_info, it) := next_account_info (cx_accounts cx) in
   let! '(transaction_info, it) := next_account_info it in
   let! '(rejector_info, it) := next_account_info it in
   let! '(_clock_sysvar, it) := next_account_info it in
   fail_if (negb (ia_is_signer rejector_info)) MissingRequiredSignature ;;
   let! multisig := load Multisig multisig_info (into BadAccountData) in
   fail_if (negb (is_signer_of multisig (ia_key rejector_info))) (into NotASigner) ;;
   let! transaction := load MultisigTransaction transaction_info (into BadAccountData) in
   fail_if (negb (bool_decide (mt_status transaction = Pending))) (into TransactionNotPending) ;;
   fail_if (contains (mt_rejections transaction) (ia_key rejector_info)) (into AlreadyRejected) ;;
   fail_if (contains (mt_approvals transaction) (ia_key rejector_info)) (into AlreadyApproved) ;;
   let rejections := mt_rejections transaction ++ [ia_key rejector_info] in
   let max_possible_approvals := u64_wrapping_sub (zlen (ms_signers multisig)) (zlen rejections) in
   let status := if max_possible_approvals <? ms_threshold multisig then Rejected else mt_status transaction in
   copy_into (with_votes status (mt_approvals transaction) rejections (mt_approved_at transaction)
     (mt_executed_at transaction) transaction) transaction_info)%prog.

Definition process_execute_transaction : M unit :=
  (let! '(multisig_info, it) := next_account_info (cx_accounts cx) in
   let! '(transaction_info, it) := next_account_info it in
   let! '(executor_info, it) := next_account_info it in
   let! '(clock_sysvar, it) := next_account_info it in
   fail_if (negb (ia_is_signer executor_info)) MissingRequiredSignature ;;
   let! multisig := load Multisig multisig_info (into BadAccountData) in
   fail_if (negb (is_signer_of multisig (ia_key executor_info))) (into NotASigner) ;;
   let! transaction := load MultisigTransaction transaction_info (into BadAccountData) in
   match mt_status transaction with
   | Approved => pret tt
   | Executed => fail (into AlreadyExecuted)
   | Rejected => fail (into TransactionRejected)
   | Cancelled => fail (into AlreadyCancelled)
   | Pending => fail (into ThresholdNotMet)
   end ;;
   let! clock := clock_from_account_info cx clock_sysvar in
   let now := unix_timestamp clock in
   (if 0 <? ms_time_lock_seconds multisig then
      let! unlock_time :=
        lift (ok_or (i64_checked_add (mt_approved_at transaction) (ms_time_lock_seconds multisig)) (into Overflow)) in
      fail_if (now <? unlock_time) (into TimeLockNotElapsed)
    else pret tt) ;;
   let remaining_accounts := it in
   invoke_signed cx (target_instruction (mt_instruction transaction)) remaining_accounts
     [[MULTISIG_SEED; ms_label multisig; [byte_of_Z (ms_bump multisig)]]] ;;
   copy_into (with_votes Executed (mt_approvals transaction) (mt_rejections transaction) (mt_approved_at transaction) now
     transaction) transaction_info)%prog.

Definition process_cancel_transaction : M unit :=
  (let! '(transaction_info, it) := next_account_info (cx_accounts cx) in
   let! '(proposer_info, it) := next_account_info it in
   fail_if (negb (ia_is_signer proposer_info)) MissingRequiredSignature ;;
   let! transaction := load MultisigTransaction transaction_info (into BadAccountData) in
   fail_if (negb (mt_proposer transaction =? ia_key proposer_info)) (into InvalidAuthority) ;;
   fail_if (negb (bool_decide (mt_status transaction = Pending))) (into TransactionNotPending) ;;
   copy_into (with_votes Cancelled (mt_approvals transaction) (mt_rejections transaction) (mt_approved_at transaction)
     (mt_executed_at transaction) transaction) transaction_info)%prog.

Definition process_add_signer (new_signer : Pubkey) : M unit :=
  (let! '(multisig_info, it) := next_account_info (cx_accounts cx) in
   let! '(authority_info, it) := next_account_info it in
   fail_if (negb (ia_is_signer authority_info) || negb (ia_key authority_info =? ia_key multisig_info))
     (into InvalidAuthority) ;;
   let! multisig := load Multisig multisig_info (into BadAccountData) in
   fail_if (contains (ms_signers multisig) new_signer) (into SignerAlreadyExists) ;;
   fail_if (MAX_SIGNERS <=? zlen (ms_signers multisig)) (into TooManySigners) ;;
   copy_into (with_signers (ms_threshold multisig) (ms_signers multisig ++ [new_signer]) (ms_transaction_count multisig)
     multisig) multisig_info)%prog.

Definition process_remove_signer (signer_to_remove : Pubkey) : M unit :=
  (let! '(multisig_info, it) := next_account_info (cx_accounts cx) in
   let! '(authority_info, it) := next_account_info it in
   fail_if (negb (ia_is_signer authority_info) || negb (ia_key authority_info =? ia_key multisig_info))
     (into InvalidAuthority) ;;
   let! multisig := load Multisig multisig_info (into BadAccountData) in
   let! pos := lift (ok_or (position (fun s => s =? signer_to_remove) (ms_signers multisig)) (into NotASigner)) in
   fail_if (zlen (ms_signers multisig) - 1 <? ms_threshold multisig) (into CannotRemoveBelowThreshold) ;;
   fail_if (zlen (ms_signers multisig) - 1 <? MIN_SIGNERS) (into NotEnoughSigners) ;;
   copy_into (with_signers (ms_threshold multisig) (delete pos (ms_signers multisig)) (ms_transaction_count multisig)
     multisig) multisig_info)%prog.

Definition process_change_threshold (new_threshold : Z) : M unit :=
  (let! '(multisig_info, it) := next_account_info (cx_accounts cx) in
   let! '(authority_info, it) := next_account_info it in
   fail_if (negb (ia_is_signer authority_info) || negb (ia_key authority_info =? ia_key multisig_info))
     (into InvalidAuthority) ;;
   let! multisig := load Multisig multisig_info (into BadAccountData) in
   fail_if (new_threshold <? 1) (into ThresholdTooLow) ;;
   fail_if (zlen (ms_signers multisig) <? new_threshold) (into ThresholdTooHigh) ;;
   copy_into (with_signers new_threshold (ms_signers multisig) (ms_transaction_count multisig) multisig)
     multisig_info)%prog.

Definition process_instruction (instruction_data : list byte) : M unit :=
  (let! instruction := lift (ok_or (try_from_slice instruction_data) InvalidInstructionData) in
   match instruction with
   | CreateMultisig threshold signers time_lock_seconds label =>
       process_create_multisig threshold signers time_lock_seconds label
   | ProposeTransaction instruction => process_propose_transaction instruction
   | ApproveTransaction => process_approve_transaction
   | RejectTransaction => process_reject_transaction
   | ExecuteTransaction => process_execute_transaction
   | CancelTransaction => process_cancel_transaction
   | AddSigner new_signer => process_add_signer new_signer
   | RemoveSigner signer_to_remove => process_remove_signer signer_to_remove
   | ChangeThreshold new_threshold => process_change_threshold new_threshold
   end)%prog.
End Multisig.
