(* ===== verification/MultisigProofs.v ===== *)
(** * MultisigProofs: correctness of the multisig program *)

From Stdlib Require Import Strings.Byte.
From S2P Require Import Prelude Borsh Accounts System Invoke Execution Cpi Ledger Records History Multisig.
Open Scope Z_scope.

(** ** The multisig account *)

(** A well-formed M-of-N multisig. *)
Record multisig_ok (m : Multisig) : Prop := {
  mo_distinct : NoDup (ms_signers m);
  mo_signers : MIN_SIGNERS <= zlen (ms_signers m) <= MAX_SIGNERS;
  mo_threshold : 1 <= ms_threshold m <= zlen (ms_signers m);
  mo_lock : ms_time_lock_seconds m <= MAX_TIME_LOCK_SECS;
}.

Section Multisig.
Context {E : Env} {BM : Borsh Multisig} {BT : Borsh MultisigTransaction} {BI : Borsh MultisigInstruction}.
Context {LM : BorshLaws Multisig} {LT : BorshLaws MultisigTransaction} {LI : BorshLaws MultisigInstruction}.
Context {MM : BorshMeasured Multisig multisig_len} {MT : BorshMeasured MultisigTransaction transaction_len}.
Context (cx : Ctx).
Abbreviation now := (unix_timestamp (cx_clock cx)).

Lemma multisig_len_pos m : well_typed m -> 0 < multisig_len m.
Proof. intros _. unfold multisig_len, zlen. lia. Qed.

(** The instructions that change who decides. *)
Definition governs (i : MultisigInstruction) : Prop :=
  match i with AddSigner _ | RemoveSigner _ | ChangeThreshold _ => True | _ => False end.

Definition changes_rules (i : MultisigInstruction) : Prop :=
  governs i \/ exists threshold signers lock label, i = CreateMultisig threshold signers lock label.

Lemma governs_effect data i s s' :
  try_from_slice data = Some i -> governs i -> process_instruction cx data s = Ok (tt, s') ->
  exists k (m m' : Multisig), ia_key <$> cx_accounts cx !! 0%nat = Some k /\ signed cx k /\ holds (mem s) k m /\
    s' = mkPState (stored m' k (mem s)) (rt s) /\ (multisig_ok m -> multisig_ok m') /\
    ms_transaction_count m' = ms_transaction_count m /\ ms_time_lock_seconds m' = ms_time_lock_seconds m.
Proof.
  intros Hde Hg H. unfold process_instruction in H. rewrite Hde in H. cbn [ok_or lift pbind] in H.
  destruct i; try done; unfold process_add_signer, process_remove_signer, process_change_threshold in H; pinv; bool_to_prop;
    hyp (cx_accounts cx = _) as Hacc; read Multisig as m Hm; hyp (ia_key _ = ia_key _) as Hk;
    eexists _, m, _; rewrite Hacc; (split_and!; [done|rewrite <- Hk; by_signer|exact Hm|reflexivity| |done|done]);
    intros [Hn Hs Ht Hl]; split; simpl; try done.
  - apply NoDup_app. split_and!; [done| |apply NoDup_singleton]. intros x Hx ->%list_elem_of_singleton.
    apply contains_elem in Hx. congruence.
  - rewrite zlen_snoc. unfold MIN_SIGNERS, MAX_SIGNERS in *. lia.
  - rewrite zlen_snoc. lia.
  - eapply sublist_NoDup; [exact Hn|]. apply sublist_delete.
  - hyp (position _ _ = Some _) as Hp. apply position_key in Hp. rewrite zlen_delete by (by eexists).
    unfold MAX_SIGNERS in *. lia.
  - hyp (position _ _ = Some _) as Hp. apply position_key in Hp. rewrite zlen_delete by (by eexists). lia.
Qed.

(** A new multisig is well formed. *)
Lemma create_multisig_effect threshold signers lock label s s' :
  process_create_multisig cx threshold signers lock label s = Ok (tt, s') ->
  exists k m, ia_key <$> cx_accounts cx !! 0%nat = Some k /\ multisig_ok m /\
    (find_program_address [MULTISIG_SEED; label] (cx_program_id cx)).1 = k /\
    (forall old : Multisig, holds (mem s) k old -> ms_is_initialized old = false) /\
    m = mkMultisig true threshold signers 0 lock label (find_program_address [MULTISIG_SEED; label] (cx_program_id cx)).2 /\
    s' = mkPState (stored m k (mem s)) (rt s).
Proof.
  intros H. unfold process_create_multisig in H. pinv. bool_to_prop. hyp (cx_accounts cx = _) as Hacc.
  hyp (has_duplicates _ = false) as Had. apply has_duplicates_nodup in Had.
  match goal with |- context [stored ?m ?k _] => exists k, m end. rewrite Hacc.
  split_and!; [done|split; try done; simpl; lia|done| |done|done].
  intros old Hold. hyp (occupied _ _ = false) as Ho. eapply (occupied_false _ _ _ _ multisig_len_pos) in Ho; done.
Qed.

(** ** Execution *)

(** When a transaction may be executed: enough approvals, and the time lock has
    elapsed since. *)
Definition executable (m : Multisig) (t : MultisigTransaction) : Prop :=
  mt_status t = Approved /\
  (0 < ms_time_lock_seconds m -> is_i64 (mt_approved_at t + ms_time_lock_seconds m) /\
     mt_approved_at t + ms_time_lock_seconds m <= now).

Definition executed (t : MultisigTransaction) : MultisigTransaction :=
  with_votes Executed (mt_approvals t) (mt_rejections t) (mt_approved_at t) now t.

Lemma execute_transaction_iff s s' :
  process_execute_transaction cx s = Ok (tt, s') <->
  exists ms tx ex ck rest m t s1, cx_accounts cx = ms :: tx :: ex :: ck :: rest /\ ia_is_signer ex = true /\
    ia_key ck = clock_id /\ holds (mem s) (ia_key ms) m /\ holds (mem s) (ia_key tx) t /\
    ia_key ex ∈ ms_signers m /\ executable m t /\
    invoke_signed cx (target_instruction (mt_instruction t)) rest
      [[MULTISIG_SEED; ms_label m; [byte_of_Z (ms_bump m)]]] s = Ok (tt, s1) /\
    zlen (borsh_ser (executed t)) <= zlen (acc_data (get_acc (mem s1) (ia_key tx))) /\
    s' = mkPState (stored (executed t) (ia_key tx) (mem s1)) (rt s1).
Proof.
  unfold process_execute_transaction, executable. split.
  - intros H. pinv; hyp (clock_from_account_info _ _ _ = Ok _) as Hc; apply clock_account_ok in Hc as (Hck & -> & ->);
      bool_to_prop; hyp (is_signer_of _ _ = true) as Hs; apply contains_elem in Hs;
      (eexists _, _, _, _, _, _, _, _; split_and!; try eassumption; try done; try (intros; lia)).
  - intros (ms & tx & ex & ck & rest & m & t & s1 & -> & Hsig & Hck & Hm & Ht & Hin & [Hst Hlock] & Hinv & Hlen & ->).
    apply contains_elem in Hin. prun; [by rewrite Hsig|unfold is_signer_of; by rewrite Hin|].
    rewrite Hst. prun. apply pbind_ok. eexists _, _. split; [by apply clock_account_ok|].
    apply pbind_ok. exists tt, s. split.
    + destruct (Z.ltb_spec 0 (ms_time_lock_seconds m)) as [Hl|Hl]; [|done].
      destruct (Hlock Hl). prun; unfold i64_checked_add; pcheck.
    + apply pbind_ok. eexists _, _. split; [exact Hinv|]. by apply copy_into_ok.
Qed.

(** ** Votes *)

(** The instructions that append a key to the stored data. *)
Definition appends (i : MultisigInstruction) : Prop :=
  match i with ApproveTransaction | RejectTransaction | AddSigner _ => True | _ => False end.

(** An appended vote does not fit. *)
Lemma vote_too_long s k (t : MultisigTransaction) status approvals rejections at1 :
  typed_inputs cx s -> holds (mem s) k t -> at1 = mt_approved_at t \/ at1 = now ->
  (exists v, is_pubkey v /\ (approvals = mt_approvals t ++ [v] /\ rejections = mt_rejections t \/
                            approvals = mt_approvals t /\ rejections = mt_rejections t ++ [v])) ->
  ~ zlen (borsh_ser (with_votes status approvals rejections at1 (mt_executed_at t) t)) <= zlen (acc_data (get_acc (mem s) k)).
Proof.
  intros [_ Hnow Hd] Ht Hat (v & Hv & Hvote) Hle. specialize (Hd k). apply try_from_slice_some in Ht as Ht'. destruct Ht' as [Wt Hdata].
  rewrite Hdata, (borsh_measured t Wt) in Hd. destruct Wt as (Wi & [Wa Wan] & [Wr Wrn] & W).
  pose proof (Nat2Z.is_nonneg (length (mi_data (mt_instruction t)))). unfold transaction_len in Hd.
  assert (32 * zlen (mt_approvals t) <= MAX_ACCOUNT_DATA_LEN /\ 32 * zlen (mt_rejections t) <= MAX_ACCOUNT_DATA_LEN) as [Ha Hr]
    by (unfold zlen in *; lia).
  eapply holds_fits in Hle; [|exact Ht|].
  - unfold transaction_len in Hle. simpl in Hle. destruct Hvote as [[-> ->]|[-> ->]]; rewrite zlen_snoc in Hle; lia.
  - destruct W as (? & ? & ? & ? & ? & ? & ?). refine (conj Wi (conj _ (conj _ _))); simpl; [..|split_and!; try done; by destruct Hat as [->| ->]];
      destruct Hvote as [[-> ->]|[-> ->]]; (by split) || by apply appended_ok.
Qed.

Lemma appends_fail data i s s' :
  typed_inputs cx s -> try_from_slice data = Some i -> appends i -> process_instruction cx data s <> Ok (tt, s').
Proof.
  intros Hty Hde Hap H. unfold process_instruction in H. rewrite Hde in H. cbn [ok_or lift pbind] in H.
  destruct i; try done; unfold process_approve_transaction, process_reject_transaction, process_add_signer in H; pinv;
    hyp (cx_accounts cx = _) as Hacc; pose proof (ti_keys _ _ Hty) as Hk; rewrite Hacc in Hk; rewrite !Forall_cons in Hk;
    hyp (_ <= zlen (acc_data _)) as Hle.
  - hyp (clock_from_account_info _ _ _ = Ok _) as Hc. apply clock_account_ok in Hc as (_ & -> & ->).
    eapply vote_too_long in Hle; [done..|by right|]. exists (ia_key i1). by split; [apply Hk|left].
  - eapply vote_too_long in Hle; [done..|by left|]. exists (ia_key i1). by split; [apply Hk|left].
  - eapply vote_too_long in Hle; [done..|by left|]. exists (ia_key i1). by split; [apply Hk|right].
  - read Multisig as m Hm. apply try_from_slice_some in Hde as [Wk _]. apply try_from_slice_some in Hm as Hm'.
    destruct Hm' as [((Ws & Wn) & W) Hdata]. pose proof (ti_data _ _ Hty (ia_key i)) as Hd.
    rewrite Hdata, borsh_measured in Hd by done. unfold multisig_len in Hd. eapply holds_fits in Hle; [|exact Hm|].
    + unfold multisig_len in Hle. simpl in Hle. rewrite zlen_snoc in Hle. lia.
    + split; [|done]. apply appended_ok; [done|done|lia].
Qed.
End Multisig.

(** ** A transaction account over time *)

Section Votes.
Context {E : Env} {BM : Borsh Multisig} {BT : Borsh MultisigTransaction} {BI : Borsh MultisigInstruction}.
Context {LM : BorshLaws Multisig} {LT : BorshLaws MultisigTransaction} {LI : BorshLaws MultisigInstruction}.
Context {MM : BorshMeasured Multisig multisig_len} {MT : BorshMeasured MultisigTransaction transaction_len}.
Context (k : Pubkey).

(** The instructions on the transaction in the account [k]. *)
Definition on_transaction (cx : Ctx) (i : MultisigInstruction) : Prop :=
  match i with
  | ApproveTransaction | RejectTransaction | ExecuteTransaction => ia_key <$> cx_accounts cx !! 1%nat = Some k
  | CancelTransaction => ia_key <$> cx_accounts cx !! 0%nat = Some k
  | _ => False
  end.

Definition transaction_run (s s' : PState) : Prop :=
  exists cx data i, typed_inputs cx s /\ try_from_slice data = Some i /\ on_transaction cx i /\
    process_instruction cx data s = Ok (tt, s').

(** It waits for its second approval, or was withdrawn. *)
Definition unapproved (m : gmap Pubkey Account) : Prop :=
  exists t : MultisigTransaction, holds m k t /\ mt_status t ∈ [Pending; Cancelled].

Lemma unapproved_not_executed cx s s' :
  unapproved (mem s) -> ia_key <$> cx_accounts cx !! 1%nat = Some k -> process_execute_transaction cx s <> Ok (tt, s').
Proof.
  intros (t & Ht & Hst) Hk H.
  apply execute_transaction_iff in H as (ms & tx & ex & ck & rest & m & t' & s1 & Hacc & _ & _ & _ & Ht' & _ & [Ha _] & _).
  rewrite Hacc in Hk. injection Hk as <-. rewrite (holds_inj _ _ _ _ Ht Ht'), Ha in Hst.
  rewrite !elem_of_cons, elem_of_nil in Hst. naive_solver.
Qed.

Lemma unapproved_run s s' : transaction_run s s' -> unapproved (mem s) -> unapproved (mem s').
Proof.
  intros (cx & data & i & Hty & Hde & Hon & H) Hu. assert (Happ : appends i -> False) by (intros Ha; by eapply appends_fail in H).
  destruct i; try (by destruct Happ); try done; unfold process_instruction in H; rewrite Hde in H; cbn [ok_or lift pbind] in H.
  - by eapply unapproved_not_executed in H.
  - unfold process_cancel_transaction in H. pinv. bool_to_prop. hyp (cx_accounts cx = _) as Hacc. simpl in Hon. rewrite Hacc in Hon.
    injection Hon as Hk. read MultisigTransaction as t Ht. unfold unapproved. rewrite <- Hk.
    exists (with_votes Cancelled (mt_approvals t) (mt_rejections t) (mt_approved_at t) (mt_executed_at t) t).
    split; [|simpl; right; left]. cbn [mem]. eapply holds_same_size; [exact Ht| |done]. apply holds_well_typed in Ht. exact Ht.
Qed.

Lemma unapproved_for_ever m m' : history transaction_run k m m' -> unapproved m -> unapproved m'.
Proof.
  apply history_invariant; [exact unapproved_run|]. intros m1 m2 Hd (t & Ht & Hst). exists t. split; [|done].
  by eapply holds_data; [symmetry|].
Qed.
End Votes.
