(* ===== verification/MultisigTheorems.v ===== *)
(** * MultisigTheorems: the properties of the multisig program

    The theorems about [src/programs/multisig/src/lib.rs], and the evaluation of
    the program on concrete accounts in the Borsh wire format. *)

From Stdlib Require Import Strings.Byte.
From S2P Require Import Prelude Borsh Accounts System Invoke Execution Concrete Cpi Ledger Records Wire History Multisig MultisigProofs.
Open Scope Z_scope.

(** ** The data on the wire *)

Definition codec_meta : codec MultisigAccountMeta :=
  codec_iso (fun '(k, (s, w)) => mkMeta k s w) (fun m => (am_pubkey m, (am_is_signer m, am_is_writable m)))
    (codec_pair codec_pubkey (codec_pair codec_bool codec_bool)).
Definition codec_target : codec MultisigInstructionData :=
  codec_iso (fun '(p, (a, d)) => mkInstructionData p a d) (fun i => (mi_program_id i, (mi_accounts i, mi_data i)))
    (codec_pair codec_pubkey (codec_pair (codec_vec codec_meta) codec_bytes)).
Definition codec_multisig : codec Multisig :=
  codec_iso (fun '(i, (t, (s, (n, (l, (b, u)))))) => mkMultisig i t s n l b u)
    (fun m => (ms_is_initialized m, (ms_threshold m, (ms_signers m, (ms_transaction_count m, (ms_time_lock_seconds m,
       (ms_label m, ms_bump m)))))))
    (codec_pair codec_bool (codec_pair (codec_uint 1) (codec_pair (codec_vec codec_pubkey) (codec_pair (codec_uint 8)
      (codec_pair (codec_int 8) (codec_pair (codec_array 32) (codec_uint 1))))))).
Definition codec_tx_status : codec TransactionStatus := codec_enum [Pending; Approved; Executed; Rejected; Cancelled].
Definition codec_transaction : codec MultisigTransaction :=
  codec_iso
    (fun '(i, (m, (n, (p, (x, (s, (a, (r, (t, (c, (e, b))))))))))) => mkTransaction i m n p x s a r t c e b)
    (fun t => (mt_is_initialized t, (mt_multisig t, (mt_tx_id t, (mt_proposer t, (mt_instruction t, (mt_status t,
       (mt_approvals t, (mt_rejections t, (mt_approved_at t, (mt_created_at t, (mt_executed_at t, mt_bump t))))))))))))
    (codec_pair codec_bool (codec_pair codec_pubkey (codec_pair (codec_uint 8) (codec_pair codec_pubkey
      (codec_pair codec_target (codec_pair codec_tx_status (codec_pair (codec_vec codec_pubkey)
      (codec_pair (codec_vec codec_pubkey) (codec_pair (codec_int 8) (codec_pair (codec_int 8)
      (codec_pair (codec_int 8) (codec_uint 1)))))))))))).

Definition multisig_instruction_index (i : MultisigInstruction) : nat :=
  match i with
  | CreateMultisig _ _ _ _ => 0 | ProposeTransaction _ => 1 | ApproveTransaction => 2 | RejectTransaction => 3
  | ExecuteTransaction => 4 | CancelTransaction => 5 | AddSigner _ => 6 | RemoveSigner _ => 7 | ChangeThreshold _ => 8
  end.
Definition codec_multisig_instruction : codec MultisigInstruction :=
  codec_variants
    [mkVariant (codec_pair (codec_uint 1) (codec_pair (codec_vec codec_pubkey) (codec_pair (codec_int 8) (codec_array 32))))
       (fun '(t, (s, (l, b))) => CreateMultisig t s l b)
       (fun i => match i with CreateMultisig t s l b => Some (t, (s, (l, b))) | _ => None end);
     mkVariant codec_target ProposeTransaction (fun i => match i with ProposeTransaction x => Some x | _ => None end);
     mkVariant codec_unit (fun _ => ApproveTransaction) (fun _ => Some tt);
     mkVariant codec_unit (fun _ => RejectTransaction) (fun _ => Some tt);
     mkVariant codec_unit (fun _ => ExecuteTransaction) (fun _ => Some tt);
     mkVariant codec_unit (fun _ => CancelTransaction) (fun _ => Some tt);
     mkVariant codec_pubkey AddSigner (fun i => match i with AddSigner k => Some k | _ => None end);
     mkVariant codec_pubkey RemoveSigner (fun i => match i with RemoveSigner k => Some k | _ => None end);
     mkVariant (codec_uint 1) ChangeThreshold (fun i => match i with ChangeThreshold t => Some t | _ => None end)]
    multisig_instruction_index.

Lemma codec_tx_status_laws : codec_laws codec_tx_status.
Proof. apply codec_enum_laws; [repeat constructor; set_solver|simpl; lia]. Qed.
Lemma codec_tx_status_wf s : c_wf codec_tx_status s <-> True.
Proof. split; [done|]. intros _. destruct s; simpl; set_solver. Qed.
#[local] Hint Resolve codec_tx_status_laws : codec.
#[local] Hint Rewrite codec_tx_status_wf : codec_wf.

Lemma codec_meta_laws : codec_laws codec_meta.
Proof. apply codec_iso_laws; [by intros []|by intros (?&?&?)|]. auto 20 with codec. Qed.
Lemma codec_meta_wf m : c_wf codec_meta m <-> is_pubkey (am_pubkey m).
Proof. unfold codec_meta. codec_typed. Qed.
#[local] Hint Resolve codec_meta_laws : codec.
Lemma codec_metas_wf l : c_wf (codec_vec codec_meta) l <-> Forall (fun m => is_pubkey (am_pubkey m)) l /\ is_u32 (zlen l).
Proof. apply codec_list_wf, codec_meta_wf. Qed.
#[local] Hint Rewrite codec_metas_wf : codec_wf.

Lemma codec_target_laws : codec_laws codec_target.
Proof. apply codec_iso_laws; [by intros []|by intros (?&?&?)|]. auto 20 with codec. Qed.
Lemma codec_target_wf i : c_wf codec_target i <-> instruction_data_ok i.
Proof. unfold codec_target, instruction_data_ok. codec_typed. Qed.
#[local] Hint Resolve codec_target_laws : codec.
#[local] Hint Rewrite codec_target_wf : codec_wf.

Lemma codec_multisig_laws : codec_laws codec_multisig.
Proof. apply codec_iso_laws; [by intros []|by intros (?&?&?&?&?&?&?)|]. auto 20 with codec. Qed.
Lemma codec_multisig_wf m : well_typed m <-> c_wf codec_multisig m.
Proof. unfold codec_multisig, well_typed, Multisig_well_typed. codec_typed. Qed.
Lemma codec_multisig_len : c_len codec_multisig multisig_len.
Proof. codec_len. intros m. unfold multisig_len. simpl. lia. Qed.
Lemma codec_transaction_laws : codec_laws codec_transaction.
Proof. apply codec_iso_laws; [by intros []|by intros (?&?&?&?&?&?&?&?&?&?&?&?)|]. auto 20 with codec. Qed.
Lemma codec_transaction_wf t : well_typed t <-> c_wf codec_transaction t.
Proof. unfold codec_transaction, well_typed, MultisigTransaction_well_typed. codec_typed. Qed.
Lemma codec_transaction_len : c_len codec_transaction transaction_len.
Proof. codec_len. intros t. unfold transaction_len. simpl. lia. Qed.

Lemma codec_multisig_instruction_laws : codec_laws codec_multisig_instruction.
Proof.
  apply codec_variants_laws; [simpl; lia|repeat apply Forall_cons_2; simpl; auto 10 with codec| |].
  - intros [|[|[|[|[|[|[|[|[|]]]]]]]]] v a [= <-]; simpl in a;
      repeat match goal with x : _ * _ |- _ => destruct x | x : unit |- _ => destruct x end; done.
  - intros [] v a [= <-]; simpl; by intros [= <-].
Qed.
Lemma codec_multisig_instruction_wf i : well_typed i <-> c_wf codec_multisig_instruction i.
Proof. destruct i; unfold well_typed, MultisigInstruction_well_typed, codec_multisig_instruction; codec_variant_typed. Qed.

#[global] Instance multisig_borsh : Borsh Multisig := borsh_of_codec codec_multisig.
#[global] Instance multisig_borsh_laws : BorshLaws Multisig := borsh_of_codec_laws _ codec_multisig_laws codec_multisig_wf.
#[global] Instance multisig_borsh_measured : BorshMeasured Multisig multisig_len :=
  borsh_of_codec_measured _ _ codec_multisig_len codec_multisig_wf.
#[global] Instance transaction_borsh : Borsh MultisigTransaction := borsh_of_codec codec_transaction.
#[global] Instance transaction_borsh_laws : BorshLaws MultisigTransaction :=
  borsh_of_codec_laws _ codec_transaction_laws codec_transaction_wf.
#[global] Instance transaction_borsh_measured : BorshMeasured MultisigTransaction transaction_len :=
  borsh_of_codec_measured _ _ codec_transaction_len codec_transaction_wf.
#[global] Instance multisig_instruction_borsh : Borsh MultisigInstruction := borsh_of_codec codec_multisig_instruction.
#[global] Instance multisig_instruction_borsh_laws : BorshLaws MultisigInstruction :=
  borsh_of_codec_laws _ codec_multisig_instruction_laws codec_multisig_instruction_wf.

(** A 2-of-3 multisig of 301, 302 and 303, and a transaction that 301 has
    proposed. *)
Module MultisigDemo.
Definition PROGRAM : Pubkey := 100.
Definition label : list byte := replicate 32 Byte.x41.
Definition multisig : Multisig := mkMultisig true 2 [301; 302; 303] 1 3600 label 255.
Definition transaction : MultisigTransaction :=
  mkTransaction true 500 0 301 (mkInstructionData 700 [mkMeta 500 true true] [Byte.x07]) Pending [301] [] 0 50 0 255.
Definition accounts : list (Pubkey * Account) :=
  [(500, mkAccount 1000000 (borsh_ser multisig) PROGRAM false); (600, mkAccount 1000000 (borsh_ser transaction) PROGRAM false);
   (301, mkAccount 5000 [] 0 false); (302, mkAccount 5000 [] 0 false)].
Definition state : PState := mkPState (store accounts) (mkTA (store accounts) 0 0).
Definition len (k : Pubkey) : Z := zlen (acc_data (get_acc (store accounts) k)).

(** The multisig account signs for itself; a signer votes. *)
Definition govern_cx : Ctx := demo_ctx PROGRAM [mkIA 500 true true; mkIA 500 true true] 100 len.
Definition vote_cx : Ctx := demo_ctx PROGRAM
  [mkIA 500 false true; mkIA 600 false true; mkIA 302 true false; mkIA clock_id false false] 100 len.
Definition govern_data : list byte := borsh_ser (ChangeThreshold 3).
Definition vote_data : list byte := borsh_ser ApproveTransaction.

(** The proposer cancels. *)
Definition cancel_cx : Ctx := demo_ctx PROGRAM [mkIA 600 false true; mkIA 301 true false] 100 len.
Definition cancel_data : list byte := borsh_ser CancelTransaction.

Lemma multisig_runs :
  is_ok (process_instruction govern_cx govern_data state) && is_ok (process_instruction cancel_cx cancel_data state) = true.
Proof. vm_compute. reflexivity. Qed.
End MultisigDemo.

(** ** Properties *)

Section MultisigProperties.
Context {E : Env} {BM : Borsh Multisig} {BT : Borsh MultisigTransaction} {BI : Borsh MultisigInstruction}.
Context {LM : BorshLaws Multisig} {LT : BorshLaws MultisigTransaction} {LI : BorshLaws MultisigInstruction}.
Context {MM : BorshMeasured Multisig multisig_len} {MT : BorshMeasured MultisigTransaction transaction_len}.

(** [ExecuteTransaction] runs a transaction exactly when one of the signers
    signs it, the transaction has been approved, the time lock since the
    approval has elapsed, and its instruction, invoked with the signature of
    the multisig, succeeds; it then marks the transaction executed.  That the
    transaction is one of this multisig is not among the conditions. *)
Theorem multisig_execute_exact cx s s' :
  process_execute_transaction cx s = Ok (tt, s') <->
  exists ms tx ex ck rest m t s1, cx_accounts cx = ms :: tx :: ex :: ck :: rest /\ ia_is_signer ex = true /\
    ia_key ck = clock_id /\ holds (mem s) (ia_key ms) m /\ holds (mem s) (ia_key tx) t /\
    ia_key ex ∈ ms_signers m /\ executable cx m t /\
    invoke_signed cx (target_instruction (mt_instruction t)) rest
      [[MULTISIG_SEED; ms_label m; [byte_of_Z (ms_bump m)]]] s = Ok (tt, s1) /\
    zlen (borsh_ser (executed cx t)) <= zlen (acc_data (get_acc (mem s1) (ia_key tx))) /\
    s' = mkPState (stored (executed cx t) (ia_key tx) (mem s1)) (rt s1).
Proof. apply execute_transaction_iff. Qed.

(** C24. The rules of a multisig stay consistent: a created one has between 2 and
    11 different signers, a threshold between 1 and their number and a time
    lock of at most 30 days, and sits at the address of its label where no
    multisig was before; every instruction that changes the signers or the
    threshold keeps that, is signed by the multisig itself and changes nothing
    else. *)
Theorem multisig_rules cx data i s s' :
  try_from_slice data = Some i -> changes_rules i -> process_instruction cx data s = Ok (tt, s') ->
  exists k m', ia_key <$> cx_accounts cx !! 0%nat = Some k /\ s' = mkPState (stored m' k (mem s)) (rt s) /\
    (governs i /\ signed cx k /\ (exists m : Multisig, holds (mem s) k m /\ (multisig_ok m -> multisig_ok m') /\
       ms_transaction_count m' = ms_transaction_count m /\ ms_time_lock_seconds m' = ms_time_lock_seconds m) \/
     multisig_ok m' /\ k = (find_program_address [MULTISIG_SEED; ms_label m'] (cx_program_id cx)).1 /\
       forall old : Multisig, holds (mem s) k old -> ms_is_initialized old = false).
Proof.
  intros Hde [Hg|(th & sg & tl & lb & ->)] H.
  - eapply governs_effect in H as (k & m & m' & Hk & Hs & Hm & -> & Hok & Hc & Ht); [|done..].
    exists k, m'. split_and!; [done|done|left; split_and!; [done|done|by exists m]].
  - unfold process_instruction in H. rewrite Hde in H. cbn [ok_or lift pbind] in H.
    apply create_multisig_effect in H as (k & m & Hk & Hok & Hf & Hold & -> & ->). eexists k, _.
    split_and!; [done|done|right; by split_and!].
Qed.

(** Finding: no vote is ever recorded.  The accounts are decoded with
    [try_from_slice], which accepts no bytes beyond the value, so that they have
    room for exactly the signers and votes they hold: [ApproveTransaction],
    [RejectTransaction] and [AddSigner], which write one key more, always
    panic, and no transaction of a multisig ever gets a second approval. *)
Theorem multisig_votes_never_recorded cx data i s s' :
  typed_inputs cx s -> try_from_slice data = Some i -> appends i -> process_instruction cx data s <> Ok (tt, s').
Proof. apply appends_fail. Qed.

(** C15. No proposed transaction is ever executed.  Whatever approvals,
    rejections, executions and cancellations are attempted on a pending
    transaction, by anyone and in any order, and whatever else happens that does
    not write its account, it is then pending or cancelled, and
    [ExecuteTransaction] fails on it: a second approval does not fit the account,
    and even a threshold of one is only checked by an approval. *)
Theorem no_transaction_executed k m0 s cx s' (t0 : MultisigTransaction) :
  holds m0 k t0 -> mt_status t0 = Pending -> history (transaction_run k) k m0 (mem s) ->
  (exists t : MultisigTransaction, holds (mem s) k t /\ mt_status t ∈ [Pending; Cancelled]) /\
  (ia_key <$> cx_accounts cx !! 1%nat = Some k -> process_execute_transaction cx s <> Ok (tt, s')).
Proof.
  intros Ht Hp Hh. assert (Hu : unapproved k (mem s)).
  { eapply unapproved_for_ever; [exact Hh|]. exists t0. rewrite Hp. split; [done|left]. }
  split; [exact Hu|]. by apply unapproved_not_executed.
Qed.
End MultisigProperties.

(** ** The hypotheses can hold *)

Lemma multisig_rules_witness : exists s' k (m' : Multisig),
  process_instruction MultisigDemo.govern_cx MultisigDemo.govern_data MultisigDemo.state = Ok (tt, s') /\
  s' = mkPState (stored m' k (mem MultisigDemo.state)) (rt MultisigDemo.state).
Proof.
  destruct (process_instruction MultisigDemo.govern_cx MultisigDemo.govern_data MultisigDemo.state) as [[[] s']|e] eqn:Hrun;
    [|pose proof MultisigDemo.multisig_runs as Hk; rewrite Hrun in Hk; discriminate Hk].
  destruct (multisig_rules MultisigDemo.govern_cx MultisigDemo.govern_data (ChangeThreshold 3) MultisigDemo.state s')
    as (k & m' & _ & Hs & _); [evaluate|left; exact I|exact Hrun|].
  exists s', k, m'. exact (conj eq_refl Hs).
Defined.

(** The proposer withdraws the transaction; a signer then tries to execute it. *)
Lemma no_transaction_executed_witness : exists s1,
  process_instruction MultisigDemo.cancel_cx MultisigDemo.cancel_data MultisigDemo.state = Ok (tt, s1) /\
  forall s', process_execute_transaction MultisigDemo.vote_cx s1 <> Ok (tt, s').
Proof.
  destruct (process_instruction MultisigDemo.cancel_cx MultisigDemo.cancel_data MultisigDemo.state) as [[[] s1]|e] eqn:Hrun;
    [|pose proof MultisigDemo.multisig_runs as Hk; rewrite Hrun, ?andb_false_r in Hk; discriminate Hk].
  exists s1. split; [exact eq_refl|]. intros s'.
  refine (proj2 (no_transaction_executed 600 (mem MultisigDemo.state) s1 MultisigDemo.vote_cx s' MultisigDemo.transaction _ _ _) _);
    [evaluate|evaluate| |evaluate].
  refine (history_run _ _ MultisigDemo.state s1 _ _ (history_refl _ _ _)).
  exists MultisigDemo.cancel_cx, MultisigDemo.cancel_data, CancelTransaction.
  split; [|split; [evaluate|split; [evaluate|exact Hrun]]].
  split; [repeat constructor; evaluate|evaluate|]. intros k. apply data_bound_store; [evaluate|].
  repeat constructor; evaluate.
Defined.

Lemma multisig_votes_never_recorded_witness :
  appends ApproveTransaction /\ forall s', process_instruction MultisigDemo.vote_cx MultisigDemo.vote_data MultisigDemo.state <> Ok (tt, s').
Proof.
  split; [exact I|]. intros s'. apply (multisig_votes_never_recorded MultisigDemo.vote_cx MultisigDemo.vote_data ApproveTransaction);
    [|evaluate|exact I].
  split; [repeat constructor; evaluate|evaluate|]. intros k. apply data_bound_store; [evaluate|].
  repeat constructor; evaluate.
Defined.
