(* ===== verification/Governance.v ===== *)
(** * Governance: proposals, votes and the council's veto

    Models [src/programs/governance/src/lib.rs]: the governance state with its
    council, the proposals with their tallies and schedule, the vote records
    and delegations, and the ten instructions. *)

From Stdlib Require Import Strings.Byte Strings.String.
From S2P Require Import Prelude Borsh Accounts System Invoke Execution Records.
Open Scope Z_scope.

(** ** Constants and data *)

Definition MIN_PROPOSAL_STAKE : Z := 100000000000000.
Definition QUORUM_BPS : Z := 1000.
Definition VOTING_PERIOD_SECS : Z := 7 * 24 * 60 * 60.
Definition EMERGENCY_VOTING_PERIOD_SECS : Z := 24 * 60 * 60.
Definition EXECUTION_DELAY_SECS : Z := 48 * 60 * 60.
Definition VETO_WINDOW_SECS : Z := 48 * 60 * 60.
Definition EMERGENCY_SUPERMAJORITY_BPS : Z := 6667.
Definition MAX_DESCRIPTION_LEN : Z := 512.
Definition MAX_COUNCIL_MEMBERS : Z := 11.
Definition GOVERNANCE_SEED : list byte := list_byte_of_string "governance".
Definition PROPOSAL_SEED : list byte := list_byte_of_string "proposal".
Definition VOTE_RECORD_SEED : list byte := list_byte_of_string "vote_record".
Definition DELEGATION_SEED : list byte := list_byte_of_string "delegation".

Inductive GovernanceError :=
| InsufficientStake | ProposalNotVoting | VotingPeriodEnded | VotingPeriodNotEnded | QuorumNotReached | ProposalNotPassed
| TimeLockNotElapsed | ProposalVetoed | NotCouncilMember | VetoWindowExpired | SupermajorityNotReached | AlreadyVoted
| InvalidProposalType | DescriptionTooLong | SelfDelegation | ProposalAlreadyFinalized | AlreadyInitialized
| InvalidAuthority | Overflow | BadAccountData | InvalidOwner.

(** [BadAccountData] is [GovernanceError::InvalidAccountData]. *)
Definition into (e : GovernanceError) : InstructionError :=
  Custom match e with
  | InsufficientStake => 0 | ProposalNotVoting => 1 | VotingPeriodEnded => 2 | VotingPeriodNotEnded => 3
  | QuorumNotReached => 4 | ProposalNotPassed => 5 | TimeLockNotElapsed => 6 | ProposalVetoed => 7 | NotCouncilMember => 8
  | VetoWindowExpired => 9 | SupermajorityNotReached => 10 | AlreadyVoted => 11 | InvalidProposalType => 12
  | DescriptionTooLong => 13 | SelfDelegation => 14 | ProposalAlreadyFinalized => 15 | AlreadyInitialized => 16
  | InvalidAuthority => 17 | Overflow => 18 | BadAccountData => 19 | InvalidOwner => 20
  end.

Inductive ProposalType :=
| ParameterChange (key value : list byte)
| TreasurySpend (recipient : Pubkey) (amount : Z)
| ProgramUpgrade (program_id buffer : Pubkey)
| Emergency (payload : list byte).

Inductive ProposalStatus := Voting | Passed | Defeated | Vetoed | Executed | Cancelled.
#[global] Instance ProposalStatus_eq_dec : EqDecision ProposalStatus.
Proof. solve_decision. Defined.

Inductive VoteChoice := For | Against | Abstain.
#[global] Instance VoteChoice_eq_dec : EqDecision VoteChoice.
Proof. solve_decision. Defined.

Record GovernanceState := mkGovernance {
  gs_is_initialized : bool;
  gs_authority : Pubkey;
  gs_proposal_count : Z;
  gs_total_staked_supply : Z;
  gs_council : list Pubkey;
  gs_bump : Z;
}.

Record Proposal := mkProposal {
  pp_is_initialized : bool;
  pp_id : Z;
  pp_proposer : Pubkey;
  pp_description : list byte;
  pp_proposal_type : ProposalType;
  pp_status : ProposalStatus;
  pp_voting_start : Z;
  pp_voting_end : Z;
  pp_votes_for : Z;
  pp_votes_against : Z;
  pp_votes_abstain : Z;
  pp_is_emergency : bool;
  pp_execution_time : Z;
  pp_bump : Z;
}.

Record VoteRecord := mkVoteRecord {
  vr_is_initialized : bool;
  vr_proposal_id : Z;
  vr_voter : Pubkey;
  vr_choice : VoteChoice;
  vr_weight : Z;
  vr_timestamp : Z;
  vr_bump : Z;
}.

Record Delegation := mkDelegation {
  dg_is_initialized : bool;
  dg_delegator : Pubkey;
  dg_delegate : Pubkey;
  dg_weight : Z;
  dg_timestamp : Z;
  dg_bump : Z;
}.

Inductive GovernanceInstruction :=
| InitializeGovernance (council : list Pubkey) (total_staked_supply : Z)
| CreateProposal (description : list byte) (proposal_type : ProposalType) (is_emergency : bool)
| CastVote (choice : VoteChoice) (weight : Z)
| DelegateVote (delegate : Pubkey) (weight : Z)
| RevokeDelegation
| FinalizeVoting
| ExecuteProposal
| VetoProposal
| CancelProposal
| UpdateStakedSupply (total_staked_supply : Z).

Definition proposal_type_ok (t : ProposalType) : Prop :=
  match t with
  | ParameterChange key value => zlen key = 32 /\ zlen value = 32
  | TreasurySpend recipient amount => is_pubkey recipient /\ is_u64 amount
  | ProgramUpgrade program_id buffer => is_pubkey program_id /\ is_pubkey buffer
  | Emergency payload => zlen payload = 64
  end.
#[global] Instance GovernanceState_well_typed : WellTyped GovernanceState := fun g =>
  is_pubkey (gs_authority g) /\ is_u64 (gs_proposal_count g) /\ is_u64 (gs_total_staked_supply g) /\
  (Forall is_pubkey (gs_council g) /\ is_u32 (zlen (gs_council g))) /\ is_u8 (gs_bump g).
#[global] Instance Proposal_well_typed : WellTyped Proposal := fun p =>
  is_u64 (pp_id p) /\ is_pubkey (pp_proposer p) /\ is_u32 (zlen (pp_description p)) /\ proposal_type_ok (pp_proposal_type p) /\
  is_i64 (pp_voting_start p) /\ is_i64 (pp_voting_end p) /\ is_u64 (pp_votes_for p) /\ is_u64 (pp_votes_against p) /\
  is_u64 (pp_votes_abstain p) /\ is_i64 (pp_execution_time p) /\ is_u8 (pp_bump p).
#[global] Instance VoteRecord_well_typed : WellTyped VoteRecord := fun v =>
  is_u64 (vr_proposal_id v) /\ is_pubkey (vr_voter v) /\ is_u64 (vr_weight v) /\ is_i64 (vr_timestamp v) /\ is_u8 (vr_bump v).
#[global] Instance Delegation_well_typed : WellTyped Delegation := fun d =>
  is_pubkey (dg_delegator d) /\ is_pubkey (dg_delegate d) /\ is_u64 (dg_weight d) /\ is_i64 (dg_timestamp d) /\ is_u8 (dg_bump d).
#[global] Instance GovernanceInstruction_well_typed : WellTyped GovernanceInstruction := fun i =>
  match i with
  | InitializeGovernance council supply => (Forall is_pubkey council /\ is_u32 (zlen council)) /\ is_u64 supply
  | CreateProposal description proposal_type _ => is_u32 (zlen description) /\ proposal_type_ok proposal_type
  | CastVote _ weight => is_u64 weight
  | DelegateVote delegate weight => is_pubkey delegate /\ is_u64 weight
  | UpdateStakedSupply supply => is_u64 supply
  | _ => True
  end.

(** The lengths of the encodings. *)
Definition governance_len (g : GovernanceState) : Z := 54 + 32 * zlen (gs_council g).
Definition type_len (t : ProposalType) : Z := match t with TreasurySpend _ _ => 41 | _ => 65 end.
Definition proposal_len (p : Proposal) : Z := 96 + zlen (pp_description p) + type_len (pp_proposal_type p).
Definition VOTE_RECORD_LEN : Z := 59.
Definition DELEGATION_LEN : Z := 82.

(** Field updates. *)
Definition with_count (count supply : Z) (g : GovernanceState) : GovernanceState :=
  mkGovernance (gs_is_initialized g) (gs_authority g) count supply (gs_council g) (gs_bump g).
Definition with_status (status : ProposalStatus) (votes_for votes_against votes_abstain : Z) (p : Proposal) : Proposal :=
  mkProposal (pp_is_initialized p) (pp_id p) (pp_proposer p) (pp_description p) (pp_proposal_type p) status
    (pp_voting_start p) (pp_voting_end p) votes_for votes_against votes_abstain (pp_is_emergency p) (pp_execution_time p)
    (pp_bump p).
Definition set_status (status : ProposalStatus) (p : Proposal) : Proposal :=
  with_status status (pp_votes_for p) (pp_votes_against p) (pp_votes_abstain p) p.

(** ** Instructions *)

(** The tally of a vote. *)
Definition tally (choice : VoteChoice) (weight : Z) (p : Proposal) : result InstructionError Proposal :=
  (match choice with
   | For => let? v := ok_or (u64_checked_add (pp_votes_for p) weight) (into Overflow) in
       Ok (with_status (pp_status p) v (pp_votes_against p) (pp_votes_abstain p) p)
   | Against => let? v := ok_or (u64_checked_add (pp_votes_against p) weight) (into Overflow) in
       Ok (with_status (pp_status p) (pp_votes_for p) v (pp_votes_abstain p) p)
   | Abstain => let? v := ok_or (u64_checked_add (pp_votes_abstain p) weight) (into Overflow) in
       Ok (with_status (pp_status p) (pp_votes_for p) (pp_votes_against p) v p)
   end)%result.

(** The status the votes of a proposal lead to. *)
Definition verdict (supply : Z) (p : Proposal) : result InstructionError ProposalStatus :=
  (let? for_against := ok_or (u64_checked_add (pp_votes_for p) (pp_votes_against p)) (into Overflow) in
   let? total_votes := ok_or (u64_checked_add for_against (pp_votes_abstain p)) (into Overflow) in
   let? scaled_supply := ok_or (u64_checked_mul supply QUORUM_BPS) (into Overflow) in
   let quorum_threshold := scaled_supply / 10000 in
   if total_votes <? quorum_threshold then Ok Defeated
   else if pp_is_emergency p then
     let? decisive_votes := ok_or (u64_checked_add (pp_votes_for p) (pp_votes_against p)) (into Overflow) in
     let? scaled := ok_or (u64_checked_mul decisive_votes EMERGENCY_SUPERMAJORITY_BPS) (into Overflow) in
     let supermajority_threshold := scaled / 10000 in
     if supermajority_threshold <=? pp_votes_for p then Ok Passed else Ok Defeated
   else if pp_votes_against p <? pp_votes_for p then Ok Passed
   else Ok Defeated)%result.

Section Governance.
Context {E : Env} {BG : Borsh GovernanceState} {BP : Borsh Proposal} {BV : Borsh VoteRecord} {BD : Borsh Delegation}
  {BI : Borsh GovernanceInstruction}.
Variable cx : Ctx.

Definition process_initialize_governance (council : list Pubkey) (total_staked_supply : Z) : M unit :=
  (let! '(governance_info, it) := next_account_info (cx_accounts cx) in
   let! '(authority_info, it) := next_account_info it in
   let! '(_system_program, it) := next_account_info it in
   let! '(rent_sysvar, it) := next_account_info it in
   fail_if (negb (ia_is_signer authority_info)) MissingRequiredSignature ;;
   rent_from_account_info rent_sysvar ;;
   let '(expected_pda, bump) := find_program_address [GOVERNANCE_SEED] (cx_program_id cx) in
   fail_if (negb (ia_key governance_info =? expected_pda)) InvalidSeeds ;;
   let! ga := account governance_info in
   fail_if (occupied gs_is_initialized (acc_data ga)) (into AlreadyInitialized) ;;
   fail_if (MAX_COUNCIL_MEMBERS <? zlen council) InvalidArgument ;;
   let state := mkGovernance true (ia_key authority_info) 0 total_staked_supply council bump in
   fail_if (acc_lamports ga <? minimum_balance (zlen (borsh_ser state))) AccountNotRentExempt ;;
   copy_all state governance_info)%prog.

Definition process_create_proposal (description : list byte) (proposal_type : ProposalType) (is_emergency : bool) : M unit :=
  (let! '(governance_info, it) := next_account_info (cx_accounts cx) in
   let! '(proposal_info, it) := next_account_info it in
   let! '(proposer_info, it) := next_account_info it in
   let! '(stake_info, it) := next_account_info it in
   let! '(clock_sysvar, it) := next_account_info it in
   let! '(_system_program, it) := next_account_info it in
   let! '(_rent_sysvar, it) := next_account_info it in
   fail_if (negb (ia_is_signer proposer_info)) MissingRequiredSignature ;;
   fail_if (MAX_DESCRIPTION_LEN <? zlen description) (into DescriptionTooLong) ;;
   let! sa := account stake_info in
   fail_if (acc_lamports sa <? MIN_PROPOSAL_STAKE) (into InsufficientStake) ;;
   let! clock := clock_from_account_info cx clock_sysvar in
   let now := unix_timestamp clock in
   let! gov_state := load GovernanceState governance_info (into BadAccountData) in
   let proposal_id := gs_proposal_count gov_state in
   let! count := lift (ok_or (u64_checked_add (gs_proposal_count gov_state) 1) (into Overflow)) in
   let voting_period := if is_emergency then EMERGENCY_VOTING_PERIOD_SECS else VOTING_PERIOD_SECS in
   let! voting_end := lift (ok_or (i64_checked_add now voting_period) (into Overflow)) in
   let! execution_time := lift (ok_or (i64_checked_add voting_end EXECUTION_DELAY_SECS) (into Overflow)) in
   let '(expected_pda, bump) := find_program_address [PROPOSAL_SEED; le_bytes 8 proposal_id] (cx_program_id cx) in
   fail_if (negb (ia_key proposal_info =? expected_pda)) InvalidSeeds ;;
   let proposal := mkProposal true proposal_id (ia_key proposer_info) description proposal_type Voting now voting_end
                     0 0 0 is_emergency execution_time bump in
   copy_into (with_count count (gs_total_staked_supply gov_state) gov_state) governance_info ;;
   copy_into proposal proposal_info)%prog.

Definition process_cast_vote (choice : VoteChoice) (weight : Z) : M unit :=
  (let! '(proposal_info, it) := next_account_info (cx_accounts cx) in
   let! '(vote_record_info, it) := next_account_info it in
   let! '(voter_info, it) := next_account_info it in
   let! '(_stake_info, it) := next_account_info it in
   let! '(clock_sysvar, it) := next_account_info it in
   let! '(_system_program, it) := next_account_info it in
   let! '(_rent_sysvar, it) := next_account_info it in
   fail_if (negb (ia_is_signer voter_info)) MissingRequiredSignature ;;
   let! clock := clock_from_account_info cx clock_sysvar in
   let now := unix_timestamp clock in
   let! proposal := load Proposal proposal_info (into BadAccountData) in
   fail_if (negb (bool_decide (pp_status proposal = Voting))) (into ProposalNotVoting) ;;
   fail_if (pp_voting_end proposal <? now) (into VotingPeriodEnded) ;;
   let '(expected_vr, bump) :=
     find_program_address [VOTE_RECORD_SEED; le_bytes 8 (pp_id proposal); key_bytes (ia_key voter_info)] (cx_program_id cx) in
   fail_if (negb (ia_key vote_record_info =? expected_vr)) InvalidSeeds ;;
   let! va := account vote_record_info in
   fail_if (occupied vr_is_initialized (acc_data va)) (into AlreadyVoted) ;;
   let! proposal := lift (tally choice weight proposal) in
   copy_into (mkVoteRecord true (pp_id proposal) (ia_key voter_info) choice weight now bump) vote_record_info ;;
   copy_into proposal proposal_info)%prog.

Definition process_delegate_vote (delegate : Pubkey) (weight : Z) : M unit :=
  (let! '(delegation_info, it) := next_account_info (cx_accounts cx) in
   let! '(delegator_info, it) := next_account_info it in
   let! '(delegate_info, it) := next_account_info it in
   let! '(_stake_info, it) := next_account_info it in
   let! '(clock_sysvar, it) := next_account_info it in
   let! '(_system_program, it) := next_account_info it in
   let! '(_rent_sysvar, it) := next_account_info it in
   fail_if (negb (ia_is_signer delegator_info)) MissingRequiredSignature ;;
   fail_if (ia_key delegator_info =? ia_key delegate_info) (into SelfDelegation) ;;
   let! clock := clock_from_account_info cx clock_sysvar in
   let '(expected_pda, bump) := find_program_address [DELEGATION_SEED; key_bytes (ia_key delegator_info)] (cx_program_id cx) in
   fail_if (negb (ia_key delegation_info =? expected_pda)) InvalidSeeds ;;
   copy_into (mkDelegation true (ia_key delegator_info) delegate weight (unix_timestamp clock) bump) delegation_info)%prog.

Definition process_revoke_delegation : M unit :=
  (let! '(delegation_info, it) := next_account_info (cx_accounts cx) in
   let! '(delegator_info, it) := next_account_info it in
   fail_if (negb (ia_is_signer delegator_info)) MissingRequiredSignature ;;
   let! delegation := load Delegation delegation_info (into BadAccountData) in
   fail_if (negb (dg_delegator delegation =? ia_key delegator_info)) (into InvalidAuthority) ;;
   copy_into (mkDelegation false (dg_delegator delegation) (dg_delegate delegation) 0 (dg_timestamp delegation)
     (dg_bump delegation)) delegation_info)%prog.

Definition process_finalize_voting : M unit :=
  (let! '(proposal_info, it) := next_account_info (cx_accounts cx) in
   let! '(governance_info, it) := next_account_info it in
   let! '(clock_sysvar, it) := next_account_info it in
   let! clock := clock_from_account_info cx clock_sysvar in
   let now := unix_timestamp clock in
   let! proposal := load Proposal proposal_info (into BadAccountData) in
   fail_if (negb (bool_decide (pp_status proposal = Voting))) (into ProposalNotVoting) ;;
   fail_if (now <? pp_voting_end proposal) (into VotingPeriodNotEnded) ;;
   let! gov_state := load GovernanceState governance_info (into BadAccountData) in
   let! status := lift (verdict (gs_total_staked_supply gov_state) proposal) in
   copy_into (set_status status proposal) proposal_info)%prog.

(** Executing a proposal only logs what it would do. *)
Definition process_execute_proposal : M unit :=
  (let! '(proposal_info, it) := next_account_info (cx_accounts cx) in
   let! '(_governance_info, it) := next_account_info it in
   let! '(executor_info, it) := next_account_info it in
   let! '(clock_sysvar, it) := next_account_info it in
   fail_if (negb (ia_is_signer executor_info)) MissingRequiredSignature ;;
   let! clock := clock_from_account_info cx clock_sysvar in
   let now := unix_timestamp clock in
   let! proposal := load Proposal proposal_info (into BadAccountData) in
   fail_if (negb (bool_decide (pp_status proposal = Passed))) (into ProposalNotPassed) ;;
   fail_if (now <? pp_execution_time proposal) (into TimeLockNotElapsed) ;;
   copy_into (set_status Executed proposal) proposal_info)%prog.

Definition process_veto_proposal : M unit :=
  (let! '(proposal_info, it) := next_account_info (cx_accounts cx) in
   let! '(governance_info, it) := next_account_info it in
   let! '(council_member_info, it) := next_account_info it in
   let! '(clock_sysvar, it) := next_account_info it in
   fail_if (negb (ia_is_signer council_member_info)) MissingRequiredSignature ;;
   let! clock := clock_from_account_info cx clock_sysvar in
   let now := unix_timestamp clock in
   let! gov_state := load GovernanceState governance_info (into BadAccountData) in
   fail_if (negb (contains (gs_council gov_state) (ia_key council_member_info))) (into NotCouncilMember) ;;
   let! proposal := load Proposal proposal_info (into BadAccountData) in
   fail_if (negb (bool_decide (pp_status proposal = Passed))) (into ProposalNotPassed) ;;
   let! veto_deadline := lift (ok_or (i64_checked_add (pp_voting_end proposal) VETO_WINDOW_SECS) (into Overflow)) in
   fail_if (veto_deadline <? now) (into VetoWindowExpired) ;;
   copy_into (set_status Vetoed proposal) proposal_info)%prog.

Definition process_cancel_proposal : M unit :=
  (let! '(proposal_info, it) := next_account_info (cx_accounts cx) in
   let! '(proposer_info, it) := next_account_info it in
   fail_if (negb (ia_is_signer proposer_info)) MissingRequiredSignature ;;
   let! proposal := load Proposal proposal_info (into BadAccountData) in
   fail_if (negb (pp_proposer proposal =? ia_key proposer_info)) (into InvalidAuthority) ;;
   fail_if (negb (bool_decide (pp_status proposal = Voting))) (into ProposalAlreadyFinalized) ;;
   copy_into (set_status Cancelled proposal) proposal_info)%prog.

Definition process_update_staked_supply (total_staked_supply : Z) : M unit :=
  (let! '(governance_info, it) := next_account_info (cx_accounts cx) in
   let! '(authority_info, it) := next_account_info it in
   fail_if (negb (ia_is_signer authority_info)) MissingRequiredSignature ;;
   let! gov_state := load GovernanceState governance_info (into BadAccountData) in
   fail_if (negb (gs_authority gov_state =? ia_key authority_info)) (into InvalidAuthority) ;;
   copy_into (with_count (gs_proposal_count gov_state) total_staked_supply gov_state) governance_info)%prog.

Definition process_instruction (instruction_data : list byte) : M unit :=
  (let! instruction := lift (ok_or (try_from_slice instruction_data) InvalidInstructionData) in
   match instruction with
   | InitializeGovernance council total_staked_supply => process_initialize_governance council total_staked_supply
   | CreateProposal description proposal_type is_emergency => process_create_proposal description proposal_type is_emergency
   | CastVote choice weight => process_cast_vote choice weight
   | DelegateVote delegate weight => process_delegate_vote delegate weight
   | RevokeDelegation => process_revoke_delegation
   | FinalizeVoting => process_finalize_voting
   | ExecuteProposal => process_execute_proposal
   | VetoProposal => process_veto_proposal
   | CancelProposal => process_cancel_proposal
   | UpdateStakedSupply total_staked_supply => process_update_staked_supply total_staked_supply
   end)%prog.
End Governance.
