(* ===== verification/GovernanceProofs.v ===== *)
(** * GovernanceProofs: the life of a proposal *)

From Stdlib Require Import Strings.Byte.
From S2P Require Import Prelude Borsh Accounts System Invoke Execution Cpi Ledger Records Governance.
Open Scope Z_scope.

(** ** The count of the votes *)

Definition total_votes (p : Proposal) : Z := pp_votes_for p + pp_votes_against p + pp_votes_abstain p.

(** A tenth of the staked supply has voted, and the majority is for the proposal:
    more for than against, of an emergency proposal 66.67 percent, rounded down. *)
Definition passes (supply : Z) (p : Proposal) : Prop :=
  supply / 10 <= total_votes p /\
  if pp_is_emergency p then (pp_votes_for p + pp_votes_against p) * 6667 / 10000 <= pp_votes_for p
  else pp_votes_against p < pp_votes_for p.
#[global] Instance passes_dec supply p : Decision (passes supply p).
Proof. unfold passes. destruct (pp_is_emergency p); apply _. Defined.

(** The products of the count fit 64 bits. *)
Definition countable (supply : Z) (p : Proposal) : Prop :=
  total_votes p <= U64_MAX /\ supply * 1000 <= U64_MAX /\
  (supply / 10 <= total_votes p -> pp_is_emergency p = true -> (pp_votes_for p + pp_votes_against p) * 6667 <= U64_MAX).

Definition tallies_ok (p : Proposal) : Prop := is_u64 (pp_votes_for p) /\ is_u64 (pp_votes_against p) /\ is_u64 (pp_votes_abstain p).

Lemma quorum_tenth supply : supply * QUORUM_BPS / 10000 = supply / 10.
Proof. unfold QUORUM_BPS. change 10000 with (10 * 1000). by rewrite Z.div_mul_cancel_r. Qed.

Section Verdict.
Context (supply : Z) (p : Proposal) (Hs : is_u64 supply) (Ht : tallies_ok p).

Lemma verdict_countable st : verdict supply p = Ok st -> countable supply p.
Proof.
  destruct Ht as (Hf & Ha & Hb). unfold verdict, countable, total_votes. intros H. rinv. rewrite quorum_tenth in H.
  split_and!; [ilia|unfold QUORUM_BPS in *; ilia|]. intros Hq He. rewrite He in H.
  rewrite (proj2 (Z.ltb_ge _ _)) in H by lia. rinv. unfold EMERGENCY_SUPERMAJORITY_BPS in *. ilia.
Qed.

Lemma verdict_exact : countable supply p -> verdict supply p = Ok (if decide (passes supply p) then Passed else Defeated).
Proof.
  destruct Ht as (Hf & Ha & Hb). unfold countable, verdict, total_votes. intros (Hn & Hq & He).
  rewrite (checked_in _ _ (pp_votes_for p + pp_votes_against p)) by ilia. cbn [ok_or rbind].
  rewrite (checked_in _ _ (_ + pp_votes_abstain p)) by ilia. cbn [ok_or rbind].
  unfold QUORUM_BPS at 1. rewrite checked_in by ilia. cbn [ok_or rbind]. rewrite quorum_tenth.
  case_decide as Hps; unfold passes, total_votes in Hps.
  - destruct Hps as [Hge Hm]. rewrite (proj2 (Z.ltb_ge _ _)) by lia. destruct (pp_is_emergency p).
    + specialize (He Hge eq_refl). unfold EMERGENCY_SUPERMAJORITY_BPS. rewrite checked_in by ilia. cbn [ok_or rbind].
      by rewrite (proj2 (Z.leb_le _ _)) by lia.
    + by rewrite (proj2 (Z.ltb_lt _ _)) by lia.
  - destruct (Z.ltb_spec (pp_votes_for p + pp_votes_against p + pp_votes_abstain p) (supply / 10)) as [|Hge]; [done|].
    destruct (pp_is_emergency p).
    + specialize (He Hge eq_refl). unfold EMERGENCY_SUPERMAJORITY_BPS. rewrite checked_in by ilia. cbn [ok_or rbind].
      by rewrite (proj2 (Z.leb_gt _ _)) by lia.
    + by rewrite (proj2 (Z.ltb_ge _ _)) by lia.
Qed.

Lemma verdict_ok st :
  verdict supply p = Ok st <-> countable supply p /\ st = if decide (passes supply p) then Passed else Defeated.
Proof.
  split; [|intros [Hc ->]; by apply verdict_exact].
  intros H. pose proof (verdict_countable _ H) as Hc. split; [done|]. rewrite (verdict_exact Hc) in H. by injection H as <-.
Qed.
End Verdict.

(** ** The life of a proposal *)

Section Life.
Context {E : Env} {BG : Borsh GovernanceState} {BP : Borsh Proposal} {BV : Borsh VoteRecord} {BD : Borsh Delegation}
  {BI : Borsh GovernanceInstruction}.
Context {LG : BorshLaws GovernanceState} {LP : BorshLaws Proposal} {LV : BorshLaws VoteRecord} {LD : BorshLaws Delegation}
  {LI : BorshLaws GovernanceInstruction}.
Context {MG : BorshMeasured GovernanceState governance_len} {MP : BorshMeasured Proposal proposal_len}
  {SV : BorshSized VoteRecord VOTE_RECORD_LEN}.

(** A proposal as it is created at time [now]. *)
Definition fresh (now : Z) (p : Proposal) : Prop :=
  pp_status p = Voting /\ pp_voting_start p = now /\
  pp_voting_end p = now + (if pp_is_emergency p then EMERGENCY_VOTING_PERIOD_SECS else VOTING_PERIOD_SECS) /\
  pp_execution_time p = pp_voting_end p + EXECUTION_DELAY_SECS /\ total_votes p = 0 /\ tallies_ok p.

(** What each instruction does to it at time [now]; [shown] is the staked supply
    that the governance account of the instruction gives. *)
Inductive pstep (now : Z) (shown : option Z) : GovernanceInstruction -> Proposal -> Proposal -> Prop :=
| step_vote p choice weight p' :
    pp_status p = Voting -> now <= pp_voting_end p -> is_u64 weight -> tally choice weight p = Ok p' ->
    pstep now shown (CastVote choice weight) p p'
| step_finalize p supply st :
    pp_status p = Voting -> pp_voting_end p <= now -> shown = Some supply -> is_u64 supply -> verdict supply p = Ok st ->
    pstep now shown FinalizeVoting p (set_status st p)
| step_execute p :
    pp_status p = Passed -> pp_execution_time p <= now -> pstep now shown ExecuteProposal p (set_status Executed p)
| step_veto p :
    pp_status p = Passed -> now <= pp_voting_end p + VETO_WINDOW_SECS ->
    pstep now shown VetoProposal p (set_status Vetoed p)
| step_cancel p : pp_status p = Voting -> pstep now shown CancelProposal p (set_status Cancelled p).

(** The proposals that exist at a time. *)
Inductive reachable : Z -> Proposal -> Prop :=
| reach_create now p : fresh now p -> reachable now p
| reach_wait t now p : reachable t p -> t <= now -> reachable now p
| reach_step now shown i p p' : reachable now p -> pstep now shown i p p' -> reachable now p'.

(** The schedule of a proposal, and what its status says about its votes. *)
Record life_inv (t : Z) (p : Proposal) : Prop := {
  li_tallies : tallies_ok p;
  li_end : pp_voting_end p = pp_voting_start p + (if pp_is_emergency p then EMERGENCY_VOTING_PERIOD_SECS else VOTING_PERIOD_SECS);
  li_execution : pp_execution_time p = pp_voting_end p + EXECUTION_DELAY_SECS;
  li_start : pp_voting_start p <= t;
  li_decided : pp_status p ∈ [Passed; Vetoed; Executed] -> pp_voting_end p <= t /\ exists supply, passes supply p;
  li_executed : pp_status p = Executed -> pp_execution_time p <= t;
}.

Lemma tally_ok choice weight p p' : is_u64 weight -> tallies_ok p -> tally choice weight p = Ok p' ->
  tallies_ok p' /\ total_votes p' = total_votes p + weight /\
  exists f a b, p' = with_status (pp_status p) f a b p.
Proof.
  intros Hw (Hf & Ha & Hb). unfold tally, tallies_ok, total_votes. intros H.
  destruct choice; rinv; simpl; (split; [split_and!; ilia|split; [lia|by eexists _, _, _]]).
Qed.

(** The status is none of a list. *)
Ltac undecided := let Hin := fresh in intros Hin; exfalso; rewrite !elem_of_cons, elem_of_nil in Hin; naive_solver.

Lemma life_step now shown i p p' : life_inv now p -> pstep now shown i p p' -> life_inv now p'.
Proof.
  intros [Ht He Hx Hs Hd Hex] Hst. destruct Hst as [p ch w p' Hv Hn Hw Htl|p supply st Hv Hn Hsh Hsu Hvd|p Hp Hn|p Hp Hn|p Hv].
  - apply tally_ok in Htl as (Ht' & _ & f & a & b & ->); [|done..]. split; simpl; try done; rewrite Hv; undecided.
  - apply verdict_ok in Hvd as [_ ->]; [|done..]. split; simpl; try done; [|by case_decide].
    case_decide as Hps; [intros _; split; [done|by exists supply]|undecided].
  - destruct Hd as [? ?]; [rewrite Hp; set_solver|]. by split.
  - destruct Hd as [? ?]; [rewrite Hp; set_solver|]. by split.
  - split; simpl; try done. undecided.
Qed.

Lemma reachable_inv t p : reachable t p -> life_inv t p.
Proof.
  induction 1 as [now p (Hv & Hs & He & Hx & _ & Ht)|t now p _ [Ht He Hx Hs Hd Hex] Hle|now shown i p p' _ IH Hst].
  - split; try done; rewrite ?Hv; [by subst|lia|undecided|done].
  - split; try done; [lia| |]; intros Hin; [destruct (Hd Hin); split; [lia|done]|specialize (Hex Hin); lia].
  - by eapply life_step.
Qed.

(** The supply of the last count: that of the last successful [FinalizeVoting]. *)
Definition recount (i : GovernanceInstruction) (shown counted : option Z) : option Z :=
  match i with FinalizeVoting => shown | _ => counted end.

(** A decision was made by the supply of the count. *)
Definition decided_by (counted : option Z) (p : Proposal) : Prop :=
  pp_status p ∈ [Passed; Vetoed; Executed] -> exists supply, counted = Some supply /\ passes supply p.

Lemma decided_step now shown counted i p p' :
  tallies_ok p -> pstep now shown i p p' -> decided_by counted p -> decided_by (recount i shown counted) p'.
Proof.
  intros Ht Hst Hd. destruct Hst as [p ch w p' Hv Hn Hw Htl|p supply st Hv Hn Hsh Hsu Hvd|p Hp Hn|p Hp Hn|p Hv]; unfold decided_by.
  - apply tally_ok in Htl as (_ & _ & f & a & b & ->); [|done..]. simpl. rewrite Hv. undecided.
  - apply verdict_ok in Hvd as [_ ->]; [|done..]. simpl. case_decide; [intros _; by exists supply|undecided].
  - intros _. apply Hd. rewrite Hp. set_solver.
  - intros _. apply Hd. rewrite Hp. set_solver.
  - simpl. undecided.
Qed.

(** ** The instructions *)

Lemma pstep_well_typed now shown i p p' : well_typed p -> pstep now shown i p p' -> well_typed p' /\ proposal_len p' = proposal_len p.
Proof.
  intros (? & ? & ? & ? & ? & ? & Hf & Ha & Hb & ? & ?) Hst.
  destruct Hst as [p ch w p' _ _ Hw Htl| | | |]; [|by split..].
  apply tally_ok in Htl as ((? & ? & ?) & _ & f & a & b & ->); [|done..]. by split.
Qed.

Context (cx : Ctx).
Abbreviation now := (unix_timestamp (cx_clock cx)).

(** The supply in the governance account of an instruction, the second one. *)
Definition shown_supply (m : gmap Pubkey Account) : option Z :=
  ia ← cx_accounts cx !! 1%nat;
  g ← try_from_slice (A := GovernanceState) (acc_data (get_acc m (ia_key ia)));
  Some (gs_total_staked_supply g).

(** Who may give an instruction on the proposal [p]. *)
Definition entitled (i : GovernanceInstruction) (p : Proposal) (m : gmap Pubkey Account) : Prop :=
  match i with
  | CastVote _ _ | ExecuteProposal => exists k, signed cx k
  | FinalizeVoting => True
  | VetoProposal => exists g kg c, ia_key <$> cx_accounts cx !! 1%nat = Some kg /\ holds m kg g /\ c ∈ gs_council g /\ signed cx c
  | CancelProposal => signed cx (pp_proposer p)
  | _ => False
  end.
Definition on_proposal (i : GovernanceInstruction) : Prop :=
  match i with CastVote _ _ | FinalizeVoting | ExecuteProposal | VetoProposal | CancelProposal => True | _ => False end.

Lemma proposal_instruction_step data i s s' :
  try_from_slice data = Some i -> on_proposal i -> process_instruction cx data s = Ok (tt, s') ->
  exists k p p', ia_key <$> cx_accounts cx !! 0%nat = Some k /\ holds (mem s) k p /\ pstep now (shown_supply (mem s)) i p p' /\
    entitled i p (mem s) /\ holds (mem s') k p'.
Proof.
  intros Hde Ho H. apply try_from_slice_some in Hde as Hw. destruct Hw as [Wi _].
  assert (exists k p p' m1, ia_key <$> cx_accounts cx !! 0%nat = Some k /\ holds (mem s) k p /\ pstep now (shown_supply (mem s)) i p p' /\
    entitled i p (mem s) /\ zlen (acc_data (get_acc m1 k)) = zlen (acc_data (get_acc (mem s) k)) /\ mem s' = stored p' k m1)
    as (k & p & p' & m1 & Hk & Hp & Hst & He & Hz & ->).
  - unfold process_instruction in H. rewrite Hde in H. cbn [ok_or lift pbind] in H. destruct i; try done.
    all: unfold process_cast_vote, process_finalize_voting, process_execute_proposal, process_veto_proposal, process_cancel_proposal in H;
      pinv; bool_to_prop; hyp (cx_accounts cx = _) as Hacc; read Proposal as p Hp;
      repeat match goal with Hc : clock_from_account_info _ _ _ = Ok _ |- _ => apply clock_account_ok in Hc as (_ & -> & ->) end.
    all: repeat match goal with Hb : bool_decide _ = true |- _ => apply bool_decide_eq_true_1 in Hb end.
    all: match goal with |- context [stored ?q ?k ?m1] => exists k, p, q, m1 end; rewrite Hacc;
      (split_and!; [done|exact Hp| |try (match goal with Hs : ia_is_signer ?j = true |- _ => exists (ia_key j); by_signer end)|first [by apply stored_zlen|done]|done]).
    + by eapply step_vote.
    + hyp (holds _ _ _) as Hg. pose proof (holds_well_typed _ _ _ Hg) as Wg.
      eapply (step_finalize _ _ _ (gs_total_staked_supply _)); [done|done| |apply Wg|done].
      unfold shown_supply. rewrite Hacc. cbn. unfold holds in Hg. by rewrite Hg.
    + done.
    + by apply step_execute.
    + by apply step_veto.
    + hyp (contains _ _ = true) as Hc. apply contains_elem in Hc. eexists _, _, _. split_and!; [done..|by_signer].
    + by apply step_cancel.
    + hyp (_ = ia_key _) as He. cbn [entitled]. rewrite He. by_signer.
  - exists k, p, p'. split_and!; [done..|]. apply try_from_slice_some in Hp as [Wp Hd].
    destruct (pstep_well_typed _ _ _ _ _ Wp Hst) as [Wp' Hl]. apply holds_overwrite; [|done].
    rewrite Hz, Hd, !borsh_measured by done. done.
Qed.

Lemma create_proposal_effect desc ty em s s' :
  process_create_proposal cx desc ty em s = Ok (tt, s') ->
  exists kg k (g : GovernanceState) p, ia_key <$> cx_accounts cx !! 0%nat = Some kg /\ ia_key <$> cx_accounts cx !! 1%nat = Some k /\
    holds (mem s) kg g /\ fresh now p /\ signed cx (pp_proposer p) /\ pp_id p = gs_proposal_count g /\
    k = (find_program_address [PROPOSAL_SEED; le_bytes 8 (pp_id p)] (cx_program_id cx)).1 /\
    mem s' = stored p k (stored (with_count (gs_proposal_count g + 1) (gs_total_staked_supply g) g) kg (mem s)).
Proof.
  intros H. unfold process_create_proposal in H. pinv. hyp (clock_from_account_info _ _ _ = Ok _) as Hc.
  apply clock_account_ok in Hc as (_ & -> & ->). bool_to_prop. hyp (cx_accounts cx = _) as Hacc. read GovernanceState as g Hg.
  match goal with |- context [stored ?p ?k (stored _ ?kg _)] => exists kg, k, g, p end. rewrite Hacc.
  hyp (find_program_address _ _ = _) as Hf.
  split_and!; first [done|by vm_compute|simpl; by_signer|simpl; by rewrite Hf].
Qed.

(** ** Votes *)

Lemma cast_vote_effect choice weight s s' :
  process_cast_vote cx choice weight s = Ok (tt, s') ->
  exists k kv v p p' vr, ia_key <$> cx_accounts cx !! 0%nat = Some k /\ ia_key <$> cx_accounts cx !! 2%nat = Some v /\
    holds (mem s) k p /\ tally choice weight p = Ok p' /\
    kv = (find_program_address [VOTE_RECORD_SEED; le_bytes 8 (pp_id p); key_bytes v] (cx_program_id cx)).1 /\
    occupied vr_is_initialized (acc_data (get_acc (mem s) kv)) = false /\
    vr = mkVoteRecord true (pp_id p) v choice weight now
      (find_program_address [VOTE_RECORD_SEED; le_bytes 8 (pp_id p); key_bytes v] (cx_program_id cx)).2 /\
    mem s' = stored p' k (stored vr kv (mem s)).
Proof.
  intros H. unfold process_cast_vote in H. pinv. hyp (clock_from_account_info _ _ _ = Ok _) as Hc.
  apply clock_account_ok in Hc as (_ & -> & ->). bool_to_prop. hyp (cx_accounts cx = _) as Hacc. read Proposal as p Hp.
  hyp (tally _ _ _ = Ok _) as Ht. hyp (find_program_address _ _ = _) as Hf.
  match goal with |- context [stored ?p' ?k (stored ?vr ?kv _)] => eexists k, kv, _, p, p', vr end. rewrite Hacc.
  split_and!; try done; rewrite Hf; [done|]. simpl. f_equal. unfold tally in Ht. by destruct choice; rinv.
Qed.
End Life.

(** ** The proposal account over time *)

Section Course.
Context {E : Env} {BG : Borsh GovernanceState} {BP : Borsh Proposal} {BV : Borsh VoteRecord} {BD : Borsh Delegation}
  {BI : Borsh GovernanceInstruction}.
Context {LG : BorshLaws GovernanceState} {LP : BorshLaws Proposal} {LV : BorshLaws VoteRecord} {LD : BorshLaws Delegation}
  {LI : BorshLaws GovernanceInstruction}.
Context {MG : BorshMeasured GovernanceState governance_len} {MP : BorshMeasured Proposal proposal_len}
  {SV : BorshSized VoteRecord VOTE_RECORD_LEN}.
Context (k : Pubkey).

(** The accounts at a time, as they concern the proposal account [k]: it holds a
    proposal that was just created, an instruction on it is run at the time of
    the clock, or something happens that does not write its data.  The second
    index is the supply that the last successful count read. *)
Inductive course : Z -> option Z -> gmap Pubkey Account -> Prop :=
| course_create t m p : holds m k p -> fresh t p -> course t None m
| course_run t counted cx data i s s' :
    course t counted (mem s) -> t <= unix_timestamp (cx_clock cx) ->
    try_from_slice data = Some i -> on_proposal i -> ia_key <$> cx_accounts cx !! 0%nat = Some k ->
    process_instruction cx data s = Ok (tt, s') ->
    course (unix_timestamp (cx_clock cx)) (recount i (shown_supply cx (mem s)) counted) (mem s')
| course_other t t' counted m m' :
    course t counted m -> t <= t' -> acc_data (get_acc m' k) = acc_data (get_acc m k) -> course t' counted m'.

Lemma course_inv t counted m :
  course t counted m -> exists p, holds m k p /\ reachable t p /\ decided_by counted p.
Proof.
  induction 1 as [t m p Hp Hf|t counted cx data i s s' _ (p & Hp & Hr & Hd) Ht Hde Ho Hk H|t t' counted m m' _ (p & Hp & Hr & Hd) Ht Hm].
  - exists p. split_and!; [done|by apply reach_create|]. destruct Hf as (Hv & _). unfold decided_by. rewrite Hv.
    intros Hin. rewrite !elem_of_cons, elem_of_nil in Hin. naive_solver.
  - destruct (proposal_instruction_step cx _ _ _ _ Hde Ho H) as (k' & q & p' & Hk' & Hq & Hst & _ & Hp').
    rewrite Hk in Hk'. injection Hk' as <-. pose proof (holds_inj _ _ _ _ Hp Hq) as <-. exists p'. split_and!; [done| |].
    + eapply reach_step; [by eapply reach_wait|exact Hst].
    + eapply decided_step; [apply (reachable_inv _ _ Hr)|exact Hst|exact Hd].
  - exists p. split_and!; [|by eapply reach_wait|done]. by eapply holds_data; [symmetry; exact Hm|].
Qed.
End Course.
