(* ===== verification/GovernanceTheorems.v ===== *)
(** * GovernanceTheorems: the properties of the governance program

    The theorems about [src/programs/governance/src/lib.rs], and the evaluation
    of the program on concrete accounts in the Borsh wire format. *)

From Stdlib Require Import Strings.Byte.
From S2P Require Import Prelude Borsh Accounts System Invoke Execution Concrete Cpi Ledger Records Wire Governance GovernanceProofs.
Open Scope Z_scope.

(** ** The data on the wire *)

Definition type_index (t : ProposalType) : nat :=
  match t with ParameterChange _ _ => 0 | TreasurySpend _ _ => 1 | ProgramUpgrade _ _ => 2 | Emergency _ => 3 end.
Definition codec_type : codec ProposalType :=
  codec_variants
    [mkVariant (codec_pair (codec_array 32) (codec_array 32)) (fun '(k, v) => ParameterChange k v)
       (fun t => match t with ParameterChange k v => Some (k, v) | _ => None end);
     mkVariant (codec_pair codec_pubkey (codec_uint 8)) (fun '(r, a) => TreasurySpend r a)
       (fun t => match t with TreasurySpend r a => Some (r, a) | _ => None end);
     mkVariant (codec_pair codec_pubkey codec_pubkey) (fun '(p, b) => ProgramUpgrade p b)
       (fun t => match t with ProgramUpgrade p b => Some (p, b) | _ => None end);
     mkVariant (codec_array 64) Emergency (fun t => match t with Emergency p => Some p | _ => None end)]
    type_index.
Definition codec_proposal_status : codec ProposalStatus := codec_enum [Voting; Passed; Defeated; Vetoed; Executed; Cancelled].
Definition codec_choice : codec VoteChoice := codec_enum [For; Against; Abstain].

Definition codec_governance : codec GovernanceState :=
  codec_iso (fun '(i, (a, (n, (s, (c, b))))) => mkGovernance i a n s c b)
    (fun g => (gs_is_initialized g, (gs_authority g, (gs_proposal_count g, (gs_total_staked_supply g, (gs_council g, gs_bump g))))))
    (codec_pair codec_bool (codec_pair codec_pubkey (codec_pair (codec_uint 8) (codec_pair (codec_uint 8)
      (codec_pair (codec_vec codec_pubkey) (codec_uint 1)))))).
Definition codec_proposal : codec Proposal :=
  codec_iso
    (fun '(i, (n, (p, (d, (t, (s, (v, (e, (f, (a, (b, (m, (x, u))))))))))))) => mkProposal i n p d t s v e f a b m x u)
    (fun p => (pp_is_initialized p, (pp_id p, (pp_proposer p, (pp_description p, (pp_proposal_type p, (pp_status p,
       (pp_voting_start p, (pp_voting_end p, (pp_votes_for p, (pp_votes_against p, (pp_votes_abstain p, (pp_is_emergency p,
       (pp_execution_time p, pp_bump p))))))))))))))
    (codec_pair codec_bool (codec_pair (codec_uint 8) (codec_pair codec_pubkey (codec_pair codec_bytes (codec_pair codec_type
      (codec_pair codec_proposal_status (codec_pair (codec_int 8) (codec_pair (codec_int 8) (codec_pair (codec_uint 8)
      (codec_pair (codec_uint 8) (codec_pair (codec_uint 8) (codec_pair codec_bool (codec_pair (codec_int 8)
      (codec_uint 1)))))))))))))).
Definition codec_vote : codec VoteRecord :=
  codec_iso (fun '(i, (n, (v, (c, (w, (t, b)))))) => mkVoteRecord i n v c w t b)
    (fun r => (vr_is_initialized r, (vr_proposal_id r, (vr_voter r, (vr_choice r, (vr_weight r, (vr_timestamp r, vr_bump r)))))))
    (codec_pair codec_bool (codec_pair (codec_uint 8) (codec_pair codec_pubkey (codec_pair codec_choice
      (codec_pair (codec_uint 8) (codec_pair (codec_int 8) (codec_uint 1))))))).
Definition codec_delegation : codec Delegation :=
  codec_iso (fun '(i, (d, (e, (w, (t, b))))) => mkDelegation i d e w t b)
    (fun d => (dg_is_initialized d, (dg_delegator d, (dg_delegate d, (dg_weight d, (dg_timestamp d, dg_bump d))))))
    (codec_pair codec_bool (codec_pair codec_pubkey (codec_pair codec_pubkey (codec_pair (codec_uint 8)
      (codec_pair (codec_int 8) (codec_uint 1)))))).

Definition governance_instruction_index (i : GovernanceInstruction) : nat :=
  match i with
  | InitializeGovernance _ _ => 0 | CreateProposal _ _ _ => 1 | CastVote _ _ => 2 | DelegateVote _ _ => 3
  | RevokeDelegation => 4 | FinalizeVoting => 5 | ExecuteProposal => 6 | VetoProposal => 7 | CancelProposal => 8
  | UpdateStakedSupply _ => 9
  end.
Definition codec_governance_instruction : codec GovernanceInstruction :=
  codec_variants
    [mkVariant (codec_pair (codec_vec codec_pubkey) (codec_uint 8)) (fun '(c, s) => InitializeGovernance c s)
       (fun i => match i with InitializeGovernance c s => Some (c, s) | _ => None end);
     mkVariant (codec_pair codec_bytes (codec_pair codec_type codec_bool)) (fun '(d, (t, e)) => CreateProposal d t e)
       (fun i => match i with CreateProposal d t e => Some (d, (t, e)) | _ => None end);
     mkVariant (codec_pair codec_choice (codec_uint 8)) (fun '(c, w) => CastVote c w)
       (fun i => match i with CastVote c w => Some (c, w) | _ => None end);
     mkVariant (codec_pair codec_pubkey (codec_uint 8)) (fun '(d, w) => DelegateVote d w)
       (fun i => match i with DelegateVote d w => Some (d, w) | _ => None end);
     mkVariant codec_unit (fun _ => RevokeDelegation) (fun _ => Some tt);
     mkVariant codec_unit (fun _ => FinalizeVoting) (fun _ => Some tt);
     mkVariant codec_unit (fun _ => ExecuteProposal) (fun _ => Some tt);
     mkVariant codec_unit (fun _ => VetoProposal) (fun _ => Some tt);
     mkVariant codec_unit (fun _ => CancelProposal) (fun _ => Some tt);
     mkVariant (codec_uint 8) UpdateStakedSupply (fun i => match i with UpdateStakedSupply s => Some s | _ => None end)]
    governance_instruction_index.

Lemma codec_proposal_status_laws : codec_laws codec_proposal_status.
Proof. apply codec_enum_laws; [repeat constructor; set_solver|simpl; lia]. Qed.
Lemma codec_proposal_status_wf s : c_wf codec_proposal_status s <-> True.
Proof. split; [done|]. intros _. destruct s; simpl; set_solver. Qed.
Lemma codec_choice_laws : codec_laws codec_choice.
Proof. apply codec_enum_laws; [repeat constructor; set_solver|simpl; lia]. Qed.
Lemma codec_choice_wf c : c_wf codec_choice c <-> True.
Proof. split; [done|]. intros _. destruct c; simpl; set_solver. Qed.

Lemma codec_type_laws : codec_laws codec_type.
Proof.
  apply codec_variants_laws; [simpl; lia|repeat apply Forall_cons_2; simpl; auto 10 with codec| |].
  - intros [|[|[|[|]]]] v a [= <-]; simpl in a; repeat match goal with x : _ * _ |- _ => destruct x end; done.
  - intros [] v a [= <-]; simpl; by intros [= <-].
Qed.
Lemma codec_type_wf t : c_wf codec_type t <-> proposal_type_ok t.
Proof. symmetry. destruct t; unfold proposal_type_ok, codec_type; codec_variant_typed. Qed.
Lemma codec_type_len : c_len codec_type type_len.
Proof.
  intros t Ht. apply codec_type_wf in Ht. destruct t; simpl in Ht; destruct_and?; unfold zlen in *; simpl;
    rewrite ?length_app, ?length_rev, ?length_le_bytes; lia.
Qed.
#[local] Hint Resolve codec_proposal_status_laws codec_choice_laws codec_type_laws : codec.
#[local] Hint Rewrite codec_proposal_status_wf codec_choice_wf codec_type_wf : codec_wf.
#[local] Hint Resolve codec_type_len : codec_len.

Lemma codec_governance_laws : codec_laws codec_governance.
Proof. apply codec_iso_laws; [by intros []|by intros (?&?&?&?&?&?)|]. auto 20 with codec. Qed.
Lemma codec_governance_wf g : well_typed g <-> c_wf codec_governance g.
Proof. unfold codec_governance, well_typed, GovernanceState_well_typed. codec_typed. Qed.
Lemma codec_governance_len : c_len codec_governance governance_len.
Proof. codec_len. intros g. unfold governance_len. simpl. lia. Qed.
Lemma codec_proposal_laws : codec_laws codec_proposal.
Proof. apply codec_iso_laws; [by intros []|by intros (?&?&?&?&?&?&?&?&?&?&?&?&?&?)|]. auto 20 with codec. Qed.
Lemma codec_proposal_wf p : well_typed p <-> c_wf codec_proposal p.
Proof. unfold codec_proposal, well_typed, Proposal_well_typed. codec_typed. Qed.
Lemma codec_proposal_len : c_len codec_proposal proposal_len.
Proof. codec_len. intros p. unfold proposal_len. simpl. lia. Qed.
Lemma codec_vote_laws : codec_laws codec_vote.
Proof. apply codec_iso_laws; [by intros []|by intros (?&?&?&?&?&?&?)|]. auto 20 with codec. Qed.
Lemma codec_vote_wf v : well_typed v <-> c_wf codec_vote v.
Proof. unfold codec_vote, well_typed, VoteRecord_well_typed. codec_typed. Qed.
Lemma codec_vote_size : c_size codec_vote VOTE_RECORD_LEN.
Proof. codec_size. Qed.
Lemma codec_delegation_laws : codec_laws codec_delegation.
Proof. apply codec_iso_laws; [by intros []|by intros (?&?&?&?&?&?)|]. auto 20 with codec. Qed.
Lemma codec_delegation_wf d : well_typed d <-> c_wf codec_delegation d.
Proof. unfold codec_delegation, well_typed, Delegation_well_typed. codec_typed. Qed.

Lemma codec_governance_instruction_laws : codec_laws codec_governance_instruction.
Proof.
  apply codec_variants_laws; [simpl; lia|repeat apply Forall_cons_2; simpl; auto 10 with codec| |].
  - intros [|[|[|[|[|[|[|[|[|[|]]]]]]]]]] v a [= <-]; simpl in a;
      repeat match goal with x : _ * _ |- _ => destruct x | x : unit |- _ => destruct x end; done.
  - intros [] v a [= <-]; simpl; by intros [= <-].
Qed.
Lemma codec_governance_instruction_wf i : well_typed i <-> c_wf codec_governance_instruction i.
Proof. destruct i; unfold well_typed, GovernanceInstruction_well_typed, codec_governance_instruction; codec_variant_typed. Qed.

#[global] Instance governance_borsh : Borsh GovernanceState := borsh_of_codec codec_governance.
#[global] Instance governance_borsh_laws : BorshLaws GovernanceState := borsh_of_codec_laws _ codec_governance_laws codec_governance_wf.
#[global] Instance governance_borsh_measured : BorshMeasured GovernanceState governance_len :=
  borsh_of_codec_measured _ _ codec_governance_len codec_governance_wf.
#[global] Instance proposal_borsh : Borsh Proposal := borsh_of_codec codec_proposal.
#[global] Instance proposal_borsh_laws : BorshLaws Proposal := borsh_of_codec_laws _ codec_proposal_laws codec_proposal_wf.
#[global] Instance proposal_borsh_measured : BorshMeasured Proposal proposal_len :=
  borsh_of_codec_measured _ _ codec_proposal_len codec_proposal_wf.
#[global] Instance vote_borsh : Borsh VoteRecord := borsh_of_codec codec_vote.
#[global] Instance vote_borsh_laws : BorshLaws VoteRecord := borsh_of_codec_laws _ codec_vote_laws codec_vote_wf.
#[global] Instance vote_borsh_sized : BorshSized VoteRecord VOTE_RECORD_LEN := borsh_of_codec_sized _ _ codec_vote_size codec_vote_wf.
#[global] Instance delegation_borsh : Borsh Delegation := borsh_of_codec codec_delegation.
#[global] Instance delegation_borsh_laws : BorshLaws Delegation := borsh_of_codec_laws _ codec_delegation_laws codec_delegation_wf.
#[global] Instance governance_instruction_borsh : Borsh GovernanceInstruction := borsh_of_codec codec_governance_instruction.
#[global] Instance governance_instruction_borsh_laws : BorshLaws GovernanceInstruction :=
  borsh_of_codec_laws _ codec_governance_instruction_laws codec_governance_instruction_wf.

(** A realm with the council of 801 and 802 and an emergency proposal of 300 that
    ends at time 1000; 401 votes. *)
Module GovernanceDemo.
Definition PROGRAM : Pubkey := 100.
Definition supply : Z := 10000.
Definition realm : GovernanceState := mkGovernance true 300 1 supply [801; 802] 255.
Definition proposal (st : ProposalStatus) : Proposal :=
  mkProposal true 0 300 [Byte.x41] (TreasurySpend 900 5) st 1000 (1000 + 86400) 700 300 0 true (1000 + 86400 + 172800) 255.
Definition record_key : Pubkey := derive [VOTE_RECORD_SEED; le_bytes 8 0; key_bytes 401; [byte_of_Z 255]] PROGRAM.
Definition accounts (st : ProposalStatus) : list (Pubkey * Account) :=
  [(500, mkAccount 1000000 (borsh_ser realm) PROGRAM false); (600, mkAccount 1000000 (borsh_ser (proposal st)) PROGRAM false);
   (record_key, mkAccount 1000000 (replicate 59 Byte.x00) PROGRAM false); (401, mkAccount 5000 [] 0 false)].
Definition state (st : ProposalStatus) : PState := mkPState (store (accounts st)) (mkTA (store (accounts st)) 0 0).
Definition len (k : Pubkey) : Z := zlen (acc_data (get_acc (store (accounts Voting)) k)).

Definition vote_accounts : list AccountInfo :=
  [mkIA 600 false true; mkIA record_key false true; mkIA 401 true false; mkIA 401 false false; mkIA clock_id false false;
   mkIA 0 false false; mkIA rent_id false false].
Definition vote_cx (t : Z) : Ctx := demo_ctx PROGRAM vote_accounts t len.
Definition vote_data : list byte := borsh_ser (CastVote For 50).
Definition veto_cx (t : Z) : Ctx :=
  demo_ctx PROGRAM [mkIA 600 false true; mkIA 500 false false; mkIA 801 true false; mkIA clock_id false false] t len.

(** With the documented initial supply staked. *)
Definition rich : GovernanceState := mkGovernance true 300 1 500000000000000000 [801; 802] 255.
Definition rich_accounts : list (Pubkey * Account) :=
  [(500, mkAccount 1000000 (borsh_ser rich) PROGRAM false); (600, mkAccount 1000000 (borsh_ser (proposal Voting)) PROGRAM false)].
Definition rich_state : PState := mkPState (store rich_accounts) (mkTA (store rich_accounts) 0 0).
Definition finalize_cx : Ctx :=
  demo_ctx PROGRAM [mkIA 600 false true; mkIA 500 false false; mkIA clock_id false false] 90000 len.

(** The proposal from its creation to its execution: one voter has the quorum. *)
Definition after (cx : Ctx) (data : list byte) (s : PState) : PState :=
  match process_instruction cx data s with Ok (_, s') => s' | Err _ => s end.
Definition full_data : list byte := borsh_ser (CastVote For 1000).
Definition execute_cx : Ctx :=
  demo_ctx PROGRAM [mkIA 600 false true; mkIA 500 false false; mkIA 401 true false; mkIA clock_id false false] 260200 len.
Definition start_accounts : list (Pubkey * Account) :=
  [(500, mkAccount 1000000 (borsh_ser realm) PROGRAM false);
   (600, mkAccount 1000000 (borsh_ser (with_status Voting 0 0 0 (proposal Voting))) PROGRAM false);
   (record_key, mkAccount 1000000 (replicate 59 Byte.x00) PROGRAM false); (401, mkAccount 5000 [] 0 false)].
Definition start : PState := mkPState (store start_accounts) (mkTA (store start_accounts) 0 0).
Definition voted : PState := after (vote_cx 2000) full_data start.
Definition counted : PState := after finalize_cx (borsh_ser FinalizeVoting) voted.
Definition executed : PState := after execute_cx (borsh_ser ExecuteProposal) counted.

(** The vote record in an account with one byte more than the record. *)
Definition padded_accounts : list (Pubkey * Account) :=
  [(600, mkAccount 1000000 (borsh_ser (proposal Voting)) PROGRAM false);
   (record_key, mkAccount 1000000 (replicate 60 Byte.x00) PROGRAM false); (401, mkAccount 5000 [] 0 false)].
Definition padded_state : PState := mkPState (store padded_accounts) (mkTA (store padded_accounts) 0 0).

Lemma governance_runs :
  is_ok (process_instruction (vote_cx 2000) vote_data (state Voting)) &&
  is_ok (process_cast_vote (vote_cx 2000) For 50 (state Voting)) = true.
Proof. vm_compute. reflexivity. Qed.
End GovernanceDemo.

(** ** Properties *)

Section GovernanceProperties.
Context {E : Env} {BG : Borsh GovernanceState} {BP : Borsh Proposal} {BV : Borsh VoteRecord} {BD : Borsh Delegation}
  {BI : Borsh GovernanceInstruction}.
Context {LG : BorshLaws GovernanceState} {LP : BorshLaws Proposal} {LV : BorshLaws VoteRecord} {LD : BorshLaws Delegation}
  {LI : BorshLaws GovernanceInstruction}.
Context {MG : BorshMeasured GovernanceState governance_len} {MP : BorshMeasured Proposal proposal_len}
  {SV : BorshSized VoteRecord VOTE_RECORD_LEN}.

(** C7. Every instruction on a proposal is the step of its life that belongs to
    the instruction, by someone entitled: votes only in the voting period, the
    count only after it and with the supply that the governance account shows,
    execution only of a passed proposal after the time lock, the veto only by
    the council within its window, cancellation only by the proposer; and the
    account then holds a proposal that is reachable again. *)
Theorem proposal_lifecycle cx data i s s' :
  try_from_slice data = Some i -> on_proposal i -> process_instruction cx data s = Ok (tt, s') ->
  exists k p p', ia_key <$> cx_accounts cx !! 0%nat = Some k /\ holds (mem s) k p /\ holds (mem s') k p' /\
    entitled cx i p (mem s) /\ pstep (unix_timestamp (cx_clock cx)) (shown_supply cx (mem s)) i p p' /\
    forall t, t <= unix_timestamp (cx_clock cx) -> reachable t p -> reachable (unix_timestamp (cx_clock cx)) p'.
Proof.
  intros Hde Ho H. eapply proposal_instruction_step in H as (k & p & p' & Hk & Hp & Hst & He & Hp'); [|done..].
  exists k, p, p'. split_and!; try done. intros t Ht Hr. eapply reach_step; [|exact Hst]. by eapply reach_wait.
Qed.

(** C16. Over any sequence of runs of the instructions on a proposal account
    (votes, counts, execution, veto and cancellation) since the proposal was
    created, and of anything else that leaves its data alone, an executed
    proposal was counted with a staked supply that the governance account of
    that count showed, and its votes reached the quorum of that supply and the
    required majority; its voting period has been over for 48 hours, in which
    the council could veto it, and its schedule is that of its creation. *)
Theorem executed_proposal_sound k t counted m p :
  course k t counted m -> holds m k p -> pp_status p = Executed ->
  (exists supply, counted = Some supply /\ passes supply p) /\
  pp_voting_end p + VETO_WINDOW_SECS <= t /\
  pp_voting_end p = pp_voting_start p + (if pp_is_emergency p then EMERGENCY_VOTING_PERIOD_SECS else VOTING_PERIOD_SECS).
Proof.
  intros (q & Hq & Hr & Hd)%course_inv Hp He. pose proof (holds_inj _ _ _ _ Hp Hq) as <-.
  destruct (reachable_inv _ _ Hr) as [_ Hend Hx _ _ Hex]. specialize (Hex He).
  split_and!; [apply Hd; rewrite He; set_solver|unfold EXECUTION_DELAY_SECS, VETO_WINDOW_SECS in *; lia|done].
Qed.

(** The council can stop every proposal: until its execution becomes possible,
    and at that very moment, the veto of a council member succeeds, and the
    proposal is vetoed. *)
Theorem council_can_veto cx s t pr gv cm ck rest g p :
  cx_accounts cx = pr :: gv :: cm :: ck :: rest -> ia_is_signer cm = true -> ia_key ck = clock_id ->
  holds (mem s) (ia_key gv) g -> ia_key cm ∈ gs_council g ->
  holds (mem s) (ia_key pr) p -> reachable t p -> pp_status p = Passed ->
  unix_timestamp (cx_clock cx) <= pp_execution_time p ->
  exists s', process_veto_proposal cx s = Ok (tt, s') /\ holds (mem s') (ia_key pr) (set_status Vetoed p).
Proof.
  intros Hacc Hsig Hck Hg Hin Hp Hr Hst Hle. destruct (reachable_inv _ _ Hr) as [_ _ Hx _ _ _]. apply contains_elem in Hin.
  assert (is_i64 (pp_voting_end p + VETO_WINDOW_SECS)) as Hi.
  { apply holds_well_typed in Hp. destruct Hp as (_ & _ & _ & _ & _ & _ & _ & _ & _ & Hex & _).
    by rewrite Hx in Hex. }
  assert (Hv : holds (stored (set_status Vetoed p) (ia_key pr) (mem s)) (ia_key pr) (set_status Vetoed p)).
  { eapply holds_same_size; [exact Hp| |done]. apply holds_well_typed in Hp. exact Hp. }
  eexists. split; [|exact (Hv : holds (mem (mkPState _ (rt s))) _ _)]. unfold process_veto_proposal. rewrite Hacc.
  prun; [by rewrite Hsig|]. apply pbind_ok. eexists _, _. split; [by apply clock_account_ok|].
  prun; [by rewrite Hin|by pcheck|by rewrite checked_in|unfold EXECUTION_DELAY_SECS, VETO_WINDOW_SECS in *; by pcheck|].
  apply copy_into_ok. split; [|done]. apply try_from_slice_some in Hp as [Wp ->]. by rewrite !borsh_measured.
Qed.

(** C25. A vote counts once, when the account of its record has exactly the
    length of the record and is not the proposal account: after a vote of a
    voter on a proposal has gone through, and as long as the vote record stays,
    no further vote of that voter on that proposal does, whatever account of the
    proposal is passed.  (In a longer account the record is not read back, see
    [padded_record_votes_twice].) *)
Theorem vote_counts_once {L : EnvLaws} cx cx' choice weight choice' weight' s s' s2 s3 k v p p2 kv :
  ia_key <$> cx_accounts cx !! 0%nat = Some k -> ia_key <$> cx_accounts cx !! 2%nat = Some v -> holds (mem s) k p ->
  kv = (find_program_address [VOTE_RECORD_SEED; le_bytes 8 (pp_id p); key_bytes v] (cx_program_id cx)).1 ->
  zlen (acc_data (get_acc (mem s) kv)) = VOTE_RECORD_LEN -> kv <> k ->
  is_pubkey v -> is_u64 weight -> is_i64 (unix_timestamp (cx_clock cx)) ->
  process_cast_vote cx choice weight s = Ok (tt, s') ->
  cx_program_id cx' = cx_program_id cx -> ia_key <$> cx_accounts cx' !! 2%nat = Some v ->
  (forall k2, ia_key <$> cx_accounts cx' !! 0%nat = Some k2 -> holds (mem s2) k2 p2) -> pp_id p2 = pp_id p ->
  acc_data (get_acc (mem s2) kv) = acc_data (get_acc (mem s') kv) ->
  process_cast_vote cx' choice' weight' s2 <> Ok (tt, s3).
Proof.
  intros Hk Hv Hp Hkv Hz Hne Wv Ww Wt H Hpid Hv' Hp2 Hid Hd H2.
  apply cast_vote_effect in H as (k0 & kv0 & v0 & q & q' & vr & Hk0 & Hv0 & Hq & _ & Hkv0 & _ & Hvr & Hm).
  rewrite Hk in Hk0. injection Hk0 as <-. rewrite Hv in Hv0. injection Hv0 as <-.
  pose proof (holds_inj _ _ _ _ Hp Hq) as <-. rewrite <- Hkv in Hkv0. subst kv0.
  apply cast_vote_effect in H2 as (k2 & kv2 & v2 & q2 & q2' & vr2 & Hk2 & Hv2 & Hq2 & _ & Hkv2 & Hocc & _).
  rewrite Hv' in Hv2. injection Hv2 as <-. pose proof (holds_inj _ _ _ _ (Hp2 _ Hk2) Hq2) as <-.
  rewrite Hpid, Hid, <- Hkv in Hkv2. subst kv2.
  assert (Hh : holds (mem s') kv vr).
  { rewrite Hm. apply holds_stored_ne; [done|]. apply holds_stored; [done|]. rewrite Hvr.
    destruct (find_program_address _ _) as [pda bump] eqn:Hf. destruct (find_create _ _ _ _ Hf) as [Hb _].
    apply holds_well_typed in Hp. destruct Hp as (Hpi & _). done. }
  pose proof (holds_zlen _ _ _ Hh) as Hn. unfold holds in Hh. unfold occupied in Hocc. rewrite Hd, Hh, Hn in Hocc.
  by subst vr.
Qed.

(** Finding: the count of a proposal fails once more than 18446744073709551
    lamports (some 18.4 million PRISM, where [docs/tokenomics.md] has an initial
    supply of 500 million) are staked: the supply is multiplied by the 1000
    basis points of the quorum in 64 bits before it is divided, and no proposal
    can be finalized. *)
Theorem finalize_overflows cx s s' kg g :
  ia_key <$> cx_accounts cx !! 1%nat = Some kg -> holds (mem s) kg g -> 18446744073709551 < gs_total_staked_supply g ->
  process_finalize_voting cx s <> Ok (tt, s').
Proof.
  intros Hk Hg Hs H. pose proof (holds_well_typed _ _ _ Hg) as Wg. unfold process_finalize_voting in H. pinv. hyp (clock_from_account_info _ _ _ = Ok _) as Hc.
  apply clock_account_ok in Hc as (_ & -> & ->). hyp (cx_accounts cx = _) as Hacc. rewrite Hacc in Hk. injection Hk as <-.
  holds_eq. hyp (verdict _ _ = Ok _) as Hv. read Proposal as p Hp.
  apply holds_well_typed in Hp. destruct Hp as (_ & _ & _ & _ & _ & _ & ? & ? & ? & _).
  apply verdict_ok in Hv as [(_ & Hn & _) _]; [ilia|apply Wg|done].
Qed.
End GovernanceProperties.

(** ** The hypotheses can hold *)

Lemma proposal_lifecycle_witness : exists s' k p p',
  process_instruction (GovernanceDemo.vote_cx 2000) GovernanceDemo.vote_data (GovernanceDemo.state Voting) = Ok (tt, s') /\
  holds (mem (GovernanceDemo.state Voting)) k p /\ holds (mem s') k p' /\ pstep 2000 None (CastVote For 50) p p'.
Proof.
  destruct (process_instruction (GovernanceDemo.vote_cx 2000) GovernanceDemo.vote_data (GovernanceDemo.state Voting))
    as [[[] s']|e] eqn:Hrun; [|pose proof GovernanceDemo.governance_runs as Hk; rewrite Hrun in Hk; discriminate Hk].
  destruct (proposal_lifecycle (GovernanceDemo.vote_cx 2000) GovernanceDemo.vote_data (CastVote For 50)
    (GovernanceDemo.state Voting) s') as (k & p & p' & _ & Hp & Hp' & _ & Hst & _); [evaluate|exact I|exact Hrun|].
  exists s', k, p, p'. exact (conj eq_refl (conj Hp (conj Hp' Hst))).
Defined.

(** The proposal of the example is created, gets its votes, passes and is executed. *)
Lemma demo_passed : reachable (1000 + 86400) (GovernanceDemo.proposal Passed).
Proof.
  set (p0 := with_status Voting 0 0 0 (GovernanceDemo.proposal Voting)).
  assert (H0 : reachable 1000 p0) by (apply reach_create; repeat apply conj; evaluate).
  assert (H1 : reachable 1000 (with_status Voting 700 0 0 p0)).
  { eapply (reach_step _ None); [exact H0|]. apply (step_vote _ _ _ For 700); evaluate. }
  assert (H2 : reachable 1000 (GovernanceDemo.proposal Voting)).
  { eapply (reach_step _ None); [exact H1|]. apply (step_vote _ _ _ Against 300); evaluate. }
  eapply (reach_step _ (Some GovernanceDemo.supply)); [eapply reach_wait; [exact H2|lia]|].
  apply (step_finalize _ _ (GovernanceDemo.proposal Voting) GovernanceDemo.supply Passed); evaluate.
Qed.

Lemma executed_proposal_sound_witness :
  passes GovernanceDemo.supply (with_status Executed 1000 0 0 (GovernanceDemo.proposal Executed)).
Proof.
  assert (H0 : course 600 1000 None (mem GovernanceDemo.start)).
  { apply course_create with (with_status Voting 0 0 0 (GovernanceDemo.proposal Voting)); [evaluate|repeat apply conj; evaluate]. }
  assert (H1 : course 600 2000 None (mem GovernanceDemo.voted)).
  { refine (course_run 600 _ _ (GovernanceDemo.vote_cx 2000) GovernanceDemo.full_data (CastVote For 1000) _ _ H0 _ _ _ _ _); evaluate. }
  assert (H2 : course 600 90000 (Some GovernanceDemo.supply) (mem GovernanceDemo.counted)).
  { refine (course_run 600 _ _ GovernanceDemo.finalize_cx (borsh_ser FinalizeVoting) FinalizeVoting _ _ H1 _ _ _ _ _); evaluate. }
  assert (H3 : course 600 260200 (Some GovernanceDemo.supply) (mem GovernanceDemo.executed)).
  { refine (course_run 600 _ _ GovernanceDemo.execute_cx (borsh_ser ExecuteProposal) ExecuteProposal _ _ H2 _ _ _ _ _); evaluate. }
  destruct (executed_proposal_sound 600 260200 (Some GovernanceDemo.supply) (mem GovernanceDemo.executed)
    (with_status Executed 1000 0 0 (GovernanceDemo.proposal Executed)) H3) as [(supply & Hs & Hp) _]; [evaluate|evaluate|].
  injection Hs as <-. exact Hp.
Defined.

Lemma council_can_veto_witness : exists s',
  process_veto_proposal (GovernanceDemo.veto_cx 200000) (GovernanceDemo.state Passed) = Ok (tt, s') /\
  holds (mem s') 600 (GovernanceDemo.proposal Vetoed).
Proof.
  apply (council_can_veto (GovernanceDemo.veto_cx 200000) (GovernanceDemo.state Passed) (1000 + 86400)
    (mkIA 600 false true) (mkIA 500 false false) (mkIA 801 true false) (mkIA clock_id false false) [] GovernanceDemo.realm
    (GovernanceDemo.proposal Passed)); [evaluate|evaluate|evaluate|evaluate|simpl; left|evaluate|exact demo_passed|evaluate|evaluate].
Defined.

Lemma vote_counts_once_witness : exists s',
  process_cast_vote (GovernanceDemo.vote_cx 2000) For 50 (GovernanceDemo.state Voting) = Ok (tt, s') /\
  forall s3, process_cast_vote (GovernanceDemo.vote_cx 3000) Against 7 s' <> Ok (tt, s3).
Proof.
  destruct (process_cast_vote (GovernanceDemo.vote_cx 2000) For 50 (GovernanceDemo.state Voting)) as [[[] s']|e] eqn:Hrun;
    [|pose proof GovernanceDemo.governance_runs as Hk; rewrite Hrun, ?andb_false_r in Hk; discriminate Hk].
  exists s'. split; [exact eq_refl|]. intros s3.
  assert (Hp : exists p, holds (mem s') 600 p /\ pp_id p = 0).
  { pose proof (f_equal (fun r => match r with Ok (_, s1) => pp_id <$> try_from_slice (A := Proposal) (acc_data (get_acc (mem s1) 600))
      | Err _ => None end) Hrun) as He. cbv beta iota in He. unfold holds.
    destruct (try_from_slice (A := Proposal) (acc_data (get_acc (mem s') 600))) as [p|]; [|exfalso; vm_compute in He; discriminate He].
    exists p. split; [exact eq_refl|]. vm_compute in He. symmetry. by injection He. }
  destruct Hp as (p & Hp & Hid).
  apply (vote_counts_once (GovernanceDemo.vote_cx 2000) (GovernanceDemo.vote_cx 3000) For 50 Against 7
    (GovernanceDemo.state Voting) s' s' s3 600 401 (GovernanceDemo.proposal Voting) p GovernanceDemo.record_key);
    [evaluate|evaluate|evaluate|evaluate|evaluate|evaluate|evaluate|evaluate|evaluate|exact Hrun|exact eq_refl|evaluate| |exact Hid|exact eq_refl].
  intros k2 Hk2. injection Hk2 as <-. exact Hp.
Defined.

Lemma finalize_overflows_witness :
  18446744073709551 < gs_total_staked_supply GovernanceDemo.rich /\
  forall s', process_finalize_voting GovernanceDemo.finalize_cx GovernanceDemo.rich_state <> Ok (tt, s').
Proof.
  split; [evaluate|]. intros s'. apply (finalize_overflows GovernanceDemo.finalize_cx GovernanceDemo.rich_state s' 500 GovernanceDemo.rich); evaluate.
Defined.

(** Finding: the check for an earlier vote reads the record with
    [try_from_slice], which fails unless the account has exactly the length of
    the record, and takes a failure for a first vote; nothing checks the length.
    With a record account of 60 bytes the same voter votes twice. *)
Example padded_record_votes_twice :
  (let? '(_, s1) := process_cast_vote (GovernanceDemo.vote_cx 2000) For 50 GovernanceDemo.padded_state in
   let? '(_, s2) := process_cast_vote (GovernanceDemo.vote_cx 2000) For 50 s1 in
   let votes s := pp_votes_for <$> try_from_slice (acc_data (get_acc (mem s) 600)) in
   Ok (votes GovernanceDemo.padded_state, votes s1, votes s2))%result
  = Ok (Some 700, Some 750, Some 800).
Proof. vm_compute. reflexivity. Qed.
