(* ===== verification/SocialRecovery.v ===== *)
(** * SocialRecovery: recovery of an account by its guardians

    Models [src/programs/social-recovery/src/lib.rs]: the recovery configuration
    with its guardians and pending replacement, the recovery requests with
    their approvals, and the nine instructions. *)

From Stdlib Require Import Strings.Byte Strings.String.
From S2P Require Import Prelude Borsh Accounts System Invoke Execution Records.
Open Scope Z_scope.

(** ** Constants and data *)

Definition RECOVERY_CONFIG_SEED : list byte := list_byte_of_string "recovery_config".
Definition RECOVERY_REQUEST_SEED : list byte := list_byte_of_string "recovery_request".
Definition MIN_GUARDIANS : Z := 3.
Definition MAX_GUARDIANS : Z := 5.
Definition RECOVERY_DELAY_SECS : Z := 48 * 60 * 60.
Definition GUARDIAN_REPLACEMENT_DELAY_SECS : Z := 7 * 24 * 60 * 60.
Definition RECOVERY_EXPIRY_SECS : Z := 14 * 24 * 60 * 60.

Inductive RecoveryError :=
| AlreadyInitialized | NotInitialized | TooFewGuardians | TooManyGuardians | NotOwner | NotGuardian | DelayNotElapsed
| RecoveryCancelled | RecoveryExpired | AlreadyApproved | ThresholdNotMet | GuardianAlreadyExists
| ReplacementDelayNotElapsed | NoActiveRecovery | AlreadyExecuted | SelfGuardian | DuplicateGuardian | Overflow
| BadAccountData | InvalidStatus | ReplacementAlreadyPending | NoPendingReplacement.

(** [BadAccountData] is [RecoveryError::InvalidAccountData]. *)
Definition into (e : RecoveryError) : InstructionError :=
  Custom match e with
  | AlreadyInitialized => 0 | NotInitialized => 1 | TooFewGuardians => 2 | TooManyGuardians => 3 | NotOwner => 4
  | NotGuardian => 5 | DelayNotElapsed => 6 | RecoveryCancelled => 7 | RecoveryExpired => 8 | AlreadyApproved => 9
  | ThresholdNotMet => 10 | GuardianAlreadyExists => 11 | ReplacementDelayNotElapsed => 12 | NoActiveRecovery => 13
  | AlreadyExecuted => 14 | SelfGuardian => 15 | DuplicateGuardian => 16 | Overflow => 17 | BadAccountData => 18
  | InvalidStatus => 19 | ReplacementAlreadyPending => 20 | NoPendingReplacement => 21
  end.

(** The constructors of [RecoveryStatus]; those of [GuardianReplacementStatus]
    start with [Replacement]. *)
Inductive RecoveryStatus := Pending | Approved | Executed | Cancelled | Expired.
#[global] Instance RecoveryStatus_eq_dec : EqDecision RecoveryStatus.
Proof. solve_decision. Defined.
Inductive GuardianReplacementStatus := ReplacementPending | ReplacementExecuted | ReplacementCancelled.
#[global] Instance GuardianReplacementStatus_eq_dec : EqDecision GuardianReplacementStatus.
Proof. solve_decision. Defined.

Record GuardianReplacement := mkReplacement {
  gr_old_guardian : Pubkey;
  gr_new_guardian : Pubkey;
  gr_initiated_at : Z;
  gr_status : GuardianReplacementStatus;
}.

Record RecoveryConfig := mkConfig {
  rc_is_initialized : bool;
  rc_owner : Pubkey;
  rc_guardians : list Pubkey;
  rc_threshold : Z;
  rc_request_count : Z;
  rc_pending_replacement : option GuardianReplacement;
  rc_bump : Z;
}.

Record RecoveryRequest := mkRequest {
  rr_is_initialized : bool;
  rr_account_owner : Pubkey;
  rr_request_id : Z;
  rr_new_owner : Pubkey;
  rr_initiator : Pubkey;
  rr_status : RecoveryStatus;
  rr_approvals : list Pubkey;
  rr_threshold : Z;
  rr_created_at : Z;
  rr_approved_at : Z;
  rr_executed_at : Z;
  rr_bump : Z;
}.

Inductive RecoveryInstruction :=
| InitializeRecovery (guardians : list Pubkey)
| InitiateRecovery (new_owner : Pubkey)
| ApproveRecovery
| ExecuteRecovery
| CancelRecovery
| InitiateGuardianReplacement (old_guardian new_guardian : Pubkey)
| FinalizeGuardianReplacement
| CancelGuardianReplacement
| UpdateThreshold (new_threshold : Z).

Definition replacement_ok (r : GuardianReplacement) : Prop :=
  is_pubkey (gr_old_guardian r) /\ is_pubkey (gr_new_guardian r) /\ is_i64 (gr_initiated_at r).
Definition pending_ok (o : option GuardianReplacement) : Prop := match o with Some r => replacement_ok r | None => True end.
#[global] Instance RecoveryConfig_well_typed : WellTyped RecoveryConfig := fun c =>
  is_pubkey (rc_owner c) /\ (Forall is_pubkey (rc_guardians c) /\ is_u32 (zlen (rc_guardians c))) /\ is_u8 (rc_threshold c) /\
  is_u64 (rc_request_count c) /\ pending_ok (rc_pending_replacement c) /\ is_u8 (rc_bump c).
#[global] Instance RecoveryRequest_well_typed : WellTyped RecoveryRequest := fun r =>
  is_pubkey (rr_account_owner r) /\ is_u64 (rr_request_id r) /\ is_pubkey (rr_new_owner r) /\ is_pubkey (rr_initiator r) /\
  (Forall is_pubkey (rr_approvals r) /\ is_u32 (zlen (rr_approvals r))) /\ is_u8 (rr_threshold r) /\
  is_i64 (rr_created_at r) /\ is_i64 (rr_approved_at r) /\ is_i64 (rr_executed_at r) /\ is_u8 (rr_bump r).
#[global] Instance RecoveryInstruction_well_typed : WellTyped RecoveryInstruction := fun i =>
  match i with
  | InitializeRecovery guardians => Forall is_pubkey guardians /\ is_u32 (zlen guardians)
  | InitiateRecovery new_owner => is_pubkey new_owner
  | InitiateGuardianReplacement old_guardian new_guardian => is_pubkey old_guardian /\ is_pubkey new_guardian
  | UpdateThreshold new_threshold => is_u8 new_threshold
  | _ => True
  end.

(** The lengths of the encodings. *)
Definition config_len (c : RecoveryConfig) : Z :=
  47 + 32 * zlen (rc_guardians c) + match rc_pending_replacement c with Some _ => 74 | None => 1 end.
Definition request_len (r : RecoveryRequest) : Z := 136 + 32 * zlen (rr_approvals r).

(** Field updates. *)
Definition with_config (owner : Pubkey) (guardians : list Pubkey) (threshold count : Z)
    (pending : option GuardianReplacement) (c : RecoveryConfig) : RecoveryConfig :=
  mkConfig (rc_is_initialized c) owner guardians threshold count pending (rc_bump c).
Definition with_request (status : RecoveryStatus) (approvals : list Pubkey) (approved_at executed_at : Z)
    (r : RecoveryRequest) : RecoveryRequest :=
  mkRequest (rr_is_initialized r) (rr_account_owner r) (rr_request_id r) (rr_new_owner r) (rr_initiator r) status approvals
    (rr_threshold r) (rr_created_at r) approved_at executed_at (rr_bump r).
Definition set_status (status : RecoveryStatus) (r : RecoveryRequest) : RecoveryRequest :=
  with_request status (rr_approvals r) (rr_approved_at r) (rr_executed_at r) r.
Definition set_pending (guardians : list Pubkey) (pending : option GuardianReplacement) (c : RecoveryConfig) : RecoveryConfig :=
  with_config (rc_owner c) guardians (rc_threshold c) (rc_request_count c) pending c.

(** ** Helpers *)

Definition majority_threshold (guardian_count : Z) : Z := as_u8 (guardian_count / 2 + 1).
Definition is_guardian (config : RecoveryConfig) (key : Pubkey) : bool := contains (rc_guardians config) key.

(** ** Instructions *)

Section SocialRecovery.
Context {E : Env} {BC : Borsh RecoveryConfig} {BR : Borsh RecoveryRequest} {BI : Borsh RecoveryInstruction}.
Variable cx : Ctx.

Definition process_initialize_recovery (guardians : list Pubkey) : M unit :=
  (let! '(config_info, it) := next_account_info (cx_accounts cx) in
   let! '(owner_info, it) := next_account_info it in
   let! '(_system_program, it) := next_account_info it in
   let! '(_rent_sysvar, it) := next_account_info it in
   fail_if (negb (ia_is_signer owner_info)) MissingRequiredSignature ;;
   fail_if (zlen guardians <? MIN_GUARDIANS) (into TooFewGuardians) ;;
   fail_if (MAX_GUARDIANS <? zlen guardians) (into TooManyGuardians) ;;
   fail_if (existsb (fun g => g =? ia_key owner_info) guardians) (into SelfGuardian) ;;
   fail_if (has_duplicates guardians) (into DuplicateGuardian) ;;
   let '(expected_pda, bump) := find_program_address [RECOVERY_CONFIG_SEED; key_bytes (ia_key owner_info)] (cx_program_id cx) in
   fail_if (negb (ia_key config_info =? expected_pda)) InvalidSeeds ;;
   let! ca := account config_info in
   fail_if (occupied rc_is_initialized (acc_data ca)) (into AlreadyInitialized) ;;
   let threshold := majority_threshold (zlen guardians) in
   copy_into (mkConfig true (ia_key owner_info) guardians threshold 0 None bump) config_info)%prog.

Definition process_initiate_recovery (new_owner : Pubkey) : M unit :=
  (let! '(config_info, it) := next_account_info (cx_accounts cx) in
   let! '(request_info, it) := next_account_info it in
   let! '(guardian_info, it) := next_account_info it in
   let! '(clock_sysvar, it) := next_account_info it in
   let! '(_system_program, it) := next_account_info it in
   let! '(_rent_sysvar, it) := next_account_info it in
   fail_if (negb (ia_is_signer guardian_info)) MissingRequiredSignature ;;
   let! config := load RecoveryConfig config_info (into BadAccountData) in
   fail_if (negb (rc_is_initialized config)) (into NotInitialized) ;;
   fail_if (negb (is_guardian config (ia_key guardian_info))) (into NotGuardian) ;;
   let! clock := clock_from_account_info cx clock_sysvar in
   let now := unix_timestamp clock in
   let request_id := rc_request_count config in
   let! count := lift (ok_or (u64_checked_add (rc_request_count config) 1) (into Overflow)) in
   let '(expected_pda, bump) :=
     find_program_address [RECOVERY_REQUEST_SEED; key_bytes (rc_owner config); le_bytes 8 request_id] (cx_program_id cx) in
   fail_if (negb (ia_key request_info =? expected_pda)) InvalidSeeds ;;
   copy_into (with_config (rc_owner config) (rc_guardians config) (rc_threshold config) count
     (rc_pending_replacement config) config) config_info ;;
   copy_into (mkRequest true (rc_owner config) request_id new_owner (ia_key guardian_info) Pending [ia_key guardian_info]
     (rc_threshold config) now 0 0 bump) request_info)%prog.

Definition process_approve_recovery : M unit :=
  (let! '(config_info, it) := next_account_info (cx_accounts cx) in
   let! '(request_info, it) := next_account_info it in
   let! '(guardian_info, it) := next_account_info it in
   let! '(clock_sysvar, it) := next_account_info it in
   fail_if (negb (ia_is_signer guardian_info)) MissingRequiredSignature ;;
   let! config := load RecoveryConfig config_info (into BadAccountData) in
   fail_if (negb (is_guardian config (ia_key guardian_info))) (into NotGuardian) ;;
   let! request := load RecoveryRequest request_info (into BadAccountData) in
   fail_if (negb (bool_decide (rr_status request = Pending))) (into InvalidStatus) ;;
   let! clock := clock_from_account_info cx clock_sysvar in
   let now := unix_timestamp clock in
   let! expiry := lift (ok_or (i64_checked_add (rr_created_at request) RECOVERY_EXPIRY_SECS) (into Overflow)) in
   if expiry <? now then
     copy_into (set_status Expired request) request_info ;; fail (into RecoveryExpired)
   else
     fail_if (contains (rr_approvals request) (ia_key guardian_info)) (into AlreadyApproved) ;;
     let approvals := rr_approvals request ++ [ia_key guardian_info] in
     let request := if rr_threshold request <=? zlen approvals
       then with_request Approved approvals now (rr_executed_at request) request
       else with_request (rr_status request) approvals (rr_approved_at request) (rr_executed_at request) request in
     copy_into request request_info)%prog.

Definition process_execute_recovery : M unit :=
  (let! '(config_info, it) := next_account_info (cx_accounts cx) in
   let! '(request_info, it) := next_account_info it in
   let! '(executor_info, it) := next_account_info it in
   let! '(clock_sysvar, it) := next_account_info it in
   fail_if (negb (ia_is_signer executor_info)) MissingRequiredSignature ;;
   let! config := load RecoveryConfig config_info (into BadAccountData) in
   let! request := load RecoveryRequest request_info (into BadAccountData) in
   match rr_status request with
   | Approved => pret tt
   | Executed => fail (into AlreadyExecuted)
   | Cancelled => fail (into RecoveryCancelled)
   | Expired => fail (into RecoveryExpired)
   | Pending => fail (into ThresholdNotMet)
   end ;;
   let! clock := clock_from_account_info cx clock_sysvar in
   let now := unix_timestamp clock in
   let! execute_after := lift (ok_or (i64_checked_add (rr_approved_at request) RECOVERY_DELAY_SECS) (into Overflow)) in
   fail_if (now <? execute_after) (into DelayNotElapsed) ;;
   copy_into (with_config (rr_new_owner request) (rc_guardians config) (rc_threshold config) (rc_request_count config)
     (rc_pending_replacement config) config) config_info ;;
   copy_into (with_request Executed (rr_approvals request) (rr_approved_at request) now request) request_info)%prog.

Definition process_cancel_recovery : M unit :=
  (let! '(request_info, it) := next_account_info (cx_accounts cx) in
   let! '(owner_info, it) := next_account_info it in
   fail_if (negb (ia_is_signer owner_info)) MissingRequiredSignature ;;
   let! request := load RecoveryRequest request_info (into BadAccountData) in
   fail_if (negb (rr_account_owner request =? ia_key owner_info)) (into NotOwner) ;;
   match rr_status request with
   | Pending | Approved => pret tt
   | Executed => fail (into AlreadyExecuted)
   | _ => fail (into InvalidStatus)
   end ;;
   copy_into (set_status Cancelled request) request_info)%prog.

Definition process_initiate_guardian_replacement (old_guardian new_guardian : Pubkey) : M unit :=
  (let! '(config_info, it) := next_account_info (cx_accounts cx) in
   let! '(owner_info, it) := next_account_info it in
   let! '(clock_sysvar, it) := next_account_info it in
   fail_if (negb (ia_is_signer owner_info)) MissingRequiredSignature ;;
   let! config := load RecoveryConfig config_info (into BadAccountData) in
   fail_if (negb (rc_owner config =? ia_key owner_info)) (into NotOwner) ;;
   fail_if (negb (contains (rc_guardians config) old_guardian)) (into NotGuardian) ;;
   fail_if (contains (rc_guardians config) new_guardian) (into GuardianAlreadyExists) ;;
   fail_if (new_guardian =? ia_key owner_info) (into SelfGuardian) ;;
   fail_if (match rc_pending_replacement config with
            | Some pending => bool_decide (gr_status pending = ReplacementPending) | None => false end)
     (into ReplacementAlreadyPending) ;;
   let! clock := clock_from_account_info cx clock_sysvar in
   copy_into (set_pending (rc_guardians config)
     (Some (mkReplacement old_guardian new_guardian (unix_timestamp clock) ReplacementPending)) config) config_info)%prog.

Definition process_finalize_guardian_replacement : M unit :=
  (let! '(config_info, it) := next_account_info (cx_accounts cx) in
   let! '(owner_info, it) := next_account_info it in
   let! '(clock_sysvar, it) := next_account_info it in
   fail_if (negb (ia_is_signer owner_info)) MissingRequiredSignature ;;
   let! config := load RecoveryConfig config_info (into BadAccountData) in
   fail_if (negb (rc_owner config =? ia_key owner_info)) (into NotOwner) ;;
   let! replacement := lift (ok_or (rc_pending_replacement config) (into NoPendingReplacement)) in
   fail_if (negb (bool_decide (gr_status replacement = ReplacementPending))) (into NoPendingReplacement) ;;
   let! clock := clock_from_account_info cx clock_sysvar in
   let now := unix_timestamp clock in
   let! execute_after :=
     lift (ok_or (i64_checked_add (gr_initiated_at replacement) GUARDIAN_REPLACEMENT_DELAY_SECS) (into Overflow)) in
   fail_if (now <? execute_after) (into ReplacementDelayNotElapsed) ;;
   let old_guardian := gr_old_guardian replacement in
   let new_guardian := gr_new_guardian replacement in
   let! pos := lift (ok_or (position (fun g => g =? old_guardian) (rc_guardians config)) (into NotGuardian)) in
   copy_into (set_pending (<[pos := new_guardian]> (rc_guardians config))
     (Some (mkReplacement old_guardian new_guardian (gr_initiated_at replacement) ReplacementExecuted)) config) config_info)%prog.

Definition process_cancel_guardian_replacement : M unit :=
  (let! '(config_info, it) := next_account_info (cx_accounts cx) in
   let! '(owner_info, it) := next_account_info it in
   fail_if (negb (ia_is_signer owner_info)) MissingRequiredSignature ;;
   let! config := load RecoveryConfig config_info (into BadAccountData) in
   fail_if (negb (rc_owner config =? ia_key owner_info)) (into NotOwner) ;;
   let! replacement := lift (ok_or (rc_pending_replacement config) (into NoPendingReplacement)) in
   fail_if (negb (bool_decide (gr_status replacement = ReplacementPending))) (into NoPendingReplacement) ;;
   copy_into (set_pending (rc_guardians config)
     (Some (mkReplacement (gr_old_guardian replacement) (gr_new_guardian replacement) (gr_initiated_at replacement)
              ReplacementCancelled)) config) config_info)%prog.

Definition process_update_threshold (new_threshold : Z) : M unit :=
  (let! '(config_info, it) := next_account_info (cx_accounts cx) in
   let! '(owner_info, it) := next_account_info it in
   fail_if (negb (ia_is_signer owner_info)) MissingRequiredSignature ;;
   let! config := load RecoveryConfig config_info (into BadAccountData) in
   fail_if (negb (rc_owner config =? ia_key owner_info)) (into NotOwner) ;;
   let min_threshold := majority_threshold (zlen (rc_guardians config)) in
   fail_if (new_threshold <? min_threshold) InvalidArgument ;;
   fail_if (zlen (rc_guardians config) <? new_threshold) InvalidArgument ;;
   copy_into (with_config (rc_owner config) (rc_guardians config) new_threshold (rc_request_count config)
     (rc_pending_replacement config) config) config_info)%prog.

Definition process_instruction (instruction_data : list byte) : M unit :=
  (let! instruction := lift (ok_or (try_from_slice instruction_data) InvalidInstructionData) in
   match instruction with
   | InitializeRecovery guardians => process_initialize_recovery guardians
   | InitiateRecovery new_owner => process_initiate_recovery new_owner
   | ApproveRecovery => process_approve_recovery
   | ExecuteRecovery => process_execute_recovery
   | CancelRecovery => process_cancel_recovery
   | InitiateGuardianReplacement old_guardian new_guardian => process_initiate_guardian_replacement old_guardian new_guardian
   | FinalizeGuardianReplacement => process_finalize_guardian_replacement
   | CancelGuardianReplacement => process_cancel_guardian_replacement
   | UpdateThreshold new_threshold => process_update_threshold new_threshold
   end)%prog.
End SocialRecovery.
