(* ===== verification/SocialRecoveryProofs.v ===== *)
(** * SocialRecoveryProofs: the guardians of an account *)

From Stdlib Require Import Strings.Byte.
From S2P Require Import Prelude Borsh Accounts System Invoke Execution Cpi Ledger Records SocialRecovery.
Open Scope Z_scope.

(** ** Guardians *)

Lemma majority_exact n : 0 <= n < 500 -> majority_threshold n = n / 2 + 1.
Proof. intros Hn. unfold majority_threshold, as_u8. rewrite Z.mod_small; Z.to_euclidean_division_equations; lia. Qed.

(** A well-formed configuration. *)
Record config_inv (c : RecoveryConfig) : Prop := {
  ci_distinct : NoDup (rc_guardians c);
  ci_number : MIN_GUARDIANS <= zlen (rc_guardians c) <= MAX_GUARDIANS;
  ci_threshold : majority_threshold (zlen (rc_guardians c)) <= rc_threshold c <= zlen (rc_guardians c);
  ci_pending r : rc_pending_replacement c = Some r -> gr_status r = ReplacementPending ->
    gr_old_guardian r ∈ rc_guardians c /\ gr_new_guardian r ∉ rc_guardians c;
}.

(** Two sets of guardians that reach the threshold have a guardian in common. *)
Lemma quorums_intersect c (A B : list Pubkey) : config_inv c -> NoDup A -> NoDup B ->
  A ⊆ rc_guardians c -> B ⊆ rc_guardians c -> rc_threshold c <= zlen A -> rc_threshold c <= zlen B ->
  exists g, g ∈ A /\ g ∈ B.
Proof.
  intros [_ Hn Ht _] HA HB SA SB LA LB. unfold MIN_GUARDIANS, MAX_GUARDIANS in Hn. rewrite majority_exact in Ht by lia.
  destruct (decide (Exists (fun g => g ∈ B) A)) as [Hex|Hno]; [by apply Exists_exists in Hex|]. exfalso.
  apply not_Exists_Forall in Hno; [|apply _].
  assert (Hd : NoDup (A ++ B)).
  { apply NoDup_app. split_and!; [done| |done]. intros x Hx HxB. rewrite Forall_forall in Hno. by apply (Hno x). }
  assert (Hs : A ++ B ⊆ rc_guardians c) by (intros x [?|?]%elem_of_app; auto).
  pose proof (submseteq_length _ _ (NoDup_submseteq _ _ Hd Hs)) as Hl. rewrite length_app in Hl.
  unfold zlen in *. Z.to_euclidean_division_equations. lia.
Qed.

Lemma NoDup_insert_fresh {A} (l : list A) i x : NoDup l -> x ∉ l -> NoDup (<[i := x]> l).
Proof.
  intros Hl Hx. apply NoDup_alt. intros j1 j2 y H1 H2.
  destruct (decide (j1 = i)) as [->|N1], (decide (j2 = i)) as [->|N2]; [done|..].
  - apply list_lookup_insert_Some in H1 as [(_ & <- & _)|[? _]]; [|done]. rewrite list_lookup_insert_ne in H2 by done.
    by apply list_elem_of_lookup_2 in H2.
  - apply list_lookup_insert_Some in H2 as [(_ & <- & _)|[? _]]; [|done]. rewrite list_lookup_insert_ne in H1 by done.
    by apply list_elem_of_lookup_2 in H1.
  - rewrite list_lookup_insert_ne in H1, H2 by done. eapply NoDup_lookup; done.
Qed.

(** ** The life of a configuration *)

Inductive cstep (now : Z) : RecoveryConfig -> RecoveryConfig -> Prop :=
| step_request c n : cstep now c (with_config (rc_owner c) (rc_guardians c) (rc_threshold c) n (rc_pending_replacement c) c)
| step_owner c o : cstep now c (with_config o (rc_guardians c) (rc_threshold c) (rc_request_count c) (rc_pending_replacement c) c)
| step_replace c old new :
    old ∈ rc_guardians c -> new ∉ rc_guardians c ->
    (forall r, rc_pending_replacement c = Some r -> gr_status r <> ReplacementPending) ->
    cstep now c (set_pending (rc_guardians c) (Some (mkReplacement old new now ReplacementPending)) c)
| step_finalize c r pos :
    rc_pending_replacement c = Some r -> gr_status r = ReplacementPending ->
    gr_initiated_at r + GUARDIAN_REPLACEMENT_DELAY_SECS <= now -> rc_guardians c !! pos = Some (gr_old_guardian r) ->
    cstep now c (set_pending (<[pos := gr_new_guardian r]> (rc_guardians c))
      (Some (mkReplacement (gr_old_guardian r) (gr_new_guardian r) (gr_initiated_at r) ReplacementExecuted)) c)
| step_withdraw c r :
    rc_pending_replacement c = Some r -> gr_status r = ReplacementPending ->
    cstep now c (set_pending (rc_guardians c)
      (Some (mkReplacement (gr_old_guardian r) (gr_new_guardian r) (gr_initiated_at r) ReplacementCancelled)) c)
| step_threshold c t :
    majority_threshold (zlen (rc_guardians c)) <= t <= zlen (rc_guardians c) ->
    cstep now c (with_config (rc_owner c) (rc_guardians c) t (rc_request_count c) (rc_pending_replacement c) c).

Lemma cstep_inv now c c' : config_inv c -> cstep now c c' -> config_inv c'.
Proof.
  intros [Hd Hn Ht Hp] Hst. destruct Hst as [c n|c o|c old new Hold Hnew _|c r pos Hr Hs _ Hpos|c r Hr Hs|c t Htt]; split; simpl; try done.
  - intros r [= <-] _. done.
  - apply NoDup_insert_fresh; [done|]. by apply (Hp r).
  - by rewrite zlen_insert.
  - by rewrite zlen_insert.
  - by intros r' [= <-].
  - by intros r' [= <-].
Qed.

Section Recovery.
Context {E : Env} {BC : Borsh RecoveryConfig} {BR : Borsh RecoveryRequest} {BI : Borsh RecoveryInstruction}.
Context {LC : BorshLaws RecoveryConfig} {LR : BorshLaws RecoveryRequest} {LI : BorshLaws RecoveryInstruction}.
Context {MC : BorshMeasured RecoveryConfig config_len} {MR : BorshMeasured RecoveryRequest request_len}.
Context (cx : Ctx).
Abbreviation now := (unix_timestamp (cx_clock cx)).

(** The instructions that change a configuration, and who gives them: its owner,
    or for a request one of its guardians. *)
Definition on_config (i : RecoveryInstruction) : Prop :=
  match i with
  | InitiateRecovery _ | ExecuteRecovery | InitiateGuardianReplacement _ _ | FinalizeGuardianReplacement
  | CancelGuardianReplacement | UpdateThreshold _ => True
  | _ => False
  end.
Definition config_entitled (i : RecoveryInstruction) (c : RecoveryConfig) : Prop :=
  match i with
  | InitiateRecovery _ => exists g, g ∈ rc_guardians c /\ signed cx g
  | ExecuteRecovery => exists k, signed cx k
  | _ => signed cx (rc_owner c)
  end.

Lemma config_instruction_step data i s s' :
  try_from_slice data = Some i -> on_config i -> process_instruction cx data s = Ok (tt, s') ->
  exists k c c', ia_key <$> cx_accounts cx !! 0%nat = Some k /\ holds (mem s) k c /\ cstep now c c' /\ config_entitled i c /\
    (mem s' = stored c' k (mem s) \/ exists kr (r : RecoveryRequest), mem s' = stored r kr (stored c' k (mem s))) /\
    (i <> ExecuteRecovery -> rc_owner c' = rc_owner c).
Proof.
  intros Hde Ho H. unfold process_instruction in H. rewrite Hde in H. cbn [ok_or lift pbind] in H. destruct i; try done.
  all: unfold process_initiate_recovery, process_execute_recovery, process_initiate_guardian_replacement,
      process_finalize_guardian_replacement, process_cancel_guardian_replacement, process_update_threshold in H;
      pinv; bool_to_prop; hyp (cx_accounts cx = _) as Hacc; read RecoveryConfig as c Hc;
      repeat match goal with
      | Hc : clock_from_account_info _ _ _ = Ok _ |- _ => apply clock_account_ok in Hc as (_ & -> & ->)
      | Hb : bool_decide _ = true |- _ => apply bool_decide_eq_true_1 in Hb
      end.
  all: match goal with |- context [stored ?c' ?k (mem _)] => exists k, c, c' end; rewrite Hacc;
    (split_and!; [done|exact Hc| | |first [by left|right; by eexists _, _]|done]).
  - apply step_request.
  - hyp (is_guardian _ _ = true) as Hg. apply contains_elem in Hg. eexists. split; [exact Hg|by_signer].
  - apply step_owner.
  - match goal with Hs : ia_is_signer ?j = true |- _ => exists (ia_key j); by_signer end.
  - hyp (contains _ _ = true) as Hold. apply contains_elem in Hold. apply step_replace; [done| |].
    + intros Hin. apply contains_elem in Hin. congruence.
    + intros r Hr Hst. hyp (match rc_pending_replacement c with _ => _ end = false) as Hp. rewrite Hr in Hp.
      by rewrite bool_decide_eq_false in Hp.
  - hyp (rc_owner _ = _) as Hk. cbn [config_entitled]. rewrite Hk. by_signer.
  - hyp (position _ _ = Some _) as Hp. apply position_key in Hp. by apply step_finalize.
  - hyp (rc_owner _ = _) as Hk. cbn [config_entitled]. rewrite Hk. by_signer.
  - by apply step_withdraw.
  - hyp (rc_owner _ = _) as Hk. cbn [config_entitled]. rewrite Hk. by_signer.
  - by apply step_threshold.
  - hyp (rc_owner _ = _) as Hk. cbn [config_entitled]. rewrite Hk. by_signer.
Qed.

(** ** Requests *)

Definition recovered (r : RecoveryRequest) (c : RecoveryConfig) : RecoveryConfig :=
  with_config (rr_new_owner r) (rc_guardians c) (rc_threshold c) (rc_request_count c) (rc_pending_replacement c) c.
Definition executed (r : RecoveryRequest) : RecoveryRequest := with_request Executed (rr_approvals r) (rr_approved_at r) now r.

Lemma execute_recovery_ok cf rq ex ck rest s c r :
  typed_inputs cx s -> cx_accounts cx = cf :: rq :: ex :: ck :: rest -> ia_is_signer ex = true -> ia_key ck = clock_id ->
  holds (mem s) (ia_key cf) c -> holds (mem s) (ia_key rq) r -> ia_key cf <> ia_key rq -> rr_status r = Approved ->
  is_i64 (rr_approved_at r + RECOVERY_DELAY_SECS) -> rr_approved_at r + RECOVERY_DELAY_SECS <= now ->
  process_execute_recovery cx s =
    Ok (tt, mkPState (stored (executed r) (ia_key rq) (stored (recovered r c) (ia_key cf) (mem s))) (rt s)) /\
  holds (stored (executed r) (ia_key rq) (stored (recovered r c) (ia_key cf) (mem s))) (ia_key cf) (recovered r c) /\
  holds (stored (executed r) (ia_key rq) (stored (recovered r c) (ia_key cf) (mem s))) (ia_key rq) (executed r).
Proof.
  intros Hty Hacc Hsig Hck Hc Hr Hne Hst Hi Hd.
  apply holds_well_typed in Hc as Wc. apply holds_well_typed in Hr as Wr.
  assert (Wc' : well_typed (recovered r c)) by (unfold well_typed, RecoveryConfig_well_typed, RecoveryRequest_well_typed in *; simpl; tauto).
  assert (Wr' : well_typed (executed r)).
  { pose proof (ti_clock _ _ Hty). unfold well_typed, RecoveryRequest_well_typed in *. simpl. tauto. }
  assert (Hc' : holds (stored (recovered r c) (ia_key cf) (mem s)) (ia_key cf) (recovered r c)) by (by eapply holds_same_size).
  assert (Hr' : holds (stored (recovered r c) (ia_key cf) (mem s)) (ia_key rq) r) by (by apply holds_stored_ne).
  split_and!; [|by apply holds_stored_ne|by eapply holds_same_size].
  unfold process_execute_recovery. rewrite Hacc. prun; [by rewrite Hsig|]. rewrite Hst. prun.
  apply pbind_ok. eexists _, _. split; [by apply clock_account_ok|]. prun; [by rewrite checked_in|by pcheck|].
  apply pbind_ok. eexists tt, _. split; apply copy_into_ok; (split; [|reflexivity]); cbn [mem].
  - change (zlen (borsh_ser (recovered r c)) <= zlen (acc_data (get_acc (mem s) (ia_key cf)))).
    apply try_from_slice_some in Hc as [_ ->]. by rewrite !borsh_measured.
  - change (zlen (borsh_ser (executed r)) <= zlen (acc_data (get_acc (stored (recovered r c) (ia_key cf) (mem s)) (ia_key rq)))).
    apply try_from_slice_some in Hr' as [_ ->]. by rewrite !borsh_measured.
Qed.

(** An approval more does not fit. *)
Lemma approvals_fail s s' : typed_inputs cx s -> process_approve_recovery cx s <> Ok (tt, s').
Proof.
  intros Hty H. unfold process_approve_recovery in H. pinv.
  hyp (clock_from_account_info _ _ _ = Ok _) as Hc. apply clock_account_ok in Hc as (_ & -> & ->).
  hyp (cx_accounts cx = _) as Hacc. pose proof (ti_keys _ _ Hty) as Hk. rewrite Hacc, !Forall_cons in Hk.
  pose proof (ti_clock _ _ Hty). read RecoveryRequest as r Hr. apply try_from_slice_some in Hr as Hr'. destruct Hr' as [Wr Hd].
  pose proof (ti_data _ _ Hty (ia_key i0)) as Hn. rewrite Hd, (borsh_measured r Wr) in Hn. unfold request_len in Hn.
  assert (Hap : Forall is_pubkey (rr_approvals r ++ [ia_key i1]) /\ is_u32 (zlen (rr_approvals r ++ [ia_key i1]))).
  { apply appended_ok; [apply Wr|apply Hk|lia]. }
  eapply holds_fits in H; [|exact Hr|].
  - unfold request_len in H. destruct (_ <=? _); simpl in H; rewrite zlen_snoc in H; lia.
  - unfold well_typed, RecoveryRequest_well_typed in *. destruct (_ <=? _); simpl; tauto.
Qed.

(** Nor does the first replacement of a guardian. *)
Lemma replacement_fails old new s s' k c :
  typed_inputs cx s -> is_pubkey old -> is_pubkey new ->
  ia_key <$> cx_accounts cx !! 0%nat = Some k -> holds (mem s) k c -> rc_pending_replacement c = None ->
  process_initiate_guardian_replacement cx old new s <> Ok (tt, s').
Proof.
  intros Hty Ho Hw Hk Hc Hp H. apply holds_well_typed in Hc as Wc. unfold process_initiate_guardian_replacement in H. pinv.
  hyp (clock_from_account_info _ _ _ = Ok _) as Hck. apply clock_account_ok in Hck as (_ & -> & ->).
  hyp (cx_accounts cx = _) as Hacc. rewrite Hacc in Hk. injection Hk as <-. pose proof (ti_clock _ _ Hty). holds_eq.
  eapply holds_fits in H; [|eassumption|].
  - unfold config_len in H. simpl in H. rewrite Hp in H. lia.
  - unfold well_typed, RecoveryConfig_well_typed in *. simpl. unfold replacement_ok. simpl. tauto.
Qed.
End Recovery.
