(* ===== verification/SocialRecoveryTheorems.v ===== *)
(** * SocialRecoveryTheorems: the properties of social recovery

    The theorems about [src/programs/social-recovery/src/lib.rs], and the
    evaluation of the program on concrete accounts in the Borsh wire format. *)

From Stdlib Require Import Strings.Byte.
From S2P Require Import Prelude Borsh Accounts System Invoke Execution Concrete Cpi Ledger Records Wire SocialRecovery SocialRecoveryProofs.
Open Scope Z_scope.

(** ** The data on the wire *)

Definition codec_recovery_status : codec RecoveryStatus := codec_enum [Pending; Approved; Executed; Cancelled; Expired].
Definition codec_replacement_status : codec GuardianReplacementStatus :=
  codec_enum [ReplacementPending; ReplacementExecuted; ReplacementCancelled].
Definition codec_replacement : codec GuardianReplacement :=
  codec_iso (fun '(o, (n, (t, s))) => mkReplacement o n t s)
    (fun r => (gr_old_guardian r, (gr_new_guardian r, (gr_initiated_at r, gr_status r))))
    (codec_pair codec_pubkey (codec_pair codec_pubkey (codec_pair (codec_int 8) codec_replacement_status))).
Definition codec_recovery_config : codec RecoveryConfig :=
  codec_iso (fun '(i, (o, (g, (t, (n, (p, b)))))) => mkConfig i o g t n p b)
    (fun c => (rc_is_initialized c, (rc_owner c, (rc_guardians c, (rc_threshold c, (rc_request_count c,
       (rc_pending_replacement c, rc_bump c)))))))
    (codec_pair codec_bool (codec_pair codec_pubkey (codec_pair (codec_vec codec_pubkey) (codec_pair (codec_uint 1)
      (codec_pair (codec_uint 8) (codec_pair (codec_option codec_replacement) (codec_uint 1))))))).
Definition codec_request : codec RecoveryRequest :=
  codec_iso
    (fun '(i, (a, (n, (w, (g, (s, (l, (t, (c, (p, (e, b))))))))))) => mkRequest i a n w g s l t c p e b)
    (fun r => (rr_is_initialized r, (rr_account_owner r, (rr_request_id r, (rr_new_owner r, (rr_initiator r, (rr_status r,
       (rr_approvals r, (rr_threshold r, (rr_created_at r, (rr_approved_at r, (rr_executed_at r, rr_bump r))))))))))))
    (codec_pair codec_bool (codec_pair codec_pubkey (codec_pair (codec_uint 8) (codec_pair codec_pubkey
      (codec_pair codec_pubkey (codec_pair codec_recovery_status (codec_pair (codec_vec codec_pubkey)
      (codec_pair (codec_uint 1) (codec_pair (codec_int 8) (codec_pair (codec_int 8) (codec_pair (codec_int 8)
      (codec_uint 1)))))))))))).

Definition recovery_instruction_index (i : RecoveryInstruction) : nat :=
  match i with
  | InitializeRecovery _ => 0 | InitiateRecovery _ => 1 | ApproveRecovery => 2 | ExecuteRecovery => 3 | CancelRecovery => 4
  | InitiateGuardianReplacement _ _ => 5 | FinalizeGuardianReplacement => 6 | CancelGuardianReplacement => 7
  | UpdateThreshold _ => 8
  end.
Definition codec_recovery_instruction : codec RecoveryInstruction :=
  codec_variants
    [mkVariant (codec_vec codec_pubkey) InitializeRecovery (fun i => match i with InitializeRecovery g => Some g | _ => None end);
     mkVariant codec_pubkey InitiateRecovery (fun i => match i with InitiateRecovery o => Some o | _ => None end);
     mkVariant codec_unit (fun _ => ApproveRecovery) (fun _ => Some tt);
     mkVariant codec_unit (fun _ => ExecuteRecovery) (fun _ => Some tt);
     mkVariant codec_unit (fun _ => CancelRecovery) (fun _ => Some tt);
     mkVariant (codec_pair codec_pubkey codec_pubkey) (fun '(o, n) => InitiateGuardianReplacement o n)
       (fun i => match i with InitiateGuardianReplacement o n => Some (o, n) | _ => None end);
     mkVariant codec_unit (fun _ => FinalizeGuardianReplacement) (fun _ => Some tt);
     mkVariant codec_unit (fun _ => CancelGuardianReplacement) (fun _ => Some tt);
     mkVariant (codec_uint 1) UpdateThreshold (fun i => match i with UpdateThreshold t => Some t | _ => None end)]
    recovery_instruction_index.

Lemma codec_recovery_status_laws : codec_laws codec_recovery_status.
Proof. apply codec_enum_laws; [repeat constructor; set_solver|simpl; lia]. Qed.
Lemma codec_recovery_status_wf s : c_wf codec_recovery_status s <-> True.
Proof. split; [done|]. intros _. destruct s; simpl; set_solver. Qed.
Lemma codec_replacement_status_laws : codec_laws codec_replacement_status.
Proof. apply codec_enum_laws; [repeat constructor; set_solver|simpl; lia]. Qed.
Lemma codec_replacement_status_wf s : c_wf codec_replacement_status s <-> True.
Proof. split; [done|]. intros _. destruct s; simpl; set_solver. Qed.
#[local] Hint Resolve codec_recovery_status_laws codec_replacement_status_laws : codec.
#[local] Hint Rewrite codec_recovery_status_wf codec_replacement_status_wf : codec_wf.

Lemma codec_replacement_laws : codec_laws codec_replacement.
Proof. apply codec_iso_laws; [by intros []|by intros (?&?&?&?)|]. auto 20 with codec. Qed.
Lemma codec_replacement_wf r : c_wf codec_replacement r <-> replacement_ok r.
Proof. unfold codec_replacement, replacement_ok. codec_typed. Qed.
Lemma codec_pending_wf o : c_wf (codec_option codec_replacement) o <-> pending_ok o.
Proof. destruct o as [r|]; [apply codec_replacement_wf|done]. Qed.
Lemma codec_replacement_len : c_len codec_replacement (fun _ => 73).
Proof. codec_len. done. Qed.
#[local] Hint Resolve codec_replacement_laws : codec.
#[local] Hint Resolve codec_replacement_len : codec_len.
#[local] Hint Rewrite codec_pending_wf : codec_wf.

Lemma codec_recovery_config_laws : codec_laws codec_recovery_config.
Proof. apply codec_iso_laws; [by intros []|by intros (?&?&?&?&?&?&?)|]. auto 20 with codec. Qed.
Lemma codec_recovery_config_wf c : well_typed c <-> c_wf codec_recovery_config c.
Proof. unfold codec_recovery_config, well_typed, RecoveryConfig_well_typed. codec_typed. Qed.
Lemma codec_recovery_config_len : c_len codec_recovery_config config_len.
Proof. codec_len. intros c. unfold config_len. simpl. destruct (rc_pending_replacement c); lia. Qed.
Lemma codec_request_laws : codec_laws codec_request.
Proof. apply codec_iso_laws; [by intros []|by intros (?&?&?&?&?&?&?&?&?&?&?&?)|]. auto 20 with codec. Qed.
Lemma codec_request_wf r : well_typed r <-> c_wf codec_request r.
Proof. unfold codec_request, well_typed, RecoveryRequest_well_typed. codec_typed. Qed.
Lemma codec_request_len : c_len codec_request request_len.
Proof. codec_len. intros r. unfold request_len. simpl. lia. Qed.
Lemma codec_recovery_instruction_laws : codec_laws codec_recovery_instruction.
Proof.
  apply codec_variants_laws; [simpl; lia|repeat apply Forall_cons_2; simpl; auto 10 with codec| |].
  - intros [|[|[|[|[|[|[|[|[|]]]]]]]]] v a [= <-]; simpl in a;
      repeat match goal with x : _ * _ |- _ => destruct x | x : unit |- _ => destruct x end; done.
  - intros [] v a [= <-]; simpl; by intros [= <-].
Qed.
Lemma codec_recovery_instruction_wf i : well_typed i <-> c_wf codec_recovery_instruction i.
Proof. destruct i; unfold well_typed, RecoveryInstruction_well_typed, codec_recovery_instruction; codec_variant_typed. Qed.

#[global] Instance config_borsh : Borsh RecoveryConfig := borsh_of_codec codec_recovery_config.
#[global] Instance config_borsh_laws : BorshLaws RecoveryConfig := borsh_of_codec_laws _ codec_recovery_config_laws codec_recovery_config_wf.
#[global] Instance config_borsh_measured : BorshMeasured RecoveryConfig config_len :=
  borsh_of_codec_measured _ _ codec_recovery_config_len codec_recovery_config_wf.
#[global] Instance request_borsh : Borsh RecoveryRequest := borsh_of_codec codec_request.
#[global] Instance request_borsh_laws : BorshLaws RecoveryRequest := borsh_of_codec_laws _ codec_request_laws codec_request_wf.
#[global] Instance request_borsh_measured : BorshMeasured RecoveryRequest request_len :=
  borsh_of_codec_measured _ _ codec_request_len codec_request_wf.
#[global] Instance recovery_instruction_borsh : Borsh RecoveryInstruction := borsh_of_codec codec_recovery_instruction.
#[global] Instance recovery_instruction_borsh_laws : BorshLaws RecoveryInstruction :=
  borsh_of_codec_laws _ codec_recovery_instruction_laws codec_recovery_instruction_wf.

(** The configuration of 300 with the guardians 401, 402 and 403; an approved
    request to recover the account of 310 for 666. *)
Module RecoveryDemo.
Definition PROGRAM : Pubkey := 100.
Definition config : RecoveryConfig := mkConfig true 300 [401; 402; 403] 2 0 None 255.
Definition request : RecoveryRequest := mkRequest true 310 0 666 411 Approved [411; 412] 2 1000 2000 0 255.
Definition accounts : list (Pubkey * Account) :=
  [(500, mkAccount 1000000 (borsh_ser config) PROGRAM false); (600, mkAccount 1000000 (borsh_ser request) PROGRAM false);
   (300, mkAccount 5000 [] 0 false); (402, mkAccount 5000 [] 0 false); (666, mkAccount 5000 [] 0 false)].
Definition state : PState := mkPState (store accounts) (mkTA (store accounts) 0 0).
Definition len (k : Pubkey) : Z := zlen (acc_data (get_acc (store accounts) k)).

Definition owner_cx : Ctx := demo_ctx PROGRAM [mkIA 500 false true; mkIA 300 true false; mkIA clock_id false false] 5000 len.
Definition threshold_data : list byte := borsh_ser (UpdateThreshold 3).
Definition execute_cx : Ctx :=
  demo_ctx PROGRAM [mkIA 500 false true; mkIA 600 false true; mkIA 666 true false; mkIA clock_id false false] 200000 len.
Definition approve_cx : Ctx :=
  demo_ctx PROGRAM [mkIA 500 false true; mkIA 600 false true; mkIA 402 true false; mkIA clock_id false false] 5000 len.

Lemma recovery_runs : is_ok (process_instruction owner_cx threshold_data state) = true.
Proof. vm_compute. reflexivity. Qed.
Lemma recovery_typed cx : Forall (fun ia => is_pubkey (ia_key ia)) (cx_accounts cx) -> is_i64 (unix_timestamp (cx_clock cx)) ->
  typed_inputs cx state.
Proof. intros Hk Ht. split; [done|done|]. intros k. apply data_bound_store; [evaluate|]. repeat constructor; evaluate. Qed.
End RecoveryDemo.

(** ** Properties *)

Section RecoveryProperties.
Context {E : Env} {BC : Borsh RecoveryConfig} {BR : Borsh RecoveryRequest} {BI : Borsh RecoveryInstruction}.
Context {LC : BorshLaws RecoveryConfig} {LR : BorshLaws RecoveryRequest} {LI : BorshLaws RecoveryInstruction}.
Context {MC : BorshMeasured RecoveryConfig config_len} {MR : BorshMeasured RecoveryRequest request_len}.

(** C26. Every instruction keeps a recovery configuration well formed: three to
    five different guardians, and a threshold of at least their majority, so
    that any two groups of guardians that reach it have a guardian in common.
    Only the owner changes guardians and threshold, a guardian is replaced only
    after seven days, and only the execution of a recovery changes the owner. *)
Theorem recovery_config_invariant cx data i s s' :
  try_from_slice data = Some i -> on_config i -> process_instruction cx data s = Ok (tt, s') ->
  exists k c c', ia_key <$> cx_accounts cx !! 0%nat = Some k /\ holds (mem s) k c /\ config_entitled cx i c /\
    cstep (unix_timestamp (cx_clock cx)) c c' /\
    (mem s' = stored c' k (mem s) \/ exists kr (r : RecoveryRequest), mem s' = stored r kr (stored c' k (mem s))) /\
    (i <> ExecuteRecovery -> rc_owner c' = rc_owner c) /\
    (config_inv c -> config_inv c' /\
       forall A B, NoDup A -> NoDup B -> A ⊆ rc_guardians c' -> B ⊆ rc_guardians c' ->
         rc_threshold c' <= zlen A -> rc_threshold c' <= zlen B -> exists g, g ∈ A /\ g ∈ B).
Proof.
  intros Hde Ho H. eapply config_instruction_step in H as (k & c & c' & Hk & Hc & Hst & He & Hm & How); [|done..].
  exists k, c, c'. split_and!; try done. intros Hi. pose proof (cstep_inv _ _ _ Hi Hst) as Hi'. split; [done|].
  intros A B ? ? ? ? ? ?. by eapply quorums_intersect.
Qed.

(** Finding: a recovery takes over any account.  The execution of an approved
    request never compares the request with the configuration it is applied
    to: signed by anyone, it makes the new owner of the request the owner of
    whatever configuration is passed, also one of another account whose
    guardians never agreed. *)
Theorem recovery_takes_any_config cx s cf rq ex ck rest c r :
  typed_inputs cx s -> cx_accounts cx = cf :: rq :: ex :: ck :: rest -> ia_is_signer ex = true -> ia_key ck = clock_id ->
  holds (mem s) (ia_key cf) c -> holds (mem s) (ia_key rq) r -> ia_key cf <> ia_key rq ->
  rr_status r = Approved -> is_i64 (rr_approved_at r + RECOVERY_DELAY_SECS) ->
  rr_approved_at r + RECOVERY_DELAY_SECS <= unix_timestamp (cx_clock cx) ->
  exists s' c', process_execute_recovery cx s = Ok (tt, s') /\ holds (mem s') (ia_key cf) c' /\
    rc_owner c' = rr_new_owner r /\ rc_guardians c' = rc_guardians c.
Proof.
  intros. edestruct execute_recovery_ok as (Hrun & Hc & _); [eassumption..|]. eexists _, _. split_and!; [exact Hrun|exact Hc|done|done].
Qed.

(** Finding: no recovery ever gets a second approval.  The accounts are
    decoded with [try_from_slice], which accepts no bytes beyond the value:
    [ApproveRecovery], which writes one key more, always fails, and so does
    the first [InitiateGuardianReplacement] of a configuration. *)
Theorem recovery_approvals_never_recorded cx s s' :
  typed_inputs cx s ->
  process_approve_recovery cx s <> Ok (tt, s') /\
  forall old new k c, is_pubkey old -> is_pubkey new -> ia_key <$> cx_accounts cx !! 0%nat = Some k ->
    holds (mem s) k c -> rc_pending_replacement c = None -> process_initiate_guardian_replacement cx old new s <> Ok (tt, s').
Proof. intros Hty. split; [by apply approvals_fail|]. intros. by eapply replacement_fails. Qed.
End RecoveryProperties.

(** ** The hypotheses can hold *)

Lemma recovery_config_invariant_witness : exists s' k c c',
  process_instruction RecoveryDemo.owner_cx RecoveryDemo.threshold_data RecoveryDemo.state = Ok (tt, s') /\
  holds (mem RecoveryDemo.state) k c /\ cstep 5000 c c'.
Proof.
  destruct (process_instruction RecoveryDemo.owner_cx RecoveryDemo.threshold_data RecoveryDemo.state) as [[[] s']|e] eqn:Hrun;
    [|pose proof RecoveryDemo.recovery_runs as Hk; rewrite Hrun in Hk; discriminate Hk].
  destruct (recovery_config_invariant RecoveryDemo.owner_cx RecoveryDemo.threshold_data (UpdateThreshold 3) RecoveryDemo.state s')
    as (k & c & c' & _ & Hc & _ & Hst & _); [evaluate|exact I|exact Hrun|].
  exists s', k, c, c'. exact (conj eq_refl (conj Hc Hst)).
Defined.

Lemma recovery_takes_any_config_witness : exists s' c',
  process_execute_recovery RecoveryDemo.execute_cx RecoveryDemo.state = Ok (tt, s') /\ holds (mem s') 500 c' /\
  rc_owner c' = 666 /\ rc_guardians c' = [401; 402; 403].
Proof.
  apply (recovery_takes_any_config RecoveryDemo.execute_cx RecoveryDemo.state (mkIA 500 false true) (mkIA 600 false true)
    (mkIA 666 true false) (mkIA clock_id false false) [] RecoveryDemo.config RecoveryDemo.request);
    [apply RecoveryDemo.recovery_typed; [repeat constructor; evaluate|evaluate]|evaluate..].
Defined.

Lemma recovery_approvals_never_recorded_witness : forall s',
  process_approve_recovery RecoveryDemo.approve_cx RecoveryDemo.state <> Ok (tt, s').
Proof.
  intros s'. refine (proj1 (recovery_approvals_never_recorded RecoveryDemo.approve_cx RecoveryDemo.state s' _)).
  apply RecoveryDemo.recovery_typed; [repeat constructor; evaluate|evaluate].
Defined.
