(* ===== verification/NameService.v ===== *)
(** * NameService: registration of names, records and subdomains

    Models [src/programs/name-service/src/lib.rs]: the registry, the names with
    their records and expiry, the subdomains and reverse lookups, and the eleven
    instructions. *)

From Stdlib Require Import Strings.Byte Strings.String.
From S2P Require Import Prelude Borsh Accounts System Invoke Execution Records Wire.
Open Scope Z_scope.

(** ** Constants and data *)

Definition NAME_SEED : list byte := list_byte_of_string "name".
Definition REVERSE_SEED : list byte := list_byte_of_string "reverse".
Definition SUBDOMAIN_SEED : list byte := list_byte_of_string "subdomain".
Definition REGISTRY_SEED : list byte := list_byte_of_string "ns_registry".
Definition MAX_NAME_LEN : Z := 64.
Definition MIN_NAME_LEN : Z := 1.
Definition MAX_SUBDOMAIN_LEN : Z := 32.
Definition MAX_RECORDS : Z := 16.
Definition MAX_RECORD_VALUE_LEN : Z := 256.
Definition REGISTRATION_PERIOD_SECS : Z := 365 * 24 * 60 * 60.
Definition GRACE_PERIOD_SECS : Z := 30 * 24 * 60 * 60.
Definition BASE_FEE_LAMPORTS : Z := 100000000.
Definition SHORT_NAME_MULTIPLIER : Z := 10.
Definition ULTRA_SHORT_NAME_MULTIPLIER : Z := 100.

Inductive NameServiceError :=
| NameAlreadyRegistered | NameExpired | NameNotExpired | NotOwner | NameTooLong | NameTooShort | InvalidNameChars
| InvalidHyphenPlacement | TooManyRecords | RecordValueTooLong | SubdomainTooLong | InvalidParentName | InsufficientFee
| AlreadyInitialized | InvalidAuthority | Overflow | BadAccountData | RecordNotFound | ReverseRecordExists | NameNotFound.

(** [BadAccountData] is [NameServiceError::InvalidAccountData]. *)
Definition into (e : NameServiceError) : InstructionError :=
  Custom match e with
  | NameAlreadyRegistered => 0 | NameExpired => 1 | NameNotExpired => 2 | NotOwner => 3 | NameTooLong => 4
  | NameTooShort => 5 | InvalidNameChars => 6 | InvalidHyphenPlacement => 7 | TooManyRecords => 8 | RecordValueTooLong => 9
  | SubdomainTooLong => 10 | InvalidParentName => 11 | InsufficientFee => 12 | AlreadyInitialized => 13
  | InvalidAuthority => 14 | Overflow => 15 | BadAccountData => 16 | RecordNotFound => 17 | ReverseRecordExists => 18
  | NameNotFound => 19
  end.

(** [CustomKey] is [RecordKey::Custom]. *)
Inductive RecordKey :=
| Wallet | Ipfs | Arweave | Twitter | Discord | Telegram | Github | Email | Url | Avatar | Btc | Eth
| CustomKey (key : list byte).
#[global] Instance RecordKey_eq_dec : EqDecision RecordKey.
Proof. solve_decision. Defined.

Record NameRecord := mkNameRecord { nr_key : RecordKey; nr_value : list byte }.

Record NameRegistry := mkRegistry {
  rg_is_initialized : bool;
  rg_authority : Pubkey;
  rg_treasury : Pubkey;
  rg_total_names : Z;
  rg_bump : Z;
}.

Record Name := mkName {
  nm_is_initialized : bool;
  nm_name : list byte;
  nm_name_hash : list byte;
  nm_owner : Pubkey;
  nm_expires_at : Z;
  nm_registered_at : Z;
  nm_records : list NameRecord;
  nm_has_reverse : bool;
  nm_bump : Z;
}.

Record Subdomain := mkSubdomain {
  sd_is_initialized : bool;
  sd_label : list byte;
  sd_parent_name_hash : list byte;
  sd_owner : Pubkey;
  sd_records : list NameRecord;
  sd_bump : Z;
}.

Record ReverseLookup := mkReverse {
  rv_is_initialized : bool;
  rv_address : Pubkey;
  rv_name_hash : list byte;
  rv_bump : Z;
}.

Inductive NameServiceInstruction :=
| InitializeRegistry
| RegisterName (name : list byte)
| RenewName
| TransferName (new_owner : Pubkey)
| SetRecord (key : RecordKey) (value : list byte)
| DeleteRecord (key : RecordKey)
| CreateSubdomain (label : list byte) (subdomain_owner : Pubkey)
| DeleteSubdomain
| SetReverseLookup
| RemoveReverseLookup
| ClaimExpiredName.

Definition key_ok (k : RecordKey) : Prop := match k with CustomKey key => is_u32 (zlen key) | _ => True end.
Definition record_ok (r : NameRecord) : Prop := key_ok (nr_key r) /\ is_u32 (zlen (nr_value r)).
#[global] Instance NameRegistry_well_typed : WellTyped NameRegistry := fun r =>
  is_pubkey (rg_authority r) /\ is_pubkey (rg_treasury r) /\ is_u64 (rg_total_names r) /\ is_u8 (rg_bump r).
#[global] Instance Name_well_typed : WellTyped Name := fun n =>
  is_u32 (zlen (nm_name n)) /\ zlen (nm_name_hash n) = 32 /\ is_pubkey (nm_owner n) /\ is_i64 (nm_expires_at n) /\
  is_i64 (nm_registered_at n) /\ (Forall record_ok (nm_records n) /\ is_u32 (zlen (nm_records n))) /\ is_u8 (nm_bump n).
#[global] Instance Subdomain_well_typed : WellTyped Subdomain := fun d =>
  is_u32 (zlen (sd_label d)) /\ zlen (sd_parent_name_hash d) = 32 /\ is_pubkey (sd_owner d) /\
  (Forall record_ok (sd_records d) /\ is_u32 (zlen (sd_records d))) /\ is_u8 (sd_bump d).
#[global] Instance ReverseLookup_well_typed : WellTyped ReverseLookup := fun r =>
  is_pubkey (rv_address r) /\ zlen (rv_name_hash r) = 32 /\ is_u8 (rv_bump r).
#[global] Instance NameServiceInstruction_well_typed : WellTyped NameServiceInstruction := fun i =>
  match i with
  | RegisterName name => is_u32 (zlen name)
  | TransferName new_owner => is_pubkey new_owner
  | SetRecord key value => key_ok key /\ is_u32 (zlen value)
  | DeleteRecord key => key_ok key
  | CreateSubdomain label subdomain_owner => is_u32 (zlen label) /\ is_pubkey subdomain_owner
  | _ => True
  end.

(** The lengths of the encodings. *)
Definition key_len (k : RecordKey) : Z := match k with CustomKey key => 5 + zlen key | _ => 1 end.
Definition record_len (r : NameRecord) : Z := key_len (nr_key r) + (4 + zlen (nr_value r)).
Definition name_len (n : Name) : Z := 91 + zlen (nm_name n) + zsum record_len (nm_records n).
Definition subdomain_len (d : Subdomain) : Z := 74 + zlen (sd_label d) + zsum record_len (sd_records d).
Definition REGISTRY_LEN : Z := 74.
Definition REVERSE_LEN : Z := 66.

(** Field updates. *)
Definition with_name (owner : Pubkey) (expires_at registered_at : Z) (records : list NameRecord) (has_reverse : bool)
    (n : Name) : Name :=
  mkName (nm_is_initialized n) (nm_name n) (nm_name_hash n) owner expires_at registered_at records has_reverse (nm_bump n).
Definition set_records (records : list NameRecord) (n : Name) : Name :=
  with_name (nm_owner n) (nm_expires_at n) (nm_registered_at n) records (nm_has_reverse n) n.

(** ** Helpers *)

(** [a]-[z], [0]-[9] and the hyphen. *)
Definition allowed_char (b : byte) : bool :=
  let z := Z_of_byte b in ((97 <=? z) && (z <=? 122)) || ((48 <=? z) && (z <=? 57)) || (z =? 45).
Definition is_hyphen (b : option byte) : bool := match b with Some b => Z_of_byte b =? 45 | None => false end.

Definition compute_name_hash {E : Env} (name : list byte) : list byte := sha256 name.

Definition validate_name (name : list byte) : result NameServiceError unit :=
  (err_if (MAX_NAME_LEN <? zlen name) NameTooLong ?>
   err_if (zlen name <? MIN_NAME_LEN) NameTooShort ?>
   err_if (negb (forallb allowed_char name)) InvalidNameChars ?>
   err_if (is_hyphen (head name) || is_hyphen (last name)) InvalidHyphenPlacement)%result.

Definition calculate_fee (name_len : Z) : Z :=
  if name_len <=? 2 then BASE_FEE_LAMPORTS * ULTRA_SHORT_NAME_MULTIPLIER
  else if name_len <=? 4 then BASE_FEE_LAMPORTS * SHORT_NAME_MULTIPLIER
  else BASE_FEE_LAMPORTS.

(** The registration of a name that is still taken. *)
Definition check_available {B : Borsh Name} (now : Z) (data : list byte) : result InstructionError unit :=
  (match try_from_slice (A := Name) data with
   | Some n =>
       if (0 <? zlen data) && nm_is_initialized n then
         let? grace_deadline := ok_or (i64_checked_add (nm_expires_at n) GRACE_PERIOD_SECS) (into Overflow) in
         err_if (now <? grace_deadline) (into NameAlreadyRegistered)
       else Ok tt
   | None => Ok tt
   end)%result.

(** Update of the record with [key], or a new one. *)
Definition update_records (key : RecordKey) (value : list byte) (records : list NameRecord)
    : result InstructionError (list NameRecord) :=
  (match position (fun r => bool_decide (nr_key r = key)) records with
   | Some pos => Ok (alter (fun r => mkNameRecord (nr_key r) value) pos records)
   | None => err_if (MAX_RECORDS <=? zlen records) (into TooManyRecords) ?> Ok (records ++ [mkNameRecord key value])
   end)%result.

(** ** Instructions *)

Section NameService.
Context {E : Env} {BG : Borsh NameRegistry} {BN : Borsh Name} {BS : Borsh Subdomain} {BR : Borsh ReverseLookup}
  {BI : Borsh NameServiceInstruction}.
Variable cx : Ctx.

Definition process_initialize_registry : M unit :=
  (let! '(registry_info, it) := next_account_info (cx_accounts cx) in
   let! '(authority_info, it) := next_account_info it in
   let! '(treasury_info, it) := next_account_info it in
   let! '(_system_program, it) := next_account_info it in
   let! '(_rent_sysvar, it) := next_account_info it in
   fail_if (negb (ia_is_signer authority_info)) MissingRequiredSignature ;;
   let '(expected_pda, bump) := find_program_address [REGISTRY_SEED] (cx_program_id cx) in
   fail_if (negb (ia_key registry_info =? expected_pda)) InvalidSeeds ;;
   let! ra := account registry_info in
   fail_if (occupied rg_is_initialized (acc_data ra)) (into AlreadyInitialized) ;;
   copy_into (mkRegistry true (ia_key authority_info) (ia_key treasury_info) 0 bump) registry_info)%prog.

Definition process_register_name (name : list byte) : M unit :=
  (let! '(registry_info, it) := next_account_info (cx_accounts cx) in
   let! '(name_info, it) := next_account_info it in
   let! '(registrant_info, it) := next_account_info it in
   let! '(_treasury_info, it) := next_account_info it in
   let! '(clock_sysvar, it) := next_account_info it in
   let! '(_system_program, it) := next_account_info it in
   let! '(_rent_sysvar, it) := next_account_info it in
   fail_if (negb (ia_is_signer registrant_info)) MissingRequiredSignature ;;
   lift (map_err into (validate_name name)) ;;
   let name_hash := compute_name_hash name in
   let! clock := clock_from_account_info cx clock_sysvar in
   let now := unix_timestamp clock in
   let '(expected_pda, bump) := find_program_address [NAME_SEED; name_hash] (cx_program_id cx) in
   fail_if (negb (ia_key name_info =? expected_pda)) InvalidSeeds ;;
   let! na := account name_info in
   lift (check_available now (acc_data na)) ;;
   let! expires_at := lift (ok_or (i64_checked_add now REGISTRATION_PERIOD_SECS) (into Overflow)) in
   let name_record := mkName true name name_hash (ia_key registrant_info) expires_at now [] false bump in
   let! registry := load NameRegistry registry_info (into BadAccountData) in
   let! total := lift (ok_or (u64_checked_add (rg_total_names registry) 1) (into Overflow)) in
   copy_into (mkRegistry (rg_is_initialized registry) (rg_authority registry) (rg_treasury registry) total (rg_bump registry))
     registry_info ;;
   copy_into name_record name_info)%prog.

Definition process_renew_name : M unit :=
  (let! '(name_info, it) := next_account_info (cx_accounts cx) in
   let! '(owner_info, it) := next_account_info it in
   let! '(_treasury_info, it) := next_account_info it in
   let! '(clock_sysvar, it) := next_account_info it in
   fail_if (negb (ia_is_signer owner_info)) MissingRequiredSignature ;;
   let! name := load Name name_info (into BadAccountData) in
   fail_if (negb (nm_is_initialized name)) (into NameNotFound) ;;
   fail_if (negb (nm_owner name =? ia_key owner_info)) (into NotOwner) ;;
   let! clock := clock_from_account_info cx clock_sysvar in
   let now := unix_timestamp clock in
   let! grace_deadline := lift (ok_or (i64_checked_add (nm_expires_at name) GRACE_PERIOD_SECS) (into Overflow)) in
   fail_if (grace_deadline <? now) (into NameExpired) ;;
   let base_time := if nm_expires_at name <? now then now else nm_expires_at name in
   let! expires_at := lift (ok_or (i64_checked_add base_time REGISTRATION_PERIOD_SECS) (into Overflow)) in
   copy_into (with_name (nm_owner name) expires_at (nm_registered_at name) (nm_records name) (nm_has_reverse name) name)
     name_info)%prog.

Definition process_transfer_name (new_owner : Pubkey) : M unit :=
  (let! '(name_info, it) := next_account_info (cx_accounts cx) in
   let! '(owner_info, it) := next_account_info it in
   let! '(_new_owner_info, it) := next_account_info it in
   fail_if (negb (ia_is_signer owner_info)) MissingRequiredSignature ;;
   let! name := load Name name_info (into BadAccountData) in
   fail_if (negb (nm_owner name =? ia_key owner_info)) (into NotOwner) ;;
   copy_into (with_name new_owner (nm_expires_at name) (nm_registered_at name) (nm_records name) false name) name_info)%prog.

Definition process_set_record (key : RecordKey) (value : list byte) : M unit :=
  (let! '(name_info, it) := next_account_info (cx_accounts cx) in
   let! '(owner_info, it) := next_account_info it in
   let! '(clock_sysvar, it) := next_account_info it in
   fail_if (negb (ia_is_signer owner_info)) MissingRequiredSignature ;;
   fail_if (MAX_RECORD_VALUE_LEN <? zlen value) (into RecordValueTooLong) ;;
   let! clock := clock_from_account_info cx clock_sysvar in
   let! name := load Name name_info (into BadAccountData) in
   fail_if (negb (nm_owner name =? ia_key owner_info)) (into NotOwner) ;;
   fail_if (nm_expires_at name <? unix_timestamp clock) (into NameExpired) ;;
   let! records := lift (update_records key value (nm_records name)) in
   copy_into (set_records records name) name_info)%prog.

Definition process_delete_record (key : RecordKey) : M unit :=
  (let! '(name_info, it) := next_account_info (cx_accounts cx) in
   let! '(owner_info, it) := next_account_info it in
   fail_if (negb (ia_is_signer owner_info)) MissingRequiredSignature ;;
   let! name := load Name name_info (into BadAccountData) in
   fail_if (negb (nm_owner name =? ia_key owner_info)) (into NotOwner) ;;
   let! pos := lift (ok_or (position (fun r => bool_decide (nr_key r = key)) (nm_records name)) (into RecordNotFound)) in
   copy_into (set_records (delete pos (nm_records name)) name) name_info)%prog.

Definition process_create_subdomain (label : list byte) (subdomain_owner : Pubkey) : M unit :=
  (let! '(parent_info, it) := next_account_info (cx_accounts cx) in
   let! '(subdomain_info, it) := next_account_info it in
   let! '(owner_info, it) := next_account_info it in
   let! '(clock_sysvar, it) := next_account_info it in
   let! '(_system_program, it) := next_account_info it in
   let! '(_rent_sysvar, it) := next_account_info it in
   fail_if (negb (ia_is_signer owner_info)) MissingRequiredSignature ;;
   fail_if (MAX_SUBDOMAIN_LEN <? zlen label) (into SubdomainTooLong) ;;
   fail_if (negb (forallb allowed_char label)) (into InvalidNameChars) ;;
   let! parent := load Name parent_info (into BadAccountData) in
   fail_if (negb (nm_is_initialized parent)) (into InvalidParentName) ;;
   fail_if (negb (nm_owner parent =? ia_key owner_info)) (into NotOwner) ;;
   let! clock := clock_from_account_info cx clock_sysvar in
   fail_if (nm_expires_at parent <? unix_timestamp clock) (into InvalidParentName) ;;
   let '(expected_pda, bump) := find_program_address [SUBDOMAIN_SEED; label; nm_name_hash parent] (cx_program_id cx) in
   fail_if (negb (ia_key subdomain_info =? expected_pda)) InvalidSeeds ;;
   copy_into (mkSubdomain true label (nm_name_hash parent) subdomain_owner [] bump) subdomain_info)%prog.

Definition process_delete_subdomain : M unit :=
  (let! '(parent_info, it) := next_account_info (cx_accounts cx) in
   let! '(subdomain_info, it) := next_account_info it in
   let! '(owner_info, it) := next_account_info it in
   fail_if (negb (ia_is_signer owner_info)) MissingRequiredSignature ;;
   let! parent := load Name parent_info (into BadAccountData) in
   (if negb (nm_owner parent =? ia_key owner_info) then
      let! subdomain := load Subdomain subdomain_info (into BadAccountData) in
      fail_if (negb (sd_owner subdomain =? ia_key owner_info)) (into NotOwner)
    else pret tt) ;;
   let! subdomain := load Subdomain subdomain_info (into BadAccountData) in
   copy_into (mkSubdomain false (sd_label subdomain) (sd_parent_name_hash subdomain) (sd_owner subdomain) []
     (sd_bump subdomain)) subdomain_info)%prog.

Definition process_set_reverse_lookup : M unit :=
  (let! '(name_info, it) := next_account_info (cx_accounts cx) in
   let! '(reverse_info, it) := next_account_info it in
   let! '(owner_info, it) := next_account_info it in
   let! '(_system_program, it) := next_account_info it in
   let! '(_rent_sysvar, it) := next_account_info it in
   fail_if (negb (ia_is_signer owner_info)) MissingRequiredSignature ;;
   let! name := load Name name_info (into BadAccountData) in
   fail_if (negb (nm_owner name =? ia_key owner_info)) (into NotOwner) ;;
   let '(expected_pda, bump) := find_program_address [REVERSE_SEED; key_bytes (ia_key owner_info)] (cx_program_id cx) in
   fail_if (negb (ia_key reverse_info =? expected_pda)) InvalidSeeds ;;
   copy_into (mkReverse true (ia_key owner_info) (nm_name_hash name) bump) reverse_info ;;
   copy_into (with_name (nm_owner name) (nm_expires_at name) (nm_registered_at name) (nm_records name) true name)
     name_info)%prog.

Definition process_remove_reverse_lookup : M unit :=
  (let! '(reverse_info, it) := next_account_info (cx_accounts cx) in
   let! '(owner_info, it) := next_account_info it in
   fail_if (negb (ia_is_signer owner_info)) MissingRequiredSignature ;;
   let! reverse := load ReverseLookup reverse_info (into BadAccountData) in
   fail_if (negb (rv_address reverse =? ia_key owner_info)) (into NotOwner) ;;
   copy_into (mkReverse false (rv_address reverse) (rv_name_hash reverse) (rv_bump reverse)) reverse_info)%prog.

Definition process_claim_expired_name : M unit :=
  (let! '(name_info, it) := next_account_info (cx_accounts cx) in
   let! '(_registry_info, it) := next_account_info it in
   let! '(claimant_info, it) := next_account_info it in
   let! '(_treasury_info, it) := next_account_info it in
   let! '(clock_sysvar, it) := next_account_info it in
   fail_if (negb (ia_is_signer claimant_info)) MissingRequiredSignature ;;
   let! clock := clock_from_account_info cx clock_sysvar in
   let now := unix_timestamp clock in
   let! name := load Name name_info (into BadAccountData) in
   fail_if (negb (nm_is_initialized name)) (into NameNotFound) ;;
   let! grace_deadline := lift (ok_or (i64_checked_add (nm_expires_at name) GRACE_PERIOD_SECS) (into Overflow)) in
   fail_if (now <? grace_deadline) (into NameNotExpired) ;;
   let! expires_at := lift (ok_or (i64_checked_add now REGISTRATION_PERIOD_SECS) (into Overflow)) in
   copy_into (with_name (ia_key claimant_info) expires_at now [] false name) name_info)%prog.

Definition process_instruction (instruction_data : list byte) : M unit :=
  (let! instruction := lift (ok_or (try_from_slice instruction_data) InvalidInstructionData) in
   match instruction with
   | InitializeRegistry => process_initialize_registry
   | RegisterName name => process_register_name name
   | RenewName => process_renew_name
   | TransferName new_owner => process_transfer_name new_owner
   | SetRecord key value => process_set_record key value
   | DeleteRecord key => process_delete_record key
   | CreateSubdomain label subdomain_owner => process_create_subdomain label subdomain_owner
   | DeleteSubdomain => process_delete_subdomain
   | SetReverseLookup => process_set_reverse_lookup
   | RemoveReverseLookup => process_remove_reverse_lookup
   | ClaimExpiredName => process_claim_expired_name
   end)%prog.
End NameService.
