(* ===== verification/NameServiceProofs.v ===== *)
(** * NameServiceProofs: ownership of names *)

From Stdlib Require Import Strings.Byte.
From S2P Require Import Prelude Borsh Accounts System Invoke Execution Cpi Ledger Records Wire NameService.
Open Scope Z_scope.

(** ** Valid names *)

Definition valid_name (name : list byte) : Prop :=
  1 <= zlen name <= 64 /\ Forall (fun b => allowed_char b = true) name /\ is_hyphen (head name) = false /\ is_hyphen (last name) = false.

Lemma forallb_Forall_true {A} (p : A -> bool) l : forallb p l = true <-> Forall (fun a => p a = true) l.
Proof. induction l as [|a l IH]; simpl; [by split; [constructor|]|]. by rewrite andb_true_iff, Forall_cons, IH. Qed.

Lemma validate_name_ok name : validate_name name = Ok tt <-> valid_name name.
Proof.
  unfold validate_name, valid_name, MAX_NAME_LEN, MIN_NAME_LEN. split.
  - intros H. rinv. bool_to_prop. by rewrite forallb_Forall_true in *.
  - intros (Hn & Hf & Hh & Hl). rewrite <- forallb_Forall_true in Hf. rewrite Hf, Hh, Hl.
    by rewrite (proj2 (Z.ltb_ge _ _)), (proj2 (Z.ltb_ge _ _)) by lia.
Qed.

(** ** The life of a name *)

Inductive nstep (now : Z) : Name -> Name -> Prop :=
| step_renew n : now <= nm_expires_at n + GRACE_PERIOD_SECS ->
    nstep now n (with_name (nm_owner n) (Z.max now (nm_expires_at n) + REGISTRATION_PERIOD_SECS) (nm_registered_at n)
      (nm_records n) (nm_has_reverse n) n)
| step_transfer n o : nstep now n (with_name o (nm_expires_at n) (nm_registered_at n) (nm_records n) false n)
| step_records n rs : nstep now n (set_records rs n)
| step_reverse n : nstep now n (with_name (nm_owner n) (nm_expires_at n) (nm_registered_at n) (nm_records n) true n)
| step_claim n o : nm_expires_at n + GRACE_PERIOD_SECS <= now ->
    nstep now n (with_name o (now + REGISTRATION_PERIOD_SECS) now [] false n).

Section Names.
Context {E : Env} {BG : Borsh NameRegistry} {BN : Borsh Name} {BS : Borsh Subdomain} {BR : Borsh ReverseLookup}
  {BI : Borsh NameServiceInstruction}.
Context {LG : BorshLaws NameRegistry} {LN : BorshLaws Name} {LS : BorshLaws Subdomain} {LR : BorshLaws ReverseLookup}
  {LI : BorshLaws NameServiceInstruction}.
Context {MN : BorshMeasured Name name_len} {MS : BorshMeasured Subdomain subdomain_len}.
Context (cx : Ctx).
Abbreviation now := (unix_timestamp (cx_clock cx)).

(** The position of the name account in the instructions that write a name. *)
Definition name_index (i : NameServiceInstruction) : option nat :=
  match i with
  | RenewName | TransferName _ | SetRecord _ _ | DeleteRecord _ | SetReverseLookup | ClaimExpiredName => Some 0%nat
  | RegisterName _ => Some 1%nat
  | _ => None
  end.

Lemma zsum_nonneg {A} (f : A -> Z) l : (forall a, 0 <= f a) -> 0 <= zsum f l.
Proof. intros Hf. induction l as [|a l IH]; simpl; [lia|]. specialize (Hf a). lia. Qed.
Lemma record_len_pos r : 0 < record_len r.
Proof. unfold record_len, key_len, zlen. destruct (nr_key r); lia. Qed.
Lemma name_len_pos n : 0 < name_len n.
Proof.
  unfold name_len, zlen. pose proof (zsum_nonneg record_len (nm_records n) (fun r => Z.lt_le_incl _ _ (record_len_pos r))). lia.
Qed.

(** A name that is neither free nor beyond its grace period is not available. *)
Lemma check_available_taken m k n u :
  holds m k n -> nm_is_initialized n = true -> now < nm_expires_at n + GRACE_PERIOD_SECS ->
  check_available now (acc_data (get_acc m k)) <> Ok u.
Proof.
  intros Hn Hi Hlt H. unfold check_available in H. apply try_from_slice_some in Hn as Hn'. destruct Hn' as [Wn Hd].
  unfold holds in Hn. rewrite Hn, Hi, Hd, (borsh_measured n Wn), andb_true_r in H.
  pose proof (name_len_pos n). rewrite (proj2 (Z.ltb_lt _ _)) in H by lia. rinv. bool_to_prop. lia.
Qed.

Lemma name_instruction_step data i s s' j k n :
  try_from_slice data = Some i -> name_index i = Some j -> ia_key <$> cx_accounts cx !! j = Some k -> holds (mem s) k n ->
  nm_is_initialized n = true -> now < nm_expires_at n + GRACE_PERIOD_SECS -> process_instruction cx data s = Ok (tt, s') ->
  signed cx (nm_owner n) /\ exists n', nstep now n n' /\
    (mem s' = stored n' k (mem s) \/ exists kr (r : ReverseLookup), mem s' = stored n' k (stored r kr (mem s))) /\
    (nm_owner n' = nm_owner n \/ i = TransferName (nm_owner n')).
Proof.
  intros Hde Hj Hk Hn Hi Hlt H. unfold process_instruction in H. rewrite Hde in H. cbn [ok_or lift pbind] in H.
  destruct i; try done; injection Hj as <-.
  all: unfold process_register_name, process_renew_name, process_transfer_name, process_set_record, process_delete_record,
      process_set_reverse_lookup, process_claim_expired_name in H; pinv; bool_to_prop; hyp (cx_accounts cx = _) as Hacc;
      rewrite Hacc in Hk; injection Hk as <-;
      repeat match goal with Hc : clock_from_account_info _ _ _ = Ok _ |- _ => apply clock_account_ok in Hc as (_ & -> & ->) end.
  { exfalso. hyp (check_available _ _ = Ok _) as Hav. by eapply check_available_taken in Hav. }
  all: reads n; try lia; (split; [try (hyp (nm_owner _ = ia_key _) as Ho; rewrite Ho; by_signer)|]).
  all: try (match goal with |- exists n', nstep _ _ n' /\ (stored ?n' _ _ = _ \/ _) /\ _ => exists n' end;
    (split_and!; [|first [by left|right; by eexists _, _]|first [by left|by right]])).
  - assert ((if nm_expires_at n <? now then now else nm_expires_at n) = Z.max now (nm_expires_at n)) as ->
      by (destruct (Z.ltb_spec (nm_expires_at n) now); lia).
    by apply step_renew.
  - apply step_transfer.
  - apply step_records.
  - apply step_records.
  - apply step_reverse.
Qed.

(** ** Registration *)

(** What [RegisterName] leaves, when nothing it can decode is at the address of
    the name. *)
Lemma register_name_ok {SG : BorshSized NameRegistry REGISTRY_LEN} name s rg na re tr ck sy rn rest g bump :
  cx_accounts cx = rg :: na :: re :: tr :: ck :: sy :: rn :: rest -> ia_is_signer re = true -> ia_key ck = clock_id ->
  valid_name name -> find_program_address [NAME_SEED; compute_name_hash name] (cx_program_id cx) = (ia_key na, bump) ->
  try_from_slice (A := Name) (acc_data (get_acc (mem s) (ia_key na))) = None -> ia_key rg <> ia_key na ->
  holds (mem s) (ia_key rg) g -> is_u64 (rg_total_names g + 1) -> is_i64 (now + REGISTRATION_PERIOD_SECS) ->
  let n := mkName true name (compute_name_hash name) (ia_key re) (now + REGISTRATION_PERIOD_SECS) now [] false bump in
  zlen (borsh_ser n) <= zlen (acc_data (get_acc (mem s) (ia_key na))) ->
  exists s' (g' : NameRegistry), process_register_name cx name s = Ok (tt, s') /\
    mem s' = stored n (ia_key na) (stored g' (ia_key rg) (mem s)).
Proof.
  intros Hacc Hsig Hck Hv Hf Hno Hne Hg Ht Hx n Hn.
  set (g' := mkRegistry (rg_is_initialized g) (rg_authority g) (rg_treasury g) (rg_total_names g + 1) (rg_bump g)).
  exists (mkPState (stored n (ia_key na) (stored g' (ia_key rg) (mem s))) (rt s)), g'. split; [|done].
  unfold process_register_name. rewrite Hacc. apply validate_name_ok in Hv.
  prun; [by rewrite Hsig|by rewrite Hv|]. apply pbind_ok. eexists _, _. split; [by apply clock_account_ok|].
  cbv beta iota. rewrite Hf. prun; [by pcheck|unfold check_available; by rewrite Hno|by rewrite checked_in|by rewrite checked_in|].
  apply pbind_ok. eexists tt, _. split; apply copy_into_ok; (split; [|reflexivity]); cbn [mem].
  - apply holds_well_typed in Hg as Wg. rewrite (holds_zlen _ _ _ Hg), borsh_sized; [done|].
    unfold well_typed, NameRegistry_well_typed in *. simpl. tauto.
  - by rewrite stored_ne by done.
Qed.

(** ** Subdomains *)

Lemma delete_subdomain_ok s pa sd ow rest n d :
  cx_accounts cx = pa :: sd :: ow :: rest -> ia_is_signer ow = true ->
  holds (mem s) (ia_key pa) n -> nm_owner n = ia_key ow -> holds (mem s) (ia_key sd) d ->
  process_delete_subdomain cx s = Ok (tt, mkPState (stored (mkSubdomain false (sd_label d) (sd_parent_name_hash d) (sd_owner d) []
    (sd_bump d)) (ia_key sd) (mem s)) (rt s)).
Proof.
  intros Hacc Hsig Hn Ho Hd. unfold process_delete_subdomain. rewrite Hacc. prun; [by rewrite Hsig|].
  rewrite Ho, Z.eqb_refl. prun. apply copy_into_ok. split; [|reflexivity].
  apply try_from_slice_some in Hd as [Wd ->]. rewrite (borsh_measured d Wd), borsh_measured.
  - unfold subdomain_len. simpl. pose proof (zsum_nonneg record_len (sd_records d) (fun r => Z.lt_le_incl _ _ (record_len_pos r))). lia.
  - destruct Wd as (? & ? & ? & _ & ?). by split_and!.
Qed.
End Names.
