(* ===== verification/NameServiceTheorems.v ===== *)
(** * NameServiceTheorems: the properties of the name service

    The theorems about [src/programs/name-service/src/lib.rs], and the
    evaluation of the program on concrete accounts in the Borsh wire format. *)

From Stdlib Require Import Strings.Byte.
From S2P Require Import Prelude Borsh Accounts System Invoke Execution Concrete Cpi Ledger Records Wire NameService NameServiceProofs.
Open Scope Z_scope.

(** ** The data on the wire *)

Definition key_index (k : RecordKey) : nat :=
  match k with
  | Wallet => 0 | Ipfs => 1 | Arweave => 2 | Twitter => 3 | Discord => 4 | Telegram => 5 | Github => 6 | Email => 7 | Url => 8
  | Avatar => 9 | Btc => 10 | Eth => 11 | CustomKey _ => 12
  end.
Definition constant_key (k : RecordKey) : variant RecordKey := mkVariant codec_unit (fun _ => k) (fun _ => Some tt).
Definition codec_key : codec RecordKey :=
  codec_variants
    ((constant_key <$> [Wallet; Ipfs; Arweave; Twitter; Discord; Telegram; Github; Email; Url; Avatar; Btc; Eth]) ++
     [mkVariant codec_bytes CustomKey (fun k => match k with CustomKey b => Some b | _ => None end)])
    key_index.
Definition codec_record : codec NameRecord :=
  codec_iso (fun '(k, v) => mkNameRecord k v) (fun r => (nr_key r, nr_value r)) (codec_pair codec_key codec_bytes).
Definition codec_name_registry : codec NameRegistry :=
  codec_iso (fun '(i, (a, (t, (n, b)))) => mkRegistry i a t n b)
    (fun r => (rg_is_initialized r, (rg_authority r, (rg_treasury r, (rg_total_names r, rg_bump r)))))
    (codec_pair codec_bool (codec_pair codec_pubkey (codec_pair codec_pubkey (codec_pair (codec_uint 8) (codec_uint 1))))).
Definition codec_name : codec Name :=
  codec_iso (fun '(i, (n, (h, (o, (e, (r, (l, (v, b)))))))) => mkName i n h o e r l v b)
    (fun n => (nm_is_initialized n, (nm_name n, (nm_name_hash n, (nm_owner n, (nm_expires_at n, (nm_registered_at n,
       (nm_records n, (nm_has_reverse n, nm_bump n)))))))))
    (codec_pair codec_bool (codec_pair codec_bytes (codec_pair (codec_array 32) (codec_pair codec_pubkey
      (codec_pair (codec_int 8) (codec_pair (codec_int 8) (codec_pair (codec_vec codec_record)
      (codec_pair codec_bool (codec_uint 1))))))))).
Definition codec_subdomain : codec Subdomain :=
  codec_iso (fun '(i, (l, (h, (o, (r, b))))) => mkSubdomain i l h o r b)
    (fun d => (sd_is_initialized d, (sd_label d, (sd_parent_name_hash d, (sd_owner d, (sd_records d, sd_bump d))))))
    (codec_pair codec_bool (codec_pair codec_bytes (codec_pair (codec_array 32) (codec_pair codec_pubkey
      (codec_pair (codec_vec codec_record) (codec_uint 1)))))).
Definition codec_reverse : codec ReverseLookup :=
  codec_iso (fun '(i, (a, (h, b))) => mkReverse i a h b)
    (fun r => (rv_is_initialized r, (rv_address r, (rv_name_hash r, rv_bump r))))
    (codec_pair codec_bool (codec_pair codec_pubkey (codec_pair (codec_array 32) (codec_uint 1)))).

Definition name_instruction_index (i : NameServiceInstruction) : nat :=
  match i with
  | InitializeRegistry => 0 | RegisterName _ => 1 | RenewName => 2 | TransferName _ => 3 | SetRecord _ _ => 4
  | DeleteRecord _ => 5 | CreateSubdomain _ _ => 6 | DeleteSubdomain => 7 | SetReverseLookup => 8 | RemoveReverseLookup => 9
  | ClaimExpiredName => 10
  end.
Definition codec_name_instruction : codec NameServiceInstruction :=
  codec_variants
    [mkVariant codec_unit (fun _ => InitializeRegistry) (fun _ => Some tt);
     mkVariant codec_bytes RegisterName (fun i => match i with RegisterName n => Some n | _ => None end);
     mkVariant codec_unit (fun _ => RenewName) (fun _ => Some tt);
     mkVariant codec_pubkey TransferName (fun i => match i with TransferName o => Some o | _ => None end);
     mkVariant (codec_pair codec_key codec_bytes) (fun '(k, v) => SetRecord k v)
       (fun i => match i with SetRecord k v => Some (k, v) | _ => None end);
     mkVariant codec_key DeleteRecord (fun i => match i with DeleteRecord k => Some k | _ => None end);
     mkVariant (codec_pair codec_bytes codec_pubkey) (fun '(l, o) => CreateSubdomain l o)
       (fun i => match i with CreateSubdomain l o => Some (l, o) | _ => None end);
     mkVariant codec_unit (fun _ => DeleteSubdomain) (fun _ => Some tt);
     mkVariant codec_unit (fun _ => SetReverseLookup) (fun _ => Some tt);
     mkVariant codec_unit (fun _ => RemoveReverseLookup) (fun _ => Some tt);
     mkVariant codec_unit (fun _ => ClaimExpiredName) (fun _ => Some tt)]
    name_instruction_index.

Lemma codec_key_laws : codec_laws codec_key.
Proof.
  apply codec_variants_laws; [simpl; lia|repeat apply Forall_cons_2; simpl; auto 10 with codec| |].
  - intros [|[|[|[|[|[|[|[|[|[|[|[|[|]]]]]]]]]]]]] v a [= <-]; simpl in a; try destruct a as []; done.
  - intros [] v a [= <-]; simpl; by intros [= <-].
Qed.
Lemma codec_key_typed k : c_wf codec_key k <-> key_ok k.
Proof. symmetry. destruct k; unfold key_ok, codec_key; codec_variant_typed. Qed.
Lemma codec_key_len : c_len codec_key key_len.
Proof.
  intros k Hk. apply codec_key_typed in Hk. destruct k; try done.
  change (c_ser codec_key (CustomKey key)) with (byte_of_Z 12 :: c_ser codec_bytes key).
  pose proof (codec_bytes_len key (proj2 (codec_bytes_wf key) Hk)) as Hl. unfold zlen in *. cbn [length key_len]. unfold zlen. lia.
Qed.
#[local] Hint Resolve codec_key_laws : codec.
#[local] Hint Rewrite codec_key_typed : codec_wf.
#[local] Hint Resolve codec_key_len : codec_len.

Lemma codec_record_laws : codec_laws codec_record.
Proof. apply codec_iso_laws; [by intros []|by intros (?&?)|]. auto 20 with codec. Qed.
Lemma codec_record_wf r : c_wf codec_record r <-> record_ok r.
Proof. unfold codec_record, record_ok. codec_typed. Qed.
Lemma codec_records_wf l : c_wf (codec_vec codec_record) l <-> Forall record_ok l /\ is_u32 (zlen l).
Proof. apply codec_list_wf, codec_record_wf. Qed.
Lemma codec_records_len : c_len (codec_vec codec_record) (fun l => 4 + zsum record_len l).
Proof. apply codec_vec_sum. codec_len. done. Qed.
#[local] Hint Resolve codec_record_laws : codec.
#[local] Hint Rewrite codec_records_wf : codec_wf.
#[local] Hint Resolve codec_records_len : codec_len.

Lemma codec_name_registry_laws : codec_laws codec_name_registry.
Proof. apply codec_iso_laws; [by intros []|by intros (?&?&?&?&?)|]. auto 20 with codec. Qed.
Lemma codec_name_registry_wf r : well_typed r <-> c_wf codec_name_registry r.
Proof. unfold codec_name_registry, well_typed, NameRegistry_well_typed. codec_typed. Qed.
Lemma codec_name_registry_size : c_size codec_name_registry REGISTRY_LEN.
Proof. codec_size. Qed.
Lemma codec_name_laws : codec_laws codec_name.
Proof. apply codec_iso_laws; [by intros []|by intros (?&?&?&?&?&?&?&?&?)|]. auto 20 with codec. Qed.
Lemma codec_name_wf n : well_typed n <-> c_wf codec_name n.
Proof. unfold codec_name, well_typed, Name_well_typed. codec_typed. Qed.
Lemma codec_name_len : c_len codec_name name_len.
Proof. codec_len. intros n. unfold name_len. simpl. lia. Qed.
Lemma codec_subdomain_laws : codec_laws codec_subdomain.
Proof. apply codec_iso_laws; [by intros []|by intros (?&?&?&?&?&?)|]. auto 20 with codec. Qed.
Lemma codec_subdomain_wf d : well_typed d <-> c_wf codec_subdomain d.
Proof. unfold codec_subdomain, well_typed, Subdomain_well_typed. codec_typed. Qed.
Lemma codec_subdomain_len : c_len codec_subdomain subdomain_len.
Proof. codec_len. intros n. unfold subdomain_len. simpl. lia. Qed.
Lemma codec_reverse_laws : codec_laws codec_reverse.
Proof. apply codec_iso_laws; [by intros []|by intros (?&?&?&?)|]. auto 20 with codec. Qed.
Lemma codec_reverse_wf r : well_typed r <-> c_wf codec_reverse r.
Proof. unfold codec_reverse, well_typed, ReverseLookup_well_typed. codec_typed. Qed.
Lemma codec_name_instruction_laws : codec_laws codec_name_instruction.
Proof.
  apply codec_variants_laws; [simpl; lia|repeat apply Forall_cons_2; simpl; auto 10 with codec| |].
  - intros [|[|[|[|[|[|[|[|[|[|[|]]]]]]]]]]] v a [= <-]; simpl in a;
      repeat match goal with x : _ * _ |- _ => destruct x | x : unit |- _ => destruct x end; done.
  - intros [] v a [= <-]; simpl; by intros [= <-].
Qed.
Lemma codec_name_instruction_wf i : well_typed i <-> c_wf codec_name_instruction i.
Proof. destruct i; unfold well_typed, NameServiceInstruction_well_typed, codec_name_instruction; codec_variant_typed. Qed.

#[global] Instance registry_borsh : Borsh NameRegistry := borsh_of_codec codec_name_registry.
#[global] Instance registry_borsh_laws : BorshLaws NameRegistry := borsh_of_codec_laws _ codec_name_registry_laws codec_name_registry_wf.
#[global] Instance registry_borsh_sized : BorshSized NameRegistry REGISTRY_LEN :=
  borsh_of_codec_sized _ _ codec_name_registry_size codec_name_registry_wf.
#[global] Instance name_borsh : Borsh Name := borsh_of_codec codec_name.
#[global] Instance name_borsh_laws : BorshLaws Name := borsh_of_codec_laws _ codec_name_laws codec_name_wf.
#[global] Instance name_borsh_measured : BorshMeasured Name name_len := borsh_of_codec_measured _ _ codec_name_len codec_name_wf.
#[global] Instance subdomain_borsh : Borsh Subdomain := borsh_of_codec codec_subdomain.
#[global] Instance subdomain_borsh_laws : BorshLaws Subdomain := borsh_of_codec_laws _ codec_subdomain_laws codec_subdomain_wf.
#[global] Instance subdomain_borsh_measured : BorshMeasured Subdomain subdomain_len :=
  borsh_of_codec_measured _ _ codec_subdomain_len codec_subdomain_wf.
#[global] Instance reverse_borsh : Borsh ReverseLookup := borsh_of_codec codec_reverse.
#[global] Instance reverse_borsh_laws : BorshLaws ReverseLookup := borsh_of_codec_laws _ codec_reverse_laws codec_reverse_wf.
#[global] Instance name_instruction_borsh : Borsh NameServiceInstruction := borsh_of_codec codec_name_instruction.
#[global] Instance name_instruction_borsh_laws : BorshLaws NameServiceInstruction :=
  borsh_of_codec_laws _ codec_name_instruction_laws codec_name_instruction_wf.

(** The name [ab] of 300, registered at time 1000, in an account of the exact
    size and in a larger one; the name [xyz] of 666 and the subdomain [s] of [ab]. *)
Module NamesDemo.
Definition PROGRAM : Pubkey := 100.
Definition text : list byte := [Byte.x61; Byte.x62].
Definition name : Name := mkName true text (sha256 text) 300 (1000 + REGISTRATION_PERIOD_SECS) 1000 [] false 255.
Definition other : Name :=
  mkName true [Byte.x78; Byte.x79; Byte.x7a] (sha256 [Byte.x78; Byte.x79; Byte.x7a]) 666 (1000 + REGISTRATION_PERIOD_SECS) 1000 [] false 255.
Definition sub : Subdomain := mkSubdomain true [Byte.x73] (sha256 text) 301 [] 255.
Definition registry : NameRegistry := mkRegistry true 800 801 1 255.
Definition name_key : Pubkey := derive [NAME_SEED; sha256 text; [byte_of_Z 255]] PROGRAM.
Definition pad : list byte := replicate 100 Byte.x00.
Definition accounts (padding : list byte) : list (Pubkey * Account) :=
  [(500, mkAccount 1000000 (borsh_ser registry) PROGRAM false);
   (name_key, mkAccount 1000000 (borsh_ser name ++ padding) PROGRAM false);
   (600, mkAccount 1000000 (borsh_ser other) PROGRAM false); (700, mkAccount 1000000 (borsh_ser sub) PROGRAM false);
   (300, mkAccount 5000 [] 0 false); (666, mkAccount 5000 [] 0 false)].
Definition state (padding : list byte) : PState := mkPState (store (accounts padding)) (mkTA (store (accounts padding)) 0 0).
Definition len (k : Pubkey) : Z := zlen (acc_data (get_acc (store (accounts [])) k)).

Definition register_cx : Ctx := demo_ctx PROGRAM
  [mkIA 500 false true; mkIA name_key false true; mkIA 666 true false; mkIA 801 false true; mkIA clock_id false false;
   mkIA 0 false false; mkIA rent_id false false] 5000 len.
Definition delete_cx : Ctx := demo_ctx PROGRAM [mkIA 600 false false; mkIA 700 false true; mkIA 666 true false] 5000 len.

End NamesDemo.

(** ** Properties *)

Section NameProperties.
Context {E : Env} {BG : Borsh NameRegistry} {BN : Borsh Name} {BS : Borsh Subdomain} {BR : Borsh ReverseLookup}
  {BI : Borsh NameServiceInstruction}.
Context {LG : BorshLaws NameRegistry} {LN : BorshLaws Name} {LS : BorshLaws Subdomain} {LR : BorshLaws ReverseLookup}
  {LI : BorshLaws NameServiceInstruction}.
Context {MN : BorshMeasured Name name_len} {MS : BorshMeasured Subdomain subdomain_len} {SG : BorshSized NameRegistry REGISTRY_LEN}.


(** Finding: a registered name in an account with room to spare is free for
    everyone.  [RegisterName] ignores what it cannot decode, and it decodes
    nothing from an account that is longer than the stored name, as one of
    [Name::MAX_SIZE] bytes is: whoever registers the name next becomes its
    owner, at any time. *)
Theorem padded_name_taken_over {L : EnvLaws} cx name s rg na re tr ck sy rn rest g n pad :
  (forall bs, zlen (sha256 bs) = 32) -> typed_inputs cx s ->
  cx_accounts cx = rg :: na :: re :: tr :: ck :: sy :: rn :: rest -> ia_is_signer re = true -> ia_key ck = clock_id ->
  valid_name name -> ia_key na = (find_program_address [NAME_SEED; compute_name_hash name] (cx_program_id cx)).1 ->
  ia_key rg <> ia_key na -> holds (mem s) (ia_key rg) g -> rg_total_names g < U64_MAX ->
  is_i64 (unix_timestamp (cx_clock cx) + REGISTRATION_PERIOD_SECS) ->
  acc_data (get_acc (mem s) (ia_key na)) = borsh_ser n ++ pad -> well_typed n -> nm_name n = name -> pad <> [] ->
  exists s' n' pad', process_register_name cx name s = Ok (tt, s') /\
    acc_data (get_acc (mem s') (ia_key na)) = borsh_ser n' ++ pad' /\ nm_name n' = name /\ nm_owner n' = ia_key re.
Proof.
  intros Hsha Hty Hacc Hsig Hck Hv Hna Hne Hg Ht Hx Hd Wn Hnm Hpad.
  destruct (find_program_address [NAME_SEED; compute_name_hash name] (cx_program_id cx)) as [pda bump] eqn:Hf.
  simpl in Hna. subst pda. destruct (find_create _ _ _ _ Hf) as [Hb _].
  pose proof (ti_keys _ _ Hty) as Hk. rewrite Hacc, !Forall_cons in Hk. pose proof (ti_clock _ _ Hty).
  set (n' := mkName true name (compute_name_hash name) (ia_key re) (unix_timestamp (cx_clock cx) + REGISTRATION_PERIOD_SECS)
    (unix_timestamp (cx_clock cx)) [] false bump).
  assert (Wn' : well_typed n').
  { unfold well_typed, Name_well_typed in *. rewrite Hnm in Wn. simpl. unfold compute_name_hash. rewrite Hsha.
    assert (is_u32 (zlen (@nil NameRecord))) by evaluate. assert (Forall record_ok []) by constructor. tauto. }
  assert (Hl : zlen (borsh_ser n') <= zlen (borsh_ser n ++ pad)).
  { unfold zlen at 2. rewrite length_app, Nat2Z.inj_add. change (Z.of_nat (length (borsh_ser n))) with (zlen (borsh_ser n)).
    rewrite !borsh_measured by done. unfold name_len. rewrite Hnm. simpl.
    pose proof (zsum_nonneg record_len (nm_records n) (fun r => Z.lt_le_incl _ _ (record_len_pos r))). lia. }
  edestruct (register_name_ok cx name s rg na re tr ck sy rn rest g bump) as (s' & g' & Hrun & Hm); try done.
  - rewrite Hd. by apply try_from_slice_trailing.
  - apply holds_well_typed in Hg. destruct Hg as (_ & _ & ? & _). ilia.
  - by rewrite Hd.
  - exists s', n', (drop (length (borsh_ser n')) (borsh_ser n ++ pad)). split_and!; [done| |done|done].
    rewrite Hm, stored_data, stored_ne, Hd by done. done.
Qed.

(** Finding: the owner of any name deletes every subdomain.  The deletion
    checks that the signer owns the name that is passed as parent, but not that
    the subdomain belongs to that name. *)
Theorem foreign_subdomain_deleted cx s pa sd ow rest n d :
  cx_accounts cx = pa :: sd :: ow :: rest -> ia_is_signer ow = true ->
  holds (mem s) (ia_key pa) n -> nm_owner n = ia_key ow -> holds (mem s) (ia_key sd) d ->
  exists s', process_delete_subdomain cx s = Ok (tt, s') /\
    mem s' = stored (mkSubdomain false (sd_label d) (sd_parent_name_hash d) (sd_owner d) [] (sd_bump d)) (ia_key sd) (mem s).
Proof. intros. eexists. split; [by eapply delete_subdomain_ok|done]. Qed.
End NameProperties.

(** ** The hypotheses can hold *)


Lemma padded_name_taken_over_witness : exists s' n' pad',
  process_register_name NamesDemo.register_cx NamesDemo.text (NamesDemo.state NamesDemo.pad) = Ok (tt, s') /\
  acc_data (get_acc (mem s') NamesDemo.name_key) = borsh_ser n' ++ pad' /\ nm_name n' = NamesDemo.text /\ nm_owner n' = 666.
Proof.
  apply (padded_name_taken_over NamesDemo.register_cx NamesDemo.text (NamesDemo.state NamesDemo.pad) (mkIA 500 false true)
    (mkIA NamesDemo.name_key false true) (mkIA 666 true false) (mkIA 801 false true) (mkIA clock_id false false)
    (mkIA 0 false false) (mkIA rent_id false false) [] NamesDemo.registry NamesDemo.name NamesDemo.pad).
  - intros bs. unfold zlen. change (sha256 bs) with (le_bytes 32 (hash bs)). by rewrite length_le_bytes.
  - split; [repeat constructor; evaluate|evaluate|]. intros k. apply data_bound_store; [evaluate|]. repeat constructor; evaluate.
  - evaluate.
  - evaluate.
  - evaluate.
  - split_and!; [evaluate|evaluate|repeat constructor; evaluate|evaluate|evaluate].
  - evaluate.
  - evaluate.
  - evaluate.
  - evaluate.
  - evaluate.
  - evaluate.
  - unfold well_typed, Name_well_typed. split_and!; [evaluate|evaluate|evaluate|evaluate|evaluate|constructor|evaluate|evaluate].
  - evaluate.
  - discriminate.
Defined.

Lemma foreign_subdomain_deleted_witness : exists s',
  process_delete_subdomain NamesDemo.delete_cx (NamesDemo.state []) = Ok (tt, s') /\
  mem s' = stored (mkSubdomain false [Byte.x73] (sha256 NamesDemo.text) 301 [] 255) 700 (mem (NamesDemo.state [])).
Proof.
  apply (foreign_subdomain_deleted NamesDemo.delete_cx (NamesDemo.state []) (mkIA 600 false false) (mkIA 700 false true)
    (mkIA 666 true false) [] NamesDemo.other NamesDemo.sub); evaluate.
Defined.
