(* ===== verification/Privacy.v ===== *)
(** * Privacy: the shielded pool

    Models [src/programs/privacy/src/lib.rs]: the pool with its Merkle root, the
    commitments, nullifiers, stealth addresses, encrypted notes and auditors,
    the verification of the proofs, and the nine instructions. *)

From Stdlib Require Import Strings.Byte Strings.String.
From S2P Require Import Prelude Borsh Accounts System Invoke Execution Records.
Open Scope Z_scope.

(** ** Constants and data *)

Definition POOL_SEED : list byte := list_byte_of_string "shielded_pool".
Definition COMMITMENT_SEED : list byte := list_byte_of_string "commitment".
Definition NULLIFIER_SEED : list byte := list_byte_of_string "nullifier".
Definition STEALTH_SEED : list byte := list_byte_of_string "stealth".
Definition NOTE_SEED : list byte := list_byte_of_string "note".
Definition AUDITOR_SEED : list byte := list_byte_of_string "auditor".
Definition MAX_NOTE_LEN : Z := 256.
Definition MAX_AUDITORS : Z := 5.

Inductive PrivacyError :=
| PoolAlreadyInitialized | PoolNotInitialized | InvalidCommitment | NullifierAlreadySpent | InvalidRangeProof
| InvalidMerkleProof | InsufficientPoolBalance | InvalidStealthAddress | NoteTooLong | NotAuthorizedAuditor
| InvalidAuthority | Overflow | BadAccountData | CommitmentNotFound | InvalidZkProof | MaxAuditorsExceeded.

(** [BadAccountData] is [PrivacyError::InvalidAccountData]. *)
Definition into (e : PrivacyError) : InstructionError :=
  Custom match e with
  | PoolAlreadyInitialized => 0 | PoolNotInitialized => 1 | InvalidCommitment => 2 | NullifierAlreadySpent => 3
  | InvalidRangeProof => 4 | InvalidMerkleProof => 5 | InsufficientPoolBalance => 6 | InvalidStealthAddress => 7
  | NoteTooLong => 8 | NotAuthorizedAuditor => 9 | InvalidAuthority => 10 | Overflow => 11 | BadAccountData => 12
  | CommitmentNotFound => 13 | InvalidZkProof => 14 | MaxAuditorsExceeded => 15
  end.

Record PedersenCommitment := mkCommitment { pc_point : list byte }.
Record RangeProof := mkRangeProof { rp_proof_data : list byte }.
Record ZkProof := mkZkProof { zp_proof_a : list byte; zp_proof_b : list byte; zp_proof_c : list byte }.
Record MerklePath := mkMerklePath { mp_siblings : list (list byte); mp_path_indices : list byte }.

Record ShieldedPool := mkPool {
  sp_is_initialized : bool;
  sp_authority : Pubkey;
  sp_commitment_count : Z;
  sp_merkle_root : list byte;
  sp_pool_balance : Z;
  sp_compliance_enabled : bool;
  sp_bump : Z;
}.

Record CommitmentLeaf := mkLeaf {
  cl_is_initialized : bool;
  cl_index : Z;
  cl_commitment : PedersenCommitment;
  cl_encrypted_amount : list byte;
  cl_owner : Pubkey;
  cl_timestamp : Z;
  cl_bump : Z;
}.

Record NullifierRecord := mkNullifier {
  nu_is_initialized : bool;
  nu_nullifier : list byte;
  nu_timestamp : Z;
  nu_bump : Z;
}.

Record StealthAddress := mkStealth {
  sa_is_initialized : bool;
  sa_stealth_pubkey : Pubkey;
  sa_ephemeral_pubkey : list byte;
  sa_recipient_scan_key : Pubkey;
  sa_encrypted_payload : list byte;
  sa_timestamp : Z;
  sa_bump : Z;
}.

Record EncryptedNote := mkNote {
  en_is_initialized : bool;
  en_sender : Pubkey;
  en_recipient : Pubkey;
  en_ciphertext : list byte;
  en_nonce : list byte;
  en_auditor_ciphertext : list byte;
  en_timestamp : Z;
  en_bump : Z;
}.

Record AuditorConfig := mkAuditors {
  ac_is_initialized : bool;
  ac_authority : Pubkey;
  ac_auditors : list Pubkey;
  ac_is_active : bool;
  ac_bump : Z;
}.

Inductive PrivacyInstruction :=
| InitializePool (compliance_enabled : bool)
| Shield (amount : Z) (commitment : PedersenCommitment) (range_proof : RangeProof) (encrypted_amount : list byte)
| TransferShielded (nullifier : list byte) (merkle_proof : MerklePath) (output_commitment_1 output_commitment_2 : PedersenCommitment)
    (zk_proof : ZkProof) (encrypted_amount_1 encrypted_amount_2 : list byte)
| Unshield (amount : Z) (nullifier : list byte) (merkle_proof : MerklePath) (zk_proof : ZkProof)
| CreateStealthAddress (stealth_pubkey : Pubkey) (ephemeral_pubkey encrypted_payload : list byte)
| CreateEncryptedNote (ciphertext nonce auditor_ciphertext : list byte)
| ConfigureAuditor (auditors : list Pubkey) (is_active : bool)
| AuditTransaction (attestation : list byte)
| UpdateMerkleRoot (new_root : list byte).

Definition commitment_ok (c : PedersenCommitment) : Prop := zlen (pc_point c) = 32.
Definition zk_ok (z : ZkProof) : Prop := zlen (zp_proof_a z) = 64 /\ zlen (zp_proof_b z) = 128 /\ zlen (zp_proof_c z) = 64.
Definition path_ok (p : MerklePath) : Prop :=
  (Forall (fun s => zlen s = 32) (mp_siblings p) /\ is_u32 (zlen (mp_siblings p))) /\ is_u32 (zlen (mp_path_indices p)).
#[global] Instance ShieldedPool_well_typed : WellTyped ShieldedPool := fun p =>
  is_pubkey (sp_authority p) /\ is_u64 (sp_commitment_count p) /\ zlen (sp_merkle_root p) = 32 /\ is_u64 (sp_pool_balance p) /\
  is_u8 (sp_bump p).
#[global] Instance CommitmentLeaf_well_typed : WellTyped CommitmentLeaf := fun l =>
  is_u64 (cl_index l) /\ commitment_ok (cl_commitment l) /\ zlen (cl_encrypted_amount l) = 48 /\ is_pubkey (cl_owner l) /\
  is_i64 (cl_timestamp l) /\ is_u8 (cl_bump l).
#[global] Instance NullifierRecord_well_typed : WellTyped NullifierRecord := fun n =>
  zlen (nu_nullifier n) = 32 /\ is_i64 (nu_timestamp n) /\ is_u8 (nu_bump n).
#[global] Instance StealthAddress_well_typed : WellTyped StealthAddress := fun a =>
  is_pubkey (sa_stealth_pubkey a) /\ zlen (sa_ephemeral_pubkey a) = 32 /\ is_pubkey (sa_recipient_scan_key a) /\
  zlen (sa_encrypted_payload a) = 64 /\ is_i64 (sa_timestamp a) /\ is_u8 (sa_bump a).
#[global] Instance EncryptedNote_well_typed : WellTyped EncryptedNote := fun n =>
  is_pubkey (en_sender n) /\ is_pubkey (en_recipient n) /\ is_u32 (zlen (en_ciphertext n)) /\ zlen (en_nonce n) = 12 /\
  is_u32 (zlen (en_auditor_ciphertext n)) /\ is_i64 (en_timestamp n) /\ is_u8 (en_bump n).
#[global] Instance AuditorConfig_well_typed : WellTyped AuditorConfig := fun a =>
  is_pubkey (ac_authority a) /\ (Forall is_pubkey (ac_auditors a) /\ is_u32 (zlen (ac_auditors a))) /\ is_u8 (ac_bump a).
#[global] Instance PrivacyInstruction_well_typed : WellTyped PrivacyInstruction := fun i =>
  match i with
  | InitializePool _ => True
  | Shield amount commitment range_proof encrypted_amount =>
      is_u64 amount /\ commitment_ok commitment /\ is_u32 (zlen (rp_proof_data range_proof)) /\ zlen encrypted_amount = 48
  | TransferShielded nullifier merkle_proof c1 c2 zk_proof e1 e2 =>
      zlen nullifier = 32 /\ path_ok merkle_proof /\ commitment_ok c1 /\ commitment_ok c2 /\ zk_ok zk_proof /\
      zlen e1 = 48 /\ zlen e2 = 48
  | Unshield amount nullifier merkle_proof zk_proof =>
      is_u64 amount /\ zlen nullifier = 32 /\ path_ok merkle_proof /\ zk_ok zk_proof
  | CreateStealthAddress k e p => is_pubkey k /\ zlen e = 32 /\ zlen p = 64
  | CreateEncryptedNote c n a => is_u32 (zlen c) /\ zlen n = 12 /\ is_u32 (zlen a)
  | ConfigureAuditor auditors _ => Forall is_pubkey auditors /\ is_u32 (zlen auditors)
  | AuditTransaction attestation => zlen attestation = 32
  | UpdateMerkleRoot new_root => zlen new_root = 32
  end.

Definition POOL_LEN : Z := 83.
Definition LEAF_LEN : Z := 130.
Definition NULLIFIER_LEN : Z := 42.
Definition STEALTH_LEN : Z := 170.
Definition note_len (n : EncryptedNote) : Z := 94 + zlen (en_ciphertext n) + zlen (en_auditor_ciphertext n).

Definition with_pool (count : Z) (root : list byte) (balance : Z) (p : ShieldedPool) : ShieldedPool :=
  mkPool (sp_is_initialized p) (sp_authority p) count root balance (sp_compliance_enabled p) (sp_bump p).

(** ** Cryptographic helpers *)

Definition is_zero (b : byte) : bool := Z_of_byte b =? 0.
Definition zero_root : list byte := replicate 32 Byte.x00.

Definition compute_pedersen_commitment {E : Env} (amount : Z) (blinding : list byte) : PedersenCommitment :=
  mkCommitment (sha256 (le_bytes 8 amount ++ blinding)).

(** One level of a Merkle proof: the current node is on the left if the flag is 0. *)
Definition merkle_level {E : Env} (current : list byte) (level : list byte * byte) : list byte :=
  let '(sibling, index) := level in
  sha256 (if is_zero index then current ++ sibling else sibling ++ current).

Definition verify_merkle_proof {E : Env} (leaf : list byte) (proof : MerklePath) (root : list byte) : bool :=
  (zlen (mp_siblings proof) =? zlen (mp_path_indices proof)) &&
  bool_decide (fold_left merkle_level (zip (mp_siblings proof) (mp_path_indices proof)) leaf = root).

Definition verify_zk_proof (proof : ZkProof) : bool :=
  let all_zero_a := forallb is_zero (zp_proof_a proof) in
  let all_zero_c := forallb is_zero (zp_proof_c proof) in
  negb all_zero_a && negb all_zero_c.

Definition verify_range_proof (commitment : PedersenCommitment) (proof : RangeProof) : bool :=
  negb (zlen (rp_proof_data proof) =? 0) && existsb (fun b => negb (is_zero b)) (pc_point commitment).

(** ** Instructions *)

Section Privacy.
Context {E : Env} {BP : Borsh ShieldedPool} {BL : Borsh CommitmentLeaf} {BN : Borsh NullifierRecord} {BS : Borsh StealthAddress}
  {BE : Borsh EncryptedNote} {BA : Borsh AuditorConfig} {BI : Borsh PrivacyInstruction}.
Variable cx : Ctx.

Definition process_initialize_pool (compliance_enabled : bool) : M unit :=
  (let! '(pool_info, it) := next_account_info (cx_accounts cx) in
   let! '(authority_info, it) := next_account_info it in
   let! '(_system_program, it) := next_account_info it in
   let! '(_rent_sysvar, it) := next_account_info it in
   fail_if (negb (ia_is_signer authority_info)) MissingRequiredSignature ;;
   let '(expected_pda, bump) := find_program_address [POOL_SEED] (cx_program_id cx) in
   fail_if (negb (ia_key pool_info =? expected_pda)) InvalidSeeds ;;
   let! pa := account pool_info in
   fail_if (occupied sp_is_initialized (acc_data pa)) (into PoolAlreadyInitialized) ;;
   copy_into (mkPool true (ia_key authority_info) 0 zero_root 0 compliance_enabled bump) pool_info)%prog.

Definition process_shield (amount : Z) (commitment : PedersenCommitment) (range_proof : RangeProof)
    (encrypted_amount : list byte) : M unit :=
  (let! '(pool_info, it) := next_account_info (cx_accounts cx) in
   let! '(commitment_info, it) := next_account_info it in
   let! '(depositor_info, it) := next_account_info it in
   let! '(clock_sysvar, it) := next_account_info it in
   let! '(_system_program, it) := next_account_info it in
   let! '(_rent_sysvar, it) := next_account_info it in
   fail_if (negb (ia_is_signer depositor_info)) MissingRequiredSignature ;;
   fail_if (negb (verify_range_proof commitment range_proof)) (into InvalidRangeProof) ;;
   let! clock := clock_from_account_info cx clock_sysvar in
   let! pool := load ShieldedPool pool_info (into BadAccountData) in
   fail_if (negb (sp_is_initialized pool)) (into PoolNotInitialized) ;;
   let leaf_index := sp_commitment_count pool in
   let! count := lift (ok_or (u64_checked_add (sp_commitment_count pool) 1) (into Overflow)) in
   let! balance := lift (ok_or (u64_checked_add (sp_pool_balance pool) amount) (into Overflow)) in
   let '(expected_pda, bump) := find_program_address [COMMITMENT_SEED; le_bytes 8 leaf_index] (cx_program_id cx) in
   fail_if (negb (ia_key commitment_info =? expected_pda)) InvalidSeeds ;;
   copy_into (with_pool count (sp_merkle_root pool) balance pool) pool_info ;;
   copy_into (mkLeaf true leaf_index commitment encrypted_amount (ia_key depositor_info) (unix_timestamp clock) bump)
     commitment_info)%prog.

(** The nullifier account of [nullifier] at its address and unspent; its bump. *)
Definition check_nullifier (nullifier : list byte) (nullifier_info : AccountInfo) : M Z :=
  (let '(expected_null_pda, null_bump) := find_program_address [NULLIFIER_SEED; nullifier] (cx_program_id cx) in
   fail_if (negb (ia_key nullifier_info =? expected_null_pda)) InvalidSeeds ;;
   let! na := account nullifier_info in
   fail_if (occupied nu_is_initialized (acc_data na)) (into NullifierAlreadySpent) ;;
   pret null_bump)%prog.

Definition process_transfer_shielded (nullifier : list byte) (merkle_proof : MerklePath)
    (output_commitment_1 output_commitment_2 : PedersenCommitment) (zk_proof : ZkProof)
    (encrypted_amount_1 encrypted_amount_2 : list byte) : M unit :=
  (let! '(pool_info, it) := next_account_info (cx_accounts cx) in
   let! '(nullifier_info, it) := next_account_info it in
   let! '(output_1_info, it) := next_account_info it in
   let! '(output_2_info, it) := next_account_info it in
   let! '(sender_info, it) := next_account_info it in
   let! '(clock_sysvar, it) := next_account_info it in
   let! '(_system_program, it) := next_account_info it in
   let! '(_rent_sysvar, it) := next_account_info it in
   fail_if (negb (ia_is_signer sender_info)) MissingRequiredSignature ;;
   let! pool := load ShieldedPool pool_info (into BadAccountData) in
   fail_if (negb (sp_is_initialized pool)) (into PoolNotInitialized) ;;
   fail_if (negb (verify_zk_proof zk_proof)) (into InvalidZkProof) ;;
   fail_if (negb (verify_merkle_proof nullifier merkle_proof (sp_merkle_root pool)) &&
            negb (bool_decide (sp_merkle_root pool = zero_root))) (into InvalidMerkleProof) ;;
   let! null_bump := check_nullifier nullifier nullifier_info in
   let! clock := clock_from_account_info cx clock_sysvar in
   let out_index_1 := sp_commitment_count pool in
   let! out_index_2 := lift (ok_or (u64_checked_add (sp_commitment_count pool) 1) (into Overflow)) in
   let! count := lift (ok_or (u64_checked_add (sp_commitment_count pool) 2) (into Overflow)) in
   let leaf_1 := mkLeaf true out_index_1 output_commitment_1 encrypted_amount_1 (ia_key sender_info) (unix_timestamp clock) 0 in
   let leaf_2 := mkLeaf true out_index_2 output_commitment_2 encrypted_amount_2 (ia_key sender_info) (unix_timestamp clock) 0 in
   copy_into (with_pool count (sp_merkle_root pool) (sp_pool_balance pool) pool) pool_info ;;
   copy_into (mkNullifier true nullifier (unix_timestamp clock) null_bump) nullifier_info ;;
   copy_into leaf_1 output_1_info ;;
   copy_into leaf_2 output_2_info)%prog.

Definition process_unshield (amount : Z) (nullifier : list byte) (merkle_proof : MerklePath) (zk_proof : ZkProof) : M unit :=
  (let! '(pool_info, it) := next_account_info (cx_accounts cx) in
   let! '(nullifier_info, it) := next_account_info it in
   let! '(withdrawer_info, it) := next_account_info it in
   let! '(_recipient_info, it) := next_account_info it in
   let! '(clock_sysvar, it) := next_account_info it in
   let! '(_system_program, it) := next_account_info it in
   fail_if (negb (ia_is_signer withdrawer_info)) MissingRequiredSignature ;;
   let! pool := load ShieldedPool pool_info (into BadAccountData) in
   fail_if (negb (sp_is_initialized pool)) (into PoolNotInitialized) ;;
   fail_if (negb (verify_zk_proof zk_proof)) (into InvalidZkProof) ;;
   fail_if (negb (bool_decide (sp_merkle_root pool = zero_root)) &&
            negb (verify_merkle_proof nullifier merkle_proof (sp_merkle_root pool))) (into InvalidMerkleProof) ;;
   fail_if (sp_pool_balance pool <? amount) (into InsufficientPoolBalance) ;;
   let! null_bump := check_nullifier nullifier nullifier_info in
   let! clock := clock_from_account_info cx clock_sysvar in
   let! balance := lift (ok_or (u64_checked_sub (sp_pool_balance pool) amount) (into InsufficientPoolBalance)) in
   copy_into (with_pool (sp_commitment_count pool) (sp_merkle_root pool) balance pool) pool_info ;;
   copy_into (mkNullifier true nullifier (unix_timestamp clock) null_bump) nullifier_info)%prog.

Definition process_create_stealth_address (stealth_pubkey : Pubkey) (ephemeral_pubkey encrypted_payload : list byte) : M unit :=
  (let! '(stealth_info, it) := next_account_info (cx_accounts cx) in
   let! '(sender_info, it) := next_account_info it in
   let! '(recipient_scan_key_info, it) := next_account_info it in
   let! '(clock_sysvar, it) := next_account_info it in
   let! '(_system_program, it) := next_account_info it in
   let! '(_rent_sysvar, it) := next_account_info it in
   fail_if (negb (ia_is_signer sender_info)) MissingRequiredSignature ;;
   let '(expected_pda, bump) := find_program_address [STEALTH_SEED; key_bytes stealth_pubkey] (cx_program_id cx) in
   fail_if (negb (ia_key stealth_info =? expected_pda)) InvalidSeeds ;;
   let! clock := clock_from_account_info cx clock_sysvar in
   copy_into (mkStealth true stealth_pubkey ephemeral_pubkey (ia_key recipient_scan_key_info) encrypted_payload
     (unix_timestamp clock) bump) stealth_info)%prog.

Definition process_create_encrypted_note (ciphertext nonce auditor_ciphertext : list byte) : M unit :=
  (let! '(note_info, it) := next_account_info (cx_accounts cx) in
   let! '(sender_info, it) := next_account_info it in
   let! '(recipient_info, it) := next_account_info it in
   let! '(clock_sysvar, it) := next_account_info it in
   let! '(_system_program, it) := next_account_info it in
   let! '(_rent_sysvar, it) := next_account_info it in
   fail_if (negb (ia_is_signer sender_info)) MissingRequiredSignature ;;
   fail_if (MAX_NOTE_LEN <? zlen ciphertext) (into NoteTooLong) ;;
   let '(expected_pda, bump) := find_program_address [NOTE_SEED; key_bytes (ia_key sender_info); nonce] (cx_program_id cx) in
   fail_if (negb (ia_key note_info =? expected_pda)) InvalidSeeds ;;
   let! clock := clock_from_account_info cx clock_sysvar in
   copy_into (mkNote true (ia_key sender_info) (ia_key recipient_info) ciphertext nonce auditor_ciphertext
     (unix_timestamp clock) bump) note_info)%prog.

Definition process_configure_auditor (auditors : list Pubkey) (is_active : bool) : M unit :=
  (let! '(auditor_info, it) := next_account_info (cx_accounts cx) in
   let! '(authority_info, it) := next_account_info it in
   let! '(_system_program, it) := next_account_info it in
   let! '(_rent_sysvar, it) := next_account_info it in
   fail_if (negb (ia_is_signer authority_info)) MissingRequiredSignature ;;
   fail_if (MAX_AUDITORS <? zlen auditors) (into MaxAuditorsExceeded) ;;
   let '(expected_pda, bump) := find_program_address [AUDITOR_SEED] (cx_program_id cx) in
   fail_if (negb (ia_key auditor_info =? expected_pda)) InvalidSeeds ;;
   copy_into (mkAuditors true (ia_key authority_info) auditors is_active bump) auditor_info)%prog.

(** An audit only logs the attestation. *)
Definition process_audit_transaction (attestation : list byte) : M unit :=
  (let! '(_target_info, it) := next_account_info (cx_accounts cx) in
   let! '(auditor_config_info, it) := next_account_info it in
   let! '(auditor_info, it) := next_account_info it in
   let! '(_clock_sysvar, it) := next_account_info it in
   fail_if (negb (ia_is_signer auditor_info)) MissingRequiredSignature ;;
   let! config := load AuditorConfig auditor_config_info (into BadAccountData) in
   fail_if (negb (ac_is_active config)) (into NotAuthorizedAuditor) ;;
   fail_if (negb (contains (ac_auditors config) (ia_key auditor_info))) (into NotAuthorizedAuditor))%prog.

Definition process_update_merkle_root (new_root : list byte) : M unit :=
  (let! '(pool_info, it) := next_account_info (cx_accounts cx) in
   let! '(authority_info, it) := next_account_info it in
   fail_if (negb (ia_is_signer authority_info)) MissingRequiredSignature ;;
   let! pool := load ShieldedPool pool_info (into BadAccountData) in
   fail_if (negb (sp_authority pool =? ia_key authority_info)) (into InvalidAuthority) ;;
   copy_into (with_pool (sp_commitment_count pool) new_root (sp_pool_balance pool) pool) pool_info)%prog.

Definition process_instruction (instruction_data : list byte) : M unit :=
  (let! instruction := lift (ok_or (try_from_slice instruction_data) InvalidInstructionData) in
   match instruction with
   | InitializePool compliance_enabled => process_initialize_pool compliance_enabled
   | Shield amount commitment range_proof encrypted_amount => process_shield amount commitment range_proof encrypted_amount
   | TransferShielded nullifier merkle_proof output_commitment_1 output_commitment_2 zk_proof encrypted_amount_1
       encrypted_amount_2 =>
       process_transfer_shielded nullifier merkle_proof output_commitment_1 output_commitment_2 zk_proof encrypted_amount_1
         encrypted_amount_2
   | Unshield amount nullifier merkle_proof zk_proof => process_unshield amount nullifier merkle_proof zk_proof
   | CreateStealthAddress stealth_pubkey ephemeral_pubkey encrypted_payload =>
       process_create_stealth_address stealth_pubkey ephemeral_pubkey encrypted_payload
   | CreateEncryptedNote ciphertext nonce auditor_ciphertext => process_create_encrypted_note ciphertext nonce auditor_ciphertext
   | ConfigureAuditor auditors is_active => process_configure_auditor auditors is_active
   | AuditTransaction attestation => process_audit_transaction attestation
   | UpdateMerkleRoot new_root => process_update_merkle_root new_root
   end)%prog.
End Privacy.
