(* ===== verification/PrivacyProofs.v ===== *)
(** * PrivacyProofs: Merkle proofs, nullifiers and the pool *)

From Stdlib Require Import Strings.Byte.
From S2P Require Import Prelude Borsh Accounts System Invoke Execution Cpi Ledger Records History Privacy.
Open Scope Z_scope.

(** ** Merkle proofs *)

Section Merkle.
Context {E : Env}.

(** The tree of the commitments, which is kept outside the program and is a
    specification here: its root, and the proof for the leaf that the directions
    from the root lead to ([true] to the right). *)
Inductive tree :=
| Leaf (l : list byte)
| Node (left right : tree).

Fixpoint tree_root (t : tree) : list byte :=
  match t with Leaf l => l | Node a b => sha256 (tree_root a ++ tree_root b) end.

Fixpoint tree_proof (dirs : list bool) (t : tree) : option (list byte * list (list byte * byte)) :=
  match t, dirs with
  | Leaf l, [] => Some (l, [])
  | Node a b, false :: dirs => '(l, p) ← tree_proof dirs a; Some (l, p ++ [(tree_root b, Byte.x00)])
  | Node a b, true :: dirs => '(l, p) ← tree_proof dirs b; Some (l, p ++ [(tree_root a, Byte.x01)])
  | _, _ => None
  end.

Lemma tree_proof_root dirs t l p : tree_proof dirs t = Some (l, p) -> fold_left merkle_level p l = tree_root t.
Proof.
  revert dirs l p. induction t as [x|a IHa b IHb]; intros [|[] dirs] l p H; simplify_eq/=; try done.
  - destruct (tree_proof dirs b) as [[l' p']|] eqn:Hp; simplify_eq/=. rewrite fold_left_app. simpl. by rewrite (IHb _ _ _ Hp).
  - destruct (tree_proof dirs a) as [[l' p']|] eqn:Hp; simplify_eq/=. rewrite fold_left_app. simpl. by rewrite (IHa _ _ _ Hp).
Qed.

(** Two different inputs with the same hash. *)
Definition collides (x y : list byte) : Prop := x <> y /\ sha256 x = sha256 y.
#[local] Instance collides_dec x y : Decision (collides x y).
Proof. unfold collides. apply _. Defined.

(** What is hashed at a level of a proof. *)
Definition level_input (current : list byte) (level : list byte * byte) : list byte :=
  if is_zero level.2 then current ++ level.1 else level.1 ++ current.

(** The first level at which two proofs hash different inputs to the same
    value. *)
Fixpoint find_collision (levels levels' : list (list byte * byte)) (l l' : list byte) : option (list byte * list byte) :=
  match levels, levels' with
  | level :: levels, level' :: levels' =>
      let x := level_input l level in
      let y := level_input l' level' in
      if decide (collides x y) then Some (x, y) else find_collision levels levels' (sha256 x) (sha256 y)
  | _, _ => None
  end.

Lemma find_collision_collides levels levels' l l' x y : find_collision levels levels' l l' = Some (x, y) -> collides x y.
Proof.
  revert levels' l l'. induction levels as [|v levels IH]; intros [|v' levels'] l l' H; simpl in H; try done.
  case_decide; [by simplify_eq|by eapply IH].
Qed.

Lemma levels_len siblings (indices : list byte) :
  Forall (fun s : list byte => zlen s = 32) siblings -> Forall (fun x => zlen x.1 = 32) (zip siblings indices).
Proof. intros H. revert indices. induction H; intros [|]; constructor; simpl; auto. Qed.

(** With the same directions, different leaves of the length of a hash reach the
    same root only if the two proofs contain a collision. *)
Lemma merkle_binding levels levels' l l' :
  (forall bs, zlen (sha256 bs) = 32) -> zlen l = 32 -> zlen l' = 32 ->
  Forall (fun x => zlen x.1 = 32) levels -> Forall (fun x => zlen x.1 = 32) levels' -> levels.*2 = levels'.*2 ->
  fold_left merkle_level levels l = fold_left merkle_level levels' l' -> find_collision levels levels' l l' = None -> l = l'.
Proof.
  intros Hsha. revert levels' l l'. induction levels as [|[s b] levels IH]; intros [|[s' b'] levels'] l l' Hl Hl' H H' Hb Hr Hf;
    simpl in *; try done. injection Hb as <- Hb. apply Forall_cons in H as [Hs H], H' as [Hs' H']. simpl in Hs, Hs'.
  set (x := level_input l (s, b)) in *. set (y := level_input l' (s', b)) in *. case_decide as Hc; [done|].
  assert (He : sha256 x = sha256 y) by (apply (IH levels'); try done; apply Hsha).
  assert (Hxy : x = y) by (destruct (decide (x = y)); [done|]; by destruct Hc).
  unfold x, y, level_input in Hxy. simpl in Hxy. unfold zlen in *. destruct (is_zero b).
  - by apply app_inj_1 in Hxy as [? _]; [|lia].
  - by apply app_inj_1 in Hxy as [_ ?]; [|lia].
Qed.
End Merkle.

(** ** The pool *)

Inductive pool_step : ShieldedPool -> ShieldedPool -> Prop :=
| step_shield p amount :
    is_u64 (sp_pool_balance p + amount) -> is_u64 (sp_commitment_count p + 1) ->
    pool_step p (with_pool (sp_commitment_count p + 1) (sp_merkle_root p) (sp_pool_balance p + amount) p)
| step_transfer p :
    is_u64 (sp_commitment_count p + 2) -> pool_step p (with_pool (sp_commitment_count p + 2) (sp_merkle_root p) (sp_pool_balance p) p)
| step_unshield p amount :
    0 <= amount <= sp_pool_balance p ->
    pool_step p (with_pool (sp_commitment_count p) (sp_merkle_root p) (sp_pool_balance p - amount) p)
| step_root p root : zlen root = 32 -> pool_step p (with_pool (sp_commitment_count p) root (sp_pool_balance p) p).

Section Pool.
Context {E : Env} {BP : Borsh ShieldedPool} {BL : Borsh CommitmentLeaf} {BN : Borsh NullifierRecord} {BS : Borsh StealthAddress}
  {BE : Borsh EncryptedNote} {BA : Borsh AuditorConfig} {BI : Borsh PrivacyInstruction}.
Context {LP : BorshLaws ShieldedPool} {LL : BorshLaws CommitmentLeaf} {LN : BorshLaws NullifierRecord} {LI : BorshLaws PrivacyInstruction}.
Context {SP : BorshSized ShieldedPool POOL_LEN} {SN : BorshSized NullifierRecord NULLIFIER_LEN} {SL : BorshSized CommitmentLeaf LEAF_LEN}
  {SS : BorshSized StealthAddress STEALTH_LEN} {ME : BorshMeasured EncryptedNote note_len}.
Context (cx : Ctx).
Abbreviation now := (unix_timestamp (cx_clock cx)).

(** ** Nullifiers *)

Lemma check_nullifier_ok nullifier ia s b s' :
  check_nullifier cx nullifier ia s = Ok (b, s') <->
  find_program_address [NULLIFIER_SEED; nullifier] (cx_program_id cx) = (ia_key ia, b) /\
  occupied nu_is_initialized (acc_data (get_acc (mem s) (ia_key ia))) = false /\ s' = s.
Proof.
  unfold check_nullifier. destruct (find_program_address _ _) as [pda bump] eqn:Hf. split.
  - intros H. pinv. bool_to_prop. by subst.
  - intros ([= -> ->] & Ho & ->). prun; [by pcheck|done].
Qed.

(** The nullifier an instruction spends. *)
Definition spends (i : PrivacyInstruction) : option (list byte) :=
  match i with TransferShielded nullifier _ _ _ _ _ _ => Some nullifier | Unshield _ nullifier _ _ => Some nullifier | _ => None end.

(** A spending instruction finds the nullifier unspent. *)
Lemma spend_checks data i nullifier s s' :
  try_from_slice data = Some i -> spends i = Some nullifier -> process_instruction cx data s = Ok (tt, s') ->
  occupied nu_is_initialized
    (acc_data (get_acc (mem s) (find_program_address [NULLIFIER_SEED; nullifier] (cx_program_id cx)).1)) = false.
Proof.
  intros Hde Hs H. unfold process_instruction in H. rewrite Hde in H. cbn [ok_or lift pbind] in H. destruct i; try done.
  all: injection Hs as ->; unfold process_transfer_shielded, process_unshield in H; pinv;
    repeat match goal with Hc : clock_from_account_info _ _ _ = Ok _ |- _ => apply clock_account_ok in Hc as (_ & -> & ->) end;
    hyp (check_nullifier _ _ _ _ = _) as Hc; apply check_nullifier_ok in Hc as (Hf & Ho & ->); by rewrite Hf.
Qed.

(** An account of the length of a nullifier record is too short for the other
    records. *)
Definition too_long {A} `{Borsh A} (v : A) : Prop := NULLIFIER_LEN < zlen (borsh_ser v).
Lemma pool_too_long (p : ShieldedPool) : well_typed p -> too_long p.
Proof. intros W. unfold too_long. by rewrite borsh_sized by exact W. Qed.
Lemma leaf_too_long (l : CommitmentLeaf) : well_typed l -> too_long l.
Proof. intros W. unfold too_long. by rewrite borsh_sized by exact W. Qed.
Lemma stealth_too_long (a : StealthAddress) : well_typed a -> too_long a.
Proof. intros W. unfold too_long. by rewrite borsh_sized by exact W. Qed.
Lemma note_too_long (n : EncryptedNote) : well_typed n -> too_long n.
Proof. intros W. unfold too_long. rewrite borsh_measured by exact W. unfold note_len, NULLIFIER_LEN, zlen. lia. Qed.

Lemma kept_write {A} `{Borsh A} (v : A) k m kn (r : NullifierRecord) :
  zlen (borsh_ser v) <= zlen (acc_data (get_acc m k)) -> too_long v -> holds m kn r -> holds (stored v k m) kn r.
Proof.
  intros Hle Hl Hr. apply holds_stored_ne; [|done]. intros ->. unfold too_long in Hl. apply holds_zlen in Hr. lia.
Qed.

(** ** Instructions on the pool *)

Definition on_pool (i : PrivacyInstruction) : Prop :=
  match i with Shield _ _ _ _ | TransferShielded _ _ _ _ _ _ _ | Unshield _ _ _ _ | UpdateMerkleRoot _ => True | _ => False end.
(** What an instruction adds to the balance and to the number of commitments. *)
Definition balance_change (i : PrivacyInstruction) : Z :=
  match i with Shield amount _ _ _ => amount | Unshield amount _ _ _ => - amount | _ => 0 end.
Definition new_commitments (i : PrivacyInstruction) : Z :=
  match i with Shield _ _ _ _ => 1 | TransferShielded _ _ _ _ _ _ _ => 2 | _ => 0 end.

Lemma pool_step_well_typed p p' : well_typed p -> pool_step p p' -> well_typed p'.
Proof.
  intros (Ha & Hc & Hr & Hb & Hu) Hst. destruct Hst; unfold well_typed, ShieldedPool_well_typed; simpl; split_and!; try done; ilia.
Qed.

(** The pool account is not passed as one of the accounts that are written after it. *)
Definition pool_apart (kp : Pubkey) : Prop := Forall (fun ia => ia_key ia <> kp) (take 3 (drop 1 (cx_accounts cx))).

Lemma pool_instruction_step data i s s' :
  try_from_slice data = Some i -> on_pool i -> process_instruction cx data s = Ok (tt, s') ->
  exists kp p p', ia_key <$> cx_accounts cx !! 0%nat = Some kp /\ holds (mem s) kp p /\ pool_step p p' /\
    sp_pool_balance p' = sp_pool_balance p + balance_change i /\
    sp_commitment_count p' = sp_commitment_count p + new_commitments i /\
    (sp_merkle_root p' = sp_merkle_root p \/ signed cx (sp_authority p)) /\ (pool_apart kp -> holds (mem s') kp p').
Proof.
  intros Hde Ho H. apply try_from_slice_some in Hde as Hw. destruct Hw as [Wi _].
  unfold process_instruction in H. rewrite Hde in H. cbn [ok_or lift pbind] in H. destruct i; try done.
  all: unfold process_shield, process_transfer_shielded, process_unshield, process_update_merkle_root in H; pinv; bool_to_prop;
    hyp (cx_accounts cx = _) as Hacc;
    repeat match goal with Hc : clock_from_account_info _ _ _ = Ok _ |- _ => apply clock_account_ok in Hc as (_ & -> & ->) end;
    repeat match goal with Hc : check_nullifier _ _ _ _ = Ok _ |- _ => apply check_nullifier_ok in Hc as (_ & _ & ->) end;
    read ShieldedPool as p Hp.
  all: match goal with |- context [stored ?p' ?kp (mem ?s0)] =>
      exists kp, p, p'; assert (Hst : pool_step p p'); [|assert (Hh : holds (stored p' kp (mem s0)) kp p') by
        (apply holds_well_typed in Hp as Wp; apply holds_stored; [by eapply holds_zlen|by eapply pool_step_well_typed])] end.
  1: by apply step_shield.
  2: by apply step_transfer.
  3: apply step_unshield; split; [apply Wi|done].
  4: by apply step_root.
  all: rewrite Hacc; (split_and!; [done|exact Hp|exact Hst|simpl; lia|simpl; lia|first [by left|right]|]).
  4: by hyp (sp_authority _ = _) as Ha; rewrite Ha; by_signer.
  all: intros Hap; unfold pool_apart in Hap; rewrite Hacc in Hap; simpl in Hap; rewrite !Forall_cons in Hap; destruct_and!;
    repeat (apply holds_stored_ne; [done|]); exact Hh.
Qed.

(** ** Lamports *)

Lemma privacy_lamports data s s' :
  process_instruction cx data s = Ok (tt, s') ->
  rt s' = rt s /\ forall k, acc_lamports (get_acc (mem s') k) = acc_lamports (get_acc (mem s) k).
Proof.
  intros H. unfold process_instruction in H. apply pbind_ok in H as (i & s0 & Hi & H). apply lift_ok in Hi as [_ ->].
  destruct i; unfold process_initialize_pool, process_shield, process_transfer_shielded, process_unshield,
    process_create_stealth_address, process_create_encrypted_note, process_configure_auditor, process_audit_transaction,
    process_update_merkle_root in H; pinv;
    repeat match goal with Hc : clock_from_account_info _ _ _ = Ok _ |- _ => apply clock_account_ok in Hc as (_ & -> & ->) end;
    repeat match goal with Hc : check_nullifier _ _ _ _ = Ok _ |- _ => apply check_nullifier_ok in Hc as (_ & _ & ->) end;
    (split; [done|]); intros k; cbn [mem]; by rewrite ?stored_lamports.
Qed.

(** ** Nullifier records are permanent *)

Context {L : EnvLaws}.

(** Inverts a run of an instruction: the accounts, the clock, the nullifier
    check, and the types of what was passed and read. *)
Ltac run_inv Hty H Hacc :=
  unfold process_initialize_pool, process_shield, process_transfer_shielded, process_unshield,
    process_create_stealth_address, process_create_encrypted_note, process_configure_auditor, process_audit_transaction,
    process_update_merkle_root in H; pinv; bool_to_prop;
  repeat match goal with Hc : clock_from_account_info _ _ _ = Ok _ |- _ => apply clock_account_ok in Hc as (_ & -> & ->) end;
  repeat match goal with Hc : check_nullifier _ _ _ _ = Ok _ |- _ => apply check_nullifier_ok in Hc as (? & ? & ->) end;
  repeat match goal with Hf : find_program_address _ _ = (_, ?b) |- _ =>
    lazymatch goal with _ : is_u8 b |- _ => fail | _ => destruct (find_create _ _ _ _ Hf) as [? _] end end;
  repeat match goal with Hp : @holds ShieldedPool _ _ _ ?p |- _ =>
    lazymatch goal with _ : well_typed p |- _ => fail | _ => pose proof (holds_well_typed _ _ _ Hp) end end;
  hyp (cx_accounts cx = _) as Hacc; let Hk := fresh in pose proof (ti_keys _ _ Hty) as Hk; rewrite Hacc, ?Forall_cons in Hk;
  pose proof (ti_clock _ _ Hty); cbn [mem] in *.

(** A record of its type is kept apart from the nullifier records by its length. *)
Ltac too_long :=
  first [apply pool_too_long|apply leaf_too_long|apply stealth_too_long|apply note_too_long];
  assert (is_u64 0 /\ is_u8 0 /\ zlen zero_root = 32) by (repeat split; vm_compute; congruence);
  unfold well_typed, ShieldedPool_well_typed, CommitmentLeaf_well_typed, StealthAddress_well_typed, EncryptedNote_well_typed,
    PrivacyInstruction_well_typed, with_pool in *; simpl in *; tauto.

Lemma spent_occupied m k (r : NullifierRecord) :
  holds m k r -> nu_is_initialized r = true -> occupied nu_is_initialized (acc_data (get_acc m k)) = true.
Proof.
  intros Hr Hi. apply holds_zlen in Hr as Hz. unfold occupied. unfold holds in Hr. rewrite Hr, Hz, Hi. done.
Qed.

Lemma nullifier_kept data s s' kn r :
  typed_inputs cx s -> holds (mem s) kn r -> nu_is_initialized r = true ->
  kn <> (find_program_address [AUDITOR_SEED] (cx_program_id cx)).1 ->
  process_instruction cx data s = Ok (tt, s') -> holds (mem s') kn r.
Proof.
  intros Hty Hr Hi Hne H. unfold process_instruction in H. apply pbind_ok in H as (i & s0 & Hd & H). apply lift_ok in Hd as [Hd ->].
  destruct (try_from_slice data) as [i'|] eqn:Hde; simplify_eq/=. apply try_from_slice_some in Hde as [Wi _].
  assert (Hspent : forall k, occupied nu_is_initialized (acc_data (get_acc (mem s) k)) = false -> k <> kn).
  { intros k Ho ->. by rewrite (spent_occupied _ _ _ Hr Hi) in Ho. }
  destruct i; run_inv Hty H Hacc;
    repeat match goal with |- holds (stored _ _ _) _ _ => first [apply kept_write; [done|too_long|]
      |apply holds_stored_ne; [first [by (intros ->; eapply Hspent)
        |hyp (find_program_address _ _ = _) as Hf; rewrite Hf in Hne; simpl in Hne; congruence]|]] end;
    done.
Qed.

(** A spending instruction leaves the record of its nullifier. *)
Lemma spend_records data i nullifier s s' kn bump :
  typed_inputs cx s -> try_from_slice data = Some i -> spends i = Some nullifier ->
  find_program_address [NULLIFIER_SEED; nullifier] (cx_program_id cx) = (kn, bump) ->
  zlen (acc_data (get_acc (mem s) kn)) = NULLIFIER_LEN ->
  process_instruction cx data s = Ok (tt, s') -> holds (mem s') kn (mkNullifier true nullifier now bump).
Proof.
  intros Hty Hde Hs Hkn Hz H. unfold process_instruction in H. rewrite Hde in H. cbn [ok_or lift pbind] in H.
  apply try_from_slice_some in Hde as [Wi _].
  destruct i; try done; injection Hs as ->; run_inv Hty H Hacc;
    hyp (find_program_address _ _ = (ia_key _, _)) as Hf; rewrite Hkn in Hf; injection Hf as -> ->;
    repeat (apply kept_write; [done|too_long|]);
    (apply holds_stored; [rewrite stored_zlen by done; done|]);
    unfold well_typed, NullifierRecord_well_typed, PrivacyInstruction_well_typed in *; simpl; tauto.
Qed.
End Pool.

(** ** Histories *)

Section History.
Context {E : Env} {BP : Borsh ShieldedPool} {BL : Borsh CommitmentLeaf} {BN : Borsh NullifierRecord} {BS : Borsh StealthAddress}
  {BE : Borsh EncryptedNote} {BA : Borsh AuditorConfig} {BI : Borsh PrivacyInstruction}.

(** The runs of the privacy program [program], in any contexts. *)
Definition privacy_run (program : Pubkey) (s s' : PState) : Prop :=
  exists cx data, cx_program_id cx = program /\ typed_inputs cx s /\ process_instruction cx data s = Ok (tt, s').

Context {LP : BorshLaws ShieldedPool} {LL : BorshLaws CommitmentLeaf} {LN : BorshLaws NullifierRecord} {LI : BorshLaws PrivacyInstruction}.
Context {SP : BorshSized ShieldedPool POOL_LEN} {SN : BorshSized NullifierRecord NULLIFIER_LEN} {SL : BorshSized CommitmentLeaf LEAF_LEN}
  {SS : BorshSized StealthAddress STEALTH_LEN} {ME : BorshMeasured EncryptedNote note_len} {L : EnvLaws}.

Lemma nullifier_for_ever program k m m' (r : NullifierRecord) :
  history (privacy_run program) k m m' -> nu_is_initialized r = true -> k <> (find_program_address [AUDITOR_SEED] program).1 ->
  holds m k r -> holds m' k r.
Proof.
  intros Hh Hi Hne. eapply (history_invariant _ _ (fun m => holds m k r)); [| |exact Hh].
  - intros s s' (cx & data & <- & Hty & Hrun) Hr. by eapply nullifier_kept.
  - intros m1 m2 Hd. by apply holds_data.
Qed.
End History.
