(* ===== verification/PrivacyTheorems.v ===== *)
(** * PrivacyTheorems: the properties of the shielded pool

    The theorems about [src/programs/privacy/src/lib.rs], and the evaluation of
    the program on concrete accounts in the Borsh wire format. *)

From Stdlib Require Import Strings.Byte.
From S2P Require Import Prelude Borsh Accounts System Invoke Execution Concrete Cpi Ledger Records Wire History Privacy PrivacyProofs.
Open Scope Z_scope.

(** ** The data on the wire *)

Definition codec_commitment : codec PedersenCommitment := codec_iso mkCommitment pc_point (codec_array 32).
Definition codec_range : codec RangeProof := codec_iso mkRangeProof rp_proof_data codec_bytes.
Definition codec_zk : codec ZkProof :=
  codec_iso (fun '(a, (b, c)) => mkZkProof a b c) (fun z => (zp_proof_a z, (zp_proof_b z, zp_proof_c z)))
    (codec_pair (codec_array 64) (codec_pair (codec_array 128) (codec_array 64))).
Definition codec_path : codec MerklePath :=
  codec_iso (fun '(s, i) => mkMerklePath s i) (fun p => (mp_siblings p, mp_path_indices p))
    (codec_pair (codec_vec (codec_array 32)) codec_bytes).
Definition codec_shielded_pool : codec ShieldedPool :=
  codec_iso (fun '(i, (a, (n, (r, (b, (c, u)))))) => mkPool i a n r b c u)
    (fun p => (sp_is_initialized p, (sp_authority p, (sp_commitment_count p, (sp_merkle_root p, (sp_pool_balance p,
       (sp_compliance_enabled p, sp_bump p)))))))
    (codec_pair codec_bool (codec_pair codec_pubkey (codec_pair (codec_uint 8) (codec_pair (codec_array 32)
      (codec_pair (codec_uint 8) (codec_pair codec_bool (codec_uint 1))))))).
Definition codec_leaf : codec CommitmentLeaf :=
  codec_iso (fun '(i, (n, (c, (e, (o, (t, b)))))) => mkLeaf i n c e o t b)
    (fun l => (cl_is_initialized l, (cl_index l, (cl_commitment l, (cl_encrypted_amount l, (cl_owner l, (cl_timestamp l, cl_bump l)))))))
    (codec_pair codec_bool (codec_pair (codec_uint 8) (codec_pair codec_commitment (codec_pair (codec_array 48)
      (codec_pair codec_pubkey (codec_pair (codec_int 8) (codec_uint 1))))))).
Definition codec_nullifier : codec NullifierRecord :=
  codec_iso (fun '(i, (n, (t, b))) => mkNullifier i n t b)
    (fun n => (nu_is_initialized n, (nu_nullifier n, (nu_timestamp n, nu_bump n))))
    (codec_pair codec_bool (codec_pair (codec_array 32) (codec_pair (codec_int 8) (codec_uint 1)))).
Definition codec_stealth : codec StealthAddress :=
  codec_iso (fun '(i, (k, (e, (r, (p, (t, b)))))) => mkStealth i k e r p t b)
    (fun a => (sa_is_initialized a, (sa_stealth_pubkey a, (sa_ephemeral_pubkey a, (sa_recipient_scan_key a,
       (sa_encrypted_payload a, (sa_timestamp a, sa_bump a)))))))
    (codec_pair codec_bool (codec_pair codec_pubkey (codec_pair (codec_array 32) (codec_pair codec_pubkey
      (codec_pair (codec_array 64) (codec_pair (codec_int 8) (codec_uint 1))))))).
Definition codec_note : codec EncryptedNote :=
  codec_iso (fun '(i, (s, (r, (c, (n, (a, (t, b))))))) => mkNote i s r c n a t b)
    (fun n => (en_is_initialized n, (en_sender n, (en_recipient n, (en_ciphertext n, (en_nonce n, (en_auditor_ciphertext n,
       (en_timestamp n, en_bump n))))))))
    (codec_pair codec_bool (codec_pair codec_pubkey (codec_pair codec_pubkey (codec_pair codec_bytes
      (codec_pair (codec_array 12) (codec_pair codec_bytes (codec_pair (codec_int 8) (codec_uint 1)))))))).
Definition codec_auditors : codec AuditorConfig :=
  codec_iso (fun '(i, (a, (l, (v, b)))) => mkAuditors i a l v b)
    (fun a => (ac_is_initialized a, (ac_authority a, (ac_auditors a, (ac_is_active a, ac_bump a)))))
    (codec_pair codec_bool (codec_pair codec_pubkey (codec_pair (codec_vec codec_pubkey) (codec_pair codec_bool (codec_uint 1))))).

Definition privacy_instruction_index (i : PrivacyInstruction) : nat :=
  match i with
  | InitializePool _ => 0 | Shield _ _ _ _ => 1 | TransferShielded _ _ _ _ _ _ _ => 2 | Unshield _ _ _ _ => 3
  | CreateStealthAddress _ _ _ => 4 | CreateEncryptedNote _ _ _ => 5 | ConfigureAuditor _ _ => 6 | AuditTransaction _ => 7
  | UpdateMerkleRoot _ => 8
  end.
Definition codec_privacy_instruction : codec PrivacyInstruction :=
  codec_variants
    [mkVariant codec_bool InitializePool (fun i => match i with InitializePool c => Some c | _ => None end);
     mkVariant (codec_pair (codec_uint 8) (codec_pair codec_commitment (codec_pair codec_range (codec_array 48))))
       (fun '(a, (c, (r, e))) => Shield a c r e) (fun i => match i with Shield a c r e => Some (a, (c, (r, e))) | _ => None end);
     mkVariant (codec_pair (codec_array 32) (codec_pair codec_path (codec_pair codec_commitment (codec_pair codec_commitment
         (codec_pair codec_zk (codec_pair (codec_array 48) (codec_array 48)))))))
       (fun '(n, (m, (c, (d, (z, (e, f)))))) => TransferShielded n m c d z e f)
       (fun i => match i with TransferShielded n m c d z e f => Some (n, (m, (c, (d, (z, (e, f)))))) | _ => None end);
     mkVariant (codec_pair (codec_uint 8) (codec_pair (codec_array 32) (codec_pair codec_path codec_zk)))
       (fun '(a, (n, (m, z))) => Unshield a n m z) (fun i => match i with Unshield a n m z => Some (a, (n, (m, z))) | _ => None end);
     mkVariant (codec_pair codec_pubkey (codec_pair (codec_array 32) (codec_array 64)))
       (fun '(k, (e, p)) => CreateStealthAddress k e p)
       (fun i => match i with CreateStealthAddress k e p => Some (k, (e, p)) | _ => None end);
     mkVariant (codec_pair codec_bytes (codec_pair (codec_array 12) codec_bytes))
       (fun '(c, (n, a)) => CreateEncryptedNote c n a)
       (fun i => match i with CreateEncryptedNote c n a => Some (c, (n, a)) | _ => None end);
     mkVariant (codec_pair (codec_vec codec_pubkey) codec_bool) (fun '(l, a) => ConfigureAuditor l a)
       (fun i => match i with ConfigureAuditor l a => Some (l, a) | _ => None end);
     mkVariant (codec_array 32) AuditTransaction (fun i => match i with AuditTransaction a => Some a | _ => None end);
     mkVariant (codec_array 32) UpdateMerkleRoot (fun i => match i with UpdateMerkleRoot r => Some r | _ => None end)]
    privacy_instruction_index.

Lemma codec_commitment_laws : codec_laws codec_commitment.
Proof. apply codec_iso_laws; [by intros []|done|]. auto 20 with codec. Qed.
Lemma codec_commitment_wf c : c_wf codec_commitment c <-> commitment_ok c.
Proof. unfold codec_commitment, commitment_ok. codec_typed. Qed.
Lemma codec_range_laws : codec_laws codec_range.
Proof. apply codec_iso_laws; [by intros []|done|]. auto 20 with codec. Qed.
Lemma codec_range_wf r : c_wf codec_range r <-> is_u32 (zlen (rp_proof_data r)).
Proof. unfold codec_range. codec_typed. Qed.
Lemma codec_zk_laws : codec_laws codec_zk.
Proof. apply codec_iso_laws; [by intros []|by intros (?&?&?)|]. auto 20 with codec. Qed.
Lemma codec_zk_wf z : c_wf codec_zk z <-> zk_ok z.
Proof. unfold codec_zk, zk_ok. codec_typed. Qed.
Lemma codec_hashes_wf l : c_wf (codec_vec (codec_array 32)) l <-> Forall (fun s => zlen s = 32) l /\ is_u32 (zlen l).
Proof. apply codec_list_wf. intros a. apply codec_array_wf. Qed.
Lemma codec_path_laws : codec_laws codec_path.
Proof. apply codec_iso_laws; [by intros []|by intros (?&?)|]. auto 20 with codec. Qed.
#[local] Hint Rewrite codec_hashes_wf : codec_wf.
Lemma codec_path_wf p : c_wf codec_path p <-> path_ok p.
Proof. unfold codec_path, path_ok. codec_typed. Qed.
#[local] Hint Resolve codec_commitment_laws codec_range_laws codec_zk_laws codec_path_laws : codec.
#[local] Hint Rewrite codec_commitment_wf codec_range_wf codec_zk_wf codec_path_wf : codec_wf.

Lemma codec_shielded_pool_laws : codec_laws codec_shielded_pool.
Proof. apply codec_iso_laws; [by intros []|by intros (?&?&?&?&?&?&?)|]. auto 20 with codec. Qed.
Lemma codec_shielded_pool_wf p : well_typed p <-> c_wf codec_shielded_pool p.
Proof. unfold codec_shielded_pool, well_typed, ShieldedPool_well_typed. codec_typed. Qed.
Lemma codec_shielded_pool_size : c_size codec_shielded_pool POOL_LEN.
Proof. codec_size. Qed.
Lemma codec_leaf_laws : codec_laws codec_leaf.
Proof. apply codec_iso_laws; [by intros []|by intros (?&?&?&?&?&?&?)|]. auto 20 with codec. Qed.
Lemma codec_leaf_wf l : well_typed l <-> c_wf codec_leaf l.
Proof. unfold codec_leaf, well_typed, CommitmentLeaf_well_typed. codec_typed. Qed.
Lemma codec_nullifier_laws : codec_laws codec_nullifier.
Proof. apply codec_iso_laws; [by intros []|by intros (?&?&?&?)|]. auto 20 with codec. Qed.
Lemma codec_nullifier_wf n : well_typed n <-> c_wf codec_nullifier n.
Proof. unfold codec_nullifier, well_typed, NullifierRecord_well_typed. codec_typed. Qed.
Lemma codec_nullifier_size : c_size codec_nullifier NULLIFIER_LEN.
Proof. codec_size. Qed.
Lemma codec_privacy_instruction_laws : codec_laws codec_privacy_instruction.
Proof.
  apply codec_variants_laws; [simpl; lia|repeat apply Forall_cons_2; simpl; auto 15 with codec| |].
  - intros [|[|[|[|[|[|[|[|[|]]]]]]]]] v a [= <-]; simpl in a;
      repeat match goal with x : _ * _ |- _ => destruct x end; done.
  - intros [] v a [= <-]; simpl; by intros [= <-].
Qed.
Lemma codec_privacy_instruction_wf i : well_typed i <-> c_wf codec_privacy_instruction i.
Proof. destruct i; unfold well_typed, PrivacyInstruction_well_typed, codec_privacy_instruction; codec_variant_typed. Qed.

Lemma codec_leaf_size : c_size codec_leaf LEAF_LEN.
Proof. codec_size. Qed.
Lemma codec_stealth_wf a : well_typed a <-> c_wf codec_stealth a.
Proof. unfold codec_stealth, well_typed, StealthAddress_well_typed. codec_typed. Qed.
Lemma codec_stealth_size : c_size codec_stealth STEALTH_LEN.
Proof. codec_size. Qed.
Lemma codec_note_wf n : well_typed n <-> c_wf codec_note n.
Proof. unfold codec_note, well_typed, EncryptedNote_well_typed. codec_typed. Qed.
Lemma codec_note_len : c_len codec_note note_len.
Proof. codec_len. intros n. unfold note_len. simpl. lia. Qed.

#[global] Instance pool_borsh : Borsh ShieldedPool := borsh_of_codec codec_shielded_pool.
#[global] Instance pool_borsh_laws : BorshLaws ShieldedPool := borsh_of_codec_laws _ codec_shielded_pool_laws codec_shielded_pool_wf.
#[global] Instance pool_borsh_sized : BorshSized ShieldedPool POOL_LEN := borsh_of_codec_sized _ _ codec_shielded_pool_size codec_shielded_pool_wf.
#[global] Instance leaf_borsh : Borsh CommitmentLeaf := borsh_of_codec codec_leaf.
#[global] Instance leaf_borsh_laws : BorshLaws CommitmentLeaf := borsh_of_codec_laws _ codec_leaf_laws codec_leaf_wf.
#[global] Instance leaf_borsh_sized : BorshSized CommitmentLeaf LEAF_LEN := borsh_of_codec_sized _ _ codec_leaf_size codec_leaf_wf.
#[global] Instance nullifier_borsh : Borsh NullifierRecord := borsh_of_codec codec_nullifier.
#[global] Instance nullifier_borsh_laws : BorshLaws NullifierRecord := borsh_of_codec_laws _ codec_nullifier_laws codec_nullifier_wf.
#[global] Instance nullifier_borsh_sized : BorshSized NullifierRecord NULLIFIER_LEN :=
  borsh_of_codec_sized _ _ codec_nullifier_size codec_nullifier_wf.
#[global] Instance stealth_borsh : Borsh StealthAddress := borsh_of_codec codec_stealth.
#[global] Instance stealth_borsh_sized : BorshSized StealthAddress STEALTH_LEN :=
  borsh_of_codec_sized _ _ codec_stealth_size codec_stealth_wf.
#[global] Instance note_borsh : Borsh EncryptedNote := borsh_of_codec codec_note.
#[global] Instance note_borsh_measured : BorshMeasured EncryptedNote note_len := borsh_of_codec_measured _ _ codec_note_len codec_note_wf.
#[global] Instance auditors_borsh : Borsh AuditorConfig := borsh_of_codec codec_auditors.
#[global] Instance privacy_instruction_borsh : Borsh PrivacyInstruction := borsh_of_codec codec_privacy_instruction.
#[global] Instance privacy_instruction_borsh_laws : BorshLaws PrivacyInstruction :=
  borsh_of_codec_laws _ codec_privacy_instruction_laws codec_privacy_instruction_wf.

(** ** An example *)

Module PrivacyDemo.
Definition PROGRAM : Pubkey := 100.
Definition nullifier : list byte := replicate 32 Byte.x05.
Definition pool : ShieldedPool := mkPool true 800 3 zero_root 900 false 255.
Definition zk : ZkProof := mkZkProof (replicate 64 Byte.x01) (replicate 128 Byte.x01) (replicate 64 Byte.x01).
Definition unshield : PrivacyInstruction := Unshield 400 nullifier (mkMerklePath [] []) zk.
Definition data : list byte := borsh_ser unshield.
Definition nullifier_key : Pubkey := (find_program_address [NULLIFIER_SEED; nullifier] PROGRAM).1.
Definition accounts : list (Pubkey * Account) :=
  [(500, mkAccount 1000000 (borsh_ser pool) PROGRAM false);
   (nullifier_key, mkAccount 1000000 (replicate 42 Byte.x00) PROGRAM false);
   (300, mkAccount 5000 [] 0 false); (301, mkAccount 5000 [] 0 false)].
Definition state : PState := mkPState (store accounts) (mkTA (store accounts) 0 0).
Definition len (k : Pubkey) : Z := zlen (acc_data (get_acc (store accounts) k)).
Definition cx : Ctx := demo_ctx PROGRAM
  [mkIA 500 false true; mkIA nullifier_key false true; mkIA 300 true false; mkIA 301 false true; mkIA clock_id false false;
   mkIA 0 false false] 5000 len.
Definition leaf (n : Z) : list byte := le_bytes 32 n.
Definition commitments : tree := Node (Node (Leaf (leaf 1)) (Leaf (leaf 2))) (Node (Leaf (leaf 3)) (Leaf (leaf 4))).
(** Two leaves that the hash of the model, which is not a cryptographic one,
    does not tell apart. *)
Definition twin : list byte := replicate 20 Byte.x00 ++ replicate 12 Byte.x10.
Definition twin' : list byte := replicate 20 Byte.x00 ++ (byte_of_Z <$> [17; 10; 30; 1; 22; 16; 16; 22; 1; 30; 10; 17]).

(** The nullifier in an account with one byte more than the record. *)
Definition padded_accounts : list (Pubkey * Account) :=
  [(500, mkAccount 1000000 (borsh_ser pool) PROGRAM false);
   (nullifier_key, mkAccount 1000000 (replicate 43 Byte.x00) PROGRAM false);
   (300, mkAccount 5000 [] 0 false); (301, mkAccount 5000 [] 0 false)].
Definition padded_state : PState := mkPState (store padded_accounts) (mkTA (store padded_accounts) 0 0).

Lemma typed : typed_inputs cx state.
Proof. split; [repeat constructor; evaluate|evaluate|]. intros k. apply data_bound_store; [evaluate|]. repeat constructor; evaluate. Qed.
Lemma privacy_run : is_ok (process_instruction cx data state) = true.
Proof. vm_compute. reflexivity. Qed.
End PrivacyDemo.

(** ** Properties *)

Section PrivacyProperties.
Context {E : Env} {BP : Borsh ShieldedPool} {BL : Borsh CommitmentLeaf} {BN : Borsh NullifierRecord} {BS : Borsh StealthAddress}
  {BE : Borsh EncryptedNote} {BA : Borsh AuditorConfig} {BI : Borsh PrivacyInstruction}.
Context {LP : BorshLaws ShieldedPool} {LL : BorshLaws CommitmentLeaf} {LN : BorshLaws NullifierRecord} {LI : BorshLaws PrivacyInstruction}.
Context {SP : BorshSized ShieldedPool POOL_LEN} {SN : BorshSized NullifierRecord NULLIFIER_LEN} {SL : BorshSized CommitmentLeaf LEAF_LEN}
  {SS : BorshSized StealthAddress STEALTH_LEN} {ME : BorshMeasured EncryptedNote note_len}.

(** C6. A nullifier is spent once, when its account has exactly the length of
    the record and is not the auditor account.  After a transfer or a withdrawal
    that spends it, and whatever instructions of the program run afterwards in
    whatever contexts, every transfer or withdrawal with the same nullifier
    fails: the record is permanent, since an account of its length has no room
    for the other records.  (In a longer account the record is not read back,
    see [padded_nullifier_spent_twice].) *)
Theorem nullifier_spent_once {L : EnvLaws} cx data i nullifier s s1 cx2 data2 i2 s2 :
  let kn := (find_program_address [NULLIFIER_SEED; nullifier] (cx_program_id cx)).1 in
  typed_inputs cx s -> zlen (acc_data (get_acc (mem s) kn)) = NULLIFIER_LEN ->
  kn <> (find_program_address [AUDITOR_SEED] (cx_program_id cx)).1 ->
  try_from_slice data = Some i -> spends i = Some nullifier -> process_instruction cx data s = Ok (tt, s1) ->
  history (privacy_run (cx_program_id cx)) kn (mem s1) (mem s2) ->
  cx_program_id cx2 = cx_program_id cx -> try_from_slice data2 = Some i2 -> spends i2 = Some nullifier ->
  forall s3, process_instruction cx2 data2 s2 <> Ok (tt, s3).
Proof.
  intros kn Hty Hz Hne Hd Hs Hrun Hh Hp Hd2 Hs2 s3 Hrun2.
  destruct (find_program_address [NULLIFIER_SEED; nullifier] (cx_program_id cx)) as [k bump] eqn:Hf.
  assert (Hr : holds (mem s1) k (mkNullifier true nullifier (unix_timestamp (cx_clock cx)) bump)) by
    (apply (spend_records cx data i nullifier s s1 k bump); done).
  apply (nullifier_for_ever _ _ _ _ _ Hh) in Hr; [|done|done].
  pose proof (spend_checks cx2 _ _ _ _ _ Hd2 Hs2 Hrun2) as Ho. rewrite Hp, Hf in Ho. simpl in Ho.
  by rewrite (spent_occupied (mem s2) k _ Hr eq_refl) in Ho.
Qed.

(** C27. The accounts of the pool.  A successful instruction on the pool adds
    exactly the shielded amount to the recorded balance, takes exactly the
    unshielded amount, which the balance covers, off it, and counts one new
    commitment for a deposit and two for a transfer, without wrap-around; only
    the authority changes the Merkle root. *)
Theorem shielded_pool_accounting cx data i s s' kp p :
  try_from_slice data = Some i -> on_pool i -> ia_key <$> cx_accounts cx !! 0%nat = Some kp -> pool_apart cx kp ->
  holds (mem s) kp p -> process_instruction cx data s = Ok (tt, s') ->
  exists p', holds (mem s') kp p' /\ pool_step p p' /\ sp_pool_balance p' = sp_pool_balance p + balance_change i /\
    sp_commitment_count p' = sp_commitment_count p + new_commitments i /\
    (sp_merkle_root p' = sp_merkle_root p \/ signed cx (sp_authority p)).
Proof.
  intros Hd Ho Hk Hap Hp Hrun. destruct (pool_instruction_step cx _ _ _ _ Hd Ho Hrun) as (kp' & q & p' & Hk' & Hq & ? & ? & ? & ? & Hh).
  rewrite Hk in Hk'. injection Hk' as <-. assert (q = p) as -> by (by eapply holds_inj). exists p'. split_and!; auto.
Qed.

(** C28. Merkle proofs.  The proof of every leaf of every tree is accepted for
    the root of the tree.  Two leaves of the length of a hash that are accepted
    for the same root at the same position are the same leaf, or the two proofs
    themselves contain a collision of the hash: at some level they hash two
    different inputs to the same value, and [find_collision] computes them. *)
Theorem merkle_proof_sound_complete :
  (forall dirs t l p, tree_proof dirs t = Some (l, p) ->
     verify_merkle_proof l (mkMerklePath p.*1 p.*2) (tree_root t) = true) /\
  ((forall bs, zlen (sha256 bs) = 32) -> forall l l' siblings siblings' indices root,
     zlen l = 32 -> zlen l' = 32 -> Forall (fun s => zlen s = 32) siblings -> Forall (fun s => zlen s = 32) siblings' ->
     verify_merkle_proof l (mkMerklePath siblings indices) root = true ->
     verify_merkle_proof l' (mkMerklePath siblings' indices) root = true ->
     l = l' \/ exists x y, find_collision (zip siblings indices) (zip siblings' indices) l l' = Some (x, y) /\ collides x y).
Proof.
  split.
  - intros dirs t l p H. apply tree_proof_root in H. unfold verify_merkle_proof. simpl. rewrite zip_fst_snd, H, bool_decide_true by done.
    unfold zlen. by rewrite !length_fmap, Z.eqb_refl.
  - intros Hsha l l' ss ss' ix root Hl Hl' Hs Hs' [Hz H]%andb_true_iff [Hz' H']%andb_true_iff.
    apply bool_decide_eq_true in H, H'. apply Z.eqb_eq in Hz, Hz'. unfold zlen in Hz, Hz'. simpl in *.
    destruct (find_collision (zip ss ix) (zip ss' ix) l l') as [[x y]|] eqn:Hf.
    { right. exists x, y. split; [done|by eapply find_collision_collides]. }
    left. apply (merkle_binding (zip ss ix) (zip ss' ix)); try done.
    + by apply levels_len.
    + by apply levels_len.
    + rewrite !snd_zip by lia. done.
    + by rewrite H, H'.
Qed.

(** Finding: the pool holds no funds.  No instruction of the program, the
    deposits and withdrawals included, moves a lamport or calls another
    program: the balance of the pool is a number that nothing backs. *)
Theorem privacy_moves_no_lamports cx data s s' :
  process_instruction cx data s = Ok (tt, s') ->
  rt s' = rt s /\ forall k, acc_lamports (get_acc (mem s') k) = acc_lamports (get_acc (mem s) k).
Proof. apply privacy_lamports. Qed.
End PrivacyProperties.

(** ** The hypotheses can hold *)

Lemma nullifier_spent_once_witness : exists s1,
  process_instruction PrivacyDemo.cx PrivacyDemo.data PrivacyDemo.state = Ok (tt, s1) /\
  forall s3, process_instruction PrivacyDemo.cx PrivacyDemo.data s1 <> Ok (tt, s3).
Proof.
  destruct (process_instruction PrivacyDemo.cx PrivacyDemo.data PrivacyDemo.state) as [[[] s1]|e] eqn:Hrun;
    [|pose proof PrivacyDemo.privacy_run as Hk; rewrite Hrun in Hk; discriminate Hk].
  exists s1. split; [exact eq_refl|].
  apply (nullifier_spent_once PrivacyDemo.cx PrivacyDemo.data PrivacyDemo.unshield PrivacyDemo.nullifier PrivacyDemo.state s1
    PrivacyDemo.cx PrivacyDemo.data PrivacyDemo.unshield s1 PrivacyDemo.typed);
    [evaluate|evaluate|evaluate|evaluate|exact Hrun|apply history_refl|evaluate|evaluate|evaluate].
Defined.

Lemma shielded_pool_accounting_witness : exists s' p',
  process_instruction PrivacyDemo.cx PrivacyDemo.data PrivacyDemo.state = Ok (tt, s') /\
  holds (mem s') 500 p' /\ sp_pool_balance p' = 500.
Proof.
  destruct (process_instruction PrivacyDemo.cx PrivacyDemo.data PrivacyDemo.state) as [[[] s']|e] eqn:Hrun;
    [|pose proof PrivacyDemo.privacy_run as Hk; rewrite Hrun in Hk; discriminate Hk].
  destruct (shielded_pool_accounting PrivacyDemo.cx PrivacyDemo.data PrivacyDemo.unshield PrivacyDemo.state s' 500 PrivacyDemo.pool)
    as (p' & Hp & _ & Hb & _); [evaluate|exact I|evaluate|repeat constructor; evaluate|evaluate|exact Hrun|].
  exists s', p'. split; [exact eq_refl|]. split; [exact Hp|exact Hb].
Defined.

Lemma merkle_proof_sound_complete_witness :
  (exists p, tree_proof [true; false] PrivacyDemo.commitments = Some (PrivacyDemo.leaf 3, p) /\
    verify_merkle_proof (PrivacyDemo.leaf 3) (mkMerklePath p.*1 p.*2) (tree_root PrivacyDemo.commitments) = true) /\
  exists x y, find_collision [(PrivacyDemo.leaf 1, Byte.x00)] [(PrivacyDemo.leaf 1, Byte.x00)]
    PrivacyDemo.twin PrivacyDemo.twin' = Some (x, y) /\ collides x y.
Proof.
  split.
  - eexists. split; [vm_compute; reflexivity|].
    refine (proj1 merkle_proof_sound_complete [true; false] _ _ _ _). evaluate.
  - destruct (proj2 merkle_proof_sound_complete) with (l := PrivacyDemo.twin) (l' := PrivacyDemo.twin')
      (siblings := [PrivacyDemo.leaf 1]) (siblings' := [PrivacyDemo.leaf 1]) (indices := [Byte.x00])
      (root := sha256 (PrivacyDemo.twin ++ PrivacyDemo.leaf 1)) as [H|H];
      [|evaluate|evaluate|by repeat constructor|by repeat constructor|evaluate|evaluate|discriminate H|exact H].
    intros bs. unfold zlen. change (sha256 bs) with (le_bytes 32 (hash bs)). by rewrite length_le_bytes.
Defined.

Lemma privacy_moves_no_lamports_witness : exists s',
  process_instruction PrivacyDemo.cx PrivacyDemo.data PrivacyDemo.state = Ok (tt, s') /\
  acc_lamports (get_acc (mem s') 301) = 5000.
Proof.
  destruct (process_instruction PrivacyDemo.cx PrivacyDemo.data PrivacyDemo.state) as [[[] s']|e] eqn:Hrun;
    [|pose proof PrivacyDemo.privacy_run as Hk; rewrite Hrun in Hk; discriminate Hk].
  exists s'. split; [exact eq_refl|].
  destruct (privacy_moves_no_lamports PrivacyDemo.cx PrivacyDemo.data PrivacyDemo.state s' Hrun) as [_ Hl].
  rewrite Hl. evaluate.
Defined.

(** Finding: the check of a nullifier reads its record with [try_from_slice],
    which fails unless the account has exactly the length of the record, and
    takes a failure for an unspent nullifier; nothing checks the length.  In an
    account of 43 bytes the same withdrawal of 400 succeeds twice. *)
Example padded_nullifier_spent_twice :
  (let? '(_, s1) := process_instruction PrivacyDemo.cx PrivacyDemo.data PrivacyDemo.padded_state in
   let? '(_, s2) := process_instruction PrivacyDemo.cx PrivacyDemo.data s1 in
   let balance s := sp_pool_balance <$> try_from_slice (acc_data (get_acc (mem s) 500)) in
   Ok (balance PrivacyDemo.padded_state, balance s1, balance s2))%result
  = Ok (Some 900, Some 500, Some 100).
Proof. vm_compute. reflexivity. Qed.
