(* ===== verification/SolSwap.v ===== *)
(** * SolSwap: the automated market maker

    Models [src/defi/solswap/program/src/lib.rs]: the pool with its reserves and
    its liquidity (LP) tokens, the arithmetic of swaps, deposits and
    withdrawals, the integer square root, the base-58 encoder of the events, and
    the four instructions.  The events themselves are log output. *)

From Stdlib Require Import Strings.Byte Strings.String.
From S2P Require Import Prelude Borsh Accounts System Invoke Execution Records.
Open Scope Z_scope.

(** ** Data *)

Inductive SwapDirection := AtoB | BtoA.
#[global] Instance SwapDirection_eq_dec : EqDecision SwapDirection.
Proof. solve_decision. Defined.

Record PoolState := mkPoolState {
  po_is_initialized : bool;
  po_bump : Z;
  po_token_a_mint : Pubkey;
  po_token_b_mint : Pubkey;
  po_token_a_reserve : Z;
  po_token_b_reserve : Z;
  po_lp_mint : Pubkey;
  po_lp_supply : Z;
  po_fee_numerator : Z;
  po_fee_denominator : Z;
  po_protocol_fee_numerator : Z;
  po_authority : Pubkey;
  po_cumulative_volume_a : Z;
  po_cumulative_volume_b : Z;
}.

Definition PoolState_LEN : Z := 1 + 1 + 32 + 32 + 8 + 8 + 32 + 8 + 8 + 8 + 8 + 32 + 16 + 16.

Inductive SwapInstruction :=
| InitializePool (fee_numerator fee_denominator protocol_fee_numerator : Z)
| AddLiquidity (amount_a amount_b min_lp_tokens : Z)
| RemoveLiquidity (lp_amount min_amount_a min_amount_b : Z)
| Swap (amount_in minimum_amount_out : Z) (swap_direction : SwapDirection).

Inductive SwapError :=
| AlreadyInitialized | NotInitialized | InvalidFeeConfig | ZeroDeposit | ZeroSwapInput | SlippageExceeded | ZeroLpBurn
| InsufficientLpBalance | EmptyReserves | MathOverflow | IdenticalMints | BadAccountOwner | InsufficientLpMinted.

(** [BadAccountOwner] is [SwapError::InvalidAccountOwner]. *)
Definition into (e : SwapError) : InstructionError :=
  Custom match e with
  | AlreadyInitialized => 0 | NotInitialized => 1 | InvalidFeeConfig => 2 | ZeroDeposit => 3 | ZeroSwapInput => 4
  | SlippageExceeded => 5 | ZeroLpBurn => 6 | InsufficientLpBalance => 7 | EmptyReserves => 8 | MathOverflow => 9
  | IdenticalMints => 10 | BadAccountOwner => 11 | InsufficientLpMinted => 12
  end.

#[global] Instance PoolState_well_typed : WellTyped PoolState := fun p =>
  is_u8 (po_bump p) /\ is_pubkey (po_token_a_mint p) /\ is_pubkey (po_token_b_mint p) /\ is_u64 (po_token_a_reserve p) /\
  is_u64 (po_token_b_reserve p) /\ is_pubkey (po_lp_mint p) /\ is_u64 (po_lp_supply p) /\ is_u64 (po_fee_numerator p) /\
  is_u64 (po_fee_denominator p) /\ is_u64 (po_protocol_fee_numerator p) /\ is_pubkey (po_authority p) /\
  is_u128 (po_cumulative_volume_a p) /\ is_u128 (po_cumulative_volume_b p).
#[global] Instance SwapInstruction_well_typed : WellTyped SwapInstruction := fun i =>
  match i with
  | InitializePool a b c | AddLiquidity a b c | RemoveLiquidity a b c => is_u64 a /\ is_u64 b /\ is_u64 c
  | Swap a b _ => is_u64 a /\ is_u64 b
  end.

Definition with_pool (a b supply va vb : Z) (p : PoolState) : PoolState :=
  mkPoolState (po_is_initialized p) (po_bump p) (po_token_a_mint p) (po_token_b_mint p) a b (po_lp_mint p) supply
    (po_fee_numerator p) (po_fee_denominator p) (po_protocol_fee_numerator p) (po_authority p) va vb.

(** ** The base-58 encoder of the events *)

Definition ALPHABET : list byte := list_byte_of_string "123456789ABCDEFGHJKLMNPQRSTUVWXYZabcdefghijkmnopqrstuvwxyz".
Definition as_u16 (z : Z) : Z := z mod 2 ^ 16.

(** The inner loop: the digits, least significant first, times 256 plus the carry. *)
Fixpoint mul_add (carry : Z) (digits : list Z) : list Z * Z :=
  match digits with
  | [] => ([], carry)
  | d :: ds =>
      let carry := as_u16 (carry + as_u16 (Z.shiftl d 8)) in
      let '(ds', c) := mul_add (carry / 58) ds in (carry mod 58 :: ds', c)
  end.
(** [while carry > 0]; three rounds empty a 16-bit carry. *)
Fixpoint push_carry (fuel : nat) (carry : Z) : list Z :=
  match fuel with
  | O => []
  | S fuel => if 0 <? carry then carry mod 58 :: push_carry fuel (carry / 58) else []
  end.
Definition push_byte (digits : list Z) (b : byte) : list Z :=
  let '(ds, carry) := mul_add (Z_of_byte b) digits in ds ++ push_carry 3 carry.

Fixpoint count_zeros (bs : list byte) : nat :=
  match bs with b :: t => if Z_of_byte b =? 0 then S (count_zeros t) else O | [] => O end.
Definition bs58_digit (d : Z) : byte := nth (Z.to_nat d) ALPHABET Byte.x00.
Definition bs58_encode (bytes : list byte) : list byte :=
  match bytes with
  | [] => []
  | _ => replicate (count_zeros bytes) Byte.x31 ++ (bs58_digit <$> rev (fold_left push_byte bytes [0]))
  end.

(** ** Arithmetic *)

(** Newton's iteration, with fuel; [None] is a division by zero or no result
    within the fuel. *)
Fixpoint sqrt_loop (fuel : nat) (value x y : Z) : option Z :=
  match fuel with
  | O => None
  | S fuel =>
      if y <? x then
        let x := y in
        if x =? 0 then None else sqrt_loop fuel value x (as_u128 (x + value / x) / 2)
      else Some x
  end.
Definition sqrt (value : Z) : option Z :=
  if value =? 0 then Some 0
  else
    let x := value in
    let y := as_u128 (x + 1) / 2 in
    as_u64 <$> sqrt_loop 130 value x y.

Definition calculate_swap_output (amount_in reserve_in reserve_out fee_num fee_den : Z) : result InstructionError (Z * Z) :=
  (err_if (amount_in =? 0) (into ZeroSwapInput) ?>
   err_if ((reserve_in =? 0) || (reserve_out =? 0)) (into EmptyReserves) ?>
   let? kept := ok_or (u128_checked_sub fee_den fee_num) (into MathOverflow) in
   let? effective_in := ok_or (u128_checked_mul amount_in kept) (into MathOverflow) in
   let? numerator := ok_or (u128_checked_mul effective_in reserve_out) (into MathOverflow) in
   let? scaled := ok_or (u128_checked_mul reserve_in fee_den) (into MathOverflow) in
   let? denominator := ok_or (u128_checked_add scaled effective_in) (into MathOverflow) in
   let? amount_out := ok_or (u128_checked_div numerator denominator) (into MathOverflow) in
   let? fee_scaled := ok_or (u128_checked_mul amount_in fee_num) (into MathOverflow) in
   let? total_fee := ok_or (u128_checked_div fee_scaled fee_den) (into MathOverflow) in
   Ok (as_u64 amount_out, as_u64 total_fee))%result.

Definition calculate_lp_tokens (amount_a amount_b reserve_a reserve_b lp_supply : Z) : result InstructionError Z :=
  (err_if ((amount_a =? 0) || (amount_b =? 0)) (into ZeroDeposit) ?>
   if lp_supply =? 0 then
     let? product := ok_or (u128_checked_mul amount_a amount_b) (into MathOverflow) in
     let? lp := ok_or (sqrt product) ProgramFailedToComplete in
     err_if (lp =? 0) (into MathOverflow) ?>
     Ok lp
   else
     let? scaled_a := ok_or (u128_checked_mul amount_a lp_supply) (into MathOverflow) in
     let? lp_a := ok_or (u128_checked_div scaled_a reserve_a) (into MathOverflow) in
     let? scaled_b := ok_or (u128_checked_mul amount_b lp_supply) (into MathOverflow) in
     let? lp_b := ok_or (u128_checked_div scaled_b reserve_b) (into MathOverflow) in
     let lp := as_u64 (Z.min lp_a lp_b) in
     err_if (lp =? 0) (into MathOverflow) ?>
     Ok lp)%result.

Definition calculate_withdrawal (lp_amount lp_supply reserve_a reserve_b : Z) : result InstructionError (Z * Z) :=
  (err_if (lp_amount =? 0) (into ZeroLpBurn) ?>
   let? scaled_a := ok_or (u128_checked_mul lp_amount reserve_a) (into MathOverflow) in
   let? amount_a := ok_or (u128_checked_div scaled_a lp_supply) (into MathOverflow) in
   let? scaled_b := ok_or (u128_checked_mul lp_amount reserve_b) (into MathOverflow) in
   let? amount_b := ok_or (u128_checked_div scaled_b lp_supply) (into MathOverflow) in
   Ok (as_u64 amount_a, as_u64 amount_b))%result.

Definition calculate_price_impact_bps (amount_in amount_out reserve_in reserve_out : Z) : Z :=
  if (amount_in =? 0) || (reserve_in =? 0) || (reserve_out =? 0) then 0
  else
    let spot_numerator := as_u128 (reserve_out * amount_in) in
    let exec_numerator := as_u128 (amount_out * reserve_in) in
    if spot_numerator <=? exec_numerator then 0
    else
      let diff := spot_numerator - exec_numerator in
      as_u64 (as_u128 (diff * 10000) / spot_numerator).

(** ** Instructions *)

Section SolSwap.
Context {BP : Borsh PoolState} {BI : Borsh SwapInstruction}.
Variable cx : Ctx.

(** [PoolState::try_from_slice(&pool_data[..PoolState::LEN])]. *)
Definition load_pool (ia : AccountInfo) : M PoolState :=
  (let! a := account ia in
   fail_if (zlen (acc_data a) <? PoolState_LEN) ProgramFailedToComplete ;;
   lift (ok_or (try_from_slice (take (Z.to_nat PoolState_LEN) (acc_data a))) InvalidAccountData))%prog.

Definition process_initialize_pool (fee_numerator fee_denominator protocol_fee_numerator : Z) : M unit :=
  (let! '(pool_account, it) := next_account_info (cx_accounts cx) in
   let! '(token_a_mint, it) := next_account_info it in
   let! '(token_b_mint, it) := next_account_info it in
   let! '(_vault_a, it) := next_account_info it in
   let! '(_vault_b, it) := next_account_info it in
   let! '(lp_mint, it) := next_account_info it in
   let! '(authority, it) := next_account_info it in
   let! '(_system_program, it) := next_account_info it in
   let! '(_token_program, it) := next_account_info it in
   let! '(_rent, it) := next_account_info it in
   fail_if (negb (ia_is_signer authority)) MissingRequiredSignature ;;
   fail_if ((fee_denominator =? 0) || (fee_denominator <? fee_numerator)) (into InvalidFeeConfig) ;;
   fail_if (fee_numerator <? protocol_fee_numerator) (into InvalidFeeConfig) ;;
   fail_if (ia_key token_a_mint =? ia_key token_b_mint) (into IdenticalMints) ;;
   let! pa := account pool_account in
   fail_if (zlen (acc_data pa) <? PoolState_LEN) AccountDataTooSmall ;;
   fail_if (negb (Z_of_byte (nth 0 (acc_data pa) Byte.x00) =? 0)) (into AlreadyInitialized) ;;
   copy_into (mkPoolState true 0 (ia_key token_a_mint) (ia_key token_b_mint) 0 0 (ia_key lp_mint) 0 fee_numerator fee_denominator
     protocol_fee_numerator (ia_key authority) 0 0) pool_account)%prog.

Definition process_add_liquidity (amount_a amount_b min_lp_tokens : Z) : M unit :=
  (let! '(pool_account, it) := next_account_info (cx_accounts cx) in
   let! '(_vault_a, it) := next_account_info it in
   let! '(_vault_b, it) := next_account_info it in
   let! '(_lp_mint, it) := next_account_info it in
   let! '(_user_a, it) := next_account_info it in
   let! '(_user_b, it) := next_account_info it in
   let! '(_user_lp, it) := next_account_info it in
   let! '(authority, it) := next_account_info it in
   let! '(_token_prog, it) := next_account_info it in
   fail_if (negb (ia_is_signer authority)) MissingRequiredSignature ;;
   let! pool := load_pool pool_account in
   fail_if (negb (po_is_initialized pool)) (into NotInitialized) ;;
   let! lp_tokens :=
     lift (calculate_lp_tokens amount_a amount_b (po_token_a_reserve pool) (po_token_b_reserve pool) (po_lp_supply pool)) in
   fail_if (lp_tokens <? min_lp_tokens) (into InsufficientLpMinted) ;;
   let! reserve_a := lift (ok_or (u64_checked_add (po_token_a_reserve pool) amount_a) (into MathOverflow)) in
   let! reserve_b := lift (ok_or (u64_checked_add (po_token_b_reserve pool) amount_b) (into MathOverflow)) in
   let! supply := lift (ok_or (u64_checked_add (po_lp_supply pool) lp_tokens) (into MathOverflow)) in
   copy_into (with_pool reserve_a reserve_b supply (po_cumulative_volume_a pool) (po_cumulative_volume_b pool) pool)
     pool_account)%prog.

Definition process_remove_liquidity (lp_amount min_amount_a min_amount_b : Z) : M unit :=
  (let! '(pool_account, it) := next_account_info (cx_accounts cx) in
   let! '(_vault_a, it) := next_account_info it in
   let! '(_vault_b, it) := next_account_info it in
   let! '(_lp_mint, it) := next_account_info it in
   let! '(_user_a, it) := next_account_info it in
   let! '(_user_b, it) := next_account_info it in
   let! '(_user_lp, it) := next_account_info it in
   let! '(authority, it) := next_account_info it in
   let! '(_token_prog, it) := next_account_info it in
   fail_if (negb (ia_is_signer authority)) MissingRequiredSignature ;;
   let! pool := load_pool pool_account in
   fail_if (negb (po_is_initialized pool)) (into NotInitialized) ;;
   fail_if (po_lp_supply pool <? lp_amount) (into InsufficientLpBalance) ;;
   let! '(amount_a, amount_b) :=
     lift (calculate_withdrawal lp_amount (po_lp_supply pool) (po_token_a_reserve pool) (po_token_b_reserve pool)) in
   fail_if ((amount_a <? min_amount_a) || (amount_b <? min_amount_b)) (into SlippageExceeded) ;;
   let! reserve_a := lift (ok_or (u64_checked_sub (po_token_a_reserve pool) amount_a) (into MathOverflow)) in
   let! reserve_b := lift (ok_or (u64_checked_sub (po_token_b_reserve pool) amount_b) (into MathOverflow)) in
   let! supply := lift (ok_or (u64_checked_sub (po_lp_supply pool) lp_amount) (into MathOverflow)) in
   copy_into (with_pool reserve_a reserve_b supply (po_cumulative_volume_a pool) (po_cumulative_volume_b pool) pool)
     pool_account)%prog.

(** The update of the reserves and of the volume. *)
Definition trade (swap_direction : SwapDirection) (amount_in amount_out : Z) (pool : PoolState)
    : result InstructionError PoolState :=
  (match swap_direction with
   | AtoB =>
       let? a := ok_or (u64_checked_add (po_token_a_reserve pool) amount_in) (into MathOverflow) in
       let? b := ok_or (u64_checked_sub (po_token_b_reserve pool) amount_out) (into MathOverflow) in
       let? v := ok_or (u128_checked_add (po_cumulative_volume_a pool) amount_in) (into MathOverflow) in
       Ok (with_pool a b (po_lp_supply pool) v (po_cumulative_volume_b pool) pool)
   | BtoA =>
       let? b := ok_or (u64_checked_add (po_token_b_reserve pool) amount_in) (into MathOverflow) in
       let? a := ok_or (u64_checked_sub (po_token_a_reserve pool) amount_out) (into MathOverflow) in
       let? v := ok_or (u128_checked_add (po_cumulative_volume_b pool) amount_in) (into MathOverflow) in
       Ok (with_pool a b (po_lp_supply pool) (po_cumulative_volume_a pool) v pool)
   end)%result.

Definition process_swap (amount_in minimum_amount_out : Z) (swap_direction : SwapDirection) : M unit :=
  (let! '(pool_account, it) := next_account_info (cx_accounts cx) in
   let! '(_vault_src, it) := next_account_info it in
   let! '(_vault_dst, it) := next_account_info it in
   let! '(_user_src, it) := next_account_info it in
   let! '(_user_dst, it) := next_account_info it in
   let! '(_protocol_dst, it) := next_account_info it in
   let! '(authority, it) := next_account_info it in
   let! '(_token_prog, it) := next_account_info it in
   fail_if (negb (ia_is_signer authority)) MissingRequiredSignature ;;
   let! pool := load_pool pool_account in
   fail_if (negb (po_is_initialized pool)) (into NotInitialized) ;;
   let '(reserve_in, reserve_out) :=
     match swap_direction with
     | AtoB => (po_token_a_reserve pool, po_token_b_reserve pool)
     | BtoA => (po_token_b_reserve pool, po_token_a_reserve pool)
     end in
   let! '(amount_out, _total_fee) :=
     lift (calculate_swap_output amount_in reserve_in reserve_out (po_fee_numerator pool) (po_fee_denominator pool)) in
   fail_if (amount_out <? minimum_amount_out) (into SlippageExceeded) ;;
   let! fee_scaled := lift (ok_or (u128_checked_mul amount_in (po_protocol_fee_numerator pool)) (into MathOverflow)) in
   let! _protocol_fee := lift (ok_or (u128_checked_div fee_scaled (po_fee_denominator pool)) (into MathOverflow)) in
   let! pool := lift (trade swap_direction amount_in amount_out pool) in
   copy_into pool pool_account)%prog.

Definition process_instruction (instruction_data : list byte) : M unit :=
  (let! instruction := lift (ok_or (try_from_slice instruction_data) InvalidInstructionData) in
   match instruction with
   | InitializePool fee_numerator fee_denominator protocol_fee_numerator =>
       process_initialize_pool fee_numerator fee_denominator protocol_fee_numerator
   | AddLiquidity amount_a amount_b min_lp_tokens => process_add_liquidity amount_a amount_b min_lp_tokens
   | RemoveLiquidity lp_amount min_amount_a min_amount_b => process_remove_liquidity lp_amount min_amount_a min_amount_b
   | Swap amount_in minimum_amount_out swap_direction => process_swap amount_in minimum_amount_out swap_direction
   end)%prog.
End SolSwap.
