(* ===== verification/SolSwapProofs.v ===== *)
(** * SolSwapProofs: the arithmetic and the pool of the market maker *)

From Stdlib Require Import Strings.Byte.
From S2P Require Import Prelude Borsh Accounts System Invoke Execution Records History SolSwap.
Open Scope Z_scope.

(** ** The integer square root *)

Lemma newton_lower v x : 0 < x -> 0 <= v -> Z.sqrt v <= (x + v / x) / 2.
Proof.
  intros Hx Hv. set (r := Z.sqrt v). pose proof (Z.sqrt_spec v Hv) as [Hs _]. fold r in Hs.
  apply Z.div_le_lower_bound; [lia|]. cut (2 * r - x <= v / x); [lia|].
  apply Z.div_le_lower_bound; [done|]. pose proof (Z.square_nonneg (r - x)). nia.
Qed.

(** The distance to the root is halved. *)
Lemma newton_closer v x : 0 <= v -> Z.sqrt v < x -> (x + v / x) / 2 - Z.sqrt v <= (x - Z.sqrt v) / 2.
Proof.
  intros Hv Hx. pose proof (Z.sqrt_spec v Hv) as [_ Hs]. pose proof (Z.sqrt_nonneg v).
  remember (Z.sqrt v) as r eqn:Hr. clear Hr.
  assert (v / x <= r) by (assert (v / x < r + 1); [apply Z.div_lt_upper_bound; nia|lia]).
  assert ((x + v / x) / 2 <= (x - r) / 2 + r); [|lia].
  rewrite <- Z.div_add by lia. apply Z.div_le_mono; lia.
Qed.

Lemma newton_fits v x : 1 <= x <= v -> x + v / x <= v + 1.
Proof.
  intros Hx. pose proof (Z.mul_div_le v x ltac:(lia)). assert (1 <= v / x) by (apply Z.div_le_lower_bound; lia). nia.
Qed.

Lemma sqrt_loop_ok fuel v x :
  v < U128_MAX -> 1 <= x <= v -> Z.sqrt v <= x -> x - Z.sqrt v < 2 ^ Z.of_nat fuel ->
  sqrt_loop (S fuel) v x ((x + v / x) / 2) = Some (Z.sqrt v).
Proof.
  intros Hv. revert x. induction fuel as [|fuel IH]; intros x Hx Hs Hd;
    pose proof (newton_lower v x ltac:(lia) ltac:(lia)) as Hlow; cbn [sqrt_loop];
    (destruct (Z.ltb_spec ((x + v / x) / 2) x) as [Hlt|Hge]; [|f_equal]).
  - simpl in Hd. lia.
  - simpl in Hd. lia.
  - set (y := (x + v / x) / 2) in *. assert (1 <= Z.sqrt v) by (apply Z.sqrt_le_square; lia).
    rewrite (proj2 (Z.eqb_neq y 0)) by lia. rewrite as_u128_id.
    + apply IH; [lia|lia|]. pose proof (newton_closer v x ltac:(lia) ltac:(lia)) as Hc. fold y in Hc.
      rewrite Nat2Z.inj_succ, Z.pow_succ_r in Hd by lia.
      assert ((x - Z.sqrt v) / 2 < 2 ^ Z.of_nat fuel) by (apply Z.div_lt_upper_bound; lia). lia.
    + pose proof (newton_fits v y ltac:(lia)). assert (0 <= v / y) by (apply Z.div_pos; lia). ilia.
  - destruct (Z.eq_dec x (Z.sqrt v)) as [|Hne]; [done|].
    pose proof (newton_closer v x ltac:(lia) ltac:(lia)) as Hc.
    assert ((x - Z.sqrt v) / 2 < x - Z.sqrt v) by (apply Z.div_lt; lia). lia.
Qed.

Lemma sqrt_u64 v : is_u128 v -> is_u64 (Z.sqrt v).
Proof.
  intros Hv. pose proof (Z.sqrt_nonneg v). pose proof (Z.sqrt_spec v ltac:(ilia)). split; [done|].
  unfold in_range, U128_MAX, U64_MAX in *. nia.
Qed.

(** The iteration ends within its fuel, in the rounded down root; only the
    largest number has none. *)
Lemma sqrt_ok v : is_u128 v -> sqrt v = if v =? U128_MAX then None else Some (Z.sqrt v).
Proof.
  intros Hv. destruct (Z.eqb_spec v U128_MAX) as [->|Hne]; [by vm_compute|]. unfold sqrt.
  destruct (Z.eqb_spec v 0) as [->|Hn0]; [done|]. cbv zeta. rewrite as_u128_id by ilia.
  replace ((v + 1) / 2) with ((v + v / v) / 2) by (rewrite Z.div_same by lia; done).
  rewrite (sqrt_loop_ok 129); [by simpl; rewrite as_u64_id by (by apply sqrt_u64)|ilia|ilia| |].
  - apply Z.sqrt_le_lin. ilia.
  - pose proof (Z.sqrt_nonneg v). unfold in_range, U128_MAX in Hv. simpl. lia.
Qed.

(** ** Swaps *)

Lemma product_u128 a b : is_u64 a -> is_u64 b -> is_u128 (a * b).
Proof. unfold_ints. nia. Qed.

(** What a swap puts out. *)
Definition swap_out (i ri ro fn fd : Z) : Z := i * (fd - fn) * ro / (ri * fd + i * (fd - fn)).

Section SwapOut.
Context (i ri ro fn fd : Z) (Hi : 0 < i) (Hri : 0 < ri) (Hro : 0 < ro) (Hfn : 0 <= fn <= fd) (Hfd : 0 < fd).
Let out := swap_out i ri ro fn fd.

Lemma swap_out_bounds : 0 <= out < ro.
Proof.
  unfold out, swap_out. split; [apply Z.div_pos; nia|]. apply Z.div_lt_upper_bound; nia.
Qed.

Lemma swap_out_exact :
  out * (ri * fd + i * (fd - fn)) <= i * (fd - fn) * ro < (out + 1) * (ri * fd + i * (fd - fn)).
Proof.
  unfold out, swap_out. set (n := i * (fd - fn) * ro). set (d := ri * fd + i * (fd - fn)).
  assert (0 < d) by (unfold d; nia). pose proof (Z.div_mod n d ltac:(lia)). pose proof (Z.mod_pos_bound n d ltac:(lia)). nia.
Qed.

(** The product of the reserves does not fall. *)
Lemma swap_out_product : out * (ri + i) <= i * ro.
Proof.
  destruct swap_out_exact as [H _]. destruct swap_out_bounds as [H0 _]. set (g := fd - fn) in *.
  destruct (Z.eq_dec g 0) as [Hg|Hg].
  - assert (out = 0) as ->; [|nia]. unfold out, swap_out. fold g. rewrite Hg, Z.mul_0_r, Z.mul_0_l. apply Z.div_0_l. nia.
  - assert (0 < g <= fd) by lia. apply (Z.mul_le_mono_pos_l _ _ g); [lia|].
    assert (out * (ri * g) <= out * (ri * fd)) by nia. nia.
Qed.
End SwapOut.

Lemma swap_output_ok i ri ro fn fd o f :
  is_u64 i -> is_u64 ri -> is_u64 ro -> is_u64 fn -> is_u64 fd ->
  calculate_swap_output i ri ro fn fd = Ok (o, f) <->
  0 < i /\ 0 < ri /\ 0 < ro /\ fn <= fd /\ 0 < fd /\ i * (fd - fn) * ro <= U128_MAX /\
  ri * fd + i * (fd - fn) <= U128_MAX /\ o = swap_out i ri ro fn fd /\ f = i * fn / fd.
Proof.
  intros Hi Hri Hro Hfn Hfd. unfold calculate_swap_output, u128_checked_div. split.
  - intros H. rinv. bool_to_prop. repeat case_match; simplify_eq; bool_to_prop.
    assert (0 < i /\ 0 < ri /\ 0 < ro /\ 0 < fd) as (?&?&?&?) by ilia.
    assert (fn <= fd) by ilia. split_and!; try done; try ilia.
    + rewrite as_u64_id; [done|]. pose proof (swap_out_bounds i ri ro fn fd). unfold swap_out in *. ilia.
    + rewrite as_u64_id; [done|]. pose proof (mul_div_le i fn fd). ilia.
  - intros (? & ? & ? & ? & ? & Hn & Hd & -> & ->).
    pose proof (product_u128 i (fd - fn) Hi ltac:(ilia)). pose proof (product_u128 ri fd Hri Hfd).
    pose proof (product_u128 i fn Hi Hfn).
    rewrite (proj2 (Z.eqb_neq i 0)), (proj2 (Z.eqb_neq ri 0)), (proj2 (Z.eqb_neq ro 0)) by lia. simpl.
    rewrite checked_in by ilia. simpl. rewrite checked_in by done. simpl.
    rewrite checked_in by (unfold in_range in *; nia). simpl. rewrite checked_in by done. simpl.
    rewrite checked_in by ilia. simpl. rewrite (proj2 (Z.eqb_neq (ri * fd + i * (fd - fn)) 0)) by nia. simpl.
    rewrite checked_in by done. simpl. rewrite (proj2 (Z.eqb_neq fd 0)) by lia. simpl. rewrite !as_u64_id; [done| |].
    + pose proof (mul_div_le i fn fd). ilia.
    + pose proof (swap_out_bounds i ri ro fn fd). unfold swap_out in *. ilia.
Qed.

(** ** The invariant of a pool *)

Abbreviation ra := po_token_a_reserve.
Abbreviation rb := po_token_b_reserve.
Abbreviation sup := po_lp_supply.

Record amm_inv (p : PoolState) : Prop := {
  ai_initialized : po_is_initialized p = true;
  ai_backed : sup p * sup p <= ra p * rb p;
  ai_empty : sup p = 0 -> ra p = 0 /\ rb p = 0;
  ai_fees : 0 <= po_protocol_fee_numerator p <= po_fee_numerator p /\ po_fee_numerator p <= po_fee_denominator p /\
    0 < po_fee_denominator p;
}.

(** The reserves a liquidity token stands for have not become less: the product
    of the reserves over the square of the supply. *)
Definition not_diluted (p p' : PoolState) : Prop := ra p * rb p * (sup p' * sup p') <= ra p' * rb p' * (sup p * sup p).

(** The terms of a pool. *)
Definition same_terms (p p' : PoolState) : Prop :=
  p' = with_pool (ra p') (rb p') (sup p') (po_cumulative_volume_a p') (po_cumulative_volume_b p') p.

(** Shares of both reserves scale with the supply. *)
Lemma scale_backed S S' A B A' B' :
  0 < S -> 0 <= S' -> 0 < A -> 0 < B -> 0 <= A' -> 0 <= B' -> S * S <= A * B -> S' * A <= S * A' -> S' * B <= S * B' ->
  A * B * (S' * S') <= A' * B' * (S * S) /\ S' * S' <= A' * B'.
Proof.
  intros HS HS' HA HB HA' HB' Hk Ha Hb.
  assert (Hd : A * B * (S' * S') <= A' * B' * (S * S)).
  { replace (A * B * (S' * S')) with ((S' * A) * (S' * B)) by ring.
    replace (A' * B' * (S * S)) with ((S * A') * (S * B')) by ring. apply Z.mul_le_mono_nonneg; nia. }
  split; [done|]. apply (Z.mul_le_mono_pos_l _ _ (A * B)); [nia|].
  etransitivity; [exact Hd|]. rewrite (Z.mul_comm (A * B)). apply Z.mul_le_mono_nonneg_l; nia.
Qed.

Section Pool.
Context (p : PoolState) (Wp : well_typed p) (Hp : amm_inv p).

Lemma pool_ranges : is_u64 (ra p) /\ is_u64 (rb p) /\ is_u64 (sup p).
Proof. unfold well_typed, PoolState_well_typed in Wp. tauto. Qed.

Lemma pool_positive : 0 < sup p -> 0 < ra p /\ 0 < rb p.
Proof. intros Hs. destruct pool_ranges as (Ha & Hb & _). pose proof (ai_backed p Hp). unfold in_range in *. nia. Qed.

(** *** Deposits *)

Definition lp_minted (a b : Z) : Z :=
  if sup p =? 0 then Z.sqrt (a * b) else Z.min (a * sup p / ra p) (b * sup p / rb p).

Lemma lp_minted_share a b : 0 < sup p -> 0 <= a -> 0 <= b ->
  0 <= lp_minted a b /\ lp_minted a b * ra p <= a * sup p /\ lp_minted a b * rb p <= b * sup p.
Proof.
  intros Hs Ha Hb. destruct (pool_positive Hs). unfold lp_minted. rewrite (proj2 (Z.eqb_neq (sup p) 0)) by lia.
  pose proof (Z.mul_div_le (a * sup p) (ra p)). pose proof (Z.mul_div_le (b * sup p) (rb p)).
  assert (0 <= a * sup p / ra p) by (apply Z.div_pos; nia). assert (0 <= b * sup p / rb p) by (apply Z.div_pos; nia). nia.
Qed.

(** The number of new tokens fits its type, since the supply is backed. *)
Lemma lp_minted_u64 a b : is_u64 a -> is_u64 b -> is_u64 (lp_minted a b).
Proof.
  intros Ha Hb. destruct pool_ranges as (_ & _ & Hs). pose proof (product_u128 a b Ha Hb) as Hab.
  destruct (Z.eq_dec (sup p) 0) as [H0|Hne].
  - unfold lp_minted. rewrite H0. by apply sqrt_u64.
  - assert (0 < sup p) by ilia. destruct (pool_positive ltac:(done)). pose proof (ai_backed p Hp) as Hk.
    destruct (lp_minted_share a b) as (Hl0 & Hla & Hlb); [done|ilia|ilia|]. set (l := lp_minted a b) in *. clearbody l.
    assert (l * l <= a * b).
    { apply (Z.mul_le_mono_pos_l _ _ (ra p * rb p)); [nia|].
      replace (ra p * rb p * (l * l)) with ((l * ra p) * (l * rb p)) by ring.
      transitivity ((a * sup p) * (b * sup p)); [apply Z.mul_le_mono_nonneg; nia|].
      replace (a * sup p * (b * sup p)) with (a * b * (sup p * sup p)) by ring. rewrite (Z.mul_comm (ra p * rb p)).
      apply Z.mul_le_mono_nonneg_l; [ilia|done]. }
    unfold in_range, U64_MAX, U128_MAX in *. nia.
Qed.

Lemma lp_tokens_ok a b l : is_u64 a -> is_u64 b ->
  calculate_lp_tokens a b (ra p) (rb p) (sup p) = Ok l <-> 0 < a /\ 0 < b /\ l = lp_minted a b /\ 0 < l.
Proof.
  intros Ha Hb. destruct pool_ranges as (Hra & Hrb & Hs). pose proof (lp_minted_u64 a b Ha Hb) as Hl.
  pose proof (product_u128 a b Ha Hb) as Hab. pose proof (product_u128 a _ Ha Hs). pose proof (product_u128 b _ Hb Hs).
  unfold calculate_lp_tokens.
  destruct (Z.eqb_spec a 0); [split; [done|lia]|]. destruct (Z.eqb_spec b 0); [split; [done|lia]|]. simpl.
  assert (0 < a /\ 0 < b) as [? ?] by ilia. unfold lp_minted in *. destruct (Z.eqb_spec (sup p) 0) as [Hs0|Hne].
  - rewrite checked_in by done. simpl. rewrite sqrt_ok by done.
    rewrite (proj2 (Z.eqb_neq (a * b) U128_MAX)) by (unfold in_range, U64_MAX, U128_MAX in *; nia). simpl.
    destruct (Z.eqb_spec (Z.sqrt (a * b)) 0); simpl; split; try naive_solver lia.
    intros [= <-]. ilia.
  - destruct (pool_positive ltac:(ilia)). unfold u128_checked_div.
    rewrite checked_in by done. simpl. rewrite (proj2 (Z.eqb_neq (ra p) 0)) by lia. simpl.
    rewrite checked_in by done. simpl. rewrite (proj2 (Z.eqb_neq (rb p) 0)) by lia. simpl. rewrite as_u64_id by done.
    destruct (Z.eqb_spec (Z.min (a * sup p / ra p) (b * sup p / rb p)) 0); simpl; split; try naive_solver lia.
    intros [= <-]. ilia.
Qed.

(** The pool after a deposit. *)
Lemma deposit_step a b :
  is_u64 a -> is_u64 b -> 0 < a -> 0 < b ->
  let p' := with_pool (ra p + a) (rb p + b) (sup p + lp_minted a b) (po_cumulative_volume_a p) (po_cumulative_volume_b p) p in
  0 < lp_minted a b -> amm_inv p' /\ not_diluted p p'.
Proof.
  intros Ha Hb Ha0 Hb0 p' Hl. destruct pool_ranges as (Hra & Hrb & Hs). destruct (Z.eq_dec (sup p) 0) as [H0|Hne].
  - destruct (ai_empty p Hp H0) as [Ea Eb]. unfold not_diluted, p'. simpl. rewrite H0, Ea, Eb. split; [|simpl; nia].
    split; simpl; [apply Hp| |rewrite ?H0; lia|apply Hp]. rewrite ?H0, ?Ea, ?Eb. unfold lp_minted. rewrite H0. simpl.
    apply Z.sqrt_spec. nia.
  - assert (0 < sup p) by ilia. destruct (pool_positive ltac:(done)). destruct (lp_minted_share a b) as (? & ? & ?); [done|lia|lia|].
    destruct (scale_backed (sup p) (sup p + lp_minted a b) (ra p) (rb p) (ra p + a) (rb p + b)) as [Hd Hk];
      try lia; [apply Hp|split; [|exact Hd]]. split; simpl; [apply Hp|exact Hk|lia|apply Hp].
Qed.

(** *** Withdrawals *)

Lemma withdrawal_ok l a b : is_u64 l -> l <= sup p ->
  calculate_withdrawal l (sup p) (ra p) (rb p) = Ok (a, b) <->
  0 < l /\ a = l * ra p / sup p /\ b = l * rb p / sup p.
Proof.
  intros Hl Hle. destruct pool_ranges as (Hra & Hrb & Hs). pose proof (product_u128 l _ Hl Hra). pose proof (product_u128 l _ Hl Hrb).
  unfold calculate_withdrawal, u128_checked_div. destruct (Z.eqb_spec l 0); simpl; [split; [done|lia]|].
  rewrite !checked_in by done. simpl. rewrite !(proj2 (Z.eqb_neq (sup p) 0)) by ilia. simpl.
  assert (forall r, is_u64 r -> is_u64 (l * r / sup p)) as Hfit.
  { intros r Hr. rewrite Z.mul_comm. pose proof (mul_div_le r l (sup p)). ilia. }
  rewrite !as_u64_id by auto. split; [intros [= <- <-]; split; [ilia|done]|by intros (_ & -> & ->)].
Qed.

Lemma withdraw_step l :
  0 < l <= sup p ->
  let a := l * ra p / sup p in let b := l * rb p / sup p in
  let p' := with_pool (ra p - a) (rb p - b) (sup p - l) (po_cumulative_volume_a p) (po_cumulative_volume_b p) p in
  0 <= a <= ra p /\ 0 <= b <= rb p /\ amm_inv p' /\ not_diluted p p'.
Proof.
  intros Hl a b p'. destruct pool_ranges as (Hra & Hrb & Hs). destruct (pool_positive ltac:(lia)).
  assert (Ha : 0 <= a <= ra p) by (unfold a; rewrite Z.mul_comm; apply mul_div_le; ilia).
  assert (Hb : 0 <= b <= rb p) by (unfold b; rewrite Z.mul_comm; apply mul_div_le; ilia).
  assert (a * sup p <= l * ra p) by (unfold a; rewrite Z.mul_comm; apply Z.mul_div_le; lia).
  assert (b * sup p <= l * rb p) by (unfold b; rewrite Z.mul_comm; apply Z.mul_div_le; lia).
  destruct (scale_backed (sup p) (sup p - l) (ra p) (rb p) (ra p - a) (rb p - b)) as [Hd Hk];
    try lia; [apply Hp|]. split_and!; try lia; [|exact Hd]. split; simpl; [apply Hp|exact Hk| |apply Hp].
  intros Hz. assert (l = sup p) as -> by lia. unfold a, b. rewrite !(Z.mul_comm (sup p)), !Z.div_mul by lia. lia.
Qed.
End Pool.

(** ** Swaps of a pool *)

Definition reserve_in (dir : SwapDirection) (p : PoolState) : Z := match dir with AtoB => ra p | BtoA => rb p end.
Definition reserve_out (dir : SwapDirection) (p : PoolState) : Z := match dir with AtoB => rb p | BtoA => ra p end.
Definition volume_in (dir : SwapDirection) (p : PoolState) : Z :=
  match dir with AtoB => po_cumulative_volume_a p | BtoA => po_cumulative_volume_b p end.
Definition output (dir : SwapDirection) (i : Z) (p : PoolState) : Z :=
  swap_out i (reserve_in dir p) (reserve_out dir p) (po_fee_numerator p) (po_fee_denominator p).
Definition traded (dir : SwapDirection) (i o : Z) (p : PoolState) : PoolState :=
  match dir with
  | AtoB => with_pool (ra p + i) (rb p - o) (sup p) (po_cumulative_volume_a p + i) (po_cumulative_volume_b p) p
  | BtoA => with_pool (ra p - o) (rb p + i) (sup p) (po_cumulative_volume_a p) (po_cumulative_volume_b p + i) p
  end.

Lemma trade_ok dir i o p p' :
  trade dir i o p = Ok p' <-> is_u64 (reserve_in dir p + i) /\ is_u64 (reserve_out dir p - o) /\ is_u128 (volume_in dir p + i) /\
    p' = traded dir i o p.
Proof.
  unfold trade, reserve_in, reserve_out, volume_in, traded. destruct dir; split.
  1,3: intros H; rinv; by split_and!.
  all: intros (? & ? & ? & ->); repeat (rewrite checked_in by done; simpl); done.
Qed.

Lemma swap_step dir i p :
  well_typed p -> amm_inv p -> 0 < i -> 0 < reserve_in dir p -> 0 < reserve_out dir p ->
  let p' := traded dir i (output dir i p) p in amm_inv p' /\ not_diluted p p' /\ ra p * rb p <= ra p' * rb p'.
Proof.
  intros Wp Hp Hi Hri Hro p'. destruct (ai_fees p Hp) as (? & ? & ?). destruct (pool_ranges p Wp) as (? & ? & ?).
  pose proof (swap_out_product i _ _ (po_fee_numerator p) (po_fee_denominator p) Hi Hri Hro ltac:(lia) ltac:(done)) as Hk.
  pose proof (swap_out_bounds i _ _ (po_fee_numerator p) (po_fee_denominator p) Hi Hri Hro ltac:(lia) ltac:(done)) as Ho.
  change (swap_out _ _ _ _ _) with (output dir i p) in Hk, Ho. pose proof (ai_backed p Hp) as Hb.
  assert (Hprod : ra p * rb p <= ra p' * rb p').
  { unfold p', traded, reserve_in, reserve_out in *. destruct dir; simpl; nia. }
  assert (sup p' = sup p) as Hs by (unfold p'; by destruct dir).
  split_and!; [|unfold not_diluted; rewrite Hs; apply Z.mul_le_mono_nonneg_r; nia|done].
  split.
  - unfold p'. destruct dir; apply Hp.
  - rewrite Hs. lia.
  - rewrite Hs. intros Hz. destruct (ai_empty p Hp Hz) as [Ea Eb]. unfold reserve_in in Hri. destruct dir; lia.
  - unfold p'. destruct dir; apply Hp.
Qed.

(** ** Back and forth *)

Lemma deposit_withdraw p a b l a' b' :
  well_typed p -> amm_inv p -> is_u64 a -> is_u64 b ->
  is_u64 (ra p + a) -> is_u64 (rb p + b) -> is_u64 (sup p + l) ->
  calculate_lp_tokens a b (ra p) (rb p) (sup p) = Ok l ->
  calculate_withdrawal l (sup p + l) (ra p + a) (rb p + b) = Ok (a', b') -> a' <= a /\ b' <= b.
Proof.
  intros Wp Hp Ha Hb Hra Hrb Hs Hl Hw. apply lp_tokens_ok in Hl as (? & ? & -> & ?); [|done..].
  destruct (pool_ranges p Wp) as (? & ? & ?). set (l := lp_minted p a b) in *.
  set (p' := with_pool (ra p + a) (rb p + b) (sup p + l) (po_cumulative_volume_a p) (po_cumulative_volume_b p) p).
  assert (Wp' : well_typed p') by (unfold well_typed, PoolState_well_typed in *; simpl; tauto).
  apply (withdrawal_ok p' Wp' l) in Hw as (_ & -> & ->); [|by apply lp_minted_u64|simpl; ilia]. simpl.
  assert (l * ra p <= a * sup p /\ l * rb p <= b * sup p) as [? ?].
  { destruct (Z.eq_dec (sup p) 0) as [Hz|]; [destruct (ai_empty p Hp Hz) as [-> ->]; nia|].
    destruct (lp_minted_share p Wp Hp a b) as (_ & ? & ?); [ilia|lia|lia|done]. }
  split; apply Z.div_le_upper_bound; unfold in_range in *; nia.
Qed.

Lemma swap_back p dir i o f i' f' :
  well_typed p -> is_u64 i -> is_u64 (reserve_in dir p + i) ->
  calculate_swap_output i (reserve_in dir p) (reserve_out dir p) (po_fee_numerator p) (po_fee_denominator p) = Ok (o, f) ->
  calculate_swap_output o (reserve_out dir p - o) (reserve_in dir p + i) (po_fee_numerator p) (po_fee_denominator p) = Ok (i', f') ->
  i' <= i.
Proof.
  intros Wp Hi Hri H1 H2.
  assert (is_u64 (po_fee_numerator p) /\ is_u64 (po_fee_denominator p)) as [? ?] by (unfold well_typed, PoolState_well_typed in Wp; tauto).
  assert (is_u64 (reserve_in dir p) /\ is_u64 (reserve_out dir p)) as [? ?]
    by (destruct (pool_ranges p Wp) as (? & ? & _); by destruct dir).
  apply swap_output_ok in H1 as (? & ? & ? & ? & ? & _ & _ & -> & _); [|done..].
  set (ri := reserve_in dir p) in *. set (ro := reserve_out dir p) in *. set (fn := po_fee_numerator p) in *.
  set (fd := po_fee_denominator p) in *. pose proof (swap_out_bounds i ri ro fn fd ltac:(lia) ltac:(lia) ltac:(lia) ltac:(ilia) ltac:(lia)).
  pose proof (swap_out_product i ri ro fn fd ltac:(lia) ltac:(lia) ltac:(lia) ltac:(ilia) ltac:(lia)) as Hk.
  set (out := swap_out i ri ro fn fd) in *.
  apply swap_output_ok in H2 as (? & ? & ? & _ & _ & _ & _ & -> & _); [|ilia|ilia|done|done|done].
  pose proof (swap_out_product out (ro - out) (ri + i) fn fd ltac:(lia) ltac:(lia) ltac:(lia) ltac:(ilia) ltac:(lia)). nia.
Qed.

(** ** The account of a pool *)

Section Accounts.
Context {BP : Borsh PoolState} {BI : Borsh SwapInstruction} {LP : BorshLaws PoolState} {LI : BorshLaws SwapInstruction}
  {SP : BorshSized PoolState PoolState_LEN}.

(** A pool at the front of an account, which may be longer. *)
Definition pool_at (m : gmap Pubkey Account) (k : Pubkey) (p : PoolState) : Prop :=
  PoolState_LEN <= zlen (acc_data (get_acc m k)) /\
  try_from_slice (take (Z.to_nat PoolState_LEN) (acc_data (get_acc m k))) = Some p.

Lemma pool_at_well_typed m k p : pool_at m k p -> well_typed p.
Proof. by intros [_ [H _]%try_from_slice_some]. Qed.
Lemma pool_at_inj m k p q : pool_at m k p -> pool_at m k q -> p = q.
Proof. unfold pool_at. naive_solver. Qed.
Lemma pool_at_data m m' k p : acc_data (get_acc m' k) = acc_data (get_acc m k) -> pool_at m k p -> pool_at m' k p.
Proof. unfold pool_at. by intros ->. Qed.

Lemma load_pool_ok ia s p s' : load_pool ia s = Ok (p, s') <-> pool_at (mem s) (ia_key ia) p /\ s' = s.
Proof.
  unfold load_pool, pool_at. split.
  - intros H. pinv. rinv. bool_to_prop. by split_and!.
  - intros ([Hl Hd] & ->). prun; [by pcheck|by rewrite Hd].
Qed.

Lemma pool_at_stored m k p :
  PoolState_LEN <= zlen (acc_data (get_acc m k)) -> well_typed p -> pool_at (stored p k m) k p.
Proof.
  intros Hl Wp. pose proof (borsh_sized p Wp) as Hz. unfold pool_at. rewrite stored_zlen by lia. split; [done|].
  rewrite stored_data. unfold overwrite. rewrite take_app_le by (unfold zlen in Hz; lia).
  rewrite take_ge by (unfold zlen in Hz; lia). by apply try_from_slice_ser.
Qed.
End Accounts.

(** ** Instructions *)

Section Instructions.
Context {BP : Borsh PoolState} {BI : Borsh SwapInstruction} {LP : BorshLaws PoolState} {LI : BorshLaws SwapInstruction}
  {SP : BorshSized PoolState PoolState_LEN}.
Context (cx : Ctx).

Definition is_initialization (i : SwapInstruction) : Prop := match i with InitializePool _ _ _ => True | _ => False end.

(** What the instructions do to a pool. *)
Inductive amm_step (p : PoolState) : SwapInstruction -> PoolState -> Prop :=
| step_deposit a b l :
    0 < a -> 0 < b -> l <= lp_minted p a b -> 0 < lp_minted p a b ->
    amm_step p (AddLiquidity a b l) (with_pool (ra p + a) (rb p + b) (sup p + lp_minted p a b) (po_cumulative_volume_a p)
      (po_cumulative_volume_b p) p)
| step_withdraw l a b :
    0 < l <= sup p -> a <= l * ra p / sup p -> b <= l * rb p / sup p ->
    amm_step p (RemoveLiquidity l a b) (with_pool (ra p - l * ra p / sup p) (rb p - l * rb p / sup p) (sup p - l)
      (po_cumulative_volume_a p) (po_cumulative_volume_b p) p)
| step_swap dir i o :
    0 < i -> 0 < reserve_in dir p -> 0 < reserve_out dir p -> o <= output dir i p ->
    amm_step p (Swap i o dir) (traded dir i (output dir i p) p).

Lemma amm_step_inv p i p' : well_typed p -> well_typed i -> amm_inv p -> amm_step p i p' -> amm_inv p' /\ not_diluted p p'.
Proof.
  intros Wp Wi Hp Hst. destruct Hst.
  - destruct Wi as (? & ? & _). by apply deposit_step.
  - by apply withdraw_step.
  - destruct (swap_step dir i p) as (? & ? & _); done.
Qed.

Lemma with_pool_well_typed a b l va vb p :
  well_typed p -> is_u64 a -> is_u64 b -> is_u64 l -> is_u128 va -> is_u128 vb -> well_typed (with_pool a b l va vb p).
Proof. unfold well_typed, PoolState_well_typed. simpl. tauto. Qed.

Lemma pool_volumes p : well_typed p -> is_u128 (po_cumulative_volume_a p) /\ is_u128 (po_cumulative_volume_b p).
Proof. unfold well_typed, PoolState_well_typed. tauto. Qed.
Lemma pool_fees p : well_typed p -> is_u64 (po_fee_numerator p) /\ is_u64 (po_fee_denominator p).
Proof. unfold well_typed, PoolState_well_typed. tauto. Qed.

(** The effect of a handler on the pool that is its first account. *)
Definition pool_effect (i : SwapInstruction) (s s' : PState) : Prop :=
  exists k p p', ia_key <$> cx_accounts cx !! 0%nat = Some k /\ pool_at (mem s) k p /\
    s' = mkPState (stored p' k (mem s)) (rt s) /\ well_typed p' /\ po_is_initialized p = true /\
    (amm_inv p -> amm_step p i p').

Lemma add_liquidity_step a b l s s' :
  well_typed (AddLiquidity a b l) -> process_add_liquidity cx a b l s = Ok (tt, s') -> pool_effect (AddLiquidity a b l) s s'.
Proof.
  intros (Ha & Hb & _) H. unfold process_add_liquidity in H. pinv. bool_to_prop.
  hyp (load_pool _ _ = _) as Hlo. apply load_pool_ok in Hlo as [Hp ->]. apply pool_at_well_typed in Hp as Wp.
  hyp (cx_accounts cx = _) as Hacc. hyp (calculate_lp_tokens _ _ _ _ _ = _) as Hc. destruct (pool_volumes _ Wp).
  eexists _, _, _. rewrite Hacc. split_and!; [done|exact Hp|done|by apply with_pool_well_typed|done|].
  intros Hi. apply lp_tokens_ok in Hc as (? & ? & -> & ?); [|done..]. by apply step_deposit.
Qed.

Lemma remove_liquidity_step l a b s s' :
  well_typed (RemoveLiquidity l a b) -> process_remove_liquidity cx l a b s = Ok (tt, s') -> pool_effect (RemoveLiquidity l a b) s s'.
Proof.
  intros (Hl & _ & _) H. unfold process_remove_liquidity in H. pinv. bool_to_prop.
  hyp (load_pool _ _ = _) as Hlo. apply load_pool_ok in Hlo as [Hp ->]. apply pool_at_well_typed in Hp as Wp.
  hyp (cx_accounts cx = _) as Hacc. hyp (calculate_withdrawal _ _ _ _ = _) as Hc. destruct (pool_volumes _ Wp).
  eexists _, _, _. rewrite Hacc. split_and!; [done|exact Hp|done|by apply with_pool_well_typed|done|].
  intros Hi. apply withdrawal_ok in Hc as (? & -> & ->); [|done..]. by apply step_withdraw.
Qed.

(** When a swap of [i] tokens for at least [o] goes through. *)
Definition swap_possible (dir : SwapDirection) (i o : Z) (p : PoolState) : Prop :=
  po_is_initialized p = true /\ 0 < i /\ 0 < reserve_in dir p /\ 0 < reserve_out dir p /\
  po_fee_numerator p <= po_fee_denominator p /\ 0 < po_fee_denominator p /\
  i * (po_fee_denominator p - po_fee_numerator p) * reserve_out dir p <= U128_MAX /\
  reserve_in dir p * po_fee_denominator p + i * (po_fee_denominator p - po_fee_numerator p) <= U128_MAX /\
  o <= output dir i p /\ is_u64 (reserve_in dir p + i) /\ is_u128 (volume_in dir p + i).

Lemma reserves_u64 dir p : well_typed p -> is_u64 (reserve_in dir p) /\ is_u64 (reserve_out dir p).
Proof. intros Wp. destruct (pool_ranges p Wp) as (? & ? & _). by destruct dir. Qed.

Lemma output_rest dir i p : well_typed p -> 0 < i -> 0 < reserve_in dir p -> 0 < reserve_out dir p ->
  po_fee_numerator p <= po_fee_denominator p -> 0 < po_fee_denominator p -> is_u64 (reserve_out dir p - output dir i p).
Proof.
  intros Wp ? ? ? ? ?. destruct (reserves_u64 dir p Wp). destruct (pool_fees p Wp).
  pose proof (swap_out_bounds i (reserve_in dir p) (reserve_out dir p) (po_fee_numerator p) (po_fee_denominator p)).
  unfold output. ilia.
Qed.

Lemma process_swap_ok i o dir s s' : is_u64 i ->
  process_swap cx i o dir s = Ok (tt, s') <->
  exists po vs vd us ud pd au tp rest p, cx_accounts cx = po :: vs :: vd :: us :: ud :: pd :: au :: tp :: rest /\
    ia_is_signer au = true /\ pool_at (mem s) (ia_key po) p /\ swap_possible dir i o p /\
    s' = mkPState (stored (traded dir i (output dir i p) p) (ia_key po) (mem s)) (rt s).
Proof.
  intros Hi. split.
  - intros H. unfold process_swap in H. pinv. bool_to_prop.
    hyp (load_pool _ _ = _) as Hlo. apply load_pool_ok in Hlo as [Hp ->]. apply pool_at_well_typed in Hp as Wp.
    hyp (cx_accounts cx = _) as Hacc. hyp (calculate_swap_output _ _ _ _ _ = _) as Hc.
    match type of Hp with pool_at _ _ ?x => rename x into p end.
    match type of Hc with calculate_swap_output _ ?x ?y _ _ = _ =>
      assert (x = reserve_in dir p /\ y = reserve_out dir p) as [-> ->] by (destruct dir; naive_solver) end.
    destruct (reserves_u64 dir p Wp), (pool_fees p Wp).
    apply swap_output_ok in Hc as (? & ? & ? & ? & ? & ? & ? & -> & _); [|done..].
    match goal with Ht : trade _ _ _ _ = _ |- _ => apply trade_ok in Ht as (? & ? & ? & ->) end.
    eexists _, _, _, _, _, _, _, _, _, p. by split_and!.
  - intros (po & vs & vd & us & ud & pd & au & tp & rest & p & Hacc & Hs & Hp & (? & ? & ? & ? & ? & ? & ? & ? & ? & ? & ?) & ->).
    apply pool_at_well_typed in Hp as Wp. destruct (reserves_u64 dir p Wp), (pool_fees p Wp).
    pose proof (output_rest dir i p Wp) as Hrest. pose proof (pool_volumes p Wp).
    unfold process_swap. rewrite Hacc. prun; [by rewrite Hs|].
    apply pbind_ok. eexists p, s. split; [by apply load_pool_ok|]. prun; [by rewrite H|].
    assert (match dir with AtoB => (ra p, rb p) | BtoA => (rb p, ra p) end = (reserve_in dir p, reserve_out dir p)) as ->
      by (by destruct dir).
    apply pbind_ok. eexists (output dir i p, i * po_fee_numerator p / po_fee_denominator p), s.
    split; [apply lift_ok; split; [by apply swap_output_ok|done]|]. prun.
    + by pcheck.
    + rewrite checked_in; [done|]. apply product_u128; [done|]. unfold well_typed, PoolState_well_typed in Wp. tauto.
    + unfold u128_checked_div. by rewrite (proj2 (Z.eqb_neq (po_fee_denominator p) 0)) by lia.
    + apply trade_ok. split_and!; auto.
    + apply copy_into_ok. split; [|done]. rewrite borsh_sized; [apply Hp|].
      unfold traded, reserve_in, reserve_out, volume_in in *. destruct (pool_ranges p Wp) as (? & ? & ?).
      destruct dir; apply with_pool_well_typed; naive_solver.
Qed.

Lemma swap_instruction_step i o dir s s' :
  well_typed (Swap i o dir) -> process_swap cx i o dir s = Ok (tt, s') -> pool_effect (Swap i o dir) s s'.
Proof.
  intros (Hi & _) (po & ? & ? & ? & ? & ? & ? & ? & ? & p & Hacc & _ & Hp & (? & ? & ? & ? & ? & ? & ? & ? & ? & ? & ?) & ->)%process_swap_ok;
    [|done]. apply pool_at_well_typed in Hp as Wp. pose proof (output_rest dir i p Wp) as Hrest.
  eexists _, p, _. rewrite Hacc. split_and!; [done|done|done| |done|by intros; apply step_swap].
  unfold traded, reserve_in, reserve_out, volume_in in *. destruct (pool_ranges p Wp) as (? & ? & ?). destruct (pool_volumes p Wp).
  destruct dir; apply with_pool_well_typed; naive_solver.
Qed.

Lemma amm_instruction_step data i s s' :
  try_from_slice data = Some i -> ~ is_initialization i -> process_instruction cx data s = Ok (tt, s') -> pool_effect i s s'.
Proof.
  intros Hde Hni H. apply try_from_slice_some in Hde as Hw. destruct Hw as [Wi _].
  unfold process_instruction in H. rewrite Hde in H. cbn [ok_or lift pbind] in H. destruct i.
  - by destruct Hni.
  - by apply add_liquidity_step.
  - by apply remove_liquidity_step.
  - by apply swap_instruction_step.
Qed.
End Instructions.

(** ** Histories of a pool *)

(** The first byte of an encoded pool is its first field. *)
Class PoolHead {BP : Borsh PoolState} : Prop :=
  pool_head p : well_typed p -> nth 0 (borsh_ser p) Byte.x00 = if po_is_initialized p then Byte.x01 else Byte.x00.

Section History.
Context {BP : Borsh PoolState} {BI : Borsh SwapInstruction}.

(** The runs of the program, on any pools. *)
Definition amm_run (s s' : PState) : Prop :=
  exists cx data, typed_inputs cx s /\ process_instruction cx data s = Ok (tt, s').

Context {LP : BorshLaws PoolState} {LI : BorshLaws SwapInstruction} {SP : BorshSized PoolState PoolState_LEN} {PH : PoolHead}.

Lemma initialize_effect cx fn fd pf s s' :
  typed_inputs cx s -> well_typed (InitializePool fn fd pf) -> process_initialize_pool cx fn fd pf s = Ok (tt, s') ->
  exists k p, ia_key <$> cx_accounts cx !! 0%nat = Some k /\ s' = mkPState (stored p k (mem s)) (rt s) /\
    pool_at (mem s') k p /\ amm_inv p /\ sup p = 0 /\
    forall q, pool_at (mem s) k q -> po_is_initialized q = false.
Proof.
  intros Hty (Hfn & Hfd & Hpf) H. unfold process_initialize_pool in H. pinv. bool_to_prop.
  hyp (cx_accounts cx = _) as Hacc. pose proof (ti_keys _ _ Hty) as Hk. rewrite Hacc, !Forall_cons in Hk.
  eexists _, _. rewrite Hacc. split_and!; [done|done| | |done|].
  - apply pool_at_stored; [done|]. assert (is_u8 0 /\ is_u64 0 /\ is_u128 0) by (split_and!; split; vm_compute; congruence).
    unfold well_typed, PoolState_well_typed. simpl. tauto.
  - split; simpl; try done; ilia.
  - intros q [Hl [Wq Hq]%try_from_slice_some]. pose proof (pool_head q Wq) as Hh. rewrite <- Hq in Hh.
    hyp (Z_of_byte _ = 0) as Hz. destruct (acc_data (get_acc (mem s) _)) as [|b t]; [by vm_compute in Hl|].
    change (Z.to_nat PoolState_LEN) with 210%nat in Hh. simpl in Hh, Hz. subst b. by destruct (po_is_initialized q).
Qed.

Lemma same_terms_refl p : same_terms p p.
Proof. by destruct p. Qed.
Lemma same_terms_trans p q r : same_terms p q -> same_terms q r -> same_terms p r.
Proof. unfold same_terms. intros Hq Hr. rewrite Hr at 1. by rewrite Hq. Qed.
Lemma amm_step_terms p i p' : amm_step p i p' -> same_terms p p'.
Proof. intros []; [done|done|]. by destruct dir. Qed.

(** One instruction writes one pool; if it is [k], its invariant and terms are kept. *)
Lemma amm_instruction_writes cx data s s' k p :
  typed_inputs cx s -> pool_at (mem s) k p -> amm_inv p -> process_instruction cx data s = Ok (tt, s') ->
  exists k' p', s' = mkPState (stored p' k' (mem s)) (rt s) /\
    (k' = k -> pool_at (mem s') k p' /\ amm_inv p' /\ same_terms p p').
Proof.
  intros Hty Hp Hi H. assert (exists i, try_from_slice data = Some i) as [i Hde].
  { unfold process_instruction in H. apply pbind_ok in H as (i & ? & Hd & _). apply lift_ok in Hd as [Hd _].
    apply ok_or_ok in Hd. by exists i. }
  assert (Wi : well_typed i) by (by apply try_from_slice_some in Hde as [? _]).
  assert (is_initialization i \/ ~ is_initialization i) as [Hin|Hni] by (destruct i; simpl; tauto).
  - destruct i; try done. unfold process_instruction in H. rewrite Hde in H. cbn [ok_or lift pbind] in H.
    destruct (initialize_effect _ _ _ _ _ _ Hty Wi H) as (k' & p' & _ & Hs & _ & _ & _ & Hold). exists k', p'. split; [done|].
    intros ->. apply Hold in Hp. by rewrite (ai_initialized p Hi) in Hp.
  - destruct (amm_instruction_step cx _ _ _ _ Hde Hni H) as (k' & q & p' & _ & Hq & -> & Wp' & _ & Hst).
    exists k', p'. split; [done|]. intros ->. assert (q = p) as -> by (by eapply pool_at_inj). specialize (Hst Hi).
    split_and!; [apply pool_at_stored; [apply Hp|done]| |by eapply amm_step_terms].
    eapply amm_step_inv; [by eapply pool_at_well_typed|done|done|exact Hst].
Qed.

Lemma amm_backed_for_ever k m m' p :
  history amm_run k m m' -> pool_at m k p -> amm_inv p -> exists p', pool_at m' k p' /\ amm_inv p' /\ same_terms p p'.
Proof.
  intros Hh Hp Hi. eapply (history_invariant _ _ (fun m => exists p', pool_at m k p' /\ amm_inv p' /\ same_terms p p')); [| |exact Hh|].
  - intros s s' (cx & data & Hty & Hrun) (q & Hq & Hqi & Ht).
    destruct (amm_instruction_writes _ _ _ _ _ _ Hty Hq Hqi Hrun) as (k' & q' & Hs & Hk).
    destruct (decide (k' = k)) as [->|Hne].
    + destruct (Hk eq_refl) as (? & ? & ?). exists q'. split_and!; [done|done|by eapply same_terms_trans].
    + exists q. split_and!; [|done|done]. rewrite Hs. eapply pool_at_data; [|exact Hq]. simpl. by rewrite stored_ne.
  - intros m1 m2 Hd (q & Hq & Hr). exists q. split; [|done]. by eapply pool_at_data.
  - exists p. split_and!; [done|done|apply same_terms_refl].
Qed.
End History.
