(* ===== verification/Base58Proofs.v ===== *)
(** * Base58Proofs: the base-58 encoder of the market maker's events

    The encoder of [src/defi/solswap/program/src/lib.rs] represents the number
    its input denotes, and different inputs have different encodings. *)

From Stdlib Require Import Strings.Byte.
From S2P Require Import Prelude Borsh Accounts Invoke Records SolSwap.
Open Scope Z_scope.

(** The number that digits denote, least significant first. *)
Fixpoint val58 (ds : list Z) : Z := match ds with [] => 0 | d :: ds => d + 58 * val58 ds end.
Abbreviation digits58 := (Forall (fun d => 0 <= d < 58)).
(** The number that bytes denote, most significant first. *)
Definition be_val (bs : list byte) : Z := le_val (rev bs).

Lemma val58_app a b : val58 (a ++ b) = val58 a + 58 ^ Z.of_nat (length a) * val58 b.
Proof.
  induction a as [|d a IH]; simpl length; [simpl; lia|]. rewrite Nat2Z.inj_succ, Z.pow_succ_r by lia. simpl. rewrite IH. ring.
Qed.
Lemma le_val_app a b : le_val (a ++ b) = le_val a + 256 ^ Z.of_nat (length a) * le_val b.
Proof.
  induction a as [|d a IH]; simpl length; [simpl; lia|]. rewrite Nat2Z.inj_succ, Z.pow_succ_r by lia. simpl. rewrite IH. ring.
Qed.
Lemma be_val_cons b bs : be_val (b :: bs) = 256 ^ Z.of_nat (length bs) * Z_of_byte b + be_val bs.
Proof. unfold be_val. simpl. rewrite le_val_app, length_rev. simpl. lia. Qed.
Lemma be_val_range bs : 0 <= be_val bs < 256 ^ Z.of_nat (length bs).
Proof. unfold be_val. pose proof (le_val_range (rev bs)) as H. by rewrite length_rev in H. Qed.

(** ** One byte more *)

(** The carry of the inner loop stays a byte, so that nothing overflows. *)
Lemma mul_add_ok ds : forall carry ds' c, digits58 ds -> 0 <= carry < 256 -> mul_add carry ds = (ds', c) ->
  digits58 ds' /\ 0 <= c < 256 /\ length ds' = length ds /\
  val58 ds' + 58 ^ Z.of_nat (length ds) * c = 256 * val58 ds + carry.
Proof.
  induction ds as [|d ds IH]; intros carry ds' c Hds Hc H; cbn [mul_add] in H.
  - injection H as <- <-. simpl. split_and!; try done; lia.
  - apply Forall_cons in Hds as [Hd Hds]. rewrite Z.shiftl_mul_pow2 in H by lia. change (2 ^ 8) with 256 in H.
    unfold as_u16 in H. rewrite (Z.mod_small (d * 256)), (Z.mod_small (carry + d * 256) (2 ^ 16)) in H by lia.
    destruct (mul_add ((carry + d * 256) / 58) ds) as [es e] eqn:Hm. injection H as <- <-.
    assert (Hc' : 0 <= (carry + d * 256) / 58 < 256).
    { split; [apply Z.div_pos; lia|apply Z.div_lt_upper_bound; lia]. }
    destruct (IH _ _ _ Hds Hc' Hm) as (? & ? & Hl & Hv). pose proof (Z.mod_pos_bound (carry + d * 256) 58).
    split_and!; [by apply Forall_cons; split; [lia|]|lia|lia|simpl; by rewrite Hl|].
    simpl length. rewrite Nat2Z.inj_succ, Z.pow_succ_r by lia. simpl.
    pose proof (Z.div_mod (carry + d * 256) 58 ltac:(lia)). lia.
Qed.

(** Two digits hold a byte. *)
Lemma push_carry_ok c : 0 <= c < 256 ->
  push_carry 3 c = if c =? 0 then [] else if c <? 58 then [c] else [c mod 58; c / 58].
Proof.
  intros Hc. cbn [push_carry]. destruct (Z.eqb_spec c 0) as [->|Hne]; [done|]. rewrite (proj2 (Z.ltb_lt 0 c)) by lia.
  destruct (Z.ltb_spec c 58) as [Hlt|Hge].
  - rewrite Z.mod_small, Z.div_small by lia. done.
  - assert (1 <= c / 58 < 58) by (split; [apply Z.div_le_lower_bound; lia|apply Z.div_lt_upper_bound; lia]).
    rewrite (proj2 (Z.ltb_lt 0 (c / 58))) by lia. rewrite (Z.mod_small (c / 58)), (Z.div_small (c / 58)) by lia. done.
Qed.

(** No superfluous digit in front. *)
Definition normal (ds : list Z) : Prop := ds = [0] \/ exists ds' d, ds = ds' ++ [d] /\ d <> 0.

Lemma push_carry_val c : 0 <= c < 256 -> digits58 (push_carry 3 c) /\ val58 (push_carry 3 c) = c /\
  (c <> 0 -> exists ds d, push_carry 3 c = ds ++ [d] /\ d <> 0).
Proof.
  intros Hc. rewrite push_carry_ok by done. pose proof (Z.div_mod c 58 ltac:(lia)). pose proof (Z.mod_pos_bound c 58 ltac:(lia)).
  destruct (Z.eqb_spec c 0); [split_and!; [done|simpl; lia|done]|]. destruct (Z.ltb_spec c 58).
  - split_and!; [repeat constructor; lia|cbn [val58]; lia|]. by exists [], c.
  - assert (1 <= c / 58 < 58) by (split; [apply Z.div_le_lower_bound; lia|apply Z.div_lt_upper_bound; lia]).
    split_and!; [repeat constructor; lia|cbn [val58]; lia|]. intros _. exists [c mod 58], (c / 58). split; [done|lia].
Qed.

Lemma mul_add_last ds d carry : digits58 (ds ++ [d]) -> d <> 0 -> 0 <= carry < 256 -> (mul_add carry (ds ++ [d])).2 <> 0.
Proof.
  revert carry. induction ds as [|e ds IH]; intros carry Hds Hd Hc; cbn [app mul_add] in *.
  - rewrite Forall_singleton in Hds. cbv beta in Hds. rewrite Z.shiftl_mul_pow2 by lia. change (2 ^ 8) with 256. unfold as_u16.
    rewrite (Z.mod_small (d * 256)), (Z.mod_small (carry + d * 256) (2 ^ 16)) by lia. simpl. assert (4 <= (carry + d * 256) / 58); [|lia].
    apply Z.div_le_lower_bound; lia.
  - apply Forall_cons in Hds as [He Hds]. rewrite Z.shiftl_mul_pow2 by lia. change (2 ^ 8) with 256. unfold as_u16.
    rewrite (Z.mod_small (e * 256)), (Z.mod_small (carry + e * 256) (2 ^ 16)) by lia.
    assert (Hc' : 0 <= (carry + e * 256) / 58 < 256) by (split; [apply Z.div_pos; lia|apply Z.div_lt_upper_bound; lia]).
    specialize (IH _ Hds Hd Hc'). by destruct (mul_add ((carry + e * 256) / 58) (ds ++ [d])).
Qed.

Lemma push_byte_ok ds b : digits58 ds -> normal ds ->
  digits58 (push_byte ds b) /\ normal (push_byte ds b) /\ val58 (push_byte ds b) = 256 * val58 ds + Z_of_byte b.
Proof.
  intros Hds Hn. pose proof (Z_of_byte_range b) as Hb. unfold push_byte.
  destruct (mul_add (Z_of_byte b) ds) as [es c] eqn:Hm. destruct (mul_add_ok _ _ _ _ Hds Hb Hm) as (He & Hc & Hl & Hv).
  destruct (push_carry_val c Hc) as (Hp & Hpv & Hpn). split_and!.
  - by apply Forall_app.
  - destruct (Z.eq_dec c 0) as [->|Hne].
    + destruct Hn as [->|(ds' & d & -> & Hd)].
      * destruct es as [|e [|]]; [done| |done]. simpl in Hv. rewrite Forall_singleton in He. cbv beta in He.
        destruct (Z.eq_dec e 0) as [->|]; [by left|right; by exists [], e].
      * exfalso. apply (mul_add_last ds' d (Z_of_byte b)); [done|done|done|by rewrite Hm].
    + destruct (Hpn Hne) as (ds' & d & Hpd & Hd). right. exists (es ++ ds'), d. rewrite Hpd. split; [by rewrite app_assoc|done].
  - rewrite val58_app, Hpv, Hl. lia.
Qed.

Lemma digits_ok bs ds : digits58 ds -> normal ds ->
  digits58 (fold_left push_byte bs ds) /\ normal (fold_left push_byte bs ds) /\
  val58 (fold_left push_byte bs ds) = 256 ^ Z.of_nat (length bs) * val58 ds + be_val bs.
Proof.
  revert ds. induction bs as [|b bs IH]; intros ds Hds Hn.
  - simpl. split_and!; try done. change (be_val []) with 0. lia.
  - destruct (push_byte_ok ds b Hds Hn) as (Hd & Hn' & Hv). destruct (IH _ Hd Hn') as (? & ? & Hv'). simpl fold_left. split_and!; try done.
    rewrite Hv', Hv, be_val_cons. simpl length. rewrite Nat2Z.inj_succ, Z.pow_succ_r by lia. ring.
Qed.

(** ** The characters *)

Definition bs58_index (c : byte) : Z := match position (Byte.eqb c) ALPHABET with Some n => Z.of_nat n | None => 58 end.

Lemma index_digit d : 0 <= d < 58 -> bs58_index (bs58_digit d) = d.
Proof.
  intros Hd. assert (Hall : forallb (fun n => bs58_index (bs58_digit (Z.of_nat n)) =? Z.of_nat n) (seq 0 58) = true)
    by (vm_compute; reflexivity).
  rewrite forallb_forall in Hall. specialize (Hall (Z.to_nat d)). rewrite Z2Nat.id in Hall by lia.
  apply Z.eqb_eq, Hall, in_seq. lia.
Qed.
Lemma digits_inj ds es : digits58 ds -> digits58 es -> bs58_digit <$> ds = bs58_digit <$> es -> ds = es.
Proof.
  intros Hd He H. apply (f_equal (fmap bs58_index)) in H. rewrite <- !list_fmap_compose in H.
  rewrite (Forall_fmap_ext_1 _ id ds), (Forall_fmap_ext_1 _ id es), !list_fmap_id in H; [done|..].
  - eapply Forall_impl; [exact He|]. intros d. apply index_digit.
  - eapply Forall_impl; [exact Hd|]. intros d. apply index_digit.
Qed.
Lemma digit_one d : 0 <= d < 58 -> bs58_digit d = Byte.x31 -> d = 0.
Proof. intros Hd H. rewrite <- (index_digit d Hd), H. by vm_compute. Qed.

(** ** Leading zeros *)

Lemma zeros_split bs : exists r, bs = replicate (count_zeros bs) Byte.x00 ++ r /\ match r with b :: _ => Z_of_byte b <> 0 | [] => True end.
Proof.
  induction bs as [|b bs (r & Hr & Hh)]; [by exists []|]. simpl. destruct (Z.eqb_spec (Z_of_byte b) 0) as [Hz|Hne].
  - exists r. split; [|done]. simpl. rewrite <- Hr. f_equal. rewrite <- (byte_of_Z_of_byte b), Hz. done.
  - by exists (b :: bs).
Qed.
Lemma be_val_zeros n r : be_val (replicate n Byte.x00 ++ r) = be_val r.
Proof. induction n; simpl; [done|]. by rewrite be_val_cons, Z.mul_0_r. Qed.
Lemma be_val_head b r : Z_of_byte b <> 0 -> 256 ^ Z.of_nat (length r) <= be_val (b :: r).
Proof. intros Hb. rewrite be_val_cons. pose proof (be_val_range r). pose proof (Z_of_byte_range b). nia. Qed.

(** Without leading zeros a number has one representation. *)
Lemma be_val_inj r r' :
  match r with b :: _ => Z_of_byte b <> 0 | [] => True end -> match r' with b :: _ => Z_of_byte b <> 0 | [] => True end ->
  be_val r = be_val r' -> r = r'.
Proof.
  intros Hr Hr' Hv. assert (Hl : length r = length r').
  { pose proof (be_val_range r) as Hu. pose proof (be_val_range r') as Hu'.
    assert (Hlow : forall l, match l with b :: _ => Z_of_byte b <> 0 | [] => True end -> (0 < length l)%nat ->
      256 ^ (Z.of_nat (length l) - 1) <= be_val l).
    { intros [|b l] Hb Hlen; [simpl in Hlen; lia|]. simpl length. rewrite Nat2Z.inj_succ.
      replace (Z.succ (Z.of_nat (length l)) - 1) with (Z.of_nat (length l)) by lia. by apply be_val_head. }
    destruct (lt_eq_lt_dec (length r) (length r')) as [[Hlt|]|Hlt]; [|done|]; exfalso.
    - pose proof (Hlow r' Hr' ltac:(lia)). pose proof (Z.pow_le_mono_r 256 (Z.of_nat (length r)) (Z.of_nat (length r') - 1)). lia.
    - pose proof (Hlow r Hr ltac:(lia)). pose proof (Z.pow_le_mono_r 256 (Z.of_nat (length r')) (Z.of_nat (length r) - 1)). lia. }
  rewrite <- (rev_involutive r), <- (rev_involutive r'), <- (le_bytes_val (rev r)), <- (le_bytes_val (rev r')).
  unfold be_val in Hv. by rewrite !length_rev, Hv, Hl.
Qed.

(** ** Encodings *)

Lemma digits_normal bs :
  let ds := fold_left push_byte bs [0] in digits58 ds /\ normal ds /\ val58 ds = be_val bs.
Proof.
  destruct (digits_ok bs [0]) as (? & ? & Hv); [repeat constructor; lia|by left|]. split_and!; [done|done|]. rewrite Hv. simpl. lia.
Qed.

Lemma val58_nonneg ds : digits58 ds -> 0 <= val58 ds.
Proof. induction 1; simpl; lia. Qed.
Lemma normal_zero ds : digits58 ds -> normal ds -> val58 ds = 0 -> ds = [0].
Proof.
  intros Hd [->|(es & d & -> & Hne)] Hv; [done|]. apply Forall_app in Hd as [He Hd]. rewrite Forall_singleton in Hd.
  rewrite val58_app in Hv. pose proof (val58_nonneg es He). simpl in Hv.
  assert (0 < 58 ^ Z.of_nat (length es)) by (apply Z.pow_pos_nonneg; lia). nia.
Qed.

Lemma encode_zeros bs : bs <> [] -> be_val bs = 0 ->
  bs = replicate (length bs) Byte.x00 /\ bs58_encode bs = replicate (S (length bs)) Byte.x31.
Proof.
  intros Hne Hv. destruct (digits_normal bs) as (Hd & Hn & Hval). rewrite Hv in Hval. apply normal_zero in Hval; [|done..].
  destruct (zeros_split bs) as ([|b r] & Hr & Hh).
  - rewrite app_nil_r in Hr. assert (Hl : count_zeros bs = length bs) by (apply (f_equal length) in Hr; by rewrite length_replicate in Hr).
    rewrite Hl in Hr. split; [done|]. unfold bs58_encode. rewrite Hval, Hl. destruct bs; [done|].
    change (bs58_digit <$> rev [0]) with (replicate 1 Byte.x31). rewrite <- replicate_add. f_equal. lia.
  - exfalso. rewrite Hr, be_val_zeros in Hv. pose proof (be_val_head b r Hh).
    assert (0 < 256 ^ Z.of_nat (length r)) by (apply Z.pow_pos_nonneg; lia). lia.
Qed.

Lemma encode_number bs : be_val bs <> 0 -> exists d ds, d <> 0 /\ digits58 (d :: ds) /\ val58 (rev (d :: ds)) = be_val bs /\
  bs58_encode bs = replicate (count_zeros bs) Byte.x31 ++ bs58_digit d :: (bs58_digit <$> ds).
Proof.
  intros Hv. destruct (digits_normal bs) as (Hd & Hn & Hval). destruct Hn as [Hz|(es & d & He & Hne)].
  - rewrite Hz in Hval. simpl in Hval. lia.
  - exists d, (rev es). rewrite He in Hd, Hval. apply Forall_app in Hd as [Hes Hd]. rewrite Forall_singleton in Hd. split_and!; [done| | |].
    + apply Forall_cons. split; [done|]. by apply List.Forall_rev.
    + simpl. by rewrite rev_involutive.
    + unfold bs58_encode. destruct bs; [done|]. rewrite He, rev_app_distr. done.
Qed.

Lemma prefix_inj {A} (a x y : A) n m t u :
  x <> a -> y <> a -> replicate n a ++ x :: t = replicate m a ++ y :: u -> n = m /\ x = y /\ t = u.
Proof.
  intros Hx Hy. revert m. induction n as [|n IH]; intros [|m] H; simplify_eq/=; try done. by destruct (IH _ H) as (-> & -> & ->).
Qed.
Lemma prefix_only {A} (a x : A) n m t : x <> a -> replicate n a <> replicate m a ++ x :: t.
Proof. intros Hx. revert m. induction n as [|n IH]; intros [|m] H; simplify_eq/=. by apply (IH m). Qed.

Lemma bs58_encode_inj bs bs' : bs58_encode bs = bs58_encode bs' -> bs = bs'.
Proof.
  assert (Hshape : forall l, l = [] \/ l <> [] /\ be_val l = 0 \/ be_val l <> 0).
  { intros l. destruct (Z.eq_dec (be_val l) 0); [|auto]. destruct l; auto. }
  destruct (Hshape bs) as [->|[[Hne Hz]|Hn]], (Hshape bs') as [->|[[Hne' Hz']|Hn']]; try done.
  all: try destruct (encode_zeros bs Hne Hz) as [Hb ->]; try destruct (encode_zeros bs' Hne' Hz') as [Hb' ->];
    try destruct (encode_number bs Hn) as (d & ds & Hd & Hds & Hv & ->);
    try destruct (encode_number bs' Hn') as (d' & ds' & Hd' & Hds' & Hv' & ->).
  - done.
  - simpl. by destruct (count_zeros bs').
  - done.
  - intros H. apply (f_equal length) in H. rewrite !length_replicate in H. rewrite Hb, Hb'. f_equal. lia.
  - intros H. exfalso. apply prefix_only in H; [done|]. intros Ho. apply Forall_cons in Hds' as [? _]. by apply digit_one in Ho.
  - simpl. by destruct (count_zeros bs).
  - intros H. exfalso. symmetry in H. apply prefix_only in H; [done|]. intros Ho. apply Forall_cons in Hds as [? _]. by apply digit_one in Ho.
  - intros H. apply prefix_inj in H as (Hc & Hx & Ht).
    + assert (d :: ds = d' :: ds') as [= -> ->] by (apply digits_inj; [done|done|by rewrite !fmap_cons, Hx, Ht]).
      destruct (zeros_split bs) as (r & Hr & Hh), (zeros_split bs') as (r' & Hr' & Hh'). rewrite Hr, Hr', Hc. f_equal.
      apply be_val_inj; [done|done|]. rewrite <- (be_val_zeros (count_zeros bs) r), <- (be_val_zeros (count_zeros bs') r'), <- Hr, <- Hr'.
      congruence.
    + intros Ho. apply Forall_cons in Hds as [? _]. by apply digit_one in Ho.
    + intros Ho. apply Forall_cons in Hds' as [? _]. by apply digit_one in Ho.
Qed.
