(* ===== verification/SolSwapTheorems.v ===== *)
(** * SolSwapTheorems: the properties of the market maker

    The theorems about [src/defi/solswap/program/src/lib.rs], and the evaluation
    of the program on concrete accounts in the Borsh wire format. *)

From Stdlib Require Import Strings.Byte.
From S2P Require Import Prelude Borsh Accounts System Invoke Execution Concrete Records Wire History SolSwap SolSwapProofs Base58Proofs.
Open Scope Z_scope.

(** ** The data on the wire *)

Definition codec_pool_state : codec PoolState :=
  codec_iso (fun '(i, (b, (ma, (mb, (a, (c, (lm, (l, (fn, (fd, (pf, (au, (va, vb))))))))))))) => mkPoolState i b ma mb a c lm l fn fd pf au va vb)
    (fun p => (po_is_initialized p, (po_bump p, (po_token_a_mint p, (po_token_b_mint p, (po_token_a_reserve p, (po_token_b_reserve p,
       (po_lp_mint p, (po_lp_supply p, (po_fee_numerator p, (po_fee_denominator p, (po_protocol_fee_numerator p, (po_authority p,
       (po_cumulative_volume_a p, po_cumulative_volume_b p))))))))))))))
    (codec_pair codec_bool (codec_pair (codec_uint 1) (codec_pair codec_pubkey (codec_pair codec_pubkey (codec_pair (codec_uint 8)
      (codec_pair (codec_uint 8) (codec_pair codec_pubkey (codec_pair (codec_uint 8) (codec_pair (codec_uint 8) (codec_pair (codec_uint 8)
      (codec_pair (codec_uint 8) (codec_pair codec_pubkey (codec_pair (codec_uint 16) (codec_uint 16)))))))))))))).
Definition codec_direction : codec SwapDirection := codec_enum [AtoB; BtoA].
Definition swap_instruction_index (i : SwapInstruction) : nat :=
  match i with InitializePool _ _ _ => 0 | AddLiquidity _ _ _ => 1 | RemoveLiquidity _ _ _ => 2 | Swap _ _ _ => 3 end.
Definition codec_three : codec (Z * (Z * Z)) := codec_pair (codec_uint 8) (codec_pair (codec_uint 8) (codec_uint 8)).
Definition codec_amm_instruction : codec SwapInstruction :=
  codec_variants
    [mkVariant codec_three (fun '(a, (b, c)) => InitializePool a b c)
       (fun i => match i with InitializePool a b c => Some (a, (b, c)) | _ => None end);
     mkVariant codec_three (fun '(a, (b, c)) => AddLiquidity a b c)
       (fun i => match i with AddLiquidity a b c => Some (a, (b, c)) | _ => None end);
     mkVariant codec_three (fun '(a, (b, c)) => RemoveLiquidity a b c)
       (fun i => match i with RemoveLiquidity a b c => Some (a, (b, c)) | _ => None end);
     mkVariant (codec_pair (codec_uint 8) (codec_pair (codec_uint 8) codec_direction)) (fun '(a, (b, d)) => Swap a b d)
       (fun i => match i with Swap a b d => Some (a, (b, d)) | _ => None end)]
    swap_instruction_index.

Lemma codec_u128_wf z : c_wf (codec_uint 16) z <-> is_u128 z.
Proof. codec_wf. Qed.
#[local] Hint Rewrite codec_u128_wf : codec_wf.
Lemma codec_pool_state_laws : codec_laws codec_pool_state.
Proof. apply codec_iso_laws; [by intros []|by intros (?&?&?&?&?&?&?&?&?&?&?&?&?&?)|]. auto 30 with codec. Qed.
Lemma codec_pool_state_wf p : well_typed p <-> c_wf codec_pool_state p.
Proof. unfold codec_pool_state, well_typed, PoolState_well_typed. codec_typed. Qed.
Lemma codec_pool_state_size : c_size codec_pool_state PoolState_LEN.
Proof. codec_size. Qed.
Lemma codec_direction_laws : codec_laws codec_direction.
Proof. apply codec_enum_laws; [repeat constructor; set_solver|simpl; lia]. Qed.
Lemma codec_direction_wf d : c_wf codec_direction d <-> True.
Proof. split; [done|]. intros _. destruct d; simpl; set_solver. Qed.
#[local] Hint Rewrite codec_direction_wf : codec_wf.
#[local] Hint Resolve codec_direction_laws : codec.
Lemma codec_three_laws : codec_laws codec_three.
Proof. unfold codec_three. auto 10 with codec. Qed.
#[local] Hint Resolve codec_three_laws : codec.
Lemma codec_amm_instruction_laws : codec_laws codec_amm_instruction.
Proof.
  apply codec_variants_laws; [simpl; lia|repeat apply Forall_cons_2; simpl; auto 15 with codec| |].
  - intros [|[|[|[|]]]] v a [= <-]; simpl in a; repeat match goal with x : _ * _ |- _ => destruct x end; done.
  - intros [] v a [= <-]; simpl; by intros [= <-].
Qed.
Lemma codec_amm_instruction_wf i : well_typed i <-> c_wf codec_amm_instruction i.
Proof.
  destruct i; unfold well_typed, SwapInstruction_well_typed, codec_amm_instruction, codec_three; codec_variant_typed.
Qed.

#[global] Instance pool_state_borsh : Borsh PoolState := borsh_of_codec codec_pool_state.
#[global] Instance pool_state_borsh_laws : BorshLaws PoolState := borsh_of_codec_laws _ codec_pool_state_laws codec_pool_state_wf.
#[global] Instance pool_state_borsh_sized : BorshSized PoolState PoolState_LEN :=
  borsh_of_codec_sized _ _ codec_pool_state_size codec_pool_state_wf.
#[global] Instance swap_instruction_borsh : Borsh SwapInstruction := borsh_of_codec codec_amm_instruction.
#[global] Instance swap_instruction_borsh_laws : BorshLaws SwapInstruction :=
  borsh_of_codec_laws _ codec_amm_instruction_laws codec_amm_instruction_wf.
#[global] Instance pool_state_head : PoolHead.
Proof. intros [[] ? ? ? ? ? ? ? ? ? ? ? ? ?] _; reflexivity. Qed.

(** ** An example *)

Module SolSwapDemo.
Definition PROGRAM : Pubkey := 100.
Definition pool : PoolState := mkPoolState true 0 11 12 1000 4000 13 2000 25 10000 5 800 0 0.
Definition swap : SwapInstruction := Swap 100 300 AtoB.
Definition swap_data : list byte := borsh_ser swap.
Definition create_data : list byte := borsh_ser (InitializePool 25 10000 5).
Definition accounts : list (Pubkey * Account) :=
  [(500, mkAccount 1000000 (borsh_ser pool ++ replicate 6 Byte.x00) PROGRAM false);
   (501, mkAccount 1000000 (replicate 216 Byte.x00) PROGRAM false)].
Definition state : PState := mkPState (store accounts) (mkTA (store accounts) 0 0).
Definition len (k : Pubkey) : Z := zlen (acc_data (get_acc (store accounts) k)).
Definition other (k : Pubkey) : AccountInfo := mkIA k false false.
Definition swap_cx : Ctx := demo_ctx PROGRAM
  [mkIA 500 false true; other 21; other 22; other 23; other 24; other 25; mkIA 300 true false; other 26] 5000 len.
Definition create_cx : Ctx := demo_ctx PROGRAM
  [mkIA 501 false true; other 11; other 12; other 21; other 22; other 13; mkIA 800 true false; other 0; other 26; other 27] 5000 len.

Lemma typed_create : typed_inputs create_cx state.
Proof. split; [repeat constructor; evaluate|evaluate|]. intros k. apply data_bound_store; [evaluate|]. repeat constructor; evaluate. Qed.
Lemma amm_runs : is_ok (process_instruction swap_cx swap_data state) && is_ok (process_instruction create_cx create_data state) = true.
Proof. vm_compute. reflexivity. Qed.
Lemma pool_inv : amm_inv pool.
Proof. split; simpl; try done; try lia. Qed.
End SolSwapDemo.

(** ** Properties *)

Section SolSwapProperties.
Context {BP : Borsh PoolState} {BI : Borsh SwapInstruction} {LP : BorshLaws PoolState} {LI : BorshLaws SwapInstruction}
  {SP : BorshSized PoolState PoolState_LEN} {PH : PoolHead}.

(** C10. The liquidity tokens of a pool are always backed: from its creation on,
    whatever instructions run on it and on other pools, the square of the supply
    is at most the product of the reserves, there are no reserves without
    supply, and the fees and the other terms are those of the creation. *)
Theorem pool_always_backed cx data fn fd pf s s' k m :
  typed_inputs cx s -> try_from_slice data = Some (InitializePool fn fd pf) -> ia_key <$> cx_accounts cx !! 0%nat = Some k ->
  process_instruction cx data s = Ok (tt, s') -> history amm_run k (mem s') m ->
  exists p p', pool_at (mem s') k p /\ po_lp_supply p = 0 /\ pool_at m k p' /\ amm_inv p' /\ same_terms p p'.
Proof.
  intros Hty Hd Hk Hrun Hh. assert (Wi : well_typed (InitializePool fn fd pf)) by (by apply try_from_slice_some in Hd as [? _]).
  unfold process_instruction in Hrun. rewrite Hd in Hrun. cbn [ok_or lift pbind] in Hrun.
  destruct (initialize_effect _ _ _ _ _ _ Hty Wi Hrun) as (k' & p & Hk' & _ & Hp & Hi & H0 & _).
  rewrite Hk in Hk'. injection Hk' as <-. destruct (amm_backed_for_ever _ _ _ _ Hh Hp Hi) as (p' & ? & ? & ?). by exists p, p'.
Qed.

(** C12. No instruction dilutes the liquidity tokens: a deposit, a withdrawal or a
    swap makes exactly the step of the pool it is documented to make and writes
    nothing else, and the reserves behind a token, as the product of the
    reserves over the square of the supply, do not become less; a swap does not
    lower the product of the reserves. *)
Theorem lp_never_diluted cx data i s s' k p :
  try_from_slice data = Some i -> ~ is_initialization i -> ia_key <$> cx_accounts cx !! 0%nat = Some k ->
  pool_at (mem s) k p -> amm_inv p -> process_instruction cx data s = Ok (tt, s') ->
  exists p', s' = mkPState (stored p' k (mem s)) (rt s) /\ pool_at (mem s') k p' /\ amm_step p i p' /\ amm_inv p' /\ not_diluted p p' /\
    (po_lp_supply p' = po_lp_supply p ->
     po_token_a_reserve p * po_token_b_reserve p <= po_token_a_reserve p' * po_token_b_reserve p').
Proof.
  intros Hd Hni Hk Hp Hi Hrun. destruct (amm_instruction_step cx _ _ _ _ Hd Hni Hrun) as (k' & q & p' & Hk' & Hq & -> & Wp' & _ & Hst).
  rewrite Hk in Hk'. injection Hk' as <-. assert (q = p) as -> by (by eapply pool_at_inj). specialize (Hst Hi).
  apply try_from_slice_some in Hd as [Wi _]. apply pool_at_well_typed in Hp as Wp.
  destruct (amm_step_inv _ _ _ Wp Wi Hi Hst) as [Hi' Hdil].
  exists p'. split_and!; [done|by apply pool_at_stored; [apply Hp|]|done|done|done|].
  intros Hs. destruct Hst as [a b l ? ? ? ?|l a b ? ? ?|dir j o ? ? ? ?]; simpl in Hs; [lia|lia|]. by apply swap_step.
Qed.

(** C30. A swap goes through exactly when a user signs, the pool is initialized
    and has reserves, the input is positive, the products fit their types and
    the output reaches the minimum; the output is the constant-product formula
    with the fee, rounded down, and nothing but the reserves and the volume of
    the pool changes. *)
Theorem swap_exact cx i o dir s s' : is_u64 i ->
  process_swap cx i o dir s = Ok (tt, s') <->
  exists po vs vd us ud pd au tp rest p, cx_accounts cx = po :: vs :: vd :: us :: ud :: pd :: au :: tp :: rest /\
    ia_is_signer au = true /\ pool_at (mem s) (ia_key po) p /\ swap_possible dir i o p /\
    s' = mkPState (stored (traded dir i (output dir i p) p) (ia_key po) (mem s)) (rt s).
Proof. apply process_swap_ok. Qed.

(** C34. Nobody gains by going back and forth: who deposits and at once withdraws
    the new liquidity tokens gets at most the deposit, in both tokens, and who
    swaps and at once swaps the output back gets at most the input. *)
Theorem no_round_trip_gain p a b l a' b' i o f i' f' dir :
  well_typed p -> amm_inv p -> is_u64 a -> is_u64 b -> is_u64 i -> is_u64 (reserve_in dir p + i) ->
  is_u64 (po_token_a_reserve p + a) -> is_u64 (po_token_b_reserve p + b) -> is_u64 (po_lp_supply p + l) ->
  (calculate_lp_tokens a b (po_token_a_reserve p) (po_token_b_reserve p) (po_lp_supply p) = Ok l ->
   calculate_withdrawal l (po_lp_supply p + l) (po_token_a_reserve p + a) (po_token_b_reserve p + b) = Ok (a', b') ->
   a' <= a /\ b' <= b) /\
  (calculate_swap_output i (reserve_in dir p) (reserve_out dir p) (po_fee_numerator p) (po_fee_denominator p) = Ok (o, f) ->
   calculate_swap_output o (reserve_out dir p - o) (reserve_in dir p + i) (po_fee_numerator p) (po_fee_denominator p) = Ok (i', f') ->
   i' <= i).
Proof.
  intros Wp Hp Ha Hb Hi Hri Hra Hrb Hs. split; intros H1 H2; [by eapply deposit_withdraw|by eapply swap_back].
Qed.

(** C29. The square root ends and is exact: 130 rounds of Newton's iteration are
    enough for every 128-bit number, and the result is the root rounded down; the
    largest number alone, whose successor does not fit, has no result. *)
Theorem sqrt_terminates v : is_u128 v ->
  (v = U128_MAX -> sqrt v = None) /\ (v < U128_MAX -> exists r, sqrt v = Some r /\ is_u64 r /\ r * r <= v < (r + 1) * (r + 1)).
Proof.
  intros Hv. rewrite sqrt_ok by done. split; intros H.
  - subst v. done.
  - exists (Z.sqrt v). rewrite (proj2 (Z.eqb_neq v U128_MAX)) by lia. destruct (Z.sqrt_spec v ltac:(ilia)) as [? ?].
    split; [done|]. split; [by apply sqrt_u64|lia].
Qed.

(** The events can be read back: different payloads have different base-58
    encodings, and the digits of an encoding denote, base 58, the number that
    the payload denotes, base 256. *)
Theorem bs58_encode_faithful bs :
  (forall bs', bs58_encode bs = bs58_encode bs' -> bs = bs') /\
  (bs <> [] -> exists ds, bs58_encode bs = replicate (count_zeros bs) Byte.x31 ++ (bs58_digit <$> rev ds) /\
     Forall (fun d => 0 <= d < 58) ds /\ val58 ds = be_val bs).
Proof.
  split; [intros bs'; apply bs58_encode_inj|]. intros Hne. exists (fold_left push_byte bs [0]).
  destruct (digits_normal bs) as (? & _ & ?). split_and!; [by destruct bs|done|done].
Qed.

(** The price impact is the documented one, in basis points and at most 10000, as
    long as the scaled difference fits 128 bits. *)
Theorem price_impact_exact i o ri ro :
  is_u64 i -> is_u64 o -> is_u64 ri -> is_u64 ro -> 0 < i -> 0 < ri -> 0 < ro -> (ro * i - o * ri) * 10000 <= U128_MAX ->
  calculate_price_impact_bps i o ri ro = Z.max 0 (ro * i - o * ri) * 10000 / (ro * i) /\
  0 <= calculate_price_impact_bps i o ri ro <= 10000.
Proof.
  intros Hi Ho Hri Hro ? ? ? Hfit. unfold calculate_price_impact_bps.
  rewrite (proj2 (Z.eqb_neq i 0)), (proj2 (Z.eqb_neq ri 0)), (proj2 (Z.eqb_neq ro 0)) by lia. cbn [orb].
  rewrite !as_u128_id by (by apply product_u128). pose proof (product_u128 o ri Ho Hri) as Hp.
  destruct (Z.leb_spec (ro * i) (o * ri)) as [Hle|Hlt].
  - rewrite Z.max_l by lia. rewrite Z.mul_0_l, Z.div_0_l by nia. lia.
  - rewrite Z.max_r by lia. rewrite as_u128_id by ilia.
    assert (Hb : 0 <= (ro * i - o * ri) * 10000 / (ro * i) <= 10000).
    { rewrite Z.mul_comm. apply mul_div_le; ilia. }
    rewrite as_u64_id by ilia. done.
Qed.

(** Beyond, the product wraps around: a swap for nothing has no impact. *)
Example price_impact_wraps : calculate_price_impact_bps U64_MAX 0 1 U64_MAX = 0.
Proof. vm_compute. reflexivity. Qed.

(** Zero bytes get one character too many: a single one is encoded by two. *)
Example bs58_zero : bs58_encode [Byte.x00] = [Byte.x31; Byte.x31].
Proof. vm_compute. reflexivity. Qed.
End SolSwapProperties.

(** ** The hypotheses can hold *)

Lemma pool_always_backed_witness : exists s' p',
  process_instruction SolSwapDemo.create_cx SolSwapDemo.create_data SolSwapDemo.state = Ok (tt, s') /\ pool_at (mem s') 501 p' /\ amm_inv p'.
Proof.
  destruct (process_instruction SolSwapDemo.create_cx SolSwapDemo.create_data SolSwapDemo.state) as [[[] s']|e] eqn:Hrun;
    [|pose proof SolSwapDemo.amm_runs as Hk; rewrite Hrun, ?andb_false_r in Hk; discriminate Hk].
  destruct (pool_always_backed SolSwapDemo.create_cx SolSwapDemo.create_data 25 10000 5 SolSwapDemo.state s' 501 (mem s'))
    as (_ & p' & _ & _ & Hp & Hi & _); [exact SolSwapDemo.typed_create|evaluate|evaluate|exact Hrun|apply history_refl|].
  exists s', p'. exact (conj eq_refl (conj Hp Hi)).
Defined.

Lemma lp_never_diluted_witness : exists s' p',
  process_instruction SolSwapDemo.swap_cx SolSwapDemo.swap_data SolSwapDemo.state = Ok (tt, s') /\
  pool_at (mem s') 500 p' /\ not_diluted SolSwapDemo.pool p'.
Proof.
  destruct (process_instruction SolSwapDemo.swap_cx SolSwapDemo.swap_data SolSwapDemo.state) as [[[] s']|e] eqn:Hrun;
    [|pose proof SolSwapDemo.amm_runs as Hk; rewrite Hrun in Hk; discriminate Hk].
  destruct (lp_never_diluted SolSwapDemo.swap_cx SolSwapDemo.swap_data SolSwapDemo.swap SolSwapDemo.state s' 500 SolSwapDemo.pool)
    as (p' & _ & Hp & _ & _ & Hd & _); [evaluate|intros []|evaluate|split; evaluate|exact SolSwapDemo.pool_inv|exact Hrun|].
  exists s', p'. exact (conj eq_refl (conj Hp Hd)).
Defined.

Lemma swap_exact_witness : exists s', process_swap SolSwapDemo.swap_cx 100 300 AtoB SolSwapDemo.state = Ok (tt, s').
Proof.
  eexists. apply (swap_exact SolSwapDemo.swap_cx 100 300 AtoB SolSwapDemo.state); [evaluate|].
  eexists _, _, _, _, _, _, _, _, _, SolSwapDemo.pool.
  split; [exact eq_refl|]. split; [exact eq_refl|]. split; [split; evaluate|]. split; [|exact eq_refl].
  unfold swap_possible. split_and!; evaluate.
Defined.

Lemma no_round_trip_gain_witness : exists l a' b',
  calculate_lp_tokens 10 50 1000 4000 2000 = Ok l /\ calculate_withdrawal l (2000 + l) 1010 4050 = Ok (a', b') /\ a' <= 10 /\ b' <= 50.
Proof.
  eexists 20, _, _. split; [vm_compute; reflexivity|]. split; [vm_compute; reflexivity|].
  refine (proj1 (no_round_trip_gain SolSwapDemo.pool 10 50 20 _ _ 100 0 0 0 0 AtoB _ SolSwapDemo.pool_inv _ _ _ _ _ _ _) _ _);
    first [vm_compute; reflexivity|evaluate|idtac].
Defined.

Lemma sqrt_terminates_witness : exists r, sqrt 4000001 = Some r /\ r * r <= 4000001 < (r + 1) * (r + 1).
Proof.
  destruct (proj2 (sqrt_terminates 4000001 ltac:(split; vm_compute; discriminate))) as (r & Hr & _ & Hb); [evaluate|].
  exists r. split; [exact Hr|exact Hb].
Defined.
