(* ===== verification/SolLend.v ===== *)
(** * SolLend: the lending market

    Models [src/defi/sollend/program/src/lib.rs]: the market with its totals,
    rates and interest indices, the positions of the users, the interest-rate
    curve, the health factor, the settlement of interest, and the seven
    instructions.  Log output is not modelled. *)

From Stdlib Require Import Strings.Byte.
From S2P Require Import Prelude Borsh Accounts System Invoke Execution.
Open Scope Z_scope.

(** ** Constants and data *)

Definition BPS : Z := 10000.
Definition BASE_RATE_BPS : Z := 200.
Definition SLOPE1_BPS : Z := 400.
Definition SLOPE2_BPS : Z := 7500.
Definition OPTIMAL_UTILIZATION_BPS : Z := 8000.
Definition LTV_RATIO_BPS : Z := 8000.
Definition LIQUIDATION_THRESHOLD_BPS : Z := 8500.
Definition LIQUIDATION_BONUS_BPS : Z := 500.
Definition SLOTS_PER_YEAR : Z := 78840000.

Record LendingMarket := mkMarket {
  lm_is_initialized : bool;
  lm_authority : Pubkey;
  lm_token_mint : Pubkey;
  lm_total_deposits : Z;
  lm_total_borrows : Z;
  lm_deposit_rate : Z;
  lm_borrow_rate : Z;
  lm_last_update_slot : Z;
  lm_utilization_rate : Z;
  lm_ltv_ratio : Z;
  lm_liquidation_threshold : Z;
  lm_liquidation_bonus : Z;
  lm_cumulative_deposit_index : Z;
  lm_cumulative_borrow_index : Z;
}.
Definition LendingMarket_LEN : Z := 1 + 32 + 32 + 8 + 8 + 8 + 8 + 8 + 8 + 8 + 8 + 8 + 8 + 8.

Record UserPosition := mkPosition {
  up_is_initialized : bool;
  up_owner : Pubkey;
  up_market : Pubkey;
  up_deposited_amount : Z;
  up_borrowed_amount : Z;
  up_deposit_index_snapshot : Z;
  up_borrow_index_snapshot : Z;
  up_health_factor : Z;
}.
Definition UserPosition_LEN : Z := 1 + 32 + 32 + 8 + 8 + 8 + 8 + 8.

Inductive LendingInstruction :=
| InitializeMarket
| Deposit (amount : Z)
| Withdraw (amount : Z)
| Borrow (amount : Z)
| Repay (amount : Z)
| Liquidate (amount : Z)
| AccrueInterest.

Inductive LendingError :=
| AlreadyInitialized | NotInitialized | InsufficientCollateral | PositionHealthy | InsufficientDeposit | RepayExceedsDebt
| MathOverflow | InvalidAuthority.

Definition into (e : LendingError) : InstructionError :=
  Custom match e with
  | AlreadyInitialized => 0 | NotInitialized => 1 | InsufficientCollateral => 2 | PositionHealthy => 3
  | InsufficientDeposit => 4 | RepayExceedsDebt => 5 | MathOverflow => 6 | InvalidAuthority => 7
  end.

#[global] Instance LendingMarket_well_typed : WellTyped LendingMarket := fun m =>
  is_pubkey (lm_authority m) /\ is_pubkey (lm_token_mint m) /\ is_u64 (lm_total_deposits m) /\ is_u64 (lm_total_borrows m) /\
  is_u64 (lm_deposit_rate m) /\ is_u64 (lm_borrow_rate m) /\ is_u64 (lm_last_update_slot m) /\ is_u64 (lm_utilization_rate m) /\
  is_u64 (lm_ltv_ratio m) /\ is_u64 (lm_liquidation_threshold m) /\ is_u64 (lm_liquidation_bonus m) /\
  is_u64 (lm_cumulative_deposit_index m) /\ is_u64 (lm_cumulative_borrow_index m).
#[global] Instance UserPosition_well_typed : WellTyped UserPosition := fun p =>
  is_pubkey (up_owner p) /\ is_pubkey (up_market p) /\ is_u64 (up_deposited_amount p) /\ is_u64 (up_borrowed_amount p) /\
  is_u64 (up_deposit_index_snapshot p) /\ is_u64 (up_borrow_index_snapshot p) /\ is_u64 (up_health_factor p).
#[global] Instance LendingInstruction_well_typed : WellTyped LendingInstruction := fun i =>
  match i with
  | Deposit x | Withdraw x | Borrow x | Repay x | Liquidate x => is_u64 x
  | InitializeMarket | AccrueInterest => True
  end.

(** Field updates. *)
Definition with_totals (deposits borrows : Z) (m : LendingMarket) : LendingMarket :=
  mkMarket (lm_is_initialized m) (lm_authority m) (lm_token_mint m) deposits borrows (lm_deposit_rate m) (lm_borrow_rate m)
    (lm_last_update_slot m) (lm_utilization_rate m) (lm_ltv_ratio m) (lm_liquidation_threshold m) (lm_liquidation_bonus m)
    (lm_cumulative_deposit_index m) (lm_cumulative_borrow_index m).
Definition with_rates (utilization borrow_rate deposit_rate : Z) (m : LendingMarket) : LendingMarket :=
  mkMarket (lm_is_initialized m) (lm_authority m) (lm_token_mint m) (lm_total_deposits m) (lm_total_borrows m) deposit_rate
    borrow_rate (lm_last_update_slot m) utilization (lm_ltv_ratio m) (lm_liquidation_threshold m) (lm_liquidation_bonus m)
    (lm_cumulative_deposit_index m) (lm_cumulative_borrow_index m).
Definition with_indices (deposit_index borrow_index : Z) (m : LendingMarket) : LendingMarket :=
  mkMarket (lm_is_initialized m) (lm_authority m) (lm_token_mint m) (lm_total_deposits m) (lm_total_borrows m)
    (lm_deposit_rate m) (lm_borrow_rate m) (lm_last_update_slot m) (lm_utilization_rate m) (lm_ltv_ratio m)
    (lm_liquidation_threshold m) (lm_liquidation_bonus m) deposit_index borrow_index.
Definition with_slot (slot : Z) (m : LendingMarket) : LendingMarket :=
  mkMarket (lm_is_initialized m) (lm_authority m) (lm_token_mint m) (lm_total_deposits m) (lm_total_borrows m)
    (lm_deposit_rate m) (lm_borrow_rate m) slot (lm_utilization_rate m) (lm_ltv_ratio m) (lm_liquidation_threshold m)
    (lm_liquidation_bonus m) (lm_cumulative_deposit_index m) (lm_cumulative_borrow_index m).
Definition with_amounts (deposited borrowed : Z) (p : UserPosition) : UserPosition :=
  mkPosition (up_is_initialized p) (up_owner p) (up_market p) deposited borrowed (up_deposit_index_snapshot p)
    (up_borrow_index_snapshot p) (up_health_factor p).
Definition with_snapshots (deposit_index borrow_index : Z) (p : UserPosition) : UserPosition :=
  mkPosition (up_is_initialized p) (up_owner p) (up_market p) (up_deposited_amount p) (up_borrowed_amount p)
    deposit_index borrow_index (up_health_factor p).
Definition with_health (health : Z) (p : UserPosition) : UserPosition :=
  mkPosition (up_is_initialized p) (up_owner p) (up_market p) (up_deposited_amount p) (up_borrowed_amount p)
    (up_deposit_index_snapshot p) (up_borrow_index_snapshot p) health.

(** ** The interest-rate model *)

Definition calculate_interest_rate (utilization_bps : Z) : Z :=
  if utilization_bps =? 0 then BASE_RATE_BPS
  else if utilization_bps <=? OPTIMAL_UTILIZATION_BPS then
    let variable := default U64_MAX (u64_checked_mul SLOPE1_BPS utilization_bps) / OPTIMAL_UTILIZATION_BPS in
    default U64_MAX (u64_checked_add BASE_RATE_BPS variable)
  else
    let excess := u64_saturating_sub utilization_bps OPTIMAL_UTILIZATION_BPS in
    let remaining := u64_saturating_sub BPS OPTIMAL_UTILIZATION_BPS in
    let steep := default U64_MAX (u64_checked_mul SLOPE2_BPS excess) / remaining in
    default U64_MAX (v ← u64_checked_add BASE_RATE_BPS SLOPE1_BPS; u64_checked_add v steep).

Definition calculate_utilization (total_deposits total_borrows : Z) : Z :=
  if total_deposits =? 0 then 0
  else default U64_MAX (u64_checked_mul total_borrows BPS) / total_deposits.

Definition calculate_health_factor (deposited borrowed liquidation_threshold_bps : Z) : Z :=
  if borrowed =? 0 then U64_MAX
  else default U64_MAX (u64_checked_mul deposited liquidation_threshold_bps) / borrowed.

Definition compound_index (current_index rate_bps slots_elapsed : Z) : Z :=
  let numerator := v ← u64_checked_mul current_index rate_bps; u64_checked_mul v slots_elapsed in
  let denominator := u64_checked_mul BPS SLOTS_PER_YEAR in
  match numerator, denominator with
  | Some n, Some d => if 0 <? d then u64_saturating_add current_index (n / d) else current_index
  | _, _ => current_index
  end.

(** One side of the settlement: the amount grows with its index. *)
Definition settled (amount index snapshot : Z) : Z :=
  if (0 <? snapshot) && (0 <? amount) then
    default amount ((fun v => v / snapshot) <$> u64_checked_mul amount index)
  else amount.

Definition settle_user_interest (market : LendingMarket) (position : UserPosition) : UserPosition :=
  let deposited := settled (up_deposited_amount position) (lm_cumulative_deposit_index market) (up_deposit_index_snapshot position) in
  let borrowed := settled (up_borrowed_amount position) (lm_cumulative_borrow_index market) (up_borrow_index_snapshot position) in
  with_snapshots (lm_cumulative_deposit_index market) (lm_cumulative_borrow_index market)
    (with_amounts deposited borrowed position).

(** "Recalculate rates": the utilization, then the borrow and the deposit rate. *)
Definition recalculate_rates (m : LendingMarket) : LendingMarket :=
  let utilization := calculate_utilization (lm_total_deposits m) (lm_total_borrows m) in
  let borrow_rate := calculate_interest_rate utilization in
  let deposit_rate := default 0 (u64_checked_mul borrow_rate utilization) / BPS in
  with_rates utilization borrow_rate deposit_rate m.

(** The health factor and the snapshots at the end of a handler. *)
Definition refresh_position (m : LendingMarket) (p : UserPosition) : UserPosition :=
  with_snapshots (lm_cumulative_deposit_index m) (lm_cumulative_borrow_index m)
    (with_health (calculate_health_factor (up_deposited_amount p) (up_borrowed_amount p) (lm_liquidation_threshold m)) p).

(** ** Instructions *)

Section SolLend.
Context {BM : Borsh LendingMarket} {BP : Borsh UserPosition} {BI : Borsh LendingInstruction}.
Variable cx : Ctx.

(** [v.serialize(&mut *ia.data.borrow_mut())?] moves the start of the slice in
    the [AccountInfo] behind what it has written, so that a second value
    written through the same account follows the first: here the market, then
    the position. *)
Definition serialize_after {A} `{Borsh A} (offset : Z) (v : A) (ia : AccountInfo) : M unit :=
  (let! a := account ia in
   let head := take (Z.to_nat offset) (acc_data a) in
   let tail := drop (Z.to_nat offset) (acc_data a) in
   fail_if (zlen tail <? zlen (borsh_ser v)) BorshIoError ;;
   put (ia_key ia) (set_acc_data (head ++ overwrite (borsh_ser v) tail) a))%prog.
Definition store_both (market : LendingMarket) (position : UserPosition) (market_account position_account : AccountInfo) : M unit :=
  (serialize_into market market_account ;;
   let offset := if ia_key position_account =? ia_key market_account then zlen (borsh_ser market) else 0 in
   serialize_after offset position position_account)%prog.

Definition initialize_market : M unit :=
  (let! '(market_account, it) := next_account_info (cx_accounts cx) in
   let! '(authority, it) := next_account_info it in
   let! '(token_mint, it) := next_account_info it in
   fail_if (negb (ia_is_signer authority)) MissingRequiredSignature ;;
   let! ma := account market_account in
   let market := default (mkMarket false 0 0 0 0 0 BASE_RATE_BPS 0 0 LTV_RATIO_BPS LIQUIDATION_THRESHOLD_BPS
                            LIQUIDATION_BONUS_BPS 1000000000 1000000000) (try_from_slice (acc_data ma)) in
   fail_if (lm_is_initialized market) (into AlreadyInitialized) ;;
   let! clock := clock_get cx in
   serialize_into
     (mkMarket true (ia_key authority) (ia_key token_mint) (lm_total_deposits market) (lm_total_borrows market)
        (lm_deposit_rate market) (lm_borrow_rate market) (clk_slot clock) (lm_utilization_rate market) (lm_ltv_ratio market)
        (lm_liquidation_threshold market) (lm_liquidation_bonus market) (lm_cumulative_deposit_index market)
        (lm_cumulative_borrow_index market))
     market_account)%prog.

(** An initialized market. *)
Definition load_market (market_account : AccountInfo) : M LendingMarket :=
  (let! market := load LendingMarket market_account BorshIoError in
   fail_if (negb (lm_is_initialized market)) (into NotInitialized) ;;
   pret market)%prog.

Definition deposit (amount : Z) : M unit :=
  (let! '(market_account, it) := next_account_info (cx_accounts cx) in
   let! '(position_account, it) := next_account_info it in
   let! '(depositor, it) := next_account_info it in
   fail_if (negb (ia_is_signer depositor)) MissingRequiredSignature ;;
   let! market := load_market market_account in
   let! pa := account position_account in
   let position := default (mkPosition false (ia_key depositor) (ia_key market_account) 0 0 (lm_cumulative_deposit_index market)
                              (lm_cumulative_borrow_index market) U64_MAX) (try_from_slice (acc_data pa)) in
   let position :=
     if up_is_initialized position then position
     else mkPosition true (ia_key depositor) (ia_key market_account) (up_deposited_amount position)
            (up_borrowed_amount position) (lm_cumulative_deposit_index market) (lm_cumulative_borrow_index market)
            (up_health_factor position) in
   let position := settle_user_interest market position in
   let! deposited := lift (ok_or (u64_checked_add (up_deposited_amount position) amount) (into MathOverflow)) in
   let position := with_amounts deposited (up_borrowed_amount position) position in
   let! total_deposits := lift (ok_or (u64_checked_add (lm_total_deposits market) amount) (into MathOverflow)) in
   let market := recalculate_rates (with_totals total_deposits (lm_total_borrows market) market) in
   store_both market (refresh_position market position) market_account position_account)%prog.

Definition withdraw (amount : Z) : M unit :=
  (let! '(market_account, it) := next_account_info (cx_accounts cx) in
   let! '(position_account, it) := next_account_info it in
   let! '(withdrawer, it) := next_account_info it in
   fail_if (negb (ia_is_signer withdrawer)) MissingRequiredSignature ;;
   let! market := load_market market_account in
   let! position := load UserPosition position_account BorshIoError in
   fail_if (negb (up_owner position =? ia_key withdrawer)) (into InvalidAuthority) ;;
   let position := settle_user_interest market position in
   fail_if (up_deposited_amount position <? amount) (into InsufficientDeposit) ;;
   let new_deposited := u64_saturating_sub (up_deposited_amount position) amount in
   fail_if ((0 <? up_borrowed_amount position) &&
            (calculate_health_factor new_deposited (up_borrowed_amount position) (lm_liquidation_threshold market) <? BPS))
     (into InsufficientCollateral) ;;
   let position := with_amounts new_deposited (up_borrowed_amount position) position in
   let market := recalculate_rates
     (with_totals (u64_saturating_sub (lm_total_deposits market) amount) (lm_total_borrows market) market) in
   store_both market (refresh_position market position) market_account position_account)%prog.

Definition borrow (amount : Z) : M unit :=
  (let! '(market_account, it) := next_account_info (cx_accounts cx) in
   let! '(position_account, it) := next_account_info it in
   let! '(borrower, it) := next_account_info it in
   fail_if (negb (ia_is_signer borrower)) MissingRequiredSignature ;;
   let! market := load_market market_account in
   let! position := load UserPosition position_account BorshIoError in
   fail_if (negb (up_owner position =? ia_key borrower)) (into InvalidAuthority) ;;
   let position := settle_user_interest market position in
   let max_borrow := default 0 (u64_checked_mul (up_deposited_amount position) (lm_ltv_ratio market)) / BPS in
   let! new_borrowed := lift (ok_or (u64_checked_add (up_borrowed_amount position) amount) (into MathOverflow)) in
   fail_if (max_borrow <? new_borrowed) (into InsufficientCollateral) ;;
   let position := with_amounts (up_deposited_amount position) new_borrowed position in
   let! total_borrows := lift (ok_or (u64_checked_add (lm_total_borrows market) amount) (into MathOverflow)) in
   let market := recalculate_rates (with_totals (lm_total_deposits market) total_borrows market) in
   store_both market (refresh_position market position) market_account position_account)%prog.

Definition repay (amount : Z) : M unit :=
  (let! '(market_account, it) := next_account_info (cx_accounts cx) in
   let! '(position_account, it) := next_account_info it in
   let! '(repayer, it) := next_account_info it in
   fail_if (negb (ia_is_signer repayer)) MissingRequiredSignature ;;
   let! market := load_market market_account in
   let! position := load UserPosition position_account BorshIoError in
   fail_if (negb (up_owner position =? ia_key repayer)) (into InvalidAuthority) ;;
   let position := settle_user_interest market position in
   fail_if (up_borrowed_amount position <? amount) (into RepayExceedsDebt) ;;
   let position := with_amounts (up_deposited_amount position) (u64_saturating_sub (up_borrowed_amount position) amount) position in
   let market := recalculate_rates
     (with_totals (lm_total_deposits market) (u64_saturating_sub (lm_total_borrows market) amount) market) in
   store_both market (refresh_position market position) market_account position_account)%prog.

Definition liquidate (repay_amount : Z) : M unit :=
  (let! '(market_account, it) := next_account_info (cx_accounts cx) in
   let! '(position_account, it) := next_account_info it in
   let! '(liquidator, it) := next_account_info it in
   fail_if (negb (ia_is_signer liquidator)) MissingRequiredSignature ;;
   let! market := load_market market_account in
   let! position := load UserPosition position_account BorshIoError in
   let position := settle_user_interest market position in
   let health := calculate_health_factor (up_deposited_amount position) (up_borrowed_amount position)
                   (lm_liquidation_threshold market) in
   fail_if (BPS <=? health) (into PositionHealthy) ;;
   let actual_repay := Z.min repay_amount (up_borrowed_amount position) in
   let collateral_seized :=
     default U64_MAX (u64_checked_mul actual_repay (default BPS (u64_checked_add BPS (lm_liquidation_bonus market)))) / BPS in
   let collateral_seized := Z.min collateral_seized (up_deposited_amount position) in
   let position := with_amounts (u64_saturating_sub (up_deposited_amount position) collateral_seized)
                     (u64_saturating_sub (up_borrowed_amount position) actual_repay) position in
   let market := recalculate_rates
     (with_totals (u64_saturating_sub (lm_total_deposits market) collateral_seized)
        (u64_saturating_sub (lm_total_borrows market) actual_repay) market) in
   store_both market (refresh_position market position) market_account position_account)%prog.

(** The interest the market owes and earns over [slots_elapsed]; the product of
    the constants fits 64 bits. *)
Definition interest_accrued (market : LendingMarket) (slots_elapsed : Z) : Z :=
  default 0 ((fun v => v / (BPS * SLOTS_PER_YEAR)) <$>
    (v ← u64_checked_mul (lm_total_borrows market) (lm_borrow_rate market); u64_checked_mul v slots_elapsed)).

Definition accrue_interest : M unit :=
  (let! '(market_account, it) := next_account_info (cx_accounts cx) in
   let! market := load_market market_account in
   let! clock := clock_get cx in
   let current_slot := clk_slot clock in
   if current_slot <=? lm_last_update_slot market then pret tt
   else
     let slots_elapsed := u64_saturating_sub current_slot (lm_last_update_slot market) in
     let indexed := with_indices
       (compound_index (lm_cumulative_deposit_index market) (lm_deposit_rate market) slots_elapsed)
       (compound_index (lm_cumulative_borrow_index market) (lm_borrow_rate market) slots_elapsed) market in
     let interest := interest_accrued indexed slots_elapsed in
     let market := recalculate_rates
       (with_totals (u64_saturating_add (lm_total_deposits indexed) interest)
          (u64_saturating_add (lm_total_borrows indexed) interest) indexed) in
     serialize_into (with_slot current_slot market) market_account)%prog.

Definition process_instruction (instruction_data : list byte) : M unit :=
  (let! instruction := lift (ok_or (try_from_slice instruction_data) InvalidInstructionData) in
   match instruction with
   | InitializeMarket => initialize_market
   | Deposit amount => deposit amount
   | Withdraw amount => withdraw amount
   | Borrow amount => borrow amount
   | Repay amount => repay amount
   | Liquidate amount => liquidate amount
   | AccrueInterest => accrue_interest
   end)%prog.
End SolLend.
