(* ===== verification/SolLendProofs.v ===== *)
(** * SolLendProofs: the arithmetic, the positions and the market of the lending program *)

From Stdlib Require Import Strings.Byte.
From S2P Require Import Prelude Borsh Accounts System Invoke Execution Records History SolLend.
Open Scope Z_scope.

(** ** Arithmetic *)

Lemma capped_mul a b : 0 <= a -> 0 <= b -> default U64_MAX (u64_checked_mul a b) = Z.min (a * b) U64_MAX.
Proof.
  intros Ha Hb. destruct (u64_checked_mul a b) as [r|] eqn:Hc; simpl.
  - apply checked_some in Hc as [-> Hr]. ilia.
  - apply checked_none in Hc. unfold in_range in Hc. ilia.
Qed.
Lemma dropped_mul a b : 0 <= default 0 (u64_checked_mul a b) /\ (0 <= a * b -> default 0 (u64_checked_mul a b) <= a * b).
Proof.
  destruct (u64_checked_mul a b) as [r|] eqn:Hc; simpl; [|lia]. apply checked_some in Hc as [-> Hr]. ilia.
Qed.
Lemma div_u64 a b : 0 <= a <= U64_MAX -> 0 < b -> is_u64 (a / b).
Proof. intros Ha Hb. split; [apply Z.div_pos; lia|]. apply Z.div_le_upper_bound; nia. Qed.
Lemma u64_sub_in a b : 0 <= b <= a -> is_u64 a -> u64_saturating_sub a b = a - b.
Proof. intros. apply clamp_in. ilia. Qed.
Lemma u64_sub_u64 a b : is_u64 (u64_saturating_sub a b).
Proof. apply clamp_range. by vm_compute. Qed.
Lemma u64_add_u64 a b : is_u64 (u64_saturating_add a b).
Proof. apply clamp_range. by vm_compute. Qed.
#[local] Hint Resolve u64_sub_u64 u64_add_u64 : core.

(** The curve without the saturation: two lines that meet at the kink. *)
Definition curve (u : Z) : Z := if u <=? 8000 then 200 + u / 20 else 600 + 15 * (u - 8000) / 4.

Lemma interest_rate_curve u : 0 <= u -> 7500 * (u - 8000) <= U64_MAX -> calculate_interest_rate u = curve u.
Proof.
  intros Hu Hfit. unfold calculate_interest_rate, curve, BASE_RATE_BPS, SLOPE1_BPS, SLOPE2_BPS, OPTIMAL_UTILIZATION_BPS, BPS.
  destruct (Z.eqb_spec u 0) as [->|Hne]; [done|]. destruct (Z.leb_spec u 8000) as [Hle|Hgt].
  - rewrite capped_mul, Z.min_l by ilia. replace (400 * u / 8000) with (u / 20).
    + rewrite checked_in; [done|]. pose proof (Z.div_pos u 20). pose proof (Z.div_le_upper_bound u 20 400). ilia.
    + replace 8000 with (400 * 20) by done. by rewrite Z.div_mul_cancel_l.
  - rewrite !clamp_in by ilia. change (10000 - 8000) with (500 * 4). rewrite capped_mul, Z.min_l by ilia.
    replace (7500 * (u - 8000)) with (500 * (15 * (u - 8000))) by ring. rewrite Z.div_mul_cancel_l by done.
    rewrite checked_in by ilia. cbn [mbind option_bind]. rewrite checked_in; [done|].
    assert (0 <= 15 * (u - 8000) / 4 <= 9223372036854775807); [|ilia].
    split; [apply Z.div_pos; lia|]. apply Z.div_le_upper_bound; ilia.
Qed.

Lemma interest_rate_u64 u : 0 <= u -> is_u64 (calculate_interest_rate u).
Proof.
  intros Hu. unfold calculate_interest_rate. repeat case_match; [by split; vm_compute| |].
  - destruct (u64_checked_add _ _) as [r|] eqn:Hc; [apply checked_some in Hc as [-> ?]; done|by split; vm_compute].
  - destruct (v ← _; _) as [r|] eqn:Hc; [|by split; vm_compute]. simpl.
    apply bind_Some in Hc as (v & _ & Hc). by apply checked_some in Hc as [-> ?].
Qed.

Lemma utilization_u64 d b : is_u64 d -> 0 <= b -> is_u64 (calculate_utilization d b).
Proof.
  intros Hd Hb. unfold calculate_utilization, BPS. destruct (Z.eqb_spec d 0); [ilia|].
  rewrite capped_mul by lia. apply div_u64; ilia.
Qed.

Lemma health_u64 d b t : is_u64 d -> is_u64 b -> is_u64 t -> is_u64 (calculate_health_factor d b t).
Proof.
  intros Hd Hb Ht. unfold calculate_health_factor. destruct (Z.eqb_spec b 0); [by split; vm_compute|].
  rewrite capped_mul by ilia. apply div_u64; [|ilia]. split; [|lia]. apply Z.min_glb; ilia.
Qed.

(** A position is healthy when the collateral covers the debt, and when its
    product overflows without saturating the quotient below. *)
Lemma health_covers d b t : is_u64 d -> is_u64 b -> is_u64 t -> 0 < b ->
  BPS <= calculate_health_factor d b t <-> b * BPS <= Z.min (d * t) U64_MAX.
Proof.
  intros Hd Hb Ht Hpos. unfold calculate_health_factor. rewrite (proj2 (Z.eqb_neq b 0)) by lia.
  rewrite capped_mul by ilia. split.
  - intros H. pose proof (Z.mul_div_le (Z.min (d * t) U64_MAX) b Hpos). nia.
  - intros H. apply Z.div_le_lower_bound; lia.
Qed.

Lemma settled_u64 a i s : is_u64 a -> is_u64 i -> is_u64 s -> is_u64 (settled a i s).
Proof.
  intros Ha Hi Hs. unfold settled. destruct ((0 <? s) && (0 <? a)) eqn:Hg; [|done]. bool_to_prop.
  destruct (u64_checked_mul a i) as [r|] eqn:Hc; simpl; [|done]. apply checked_some in Hc as [-> Hr].
  apply div_u64; ilia.
Qed.

(** Interest never lowers an amount as long as the index has not fallen. *)
Lemma settled_grows a i s : 0 <= s <= i -> 0 <= a -> a <= settled a i s.
Proof.
  intros Hs Ha. unfold settled. destruct ((0 <? s) && (0 <? a)) eqn:Hg; [|lia]. bool_to_prop.
  destruct (u64_checked_mul a i) as [r|] eqn:Hc; simpl; [|lia]. apply checked_some in Hc as [-> Hr].
  apply Z.div_le_lower_bound; nia.
Qed.

Lemma compound_index_ok i r n : is_u64 i -> 0 <= r -> 0 <= n ->
  is_u64 (compound_index i r n) /\ i <= compound_index i r n /\
  (i * r * n <= U64_MAX -> i + i * r * n / (BPS * SLOTS_PER_YEAR) <= U64_MAX ->
   compound_index i r n = i + i * r * n / (BPS * SLOTS_PER_YEAR)).
Proof.
  intros Hi Hr Hn. unfold compound_index. rewrite (checked_in _ _ (BPS * SLOTS_PER_YEAR)) by (split; by vm_compute).
  change (0 <? BPS * SLOTS_PER_YEAR) with true. cbv beta iota.
  destruct (u64_checked_mul i r) as [x|] eqn:Hx; cbn [mbind option_bind].
  - apply checked_some in Hx as [-> Hx]. destruct (u64_checked_mul (i * r) n) as [y|] eqn:Hy.
    + apply checked_some in Hy as [-> Hy]. assert (0 <= i * r * n / (BPS * SLOTS_PER_YEAR)) by (apply Z.div_pos; [ilia|done]).
      split; [auto|]. split; [unfold clamp; ilia|]. intros _ Hf. apply clamp_in. ilia.
    + apply checked_none in Hy. split; [done|]. split; [lia|]. intros Hf _. destruct Hy. split; [|done]. ilia.
  - apply checked_none in Hx. split; [done|]. split; [lia|]. intros Hf _.
    destruct (Z.eq_dec n 0) as [->|]; [rewrite Z.mul_0_r, Z.div_0_l by done; lia|]. destruct Hx. split; [ilia|]. unfold is_u64, in_range in *. nia.
Qed.

(** ** Types *)

Lemma settle_well_typed m p : well_typed m -> well_typed p -> well_typed (settle_user_interest m p).
Proof.
  intros (? & ? & ? & ? & ? & ? & ? & ? & ? & ? & ? & ? & ?) (? & ? & ? & ? & ? & ? & ?).
  unfold well_typed, UserPosition_well_typed. simpl. split_and!; try done; by apply settled_u64.
Qed.

Lemma rates_well_typed d b m : well_typed m -> is_u64 d -> is_u64 b -> well_typed (recalculate_rates (with_totals d b m)).
Proof.
  intros (? & ? & ? & ? & ? & ? & ? & ? & ? & ? & ? & ? & ?) Hd Hb. assert (Hu : is_u64 (calculate_utilization d b)).
  { apply utilization_u64; [done|ilia]. }
  unfold well_typed, LendingMarket_well_typed, recalculate_rates, with_rates, with_totals. simpl.
  assert (is_u64 (calculate_interest_rate (calculate_utilization d b))) by (apply interest_rate_u64; ilia).
  split_and!; try done. apply div_u64; [|done].
  destruct (u64_checked_mul _ _) as [r|] eqn:Hc; simpl; [|by vm_compute]. by apply checked_some in Hc as [-> ?].
Qed.

Lemma refresh_well_typed m d b p : well_typed m -> well_typed p -> is_u64 d -> is_u64 b ->
  well_typed (refresh_position m (with_amounts d b p)).
Proof.
  intros (? & ? & ? & ? & ? & ? & ? & ? & ? & ? & ? & ? & ?) (? & ? & ? & ? & ? & ? & ?) Hd Hb.
  unfold well_typed, UserPosition_well_typed, refresh_position. simpl. split_and!; try done. by apply health_u64.
Qed.

(** The amounts of a position and the parameters of a market are in range. *)
Lemma position_ranges p : well_typed p -> is_u64 (up_deposited_amount p) /\ is_u64 (up_borrowed_amount p).
Proof. unfold well_typed, UserPosition_well_typed. tauto. Qed.
Lemma market_ranges m : well_typed m ->
  is_u64 (lm_total_deposits m) /\ is_u64 (lm_total_borrows m) /\ is_u64 (lm_ltv_ratio m) /\ is_u64 (lm_liquidation_threshold m) /\
  is_u64 (lm_liquidation_bonus m).
Proof. unfold well_typed, LendingMarket_well_typed. tauto. Qed.

(** ** What the instructions do to a market and to a position *)

Definition dep (p : UserPosition) : Z := up_deposited_amount p.
Definition bor (p : UserPosition) : Z := up_borrowed_amount p.

(** The collateral covers the debt at the liquidation threshold of the market. *)
Definition covered (m : LendingMarket) (p : UserPosition) : Prop := bor p * BPS <= dep p * lm_liquidation_threshold m.

(** What a liquidator that repays [r] takes. *)
Definition seized (m : LendingMarket) (r : Z) (p : UserPosition) : Z :=
  Z.min (Z.min (r * default BPS (u64_checked_add BPS (lm_liquidation_bonus m))) U64_MAX / BPS) (dep p).

Lemma seized_bounds m r q : 0 <= r -> 0 <= dep q -> is_u64 (lm_liquidation_bonus m) ->
  0 <= default BPS (u64_checked_add BPS (lm_liquidation_bonus m)) /\ 0 <= seized m r q <= dep q /\
  seized m r q * BPS <= r * (BPS + lm_liquidation_bonus m).
Proof.
  intros Hr Hd Hbo. unfold seized. set (f := default BPS _).
  assert (Hf : 0 <= f <= BPS + lm_liquidation_bonus m).
  { subst f. destruct (u64_checked_add _ _) as [f|] eqn:Hf; simpl; [|unfold BPS; ilia].
    apply checked_some in Hf as [-> [? _]]. done. }
  assert (0 <= Z.min (r * f) U64_MAX) by (apply Z.min_glb; [nia|by vm_compute]).
  assert (0 <= Z.min (r * f) U64_MAX / BPS) by (by apply Z.div_pos).
  pose proof (Z.mul_div_le (Z.min (r * f) U64_MAX) BPS ltac:(done)). unfold BPS in *. split_and!; [lia|lia|lia|nia].
Qed.

(** [q] is the position with its interest settled and [k] the signer. *)
Inductive lend_step (k : Pubkey) (m : LendingMarket) (q : UserPosition)
    : LendingInstruction -> LendingMarket -> UserPosition -> Prop :=
| step_deposit a m' :
    m' = recalculate_rates (with_totals (lm_total_deposits m + a) (lm_total_borrows m) m) ->
    lend_step k m q (Deposit a) m' (refresh_position m' (with_amounts (dep q + a) (bor q) q))
| step_withdraw a m' :
    up_owner q = k -> a <= dep q -> (bor q = 0 \/ covered m (with_amounts (dep q - a) (bor q) q)) ->
    m' = recalculate_rates (with_totals (u64_saturating_sub (lm_total_deposits m) a) (lm_total_borrows m) m) ->
    lend_step k m q (Withdraw a) m' (refresh_position m' (with_amounts (dep q - a) (bor q) q))
| step_borrow a m' :
    up_owner q = k -> (bor q + a) * BPS <= dep q * lm_ltv_ratio m ->
    m' = recalculate_rates (with_totals (lm_total_deposits m) (lm_total_borrows m + a) m) ->
    lend_step k m q (Borrow a) m' (refresh_position m' (with_amounts (dep q) (bor q + a) q))
| step_repay a m' :
    up_owner q = k -> a <= bor q ->
    m' = recalculate_rates (with_totals (lm_total_deposits m) (u64_saturating_sub (lm_total_borrows m) a) m) ->
    lend_step k m q (Repay a) m' (refresh_position m' (with_amounts (dep q) (bor q - a) q))
| step_liquidate a r c m' :
    r = Z.min a (bor q) -> c = seized m r q -> 0 < bor q -> (~ covered m q \/ U64_MAX < dep q * lm_liquidation_threshold m) ->
    m' = recalculate_rates (with_totals (u64_saturating_sub (lm_total_deposits m) c) (u64_saturating_sub (lm_total_borrows m) r) m) ->
    lend_step k m q (Liquidate a) m' (refresh_position m' (with_amounts (dep q - c) (bor q - r) q)).

(** ** Accounts *)

Section Accounts.
Context {BM : Borsh LendingMarket} {BP : Borsh UserPosition} {LM : BorshLaws LendingMarket} {LP : BorshLaws UserPosition}
  {SM : BorshSized LendingMarket LendingMarket_LEN} {SP : BorshSized UserPosition UserPosition_LEN}.

Lemma load_market_ok ia s m s' :
  load_market ia s = Ok (m, s') <-> holds (mem s) (ia_key ia) m /\ lm_is_initialized m = true /\ s' = s.
Proof.
  unfold load_market. split.
  - intros H. pinv. bool_to_prop. done.
  - intros (Hh & Hi & ->). prun. by rewrite Hi.
Qed.

(** The two values are written to two accounts: a market leaves no room behind it. *)
Lemma store_both_ok (m : LendingMarket) m' p' mk pk s u s' : holds (mem s) (ia_key mk) m -> well_typed m' -> well_typed p' ->
  store_both m' p' mk pk s = Ok (u, s') <->
  ia_key pk <> ia_key mk /\ UserPosition_LEN <= zlen (acc_data (get_acc (mem s) (ia_key pk))) /\
  s' = mkPState (stored p' (ia_key pk) (stored m' (ia_key mk) (mem s))) (rt s).
Proof.
  intros Hm Wm Wp. apply holds_zlen in Hm. pose proof (borsh_sized m' Wm) as Hzm. pose proof (borsh_sized p' Wp) as Hzp.
  unfold store_both. destruct (Z.eqb_spec (ia_key pk) (ia_key mk)) as [He|Hne].
  - split; [|by intros []]. intros H. pinv. unfold serialize_after in H. pinv. simpl in *. bool_to_prop. exfalso.
    rewrite He, stored_data in *. rewrite Hzm, Hzp in *.
    hyp (UserPosition_LEN <= _) as Hx. unfold zlen in Hx. rewrite length_drop, length_overwrite in Hx by (unfold zlen in *; lia).
    unfold zlen in Hm. unfold UserPosition_LEN, LendingMarket_LEN in *. lia.
  - cbv beta iota zeta. change (serialize_after 0 p' pk) with (serialize_into p' pk).
    rewrite pbind_ok. setoid_rewrite serialize_into_ok. split.
    + intros (? & ? & [? ->] & Hx & ->). simpl in Hx. rewrite stored_ne, Hzp in Hx by done. done.
    + intros (_ & Hl & ->). eexists tt, _. split; [split; [lia|done]|]. simpl. split; [|done]. rewrite stored_ne by done. lia.
Qed.
End Accounts.

(** ** Instructions *)

(** The position a deposit works on: the stored one, or a new one. *)
Definition opened (k mk : Pubkey) (m : LendingMarket) (o : option UserPosition) : UserPosition :=
  let p := default (mkPosition false k mk 0 0 (lm_cumulative_deposit_index m) (lm_cumulative_borrow_index m) U64_MAX) o in
  if up_is_initialized p then p
  else mkPosition true k mk (up_deposited_amount p) (up_borrowed_amount p) (lm_cumulative_deposit_index m)
         (lm_cumulative_borrow_index m) (up_health_factor p).
Definition is_deposit (i : LendingInstruction) : Prop := match i with Deposit _ => True | _ => False end.
Definition on_position (i : LendingInstruction) : Prop := match i with InitializeMarket | AccrueInterest => False | _ => True end.

Section Instructions.
Context {BM : Borsh LendingMarket} {BP : Borsh UserPosition} {BI : Borsh LendingInstruction}
  {LM : BorshLaws LendingMarket} {LP : BorshLaws UserPosition} {LI : BorshLaws LendingInstruction}
  {SM : BorshSized LendingMarket LendingMarket_LEN} {SP : BorshSized UserPosition UserPosition_LEN}.
Context (cx : Ctx).

Definition position_read (i : LendingInstruction) (k mk pk : Pubkey) (m : LendingMarket) (st : gmap Pubkey Account)
    (p : UserPosition) : Prop :=
  (is_deposit i -> p = opened k mk m (try_from_slice (acc_data (get_acc st pk)))) /\ (~ is_deposit i -> holds st pk p).

(** The effect of an instruction on the market and the position it is given. *)
Definition lend_effect (i : LendingInstruction) (s s' : PState) : Prop :=
  exists mk pk sk rest m p m' p', cx_accounts cx = mk :: pk :: sk :: rest /\ ia_is_signer sk = true /\
    holds (mem s) (ia_key mk) m /\ lm_is_initialized m = true /\
    position_read i (ia_key sk) (ia_key mk) (ia_key pk) m (mem s) p /\
    ia_key pk <> ia_key mk /\ UserPosition_LEN <= zlen (acc_data (get_acc (mem s) (ia_key pk))) /\
    s' = mkPState (stored p' (ia_key pk) (stored m' (ia_key mk) (mem s))) (rt s) /\
    well_typed m' /\ well_typed p' /\ lend_step (ia_key sk) m (settle_user_interest m p) i m' p'.

Lemma opened_well_typed k mk m o : is_pubkey k -> is_pubkey mk -> well_typed m ->
  (forall p, o = Some p -> well_typed p) -> well_typed (opened k mk m o).
Proof.
  intros Hk Hmk (? & ? & ? & ? & ? & ? & ? & ? & ? & ? & ? & ? & ?) Ho. unfold opened, well_typed, UserPosition_well_typed.
  assert (is_u64 0 /\ is_u64 U64_MAX) by (split; split; by vm_compute).
  destruct o as [p|]; simpl; [|tauto]. destruct (Ho p eq_refl) as (? & ? & ? & ? & ? & ? & ?).
  destruct (up_is_initialized p); simpl; tauto.
Qed.

(** Names the market a run has loaded and the accounts. *)
Ltac open_market m Hm Wm Hacc :=
  pinv; bool_to_prop;
  match goal with Hl : load_market _ _ = Ok (?x, _) |- _ => rename x into m; apply load_market_ok in Hl as (Hm & ? & ->) end;
  pose proof (holds_well_typed _ _ _ Hm) as Wm; hyp (cx_accounts cx = _) as Hacc.

Ltac fold_settled m p :=
  change (settled (up_deposited_amount p) (lm_cumulative_deposit_index m) (up_deposit_index_snapshot p))
    with (dep (settle_user_interest m p)) in *;
  change (settled (up_borrowed_amount p) (lm_cumulative_borrow_index m) (up_borrow_index_snapshot p))
    with (bor (settle_user_interest m p)) in *;
  change (up_deposited_amount (settle_user_interest m p)) with (dep (settle_user_interest m p)) in *;
  change (up_borrowed_amount (settle_user_interest m p)) with (bor (settle_user_interest m p)) in *.

Lemma lend_deposit_step a s s' : typed_inputs cx s -> is_u64 a -> deposit cx a s = Ok (tt, s') -> lend_effect (Deposit a) s s'.
Proof.
  intros Hty Ha H. unfold deposit in H. open_market m Hm Wm Hacc.
  pose proof (ti_keys _ _ Hty) as Hk. rewrite Hacc, !Forall_cons in Hk. destruct Hk as (? & ? & ? & _).
  match type of H with store_both _ (refresh_position _ (with_amounts _ _ (settle_user_interest _ ?p))) _ _ _ = _ => set (q := p) in * end.
  assert (Wq : well_typed q) by (apply opened_well_typed; try done; intros ? [? _]%try_from_slice_some; done).
  pose proof (settle_well_typed _ _ Wm Wq) as Ws. destruct (position_ranges _ Ws), (market_ranges _ Wm) as (? & ? & _).
  assert (Wm' : well_typed (recalculate_rates (with_totals (lm_total_deposits m + a) (lm_total_borrows m) m))) by (by apply rates_well_typed).
  apply (store_both_ok m) in H as (Hne & Hl & ->); [|done|done|by apply refresh_well_typed].
  eexists _, _, _, _, m, q, _, _. split_and!; [exact Hacc|done|done|done| |done|done|done|done| |by apply step_deposit].
  - split; [done|]. intros []. exact I.
  - by apply refresh_well_typed.
Qed.

(** The other handlers read the position and end alike. *)
Lemma stored_step i mk pk sk rest m p m' d b s u s' :
  cx_accounts cx = mk :: pk :: sk :: rest -> ia_is_signer sk = true -> holds (mem s) (ia_key mk) m -> lm_is_initialized m = true ->
  holds (mem s) (ia_key pk) p -> ~ is_deposit i -> well_typed m' -> is_u64 d -> is_u64 b ->
  lend_step (ia_key sk) m (settle_user_interest m p) i m' (refresh_position m' (with_amounts d b (settle_user_interest m p))) ->
  store_both m' (refresh_position m' (with_amounts d b (settle_user_interest m p))) mk pk s = Ok (u, s') -> lend_effect i s s'.
Proof.
  intros Hacc Hsk Hm Hi Hp Hd Wm' Hdd Hb Hst H. apply holds_well_typed in Hm as Wm. apply holds_well_typed in Hp as Wp.
  pose proof (settle_well_typed _ _ Wm Wp) as Ws.
  apply (store_both_ok m) in H as (Hne & Hl & ->); [|done|done|by apply refresh_well_typed].
  eexists mk, pk, sk, rest, m, p, _, _. split_and!; try done. by apply refresh_well_typed.
Qed.

Lemma lend_withdraw_step a s s' : is_u64 a -> withdraw cx a s = Ok (tt, s') -> lend_effect (Withdraw a) s s'.
Proof.
  intros Ha H. unfold withdraw in H. open_market m Hm Wm Hacc. read UserPosition as p Hp.
  apply holds_well_typed in Hp as Wp. pose proof (settle_well_typed _ _ Wm Wp) as Ws.
  destruct (position_ranges _ Ws) as [Hd Hb], (market_ranges _ Wm) as (? & ? & _ & Ht & _). fold_settled m p.
  rewrite (u64_sub_in (dep _)) in * by ilia.
  eapply stored_step; [done|done|done|done|done|intros []| | | | |exact H]; [by apply rates_well_typed|ilia|done|].
  apply step_withdraw; [by bool_to_prop|done| |done].
  hyp (_ && _ = false) as Hh. apply andb_false_iff in Hh as [Hz|Hh]; bool_to_prop; [left; ilia|].
  destruct (Z.eq_dec (bor (settle_user_interest m p)) 0) as [|Hnz]; [by left|right].
  apply health_covers in Hh; [|ilia|done|done|ilia]. unfold covered, dep, bor. simpl. unfold dep in Hh. simpl in Hh. lia.
Qed.

Lemma repay_step a s s' : is_u64 a -> repay cx a s = Ok (tt, s') -> lend_effect (Repay a) s s'.
Proof.
  intros Ha H. unfold repay in H. open_market m Hm Wm Hacc. read UserPosition as p Hp.
  apply holds_well_typed in Hp as Wp. pose proof (settle_well_typed _ _ Wm Wp) as Ws.
  destruct (position_ranges _ Ws) as [Hd Hb], (market_ranges _ Wm) as (? & ? & _). fold_settled m p.
  rewrite (u64_sub_in (bor _)) in * by ilia.
  eapply stored_step; [done|done|done|done|done|intros []| | | | |exact H]; [by apply rates_well_typed|done|ilia|].
  by apply step_repay; bool_to_prop.
Qed.

Lemma borrow_step a s s' : is_u64 a -> borrow cx a s = Ok (tt, s') -> lend_effect (Borrow a) s s'.
Proof.
  intros Ha H. unfold borrow in H. open_market m Hm Wm Hacc. read UserPosition as p Hp.
  apply holds_well_typed in Hp as Wp. pose proof (settle_well_typed _ _ Wm Wp) as Ws.
  destruct (position_ranges _ Ws) as [Hd Hb], (market_ranges _ Wm) as (? & ? & Hl & _). 
  eapply stored_step; [done|done|done|done|done|intros []| | | | |exact H]; [by apply rates_well_typed|done|done|].
  apply step_borrow; [by bool_to_prop| |done]. fold_settled m p.
  destruct (dropped_mul (dep (settle_user_interest m p)) (lm_ltv_ratio m)) as [_ Hdm].
  hyp (_ <= default 0 _ / BPS) as Hle. pose proof (Z.mul_div_le (default 0 (u64_checked_mul (dep (settle_user_interest m p)) (lm_ltv_ratio m))) BPS ltac:(done)).
  assert (0 <= dep (settle_user_interest m p) * lm_ltv_ratio m) by ilia. unfold BPS in *. lia.
Qed.

Lemma liquidate_step a s s' : is_u64 a -> liquidate cx a s = Ok (tt, s') -> lend_effect (Liquidate a) s s'.
Proof.
  intros Ha H. unfold liquidate in H. open_market m Hm Wm Hacc. read UserPosition as p Hp.
  apply holds_well_typed in Hp as Wp. pose proof (settle_well_typed _ _ Wm Wp) as Ws.
  destruct (position_ranges _ Ws) as [Hd Hb], (market_ranges _ Wm) as (? & ? & _ & Ht & Hbo). fold_settled m p.
  set (q := settle_user_interest m p) in *. set (r := Z.min a (bor q)) in *. assert (0 <= r <= bor q) by ilia.
  assert (Hz : bor q <> 0) by (intros Hz; hyp (calculate_health_factor _ _ _ < _) as Hh; rewrite Hz in Hh; by vm_compute in Hh).
  hyp (calculate_health_factor _ _ _ < _) as Hh. apply Z.lt_nge in Hh. rewrite health_covers in Hh by (done || ilia).
  destruct (seized_bounds m r q) as (Hf & Hsz & _); [lia|ilia|done|].
  rewrite capped_mul in H by lia. fold (seized m r q) in H.
  rewrite (u64_sub_in (dep q)), (u64_sub_in (bor q)) in H by ilia.
  eapply stored_step; [done|done|done|done|done|intros []| | | | |exact H]; [by apply rates_well_typed|ilia|ilia|].
  fold q. eapply step_liquidate; [done|done|ilia| |done]. unfold covered. lia.
Qed.

(** The market after [n] slots of interest, at slot [t]. *)
Definition accrued (n t : Z) (m : LendingMarket) : LendingMarket :=
  let interest := interest_accrued m n in
  with_slot t (recalculate_rates
    (with_totals (u64_saturating_add (lm_total_deposits m) interest) (u64_saturating_add (lm_total_borrows m) interest)
       (with_indices (compound_index (lm_cumulative_deposit_index m) (lm_deposit_rate m) n)
          (compound_index (lm_cumulative_borrow_index m) (lm_borrow_rate m) n) m))).

Lemma accrued_well_typed n t m : is_u64 n -> is_u64 t -> well_typed m -> well_typed (accrued n t m).
Proof.
  intros Hn Ht (? & ? & ? & ? & ? & ? & ? & ? & ? & ? & ? & ? & ?). unfold accrued.
  set (d := u64_saturating_add (lm_total_deposits m) _). set (b := u64_saturating_add (lm_total_borrows m) _).
  assert (Wm : well_typed (recalculate_rates (with_totals d b (with_indices
    (compound_index (lm_cumulative_deposit_index m) (lm_deposit_rate m) n)
    (compound_index (lm_cumulative_borrow_index m) (lm_borrow_rate m) n) m)))).
  { apply rates_well_typed; [|apply u64_add_u64..]. unfold well_typed, LendingMarket_well_typed. simpl.
    split_and!; try done; apply compound_index_ok; done || ilia. }
  destruct Wm as (? & ? & ? & ? & ? & ? & ? & ? & ? & ? & ? & ? & ?). unfold well_typed, LendingMarket_well_typed. by split_and!.
Qed.

Lemma accrue_ok s s' : is_u64 (clk_slot (cx_clock cx)) ->
  accrue_interest cx s = Ok (tt, s') <->
  exists mk rest m, cx_accounts cx = mk :: rest /\ holds (mem s) (ia_key mk) m /\ lm_is_initialized m = true /\
    let t := clk_slot (cx_clock cx) in
    (t <= lm_last_update_slot m /\ s' = s \/
     lm_last_update_slot m < t /\ s' = mkPState (stored (accrued (t - lm_last_update_slot m) t m) (ia_key mk) (mem s)) (rt s)).
Proof.
  intros Hc. unfold accrue_interest. split.
  - intros H. open_market m Hm Wm Hacc; (eexists _, _, m; split; [exact Hacc|]; split; [done|]; split; [done|]; cbv zeta); [by left|right].
    split; [done|]. rewrite u64_sub_in; [done| |done]. unfold well_typed, LendingMarket_well_typed in Wm. naive_solver ilia.
  - intros (mk & rest & m & Hacc & Hm & Hi & Hs). rewrite Hacc. prun. apply pbind_ok. exists m, s. split; [by apply load_market_ok|].
    apply holds_well_typed in Hm as Wm. apply holds_zlen in Hm as Hz. prun. cbv beta zeta in *. destruct Hs as [[Hle ->]|[Hlt ->]].
    + by rewrite (proj2 (Z.leb_le _ _) Hle).
    + rewrite (proj2 (Z.leb_gt _ _) Hlt). assert (Hls : is_u64 (lm_last_update_slot m)) by (unfold well_typed, LendingMarket_well_typed in Wm; tauto).
      rewrite u64_sub_in by (done || ilia). apply serialize_into_ok. split; [|done].
      rewrite Hz, borsh_sized; [done|]. apply (accrued_well_typed _ _ m); [ilia|done|done].
Qed.

Lemma lend_instruction_step data i s s' : typed_inputs cx s ->
  try_from_slice data = Some i -> on_position i -> process_instruction cx data s = Ok (tt, s') -> lend_effect i s s'.
Proof.
  intros Hty Hde Hon H. apply try_from_slice_some in Hde as Hw. destruct Hw as [Wi _].
  unfold process_instruction in H. rewrite Hde in H. cbn [ok_or lift pbind] in H. destruct i; try done.
  - by apply lend_deposit_step.
  - by apply lend_withdraw_step.
  - by apply borrow_step.
  - by apply repay_step.
  - by apply liquidate_step.
Qed.
End Instructions.

(** ** Types and parameters are kept *)

(** The market that the bytes of position [p] in front of market [m] denote. *)
Definition overlaid (p : UserPosition) (m : LendingMarket) : LendingMarket :=
  mkMarket (up_is_initialized p) (up_owner p) (up_market p) (up_deposited_amount p) (up_borrowed_amount p)
    (up_deposit_index_snapshot p) (up_borrow_index_snapshot p) (up_health_factor p) (lm_utilization_rate m) (lm_ltv_ratio m)
    (lm_liquidation_threshold m) (lm_liquidation_bonus m) (lm_cumulative_deposit_index m) (lm_cumulative_borrow_index m).
(** A market of zeros. *)
Definition blank : LendingMarket := mkMarket false 0 0 0 0 0 0 0 0 0 0 0 0 0.

(** The fields are encoded one after the other. *)
Class MarketLayout {BM : Borsh LendingMarket} {BP : Borsh UserPosition} : Prop := {
  decode_overlaid m p : well_typed m -> well_typed p ->
    try_from_slice (overwrite (borsh_ser p) (borsh_ser m)) = Some (overlaid p m);
  decode_blank : try_from_slice (replicate (Z.to_nat LendingMarket_LEN) Byte.x00) = Some blank;
}.

Definition same_risk (m m' : LendingMarket) : Prop :=
  lm_ltv_ratio m' = lm_ltv_ratio m /\ lm_liquidation_threshold m' = lm_liquidation_threshold m /\
  lm_liquidation_bonus m' = lm_liquidation_bonus m.

Section Kept.
Context {BM : Borsh LendingMarket} {BP : Borsh UserPosition} {BI : Borsh LendingInstruction}
  {LM : BorshLaws LendingMarket} {LP : BorshLaws UserPosition} {LI : BorshLaws LendingInstruction}
  {SM : BorshSized LendingMarket LendingMarket_LEN} {SP : BorshSized UserPosition UserPosition_LEN} {ML : MarketLayout}.

Definition lend_inputs (cx : Ctx) (s : PState) : Prop := typed_inputs cx s /\ is_u64 (clk_slot (cx_clock cx)).

Definition keeps (k : Pubkey) (m : LendingMarket) (s' : PState) : Prop :=
  exists m', holds (mem s') k m' /\ same_risk m m'.

Lemma lend_step_risk k m q i m' p' : lend_step k m q i m' p' -> same_risk m m'.
Proof. destruct 1; by subst. Qed.

(** A position over a market leaves a market with the same parameters. *)
Lemma overlaid_keeps k m p mm : holds mm k m -> well_typed p -> holds (stored p k mm) k (overlaid p m).
Proof.
  intros [Wm Hd]%try_from_slice_some Wp. unfold holds. rewrite stored_data, Hd. by apply decode_overlaid.
Qed.

Lemma effect_keeps cx i s s' k m : lend_effect cx i s s' -> holds (mem s) k m -> keeps k m s'.
Proof.
  intros (mk & pk & sk & rest & m0 & p & m' & p' & _ & _ & Hm0 & _ & _ & Hne & _ & -> & Wm' & Wp' & Hst) Hk. unfold keeps. simpl.
  assert (Hmid : exists m1, holds (stored m' (ia_key mk) (mem s)) k m1 /\ same_risk m m1).
  { destruct (decide (k = ia_key mk)) as [->|Hk']; [|exists m; by rewrite holds_stored_ne].
    assert (m0 = m) as -> by (by eapply holds_inj). exists m'.
    split; [|by eapply lend_step_risk]. apply (holds_stored (n := LendingMarket_LEN)); [by eapply holds_zlen|done]. }
  destruct Hmid as (m1 & H1 & Hr). destruct (decide (k = ia_key pk)) as [->|Hk']; [|exists m1; by rewrite holds_stored_ne].
  exists (overlaid p' m1). split; [by apply overlaid_keeps|done].
Qed.

Lemma initialize_ok cx s s' :
  initialize_market cx s = Ok (tt, s') -> exists mk au tm rest m0,
    cx_accounts cx = mk :: au :: tm :: rest /\ ia_is_signer au = true /\
    m0 = default (mkMarket false 0 0 0 0 0 BASE_RATE_BPS 0 0 LTV_RATIO_BPS LIQUIDATION_THRESHOLD_BPS
                    LIQUIDATION_BONUS_BPS 1000000000 1000000000) (try_from_slice (acc_data (get_acc (mem s) (ia_key mk)))) /\
    lm_is_initialized m0 = false /\
    let m1 := mkMarket true (ia_key au) (ia_key tm) (lm_total_deposits m0) (lm_total_borrows m0) (lm_deposit_rate m0)
      (lm_borrow_rate m0) (clk_slot (cx_clock cx)) (lm_utilization_rate m0) (lm_ltv_ratio m0) (lm_liquidation_threshold m0)
      (lm_liquidation_bonus m0) (lm_cumulative_deposit_index m0) (lm_cumulative_borrow_index m0) in
    zlen (borsh_ser m1) <= zlen (acc_data (get_acc (mem s) (ia_key mk))) /\
    s' = mkPState (stored m1 (ia_key mk) (mem s)) (rt s).
Proof. unfold initialize_market. intros H. pinv. bool_to_prop. hyp (cx_accounts cx = _) as Hacc. by eexists _, _, _, _, _. Qed.

Lemma dispatch cx data s s' : process_instruction cx data s = Ok (tt, s') -> exists i, try_from_slice data = Some i.
Proof.
  unfold process_instruction. intros H. apply pbind_ok in H as (i & ? & Hd & _). apply lift_ok in Hd as [Hd _].
  apply ok_or_ok in Hd. by exists i.
Qed.

Lemma market_kept cx data s s' k m : lend_inputs cx s ->
  process_instruction cx data s = Ok (tt, s') -> holds (mem s) k m -> keeps k m s'.
Proof.
  intros [Hty Hc] H Hk. destruct (dispatch _ _ _ _ H) as [i Hde].
  assert (on_position i \/ i = InitializeMarket \/ i = AccrueInterest) as [Hon|[->| ->]] by (destruct i; simpl; tauto).
  { eapply effect_keeps; [by eapply lend_instruction_step|done]. }
  all: unfold process_instruction in H; rewrite Hde in H; cbn [ok_or lift pbind] in H.
  - apply initialize_ok in H as (mk & au & tm & rest & m0 & Hacc & _ & Hm0 & _ & _ & ->). unfold keeps. simpl.
    destruct (decide (k = ia_key mk)) as [->|Hne]; [|exists m; by rewrite holds_stored_ne]. apply holds_well_typed in Hk as Wm.
    unfold holds in Hk. rewrite Hk in Hm0. simpl in Hm0. subst m0. eexists. split.
    + apply (holds_stored (n := LendingMarket_LEN)); [by eapply holds_zlen|]. pose proof (ti_keys _ _ Hty) as Hks.
      rewrite Hacc, !Forall_cons in Hks. unfold well_typed, LendingMarket_well_typed in *. simpl. tauto.
    + done.
  - apply accrue_ok in H as (mk & rest & m0 & Hacc & Hm0 & _ & [[_ ->]|[Hlt ->]]); [by exists m| |done]. unfold keeps. simpl.
    destruct (decide (k = ia_key mk)) as [->|Hne]; [|exists m; by rewrite holds_stored_ne].
    assert (m0 = m) as -> by (by eapply holds_inj). apply holds_well_typed in Hk as Wm. eexists. split.
    + apply (holds_stored (n := LendingMarket_LEN)); [by eapply holds_zlen|]. apply accrued_well_typed; [|done|done].
      unfold well_typed, LendingMarket_well_typed in Wm. naive_solver ilia.
    + done.
Qed.

(** A position stays one: it is too short to be a market. *)
Lemma not_both mm k (m : LendingMarket) (p : UserPosition) : holds mm k m -> holds mm k p -> False.
Proof. intros H1%holds_zlen H2%holds_zlen. rewrite H1 in H2. by vm_compute in H2. Qed.

Lemma position_kept cx data s s' k (p : UserPosition) : lend_inputs cx s ->
  process_instruction cx data s = Ok (tt, s') -> holds (mem s) k p -> exists p' : UserPosition, holds (mem s') k p'.
Proof.
  intros [Hty Hc] H Hk. apply holds_zlen in Hk as Hz. destruct (dispatch _ _ _ _ H) as [i Hde].
  assert (on_position i \/ i = InitializeMarket \/ i = AccrueInterest) as [Hon|[->| ->]] by (destruct i; simpl; tauto).
  { destruct (lend_instruction_step _ _ _ _ _ Hty Hde Hon H)
      as (mk & pk & sk & rest & m0 & q & m' & p' & _ & _ & Hm0 & _ & _ & Hne & _ & -> & _ & Wp' & _). simpl.
    destruct (decide (k = ia_key mk)) as [->|Hk']; [by destruct (not_both _ _ _ _ Hm0 Hk)|].
    destruct (decide (k = ia_key pk)) as [->|Hk'']; [|exists p; by rewrite !holds_stored_ne].
    exists p'. apply (holds_stored (n := UserPosition_LEN)); [by rewrite stored_ne|done]. }
  all: unfold process_instruction in H; rewrite Hde in H; cbn [ok_or lift pbind] in H.
  - apply initialize_ok in H as (mk & au & tm & rest & m0 & Hacc & _ & Hm0 & _ & Hfit & ->). simpl.
    destruct (decide (k = ia_key mk)) as [->|Hne]; [exfalso|exists p; by rewrite holds_stored_ne].
    rewrite Hz, borsh_sized in Hfit; [by vm_compute in Hfit|]. pose proof (ti_keys _ _ Hty) as Hks.
    rewrite Hacc, !Forall_cons in Hks. assert (well_typed m0).
    { subst m0. destruct (try_from_slice _) as [m0|] eqn:Hd; [by apply try_from_slice_some in Hd as [? _]|].
      unfold well_typed, LendingMarket_well_typed. simpl. split_and!; split; by vm_compute. }
    unfold well_typed, LendingMarket_well_typed in *. simpl. tauto.
  - apply accrue_ok in H as (mk & rest & m0 & Hacc & Hm0 & _ & [[_ ->]|[Hlt ->]]); [by exists p| |done]. simpl.
    destruct (decide (k = ia_key mk)) as [->|Hne]; [by destruct (not_both _ _ _ _ Hm0 Hk)|exists p; by rewrite holds_stored_ne].
Qed.

(** ** A market whose loan-to-value ratio is 0 *)

(** The runs of the program. *)
Definition lend_run (s s' : PState) : Prop :=
  exists cx data, lend_inputs cx s /\ process_instruction cx data s = Ok (tt, s').

Lemma ltv_kept k m m' mk : history lend_run k m m' -> holds m k mk -> exists mk', holds m' k mk' /\ same_risk mk mk'.
Proof.
  intros Hh Hk. eapply (history_invariant _ _ (fun m => exists mk', holds m k mk' /\ same_risk mk mk')); [| |exact Hh|by exists mk].
  - intros s s' (cx & data & Hin & Hrun) (mk' & Hm & Hr). destruct (market_kept _ _ _ _ _ _ Hin Hrun Hm) as (mk'' & ? & ?).
    exists mk''. split; [done|]. unfold same_risk in *. naive_solver congruence.
  - intros m1 m2 Hd (mk' & Hm & Hr). exists mk'. split; [|done]. by eapply holds_data.
Qed.

Lemma borrow_needs_ltv cx a s s' mk m :
  is_u64 a -> cx_accounts cx !! 0%nat = Some mk -> holds (mem s) (ia_key mk) m -> lm_ltv_ratio m = 0 ->
  borrow cx a s = Ok (tt, s') -> a = 0.
Proof.
  intros Ha Hk Hm H0 H. apply borrow_step in H as (mk' & pk & sk & rest & m0 & p & m' & p' & Hacc & _ & Hm0 & _ & Hp & _ & _ & _ & _ & _ & Hst); [|done].
  rewrite Hacc in Hk. injection Hk as <-. assert (m0 = m) as -> by (by eapply holds_inj).
  destruct Hp as [_ Hp]. assert (holds (mem s) (ia_key pk) p) as Hp' by (by apply Hp; intros []).
  pose proof (settle_well_typed _ _ (holds_well_typed _ _ _ Hm) (holds_well_typed _ _ _ Hp')) as Ws.
  destruct (position_ranges _ Ws) as [_ Hb]. inversion Hst as [| |? ? _ Hle _| |]; subst. rewrite H0 in Hle. unfold bor, BPS in Hle. ilia.
Qed.
End Kept.
