(* ===== verification/SolLendTheorems.v ===== *)
(** * SolLendTheorems: the properties of the lending program

    The theorems about [src/defi/sollend/program/src/lib.rs], and the evaluation
    of the program on concrete accounts in the Borsh wire format. *)

From Stdlib Require Import Strings.Byte.
From S2P Require Import Prelude Borsh Accounts System Invoke Execution Concrete Records Wire History SolLend SolLendProofs.
Open Scope Z_scope.

(** ** The data on the wire *)

Definition codec_user_position : codec UserPosition :=
  codec_iso (fun '(i, (o, (m, (d, (b, (ds, (bs, h))))))) => mkPosition i o m d b ds bs h)
    (fun p => (up_is_initialized p, (up_owner p, (up_market p, (up_deposited_amount p, (up_borrowed_amount p,
       (up_deposit_index_snapshot p, (up_borrow_index_snapshot p, up_health_factor p))))))))
    (codec_pair codec_bool (codec_pair codec_pubkey (codec_pair codec_pubkey (codec_pair (codec_uint 8) (codec_pair (codec_uint 8)
      (codec_pair (codec_uint 8) (codec_pair (codec_uint 8) (codec_uint 8)))))))).
Definition codec_lending_market : codec LendingMarket :=
  codec_iso (fun '(i, (a, (t, (d, (b, (dr, (br, (ls, (u, (l, (th, (bo, (di, bi))))))))))))) => mkMarket i a t d b dr br ls u l th bo di bi)
    (fun m => (lm_is_initialized m, (lm_authority m, (lm_token_mint m, (lm_total_deposits m, (lm_total_borrows m, (lm_deposit_rate m,
       (lm_borrow_rate m, (lm_last_update_slot m, (lm_utilization_rate m, (lm_ltv_ratio m, (lm_liquidation_threshold m,
       (lm_liquidation_bonus m, (lm_cumulative_deposit_index m, lm_cumulative_borrow_index m))))))))))))))
    (codec_pair codec_bool (codec_pair codec_pubkey (codec_pair codec_pubkey (codec_pair (codec_uint 8) (codec_pair (codec_uint 8)
      (codec_pair (codec_uint 8) (codec_pair (codec_uint 8) (codec_pair (codec_uint 8) (codec_pair (codec_uint 8) (codec_pair (codec_uint 8)
      (codec_pair (codec_uint 8) (codec_pair (codec_uint 8) (codec_pair (codec_uint 8) (codec_uint 8)))))))))))))).
Definition lending_instruction_index (i : LendingInstruction) : nat :=
  match i with
  | InitializeMarket => 0 | Deposit _ => 1 | Withdraw _ => 2 | Borrow _ => 3 | Repay _ => 4 | Liquidate _ => 5 | AccrueInterest => 6
  end.
Definition codec_lending_instruction : codec LendingInstruction :=
  codec_variants
    [mkVariant codec_unit (fun _ => InitializeMarket) (fun i => match i with InitializeMarket => Some tt | _ => None end);
     mkVariant (codec_uint 8) Deposit (fun i => match i with Deposit a => Some a | _ => None end);
     mkVariant (codec_uint 8) Withdraw (fun i => match i with Withdraw a => Some a | _ => None end);
     mkVariant (codec_uint 8) Borrow (fun i => match i with Borrow a => Some a | _ => None end);
     mkVariant (codec_uint 8) Repay (fun i => match i with Repay a => Some a | _ => None end);
     mkVariant (codec_uint 8) Liquidate (fun i => match i with Liquidate a => Some a | _ => None end);
     mkVariant codec_unit (fun _ => AccrueInterest) (fun i => match i with AccrueInterest => Some tt | _ => None end)]
    lending_instruction_index.

Lemma codec_user_position_laws : codec_laws codec_user_position.
Proof. apply codec_iso_laws; [by intros []|by intros (?&?&?&?&?&?&?&?)|]. auto 20 with codec. Qed.
Lemma codec_user_position_wf p : well_typed p <-> c_wf codec_user_position p.
Proof. unfold codec_user_position, well_typed, UserPosition_well_typed. codec_typed. Qed.
Lemma codec_user_position_size : c_size codec_user_position UserPosition_LEN.
Proof. codec_size. Qed.
Lemma codec_lending_market_laws : codec_laws codec_lending_market.
Proof. apply codec_iso_laws; [by intros []|by intros (?&?&?&?&?&?&?&?&?&?&?&?&?&?)|]. auto 30 with codec. Qed.
Lemma codec_lending_market_wf m : well_typed m <-> c_wf codec_lending_market m.
Proof. unfold codec_lending_market, well_typed, LendingMarket_well_typed. codec_typed. Qed.
Lemma codec_lending_market_size : c_size codec_lending_market LendingMarket_LEN.
Proof. codec_size. Qed.
Lemma codec_lending_instruction_laws : codec_laws codec_lending_instruction.
Proof.
  apply codec_variants_laws; [simpl; lia|repeat apply Forall_cons_2; simpl; auto 15 with codec| |].
  - intros [|[|[|[|[|[|[|]]]]]]] v a [= <-]; simpl in a; repeat match goal with x : unit |- _ => destruct x end; done.
  - intros [] v a [= <-]; simpl; by intros [= <-].
Qed.
Lemma codec_lending_instruction_wf i : well_typed i <-> c_wf codec_lending_instruction i.
Proof. destruct i; unfold well_typed, LendingInstruction_well_typed, codec_lending_instruction; codec_variant_typed. Qed.

#[global] Instance user_position_borsh : Borsh UserPosition := borsh_of_codec codec_user_position.
#[global] Instance user_position_borsh_laws : BorshLaws UserPosition := borsh_of_codec_laws _ codec_user_position_laws codec_user_position_wf.
#[global] Instance user_position_borsh_sized : BorshSized UserPosition UserPosition_LEN :=
  borsh_of_codec_sized _ _ codec_user_position_size codec_user_position_wf.
#[global] Instance lending_market_borsh : Borsh LendingMarket := borsh_of_codec codec_lending_market.
#[global] Instance lending_market_borsh_laws : BorshLaws LendingMarket :=
  borsh_of_codec_laws _ codec_lending_market_laws codec_lending_market_wf.
#[global] Instance lending_market_borsh_sized : BorshSized LendingMarket LendingMarket_LEN :=
  borsh_of_codec_sized _ _ codec_lending_market_size codec_lending_market_wf.
#[global] Instance lending_instruction_borsh : Borsh LendingInstruction := borsh_of_codec codec_lending_instruction.
#[global] Instance lending_instruction_borsh_laws : BorshLaws LendingInstruction :=
  borsh_of_codec_laws _ codec_lending_instruction_laws codec_lending_instruction_wf.

(** A market is encoded as the position with its first eight fields and the six others. *)
Definition market_head (m : LendingMarket) : UserPosition :=
  mkPosition (lm_is_initialized m) (lm_authority m) (lm_token_mint m) (lm_total_deposits m) (lm_total_borrows m) (lm_deposit_rate m)
    (lm_borrow_rate m) (lm_last_update_slot m).
Definition market_tail (m : LendingMarket) : list byte :=
  le_bytes 8 (lm_utilization_rate m) ++ le_bytes 8 (lm_ltv_ratio m) ++ le_bytes 8 (lm_liquidation_threshold m) ++
  le_bytes 8 (lm_liquidation_bonus m) ++ le_bytes 8 (lm_cumulative_deposit_index m) ++ le_bytes 8 (lm_cumulative_borrow_index m).
Lemma market_split m : borsh_ser m = borsh_ser (market_head m) ++ market_tail m.
Proof. unfold borsh_ser; cbn -[le_bytes]. by rewrite <- ?app_assoc. Qed.

#[global] Instance lending_layout : MarketLayout.
Proof.
  split; [|vm_compute; reflexivity]. intros m p Wm Wp.
  assert (Wh : well_typed (market_head m)) by (unfold well_typed, LendingMarket_well_typed, UserPosition_well_typed in *; simpl; tauto).
  assert (Wo : well_typed (overlaid p m)) by (unfold well_typed, LendingMarket_well_typed, UserPosition_well_typed in *; simpl; tauto).
  rewrite market_split. unfold overwrite.
  pose proof (borsh_sized _ Wh) as Hh. pose proof (borsh_sized _ Wp) as Hp. unfold zlen in Hh, Hp.
  rewrite drop_app_ge by lia. replace (length (borsh_ser p) - length (borsh_ser (market_head m)))%nat with 0%nat by lia.
  rewrite drop_0. assert (borsh_ser p ++ market_tail m = borsh_ser (overlaid p m)) as ->.
  { rewrite (market_split (overlaid p m)). by destruct p. }
  by apply try_from_slice_ser.
Qed.

(** ** An example *)

Module SolLendDemo.
Definition PROGRAM : Pubkey := 101.
Definition market : LendingMarket :=
  mkMarket true 800 11 100000 40000 160 400 1000 4000 8000 8500 500 1000000000 1000000000.
(** A position of 900 that has put up 1000 and owes 500. *)
Definition position : UserPosition := mkPosition true 900 500 1000 500 1000000000 1000000000 17000.
Definition accounts : list (Pubkey * Account) :=
  [(500, mkAccount 1000000 (borsh_ser market) PROGRAM false);
   (501, mkAccount 1000000 (borsh_ser position) PROGRAM false);
   (502, mkAccount 1000000 (replicate 153 Byte.x00) PROGRAM false)].
Definition state : PState := mkPState (store accounts) (mkTA (store accounts) 0 0).
Definition len (k : Pubkey) : Z := zlen (acc_data (get_acc (store accounts) k)).
Definition cx (l : list AccountInfo) : Ctx := mkCtx PROGRAM l [] (mkClock 78841000 0 0 0 5000) len.
Definition user_cx : Ctx := cx [mkIA 500 false true; mkIA 501 false true; mkIA 900 true false].
Definition create_cx : Ctx := cx [mkIA 502 false true; mkIA 800 true false; mkIA 11 false false].
Definition takeover_cx : Ctx := cx [mkIA 500 false true; mkIA 502 false true; mkIA 666 true false].

Lemma lend_typed (c : Ctx) : Forall (fun ia => is_pubkey (ia_key ia)) (cx_accounts c) -> cx_clock c = mkClock 78841000 0 0 0 5000 ->
  lend_inputs c state.
Proof.
  intros Hk Hc. split; [split; [done|rewrite Hc; by split; vm_compute|]|rewrite Hc; by split; vm_compute].
  intros k. apply data_bound_store; [evaluate|]. repeat constructor; evaluate.
Qed.
Lemma lend_runs :
  is_ok (process_instruction user_cx (borsh_ser (Borrow 300)) state) &&
  is_ok (process_instruction create_cx (borsh_ser InitializeMarket) state) &&
  is_ok (process_instruction user_cx (borsh_ser AccrueInterest) state) = true.
Proof. vm_compute. reflexivity. Qed.
End SolLendDemo.

(** ** Properties *)

Section SolLendProperties.
Context {BM : Borsh LendingMarket} {BP : Borsh UserPosition} {BI : Borsh LendingInstruction}
  {LM : BorshLaws LendingMarket} {LP : BorshLaws UserPosition} {LI : BorshLaws LendingInstruction}
  {SM : BorshSized LendingMarket LendingMarket_LEN} {SP : BorshSized UserPosition UserPosition_LEN} {ML : MarketLayout}.

(** C20. Stored values keep their types: whatever instruction of the lending
    program succeeds, on whatever accounts, an account that holds a market with
    all fields in range still holds one, with the same loan-to-value ratio,
    liquidation threshold and bonus, and an account that holds a position with
    all fields in range still holds one. *)
Theorem lending_types_kept cx data s s' : lend_inputs cx s -> process_instruction cx data s = Ok (tt, s') ->
  (forall k (m : LendingMarket), holds (mem s) k m -> exists m', holds (mem s') k m' /\ well_typed m' /\ same_risk m m') /\
  (forall k (p : UserPosition), holds (mem s) k p -> exists p' : UserPosition, holds (mem s') k p' /\ well_typed p').
Proof.
  intros Hin Hrun. split; intros k v Hv.
  - destruct (market_kept _ _ _ _ _ _ Hin Hrun Hv) as (m' & Hm & Hr). exists m'. split_and!; [done|by eapply holds_well_typed|done..].
  - destruct (position_kept _ _ _ _ _ _ Hin Hrun Hv) as (p' & Hp). exists p'. split; [done|by eapply holds_well_typed].
Qed.

(** C13. Loans are covered: who borrows or withdraws owns the position and has
    signed, and afterwards the collateral at the liquidation threshold covers the
    debt; after a loan it does so at the loan-to-value ratio.  A liquidation
    needs a debt that is not covered, or a product of collateral and threshold
    beyond 64 bits; it repays no more than the debt and takes no more than the
    collateral and the repayment with the bonus.  Nothing but the market and the
    position changes. *)
Theorem loans_covered cx data i s s' : lend_inputs cx s -> try_from_slice data = Some i -> on_position i -> ~ is_deposit i ->
  process_instruction cx data s = Ok (tt, s') ->
  exists mk pk sk rest (m : LendingMarket) (p : UserPosition) (m' : LendingMarket) (p' : UserPosition),
    cx_accounts cx = mk :: pk :: sk :: rest /\ ia_is_signer sk = true /\
    holds (mem s) (ia_key mk) m /\ holds (mem s) (ia_key pk) p /\
    s' = mkPState (stored p' (ia_key pk) (stored m' (ia_key mk) (mem s))) (rt s) /\
    holds (mem s') (ia_key mk) m' /\ holds (mem s') (ia_key pk) p' /\
    let q := settle_user_interest m p in
    match i with
    | Withdraw a => up_owner p = ia_key sk /\ dep p' = dep q - a /\ bor p' = bor q /\ (bor p' = 0 \/ covered m p')
    | Borrow a => up_owner p = ia_key sk /\ dep p' = dep q /\ bor p' = bor q + a /\ bor p' * BPS <= dep p' * lm_ltv_ratio m /\
        (lm_ltv_ratio m <= lm_liquidation_threshold m -> covered m p')
    | Repay a => up_owner p = ia_key sk /\ dep p' = dep q /\ bor p' = bor q - a /\ 0 <= bor p'
    | Liquidate a => exists r c, bor p' = bor q - r /\ dep p' = dep q - c /\ r = Z.min a (bor q) /\ 0 <= c <= dep q /\
        c * BPS <= r * (BPS + lm_liquidation_bonus m) /\ (~ covered m q \/ U64_MAX < dep q * lm_liquidation_threshold m)
    | _ => True
    end.
Proof.
  intros [Hty Hc] Hde Hon Hnd Hrun. apply try_from_slice_some in Hde as Hwi. destruct Hwi as [Wi _].
  destruct (lend_instruction_step _ _ _ _ _ Hty Hde Hon Hrun)
    as (mk & pk & sk & rest & m & p & m' & p' & Hacc & Hs & Hm & Hi & [_ Hp] & Hne & Hl & -> & Wm' & Wp' & Hst).
  specialize (Hp Hnd). exists mk, pk, sk, rest, m, p, m', p'. cbn [mem].
  split_and!; [done|done|done|done|done| | |].
  - rewrite holds_stored_ne by congruence. apply (holds_stored (A := LendingMarket) (n := LendingMarket_LEN)); [by eapply holds_zlen|done].
  - apply (holds_stored (A := UserPosition) (n := UserPosition_LEN)); [|done]. rewrite stored_ne by done. by eapply holds_zlen.
  - cbv zeta. pose proof (settle_well_typed _ _ (holds_well_typed _ _ _ Hm) (holds_well_typed _ _ _ Hp)) as Ws.
    destruct (position_ranges _ Ws) as [Hd Hb]. destruct (market_ranges _ (holds_well_typed _ _ _ Hm)) as (_ & _ & _ & _ & Hbo).
    destruct Hst; subst; simpl in Hnd; try done; unfold covered in *; cbn in *.
    + split_and!; try done. intros ?. etrans; [eassumption|]. apply Z.mul_le_mono_nonneg_l; [apply Hd|done].
    + split_and!; try done. unfold bor in *; lia.
    + eexists _, _. destruct (seized_bounds m (Z.min a (bor (settle_user_interest m p))) (settle_user_interest m p)) as (_ & ? & ?);
        [apply Z.min_glb; [exact (proj1 Wi)|exact (proj1 Hb)]|exact (proj1 Hd)|done|].
      split; [done|]. split; [done|]. split; [done|]. split; [done|]. split; [done|]. assumption.
Qed.

(** C33. No market ever lends: an account is all zeros before it is a market, its
    zeros are a market with a loan-to-value ratio of 0, which no instruction
    changes, [InitializeMarket] included; so whatever has happened since, a
    loan of a positive amount fails on every such market. *)
Theorem market_never_lends cx data a m s mk :
  acc_data (get_acc m (ia_key mk)) = replicate (Z.to_nat LendingMarket_LEN) Byte.x00 ->
  history lend_run (ia_key mk) m (mem s) -> lend_inputs cx s -> cx_accounts cx !! 0%nat = Some mk ->
  try_from_slice data = Some (Borrow a) -> 0 < a ->
  exists e, process_instruction cx data s = Err e.
Proof.
  intros Hz Hh Hin Hk Hd Ha. destruct (process_instruction cx data s) as [[[] s']|e] eqn:Hrun; [exfalso|by exists e].
  destruct (ltv_kept _ _ _ blank Hh) as (m' & Hm & Hr & _); [unfold holds; rewrite Hz; apply decode_blank|].
  unfold process_instruction in Hrun. rewrite Hd in Hrun. cbn [ok_or lift pbind] in Hrun. apply try_from_slice_some in Hd as [Wi _].
  apply (borrow_needs_ltv _ _ _ _ mk m') in Hrun; done || lia.
Qed.

(** Accrual of interest goes through for any initialized market, needs no
    signature, and is exact: a market that is up to date is left alone, another
    one gets the interest of the slots since its last update; its indices never
    fall, and they grow by the documented product as long as that fits. *)
Theorem lending_accrual_exact cx s s' : is_u64 (clk_slot (cx_clock cx)) ->
  (accrue_interest cx s = Ok (tt, s') <->
   exists mk rest m, cx_accounts cx = mk :: rest /\ holds (mem s) (ia_key mk) m /\ lm_is_initialized m = true /\
     let t := clk_slot (cx_clock cx) in
     (t <= lm_last_update_slot m /\ s' = s \/
      lm_last_update_slot m < t /\ s' = mkPState (stored (accrued (t - lm_last_update_slot m) t m) (ia_key mk) (mem s)) (rt s))) /\
  (forall n t m, well_typed m -> 0 <= n ->
     let m' := accrued n t m in
     lm_cumulative_deposit_index m <= lm_cumulative_deposit_index m' /\ lm_cumulative_borrow_index m <= lm_cumulative_borrow_index m' /\
     lm_last_update_slot m' = t /\
     (let i := lm_cumulative_borrow_index m in let r := lm_borrow_rate m in
      i * r * n <= U64_MAX -> i + i * r * n / (BPS * SLOTS_PER_YEAR) <= U64_MAX ->
      lm_cumulative_borrow_index m' = i + i * r * n / (BPS * SLOTS_PER_YEAR))).
Proof.
  intros Hc. split; [by apply accrue_ok|]. intros n t m (? & ? & ? & ? & ? & ? & ? & ? & ? & ? & ? & ? & ?) Hn. cbn.
  split; [apply compound_index_ok; done || ilia|]. split; [apply compound_index_ok; done || ilia|]. split; [done|].
  intros. apply compound_index_ok; done || ilia.
Qed.

(** The interest-rate curve: on the documented range of the utilization, 0 to
    10000 basis points, the rate is the documented two-slope curve, between 2%
    and 81%, it never falls as the utilization rises, and the two slopes meet
    at 6% and 80%. *)
Theorem interest_curve u v : 0 <= u <= v -> v <= BPS ->
  calculate_interest_rate u = curve u /\ 200 <= calculate_interest_rate u <= calculate_interest_rate v /\
  calculate_interest_rate v <= 8100 /\ curve 8000 = 600 /\ 600 + 15 * (8000 - 8000) / 4 = curve 8000.
Proof.
  intros Hu Hv. unfold BPS in Hv. rewrite !interest_rate_curve by ilia. split; [done|]. unfold curve.
  pose proof (Z.div_pos u 20 ltac:(lia) ltac:(lia)). pose proof (Z.div_le_mono u v 20 ltac:(lia) ltac:(lia)).
  destruct (Z.leb_spec u 8000), (Z.leb_spec v 8000); try lia.
  - pose proof (Z.div_le_upper_bound v 20 400). repeat split; lia.
  - pose proof (Z.div_pos (15 * (v - 8000)) 4 ltac:(lia) ltac:(lia)). pose proof (Z.div_le_upper_bound u 20 400 ltac:(lia) ltac:(lia)).
    pose proof (Z.div_le_upper_bound (15 * (v - 8000)) 4 7500 ltac:(lia) ltac:(lia)). repeat split; lia.
  - pose proof (Z.div_pos (15 * (u - 8000)) 4 ltac:(lia) ltac:(lia)).
    pose proof (Z.div_le_mono (15 * (u - 8000)) (15 * (v - 8000)) 4 ltac:(lia) ltac:(lia)).
    pose proof (Z.div_le_upper_bound (15 * (v - 8000)) 4 7500 ltac:(lia) ltac:(lia)). repeat split; lia.
Qed.

(** A covered position can be liquidated when the product of its collateral and
    the threshold leaves 64 bits: the health factor saturates below 1. *)
Example large_position_unhealthy :
  calculate_health_factor (10 ^ 19) (2 * 10 ^ 15) 8500 = 9223 /\ 2 * 10 ^ 15 * BPS <= 10 ^ 19 * 8500.
Proof. split; [vm_compute; reflexivity|by vm_compute]. Qed.

(** Interest whose product leaves 64 bits is dropped: half a year at 12%
    on a new index. *)
Example long_interval_drops_interest : compound_index 1000000000 1200 39420000 = 1000000000.
Proof. vm_compute. reflexivity. Qed.
End SolLendProperties.

(** Anybody takes over a market: a deposit into another market with the market
    as position account overwrites its authority, its mint and its totals. *)
Example deposit_overwrites_market : exists s',
  process_instruction SolLendDemo.takeover_cx (borsh_ser (Deposit 7)) SolLendDemo.state = Ok (tt, s') /\
  holds (mem s') 502 (mkMarket true 666 500 7 0 1000000000 1000000000 U64_MAX 0 0 0 0 0 0).
Proof. eexists. split; [vm_compute; reflexivity|vm_compute; reflexivity]. Qed.

(** ** The hypotheses can hold *)

Lemma lending_types_kept_witness : exists s',
  process_instruction SolLendDemo.user_cx (borsh_ser (Borrow 300)) SolLendDemo.state = Ok (tt, s') /\
  exists p' : UserPosition, holds (mem s') 501 p' /\ well_typed p'.
Proof.
  destruct (process_instruction SolLendDemo.user_cx (borsh_ser (Borrow 300)) SolLendDemo.state) as [[[] s']|e] eqn:Hrun;
    [|pose proof SolLendDemo.lend_runs as Hk; rewrite Hrun in Hk; discriminate Hk].
  exists s'. split; [exact eq_refl|].
  refine (proj2 (lending_types_kept SolLendDemo.user_cx _ _ _ _ Hrun) 501 SolLendDemo.position _);
    [apply SolLendDemo.lend_typed; [repeat constructor; evaluate|exact eq_refl]|evaluate].
Defined.

Lemma loans_covered_witness : exists s' p',
  process_instruction SolLendDemo.user_cx (borsh_ser (Borrow 300)) SolLendDemo.state = Ok (tt, s') /\
  bor p' = 800 /\ dep p' = 1000.
Proof.
  destruct (process_instruction SolLendDemo.user_cx (borsh_ser (Borrow 300)) SolLendDemo.state) as [[[] s']|e] eqn:Hrun;
    [|pose proof SolLendDemo.lend_runs as Hk; rewrite Hrun in Hk; discriminate Hk].
  destruct (loans_covered SolLendDemo.user_cx (borsh_ser (Borrow 300)) (Borrow 300) SolLendDemo.state s')
    as (mk & pk & sk & rest & m & p & m' & p' & Hacc & _ & Hm & Hp & _ & _ & _ & _ & Hd & Hb & _);
    [apply SolLendDemo.lend_typed; [repeat constructor; evaluate|exact eq_refl]|evaluate|exact I|intros []|exact Hrun|].
  exists s', p'. split; [exact eq_refl|]. injection Hacc as <- <- <- <-.
  assert (Hp0 : holds (mem SolLendDemo.state) 501 SolLendDemo.position) by evaluate.
  assert (Hm0 : holds (mem SolLendDemo.state) 500 SolLendDemo.market) by evaluate.
  rewrite (holds_inj _ _ _ _ Hp Hp0), (holds_inj _ _ _ _ Hm Hm0) in Hd, Hb.
  rewrite Hb, Hd. split; vm_compute; reflexivity.
Defined.

Lemma market_never_lends_witness : exists e,
  process_instruction SolLendDemo.create_cx (borsh_ser (Borrow 5)) SolLendDemo.state = Err e.
Proof.
  apply (market_never_lends SolLendDemo.create_cx _ 5 (mem SolLendDemo.state) SolLendDemo.state (mkIA 502 false true));
    [evaluate|apply history_refl|apply SolLendDemo.lend_typed; [repeat constructor; evaluate|exact eq_refl]|evaluate|evaluate|evaluate].
Defined.

Lemma lending_accrual_exact_witness : exists s', accrue_interest SolLendDemo.user_cx SolLendDemo.state = Ok (tt, s').
Proof.
  eexists. apply (proj1 (lending_accrual_exact SolLendDemo.user_cx SolLendDemo.state _ ltac:(split; vm_compute; discriminate))).
  eexists _, _, SolLendDemo.market. split; [exact eq_refl|]. split; [evaluate|]. split; [exact eq_refl|].
  right. split; [evaluate|exact eq_refl].
Defined.

Lemma interest_curve_witness : calculate_interest_rate 9000 = 4350 /\ calculate_interest_rate 9500 <= 8100.
Proof.
  destruct (interest_curve 9000 9500) as (H1 & _ & H2 & _); [split; vm_compute; discriminate|vm_compute; discriminate|].
  split; [rewrite H1; vm_compute; reflexivity|exact H2].
Defined.
