(* ===== verification/TokenCpi.v ===== *)
(** * TokenCpi: calls of the token program, and what a call demands of the caller

    The programs under [src/nft-marketplace] and [src/defi/scusd] move tokens by
    calls of the SPL token program, whose sources are not part of the
    repository: the builders of its instructions and the amounts in its accounts
    are parameters, and its documented behaviour is two classes of laws.  The
    file also has the facts about calls that those programs depend on: the
    balances that reach the callee must add up, only a blank account can be
    created, and a call of the token program has its documented effect on the
    memory of the caller. *)

From Stdlib Require Import Strings.Byte.
From S2P Require Import Prelude Borsh Accounts System Invoke Execution Cpi.
Open Scope Z_scope.

(** Names the run of the operation [f] in a handler. *)
Ltac head_of t := match t with ?f _ => head_of f | _ => t end.
Tactic Notation "call" constr(f) "as" ident(H) :=
  match goal with X : ?l = _ |- _ => let h := head_of l in constr_eq h f; rename X into H end.

(** ** The token program *)

(** The builders of [spl_token::instruction] that the programs use.  Each takes
    the program, two accounts, the authority and the amount. *)
Class Token := {
  token_program_id : Pubkey;
  (** [transfer(token_program, source, destination, authority, &[], amount)] *)
  token_transfer : Pubkey -> Pubkey -> Pubkey -> Pubkey -> Z -> result InstructionError Instruction;
  (** [mint_to(token_program, mint, account, owner, &[], amount)] *)
  token_mint_to : Pubkey -> Pubkey -> Pubkey -> Pubkey -> Z -> result InstructionError Instruction;
  (** [burn(token_program, account, mint, authority, &[], amount)] *)
  token_burn : Pubkey -> Pubkey -> Pubkey -> Pubkey -> Z -> result InstructionError Instruction;
}.

(** A builder checks the program id and passes the two accounts as writable and
    the authority as signer. *)
Definition builds {T : Token} (builder : Pubkey -> Pubkey -> Pubkey -> Pubkey -> Z -> result InstructionError Instruction) : Prop :=
  forall p a b authority amount ix, builder p a b authority amount = Ok ix ->
    p = token_program_id /\ ix_program_id ix = token_program_id /\
    ix_accounts ix = [mkIA a false true; mkIA b false true; mkIA authority true false].

(** Documented behaviour: the builders, and that the program changes the data of
    its own accounts only. *)
Class TokenLaws {E : Env} {T : Token} : Prop := {
  token_transfer_ix : builds token_transfer;
  token_mint_to_ix : builds token_mint_to;
  token_burn_ix : builds token_burn;
  token_not_system : token_program_id <> system_program_id;
  token_foreign ias d ta ta' k :
    exec_program token_program_id ias d ta = Ok ta' -> acc_owner (get_acc (ta_accounts ta) k) <> token_program_id ->
    acc_data (get_acc (ta_accounts ta') k) = acc_data (get_acc (ta_accounts ta) k) /\
    acc_owner (get_acc (ta_accounts ta') k) = acc_owner (get_acc (ta_accounts ta) k);
}.

(** The amount in a token account and the supply of a mint. *)
Class TokenAmounts := {
  token_balance : list byte -> Z;
  token_supply : list byte -> Z;
}.

Definition at_key (k : Pubkey) (amount : Z) (j : Pubkey) : Z := if decide (j = k) then amount else 0.

(** What the instructions of [builder] do to the amounts [f] of the accounts. *)
Definition changes {E : Env} {T : Token} (builder : Pubkey -> Pubkey -> Pubkey -> Pubkey -> Z -> result InstructionError Instruction)
    (f : list byte -> Z) (d : Pubkey -> Pubkey -> Z -> Pubkey -> Z) : Prop :=
  forall p a b authority amount ix ias ta ta' k,
    builder p a b authority amount = Ok ix -> ia_key <$> ias = [a; b; authority] ->
    exec_program token_program_id ias (ix_data ix) ta = Ok ta' ->
    f (acc_data (get_acc (ta_accounts ta') k)) = f (acc_data (get_acc (ta_accounts ta) k)) + d a b amount k.

(** Documented behaviour: a transfer moves tokens between accounts, minting and
    burning change an account and the supply of its mint. *)
Class TokenMoves {E : Env} {T : Token} {A : TokenAmounts} : Prop := {
  transfer_balance : changes token_transfer token_balance (fun a b x k => at_key b x k - at_key a x k);
  transfer_supply : changes token_transfer token_supply (fun _ _ _ _ => 0);
  mint_to_balance : changes token_mint_to token_balance (fun _ b x k => at_key b x k);
  mint_to_supply : changes token_mint_to token_supply (fun a _ x k => at_key a x k);
  burn_balance : changes token_burn token_balance (fun a _ x k => - at_key a x k);
  burn_supply : changes token_burn token_supply (fun _ b x k => - at_key b x k);
}.

Section Calls.
Context {E : Env} {X : ExecLaws} (cx : Ctx).

(** ** The balances that reach the callee *)

(** One account of the instruction is passed on: an executable one as it is, any
    other with the changes of the caller. *)
Lemma translate_step infos memory t l ia st :
  translate_account cx infos memory (t, l) ia = Ok st -> lamports_ok memory -> lamports_ok (ta_accounts t) ->
  lamports_ok (ta_accounts st.1) /\
  (acc_executable (get_acc (ta_accounts t) (ia_key ia)) = true /\ st = (t, l) \/
   acc_executable (get_acc (ta_accounts t) (ia_key ia)) = false /\ st.2 = l ++ [ia] /\
   upd_acc (ia_key ia) (written (get_acc memory (ia_key ia))) (ta_accounts t) (ta_accounts st.1)).
Proof.
  intros H Hm Hr. unfold translate_account in H. rinv. destruct x as [i c].
  hyp (find_account _ _ = Some _) as Hf. apply find_account_some in Hf as [_ Hkey].
  case_match; [rinv; split; [done|by left]|]. case_match; [|done]. rinv. cbn [fst snd].
  hyp (update_callee_account _ _ _ _ = Ok _) as Hu.
  apply (update_callee_account_ok _ [c]) in Hu as [[_ _ _ R] U]; [|by left|apply Hm|done].
  rewrite Hkey in U. split; [by apply R|right]. by split_and!.
Qed.

(** The accounts of the instruction reach the callee with the balances the
    caller gave them, all others with those of the transaction. *)
Lemma translate_lamports infos memory l ta st :
  foldM (translate_account cx infos memory) (ta, []) l = Ok st -> lamports_ok memory -> lamports_ok (ta_accounts ta) ->
  (forall k, k ∈ ia_key <$> l -> acc_executable (get_acc (ta_accounts ta) k) = false) ->
  forall k, acc_lamports (get_acc (ta_accounts st.1) k) =
    acc_lamports (if decide (k ∈ ia_key <$> l) then get_acc memory k else get_acc (ta_accounts ta) k).
Proof.
  intros H Hm. revert ta H. generalize (@nil InstructionAccount) as acc.
  induction l as [|ia l IH]; intros acc ta H Hr Hx k; cbn [foldM] in H.
  { rinv. case_decide as Hd; [by apply not_elem_of_nil in Hd|done]. }
  rinv. destruct x as [t1 a1]. hyp (translate_account _ _ _ _ _ = Ok _) as Ht.
  apply translate_step in Ht as [R [[Ht _]|(_ & _ & U)]]; [by rewrite Hx in Ht by (rewrite fmap_cons; left)| |done..]. cbn [fst] in *.
  rewrite (IH _ _ H R).
  - rewrite fmap_cons, !U. repeat case_decide; subst; rewrite ?elem_of_cons in *; try done; naive_solver.
  - intros j Hj. assert (acc_executable (get_acc (ta_accounts ta) j) = false) by (apply Hx; rewrite fmap_cons; by right).
    rewrite U. by case_decide.
Qed.

(** A call is only made when these balances have the same total as before: the
    changes of the caller to the accounts it passes on must cancel out. *)
Lemma invoke_exchange ix infos seeds s u s' m :
  pstate_ok s -> ta_lamports_delta (rt s) = 0 ->
  (forall k, k ∈ ia_key <$> ix_accounts ix -> acc_executable (get_acc (ta_accounts (rt s)) k) = false) ->
  invoke_signed cx ix infos seeds s = Ok (u, s') ->
  (forall k, acc_lamports (get_acc m k) =
     acc_lamports (if decide (k ∈ ia_key <$> ix_accounts ix) then get_acc (mem s) k else get_acc (ta_accounts (rt s)) k)) ->
  total_lamports m = total_lamports (ta_accounts (rt s)).
Proof.
  intros [Hm Hr] Hd Hx H Hk. unfold invoke_signed in H. pinv.
  hyp (prepare_next_cpi_instruction _ _ _ _ = Ok _) as Hp. apply prepare_keys in Hp.
  hyp (foldM (translate_account _ _ _) _ _ = Ok _) as Ht.
  match type of Hp with ia_key <$> ?l = _ => rename l into callee end. rewrite <- Hp in *.
  assert (Hdd : forall k, k ∈ ia_key <$> dedup_accounts [] callee <-> k ∈ ia_key <$> callee).
  { intros k. rewrite dedup_accounts_keys. pose proof (not_elem_of_nil k). naive_solver. }
  assert (Hl := fun k => translate_lamports _ _ _ _ _ Ht Hm Hr (fun k Hk => Hx k (proj1 (Hdd k) Hk)) k).
  apply translate_balanced in Ht as [B _]; [|done..]. cbn [fst] in *.
  hyp (process_callee _ _ _ _ _ = Ok _) as Hc. unfold process_callee, push in Hc. rinv. bool_to_prop.
  transitivity (total_lamports (ta_accounts t)); [|lia]. apply total_ext. intros k. rewrite Hl, Hk.
  specialize (Hdd k). repeat case_decide; naive_solver.
Qed.

(** So a call fails when the caller has changed the balance of just one account
    that it passes on. *)
Lemma invoke_one_change ix infos seeds s u s' k0 :
  pstate_ok s -> ta_lamports_delta (rt s) = 0 ->
  (forall k, k ∈ ia_key <$> ix_accounts ix -> acc_executable (get_acc (ta_accounts (rt s)) k) = false) ->
  invoke_signed cx ix infos seeds s = Ok (u, s') ->
  (forall k, k ∈ ia_key <$> ix_accounts ix -> k <> k0 ->
     acc_lamports (get_acc (mem s) k) = acc_lamports (get_acc (ta_accounts (rt s)) k)) ->
  k0 ∈ ia_key <$> ix_accounts ix ->
  acc_lamports (get_acc (mem s) k0) = acc_lamports (get_acc (ta_accounts (rt s)) k0).
Proof.
  intros Hok Hd Hx H Hk Hk0. set (m := ta_accounts (rt s)) in *.
  assert (Ht : total_lamports (<[k0 := get_acc (mem s) k0]> m) = total_lamports m).
  { eapply invoke_exchange; [done|done|done|exact H|]. intros k. rewrite get_acc_insert.
    repeat case_decide; subst; try done. symmetry. by apply Hk. }
  rewrite total_insert in Ht. lia.
Qed.

(** ** Creating an account *)

Lemma system_create_blank cws ias lamports space owner ta ta' :
  system_process cws ias (CreateAccount lamports space owner) ta = Ok ta' ->
  exists ia, ias !! 1%nat = Some ia /\ acc_data (get_acc (ta_accounts ta) (ia_key ia)) = [].
Proof.
  intros H. simpl in H. unfold create_account, allocate_and_assign, allocate in H. rinv. bool_to_prop.
  unfold nth_account in *. rinv. simplify_eq. eexists. split; [done|]. hyp (zlen _ = 0) as Hz.
  apply nil_length_inv. unfold get_data, get_account, zlen in Hz. lia.
Qed.

Lemma translate_data infos memory l ta st k :
  foldM (translate_account cx infos memory) (ta, []) l = Ok st -> lamports_ok memory -> lamports_ok (ta_accounts ta) ->
  acc_data (get_acc (ta_accounts ta) k) = acc_data (get_acc memory k) ->
  acc_data (get_acc (ta_accounts st.1) k) = acc_data (get_acc memory k).
Proof.
  intros H Hm Hr Heq.
  refine (proj1 (foldM_invariant (fun st : TransactionAccounts * list InstructionAccount =>
    acc_data (get_acc (ta_accounts st.1) k) = acc_data (get_acc memory k) /\ lamports_ok (ta_accounts st.1))
    _ _ _ _ _ _ H)); [|done].
  intros [t1 l1] st2 ib _ [IH Hl] H1. apply translate_step in H1 as [R [[_ ->]|(_ & _ & U)]]; [done| |done..].
  split; [|done]. rewrite U. case_decide as Hd; [|done]. simpl. congruence.
Qed.

(** Only an account without data is created. *)
Lemma invoke_create_blank {L : EnvLaws} from to lamports space owner infos seeds s u s' :
  pstate_ok s -> acc_data (get_acc (ta_accounts (rt s)) to) = acc_data (get_acc (mem s) to) ->
  is_u64 lamports -> is_u64 space -> is_pubkey owner ->
  invoke_signed cx (create_account_ix from to lamports space owner) infos seeds s = Ok (u, s') ->
  acc_data (get_acc (mem s) to) = [].
Proof.
  intros [Hm Hr] Heq Hl Hs Ho H. unfold invoke_signed, create_account_ix in H. pinv.
  hyp (foldM (translate_account _ _ _) _ _ = Ok _) as Ht. apply (translate_data _ _ _ _ _ to) in Ht; [|done..].
  hyp (prepare_next_cpi_instruction _ _ _ _ = Ok _) as Hp. apply prepare_keys in Hp. simpl in Hp.
  hyp (process_callee _ _ _ _ _ = Ok _) as Hc. unfold process_callee, push, pop in Hc.
  cbn [ix_program_id ix_data] in Hc. rewrite Z.eqb_refl, decode_create_account in Hc by done. rinv.
  hyp (system_process _ _ _ _ = Ok _) as Hs'. apply system_create_blank in Hs' as (ia & Hi & Hd).
  assert (ia_key ia = to). { apply (f_equal (fun l => l !! 1%nat)) in Hp. rewrite list_lookup_fmap, Hi in Hp. naive_solver. }
  simpl in Ht. congruence.
Qed.

(** ** A call of the token program leaves the data of other programs alone *)

Lemma invoke_token_keeps {T : Token} {TL : TokenLaws} ix infos seeds s u s' k :
  pstate_ok s -> ix_program_id ix = token_program_id -> invoke_signed cx ix infos seeds s = Ok (u, s') ->
  acc_owner (get_acc (mem s) k) <> token_program_id ->
  acc_data (get_acc (mem s') k) = acc_data (get_acc (mem s) k) /\
  acc_owner (get_acc (mem s') k) = acc_owner (get_acc (mem s) k).
Proof.
  intros [Hm Hr] Hp H Ho. unfold invoke_signed in H. pinv. simpl.
  hyp (foldM (update_caller_account _ _) _ _ = Ok _) as Hu.
  apply (update_caller_source _ _ _ _ _ k) in Hu as [->|[(ia & Hia & <-) Hu]]; [done|].
  hyp (foldM (translate_account _ _ _) _ _ = Ok _) as Ht.
  destruct (translate_synced cx _ _ _ _ _ Ht Hm Hr ia Hia) as [Hd Hown]. cbn [fst] in *.
  hyp (process_callee _ _ _ _ _ = Ok _) as Hc. unfold process_callee, push, pop in Hc. rewrite Hp in Hc.
  rewrite (proj2 (Z.eqb_neq _ _) token_not_system) in Hc. rinv.
  hyp (exec_program _ _ _ _ = Ok _) as Hs. apply (token_foreign _ _ _ _ (ia_key ia)) in Hs as [F1 F2]; [|congruence].
  destruct Hu. split; congruence.
Qed.

(** ** The effect of a call of the token program *)

(** The first account [k] of [l] is writable. *)
Definition first_writable (l : list InstructionAccount) (k : Pubkey) : Prop :=
  exists i r, find_account l k = Some (i, r) /\ ia_is_writable r = true.

Lemma merge_meta_writable ta ias meta ias' k : merge_meta ta ias meta = Ok ias' ->
  first_writable ias k \/ ia_key meta = k /\ ia_is_writable meta = true -> first_writable ias' k.
Proof.
  intros H Hw. unfold merge_meta in H. case_match; [|done].
  destruct (find_account ias (ia_key meta)) as [[i ia]|] eqn:Hf; rinv; unfold first_writable; rewrite find_account_app.
  - apply find_account_some in Hf as Hi. destruct Hi as [_ Hkey].
    assert (Hkm : ia_key (or_flags ia meta) = ia_key meta) by done. rewrite <- Hkm in Hf.
    rewrite (find_account_insert _ _ _ _ _ Hf). case_decide as Hd.
    + eexists _, _. split; [done|]. simpl. destruct Hw as [(j & r & Hr & Hwr)|[_ Hwm]]; [|by rewrite Hwm, orb_true_r].
      rewrite Hd, Hf in Hr. simplify_eq. by rewrite Hwr.
    + destruct Hw as [(j & r & Hr & Hwr)|[<- _]]; [|done]. rewrite Hr. by exists j, r.
  - destruct Hw as [(j & r & Hr & Hwr)|[<- Hwm]]; [rewrite Hr; by exists j, r|]. rewrite Hf.
    unfold find_account. simpl. case_decide; [|done]. simpl. by eexists _, _.
Qed.

Lemma merge_metas_writable ta metas l l' k : foldM (merge_meta ta) l metas = Ok l' ->
  first_writable l k \/ (exists meta, meta ∈ metas /\ ia_key meta = k /\ ia_is_writable meta = true) -> first_writable l' k.
Proof.
  revert l. induction metas as [|m metas IH]; intros l H Hw; simpl in H; rinv.
  { destruct Hw as [?|(? & []%not_elem_of_nil & _)]; done. }
  hyp (merge_meta _ _ _ = Ok _) as Hm. apply (IH _ H).
  destruct Hw as [Hw|(m' & [->|Hx]%elem_of_cons & Hk)]; [left; by eapply merge_meta_writable; [|left]
    |left; by eapply merge_meta_writable; [|right]|right; by exists m'].
Qed.

Lemma check_loop_writable caller signers all n l ias k : check_loop caller signers all n l = Ok ias ->
  first_writable all k -> (forall j, l !! j = all !! (n + j)%nat) -> forall ia, ia ∈ ias -> ia_key ia = k -> ia_is_writable ia = true.
Proof.
  intros H (i0 & r & Hr & Hw). revert n ias H. induction l as [|ib l IH]; intros n ias H Hl ia Hia; simpl in H; rinv.
  { by apply not_elem_of_nil in Hia. }
  destruct x as [idx ref]. hyp (find_account all _ = Some _) as Hx.
  assert (Hl' : forall j, l !! j = all !! (S n + j)%nat) by (intros j; specialize (Hl (S j)); simpl in Hl; by rewrite Hl, Nat.add_succ_r).
  destruct (n =? idx)%nat eqn:Hn; rinv; apply elem_of_cons in Hia as [->|Hia]; try (by eapply IH); intros Hk.
  - apply Nat.eqb_eq in Hn as <-. rewrite Hk, Hr in Hx. simplify_eq. apply find_account_some in Hr as [Hr _].
    specialize (Hl 0%nat). rewrite Nat.add_0_r, Hr in Hl. simpl in Hl. congruence.
  - simpl in *. rewrite Hk, Hr in Hx. simplify_eq. by rewrite Hw, orb_true_r.
Qed.

(** An account of the instruction that is writable in one place is writable for
    the callee. *)
Lemma prepare_writable caller ix signers ta ias k : prepare_next_cpi_instruction caller ix signers ta = Ok ias ->
  (exists meta, meta ∈ ix_accounts ix /\ ia_key meta = k /\ ia_is_writable meta = true) ->
  forall ia, ia ∈ ias -> ia_key ia = k -> ia_is_writable ia = true.
Proof.
  intros H Hm. unfold prepare_next_cpi_instruction in H. rinv.
  hyp (foldM _ _ _ = Ok _) as Hf. hyp (check_loop _ _ _ _ _ = Ok _) as Hc.
  eapply check_loop_writable; [exact Hc| |done]. eapply merge_metas_writable; [exact Hf|by right].
Qed.

(** Every account that is not executable is passed on. *)
Lemma translate_passes infos memory l ta st ia :
  foldM (translate_account cx infos memory) (ta, []) l = Ok st -> lamports_ok memory -> lamports_ok (ta_accounts ta) ->
  ia ∈ l -> acc_executable (get_acc (ta_accounts ta) (ia_key ia)) = false -> ia ∈ st.2.
Proof.
  intros H Hm. revert H. generalize (@nil InstructionAccount) as acc. revert ta.
  induction l as [|ib l IH]; intros ta acc H Hr Hia Hx; [by apply not_elem_of_nil in Hia|]. cbn [foldM] in H. rinv.
  destruct x as [t1 a1]. hyp (translate_account _ _ _ _ _ = Ok _) as Ht. apply translate_step in Ht as [R Ht]; [|done..]. cbn [fst snd] in *.
  assert (Hkeep : forall t a st, foldM (translate_account cx infos memory) (t, a) l = Ok st -> ia ∈ a -> ia ∈ st.2).
  { intros t a st' H1 Ha. refine (foldM_invariant (fun st : TransactionAccounts * list InstructionAccount => ia ∈ st.2) _ _ _ _ _ _ H1); [|done].
    intros [t2 l2] st2 ic _ IH2 H2. unfold translate_account in H2. rinv. destruct x as [? ?]. repeat case_match; rinv; try done. simpl in *.
    apply elem_of_app. by left. }
  apply elem_of_cons in Hia as [->|Hia].
  - destruct Ht as [[Ht _]|(_ & -> & _)]; [congruence|]. eapply Hkeep; [exact H|]. apply elem_of_app. right. by apply list_elem_of_singleton.
  - eapply IH; [exact H|done|done|]. destruct Ht as [[_ [= -> _]]|(_ & _ & U)]; [done|]. rewrite U. by case_decide.
Qed.

Lemma update_caller_written l ta memory memory' k : foldM (update_caller_account cx ta) memory l = Ok memory' ->
  (exists ia, ia ∈ l /\ ia_key ia = k) -> (forall ia, ia ∈ l -> ia_key ia = k -> ia_is_writable ia = true) ->
  acc_data (get_acc memory' k) = acc_data (get_acc (ta_accounts ta) k).
Proof.
  revert memory. induction l as [|ib l IH]; intros memory H (ia & Hia & <-) Hw; [by apply not_elem_of_nil in Hia|]. cbn [foldM] in H. rinv.
  hyp (update_caller_account _ _ _ _ = Ok _) as Hu. unfold update_caller_account in Hu.
  destruct (decide (ia_key ia ∈ ia_key <$> l)) as [(ic & Hc & Hic)%list_elem_of_fmap|Hn].
  { apply (IH _ H); [by exists ic|]. intros; apply Hw; [by right|done]. }
  apply elem_of_cons in Hia as [->|Hia]; [|by destruct Hn; apply list_elem_of_fmap_2].
  rewrite Hw in Hu by (by left || done). simpl in Hu. rinv.
  apply (update_caller_frame _ _ _ _ _ (ia_key ib)) in H; [|intros ia Hia He; apply Hn; rewrite <- He; by apply list_elem_of_fmap_2].
  unfold get_acc at 1. by rewrite H, lookup_insert_eq.
Qed.

(** The amounts in the memory of the caller change as documented. *)
Lemma invoke_token_changes {T : Token} {TL : TokenLaws} builder f d p a b authority amount ix infos seeds s u s' k :
  builds builder -> changes builder f d -> (forall x, k <> a -> k <> b -> d a b x k = 0) -> pstate_ok s ->
  builder p a b authority amount = Ok ix -> invoke_signed cx ix infos seeds s = Ok (u, s') ->
  (k ∈ [a; b; authority] -> acc_executable (get_acc (ta_accounts (rt s)) k) = false) ->
  f (acc_data (get_acc (mem s') k)) = f (acc_data (get_acc (mem s) k)) + d a b amount k.
Proof.
  intros Hb Hc Hd [Hm Hr] Hix H Hx. apply Hb in Hix as Hshape. destruct Hshape as (_ & Hp & Hacc).
  destruct (decide (k ∈ [a; b; authority])) as [Hin|Hn]; swap 1 2.
  { rewrite (invoke_signed_get_acc _ _ _ _ _ _ _ _ H), Hd; [lia|intros ->; apply Hn; set_solver..|]. by rewrite Hacc. }
  specialize (Hx Hin). unfold invoke_signed in H. pinv. simpl. hyp (prepare_next_cpi_instruction _ _ _ _ = Ok _) as Hprep.
  assert (Hkeys := prepare_keys _ _ _ _ _ Hprep). rewrite Hacc in Hkeys. cbn in Hkeys.
  hyp (foldM (translate_account _ _ _) _ _ = Ok _) as Ht. hyp (foldM (update_caller_account _ _) _ _ = Ok _) as Hu.
  hyp (process_callee _ _ _ _ _ = Ok _) as Hrun. unfold process_callee, push, pop in Hrun. rewrite Hp in Hrun.
  rewrite (proj2 (Z.eqb_neq _ _) token_not_system) in Hrun. rinv. hyp (exec_program _ _ _ _ = Ok _) as Hexec.
  apply (Hc _ _ _ _ _ _ _ _ _ k Hix Hkeys) in Hexec. rewrite <- Hkeys in Hin.
  assert (Hin' := proj2 (dedup_accounts_keys [] _ k) (conj Hin (not_elem_of_nil k))).
  apply list_elem_of_fmap in Hin' as (ia & -> & Hia). pose proof (translate_passes _ _ _ _ _ _ Ht Hm Hr Hia Hx) as Hpass.
  pose proof (proj1 (translate_synced cx _ _ _ _ _ Ht Hm Hr ia Hpass)) as Hsync. cbn [fst snd] in *. rewrite Hsync in Hexec.
  destruct (decide (ia_key ia = a \/ ia_key ia = b)) as [Hab|Hab].
  - rewrite <- Hexec. f_equal. eapply update_caller_written; [exact Hu|by exists ia|]. intros ic Hic.
    apply (translate_keys _ _ _ _ _ _ Ht), dedup_accounts_sub in Hic. eapply prepare_writable; [exact Hprep| |done].
    rewrite Hacc. destruct Hab as [->| ->]; [exists (mkIA a false true)|exists (mkIA b false true)]; (split; [set_solver|done]).
  - rewrite Hd in * by naive_solver. apply (update_caller_source _ _ _ _ _ (ia_key ia)) in Hu as [->|(_ & -> & _)]; lia.
Qed.

(** ** What is created *)

Lemma set_lamports_keeps_data p ia l ta ta' k :
  set_lamports p ia l ta = Ok ta' -> acc_data (get_acc (ta_accounts ta') k) = acc_data (get_acc (ta_accounts ta) k).
Proof. intros H. rewrite (set_lamports_upd _ _ _ _ _ H). by case_decide. Qed.

Lemma set_data_length_data p ia n ta ta' : set_data_length p ia n ta = Ok ta' -> get_data ia ta = [] -> 0 <= n ->
  acc_data (get_acc (ta_accounts ta') (ia_key ia)) = replicate (Z.to_nat n) Byte.x00.
Proof.
  unfold set_data_length. intros H He Hn. rewrite He in H. rinv. change (zlen []) with 0 in H. destruct (Z.eqb_spec 0 n) as [<-|]; rinv.
  - unfold get_data, get_account in He. by rewrite He.
  - cbn [with_data put_account ta_accounts]. rewrite get_acc_insert_eq. unfold resize_data. simpl. by rewrite take_nil, Nat.sub_0_r.
Qed.

Lemma system_create_data cws ias lamports space owner ta ta' : 0 <= space ->
  system_process cws ias (CreateAccount lamports space owner) ta = Ok ta' ->
  exists ia, ias !! 1%nat = Some ia /\ acc_data (get_acc (ta_accounts ta') (ia_key ia)) = replicate (Z.to_nat space) Byte.x00.
Proof.
  intros Hs H. destruct (system_create_blank _ _ _ _ _ _ _ H) as (ia & Hia & Hb). exists ia. split; [done|]. simpl in H.
  unfold create_account, allocate_and_assign, allocate, assign, transfer, transfer_verified, checked_sub_lamports, checked_add_lamports in H.
  rinv. unfold nth_account in *. rinv. simplify_eq.
  repeat match goal with Hl : set_lamports _ _ _ _ = Ok ?t |- context [ta_accounts ?t] => rewrite (set_lamports_keeps_data _ _ _ _ _ _ Hl) end.
  hyp (set_data_length _ _ _ _ = Ok _) as Hd. apply set_data_length_data in Hd; [|done|done]. rewrite <- Hd.
  match goal with Ha : (if ?b then Ok _ else _) = Ok _ |- _ => destruct b; rinv; [done|] end.
  hyp (set_owner _ _ _ _ = Ok _) as Ho. rewrite (set_owner_upd _ _ _ _ _ Ho). by case_decide.
Qed.

(** A created account has the data of the caller's order: zeros. *)
Lemma invoke_create_data {L : EnvLaws} from to lamports space owner infos seeds s u s' :
  pstate_ok s -> acc_executable (get_acc (ta_accounts (rt s)) to) = false -> is_u64 lamports -> is_u64 space -> is_pubkey owner ->
  invoke_signed cx (create_account_ix from to lamports space owner) infos seeds s = Ok (u, s') ->
  acc_data (get_acc (mem s') to) = replicate (Z.to_nat space) Byte.x00.
Proof.
  intros [Hm Hr] Hx Hl Hs Ho H. unfold invoke_signed, create_account_ix in H. pinv. simpl.
  hyp (prepare_next_cpi_instruction _ _ _ _ = Ok _) as Hp. assert (Hkeys := prepare_keys _ _ _ _ _ Hp). simpl in Hkeys.
  match type of Hp with _ = Ok ?c => rename c into callee end.
  hyp (foldM (translate_account _ _ _) _ _ = Ok _) as Ht. hyp (foldM (update_caller_account _ _) _ _ = Ok _) as Hu.
  hyp (process_callee _ _ _ _ _ = Ok _) as Hc. unfold process_callee, push, pop in Hc.
  cbn [ix_program_id ix_data] in Hc. rewrite Z.eqb_refl, decode_create_account in Hc by done. rinv.
  hyp (system_process _ _ _ _ = Ok _) as Hs'. apply system_create_data in Hs' as (ia & Hi & <-); [|ilia].
  assert (ia_key ia = to) as Hk. { apply (f_equal (fun l => l !! 1%nat)) in Hkeys. rewrite list_lookup_fmap, Hi in Hkeys. naive_solver. }
  rewrite Hk. assert (Hin : to ∈ ia_key <$> dedup_accounts [] callee).
  { apply dedup_accounts_keys. split; [|apply not_elem_of_nil]. eapply list_elem_of_lookup_2. by rewrite list_lookup_fmap, Hi, <- Hk. }
  apply list_elem_of_fmap in Hin as (ib & Hkb & Hib). eapply update_caller_written; [exact Hu| |].
  - exists ib. split; [|done]. eapply translate_passes in Ht; [exact Ht|done|done|done|by rewrite <- Hkb].
  - intros ic Hic. apply (translate_keys _ _ _ _ _ _ Ht), dedup_accounts_sub in Hic. eapply prepare_writable; [exact Hp| |done].
    exists (mkIA to true true). split; [simpl; set_solver|done].
Qed.
End Calls.

(** ** Sequences of calls of the token program *)

Inductive TokenOp := OpTransfer | OpMintTo | OpBurn.
Record TokenCall := mkCall { tc_op : TokenOp; tc_a : Pubkey; tc_b : Pubkey; tc_authority : Pubkey; tc_amount : Z }.
Definition tc_keys (c : TokenCall) : list Pubkey := [tc_a c; tc_b c; tc_authority c].
Definition builder_of {T : Token} (op : TokenOp) : Pubkey -> Pubkey -> Pubkey -> Pubkey -> Z -> result InstructionError Instruction :=
  match op with OpTransfer => token_transfer | OpMintTo => token_mint_to | OpBurn => token_burn end.

(** [calls cx l s s']: the calls [l] lead from [s] to [s']. *)
Inductive calls {E : Env} {T : Token} (cx : Ctx) : list TokenCall -> PState -> PState -> Prop :=
| calls_nil s : calls cx [] s s
| calls_cons c l s s1 s2 p ix infos seeds :
    builder_of (tc_op c) p (tc_a c) (tc_b c) (tc_authority c) (tc_amount c) = Ok ix ->
    invoke_signed cx ix infos seeds s = Ok (tt, s1) -> calls cx l s1 s2 -> calls cx (c :: l) s s2.

(** What a call does to the balance of an account and to the supply of a mint. *)
Definition balance_change (c : TokenCall) (k : Pubkey) : Z :=
  match tc_op c with
  | OpTransfer => at_key (tc_b c) (tc_amount c) k - at_key (tc_a c) (tc_amount c) k
  | OpMintTo => at_key (tc_b c) (tc_amount c) k
  | OpBurn => - at_key (tc_a c) (tc_amount c) k
  end.
Definition supply_change (c : TokenCall) (k : Pubkey) : Z :=
  match tc_op c with OpTransfer => 0 | OpMintTo => at_key (tc_a c) (tc_amount c) k | OpBurn => - at_key (tc_b c) (tc_amount c) k end.
Definition total_change (change : TokenCall -> Pubkey -> Z) (l : list TokenCall) (k : Pubkey) : Z :=
  foldr (fun c acc => change c k + acc) 0 l.

(** At most one call of [l] has the account [k]. *)
Fixpoint once (k : Pubkey) (l : list TokenCall) : Prop :=
  match l with [] => True | c :: l => (k ∈ tc_keys c -> Forall (fun c' => k ∉ tc_keys c') l) /\ once k l end.

Section Sequences.
Context {E : Env} {X : ExecLaws} {T : Token} {TL : TokenLaws} (cx : Ctx).

Lemma builder_builds op : builds (builder_of op).
Proof. destruct op; [apply token_transfer_ix|apply token_mint_to_ix|apply token_burn_ix]. Qed.

(** Accounts of other programs keep their data and their owner. *)
Lemma calls_keep l s s' : pstate_ok s -> calls cx l s s' ->
  pstate_ok s' /\ forall k, acc_owner (get_acc (mem s) k) <> token_program_id ->
    acc_data (get_acc (mem s') k) = acc_data (get_acc (mem s) k) /\ acc_owner (get_acc (mem s') k) = acc_owner (get_acc (mem s) k).
Proof.
  intros Hok H. induction H as [s|c l s s1 s2 p ix infos seeds Hb Hi _ IH]; [done|].
  apply builder_builds in Hb as (_ & Hp & _). destruct (safe_invoke_signed cx _ _ _ _ _ _ Hok Hi) as [Hok1 _].
  destruct (IH Hok1) as [Hok2 IHk]. split; [done|]. intros k Hk.
  destruct (invoke_token_keeps cx _ _ _ _ _ _ _ Hok Hp Hi Hk) as [<- Ho]. rewrite <- Ho in Hk |- *. by apply IHk.
Qed.

Lemma calls_frame l s s' k : calls cx l s s' -> Forall (fun c => k ∉ tc_keys c) l -> get_acc (mem s') k = get_acc (mem s) k.
Proof.
  induction 1 as [s|c l s s1 s2 p ix infos seeds Hb Hi _ IH]; intros Hk; [done|]. apply Forall_cons_1 in Hk as [Hk Hl].
  rewrite (IH Hl). apply builder_builds in Hb as (_ & _ & Hacc). eapply invoke_signed_get_acc; [exact Hi|]. by rewrite Hacc.
Qed.

Lemma change_outside c k : k ∉ tc_keys c -> balance_change c k = 0 /\ supply_change c k = 0.
Proof.
  unfold tc_keys, balance_change, supply_change, at_key. rewrite !not_elem_of_cons. intros (? & ? & _).
  rewrite !decide_False by done. by destruct (tc_op c).
Qed.

Lemma total_change_outside change l k : (forall c, k ∉ tc_keys c -> change c k = 0) ->
  Forall (fun c => k ∉ tc_keys c) l -> total_change change l k = 0.
Proof. intros Hc. induction 1 as [|c l Hk _ IH]; [done|]. simpl. rewrite Hc, IH by done. lia. Qed.

(** The amounts change by the sum of the changes. *)
Lemma calls_change f (change : TokenCall -> Pubkey -> Z) l s s' k :
  (forall op, changes (builder_of op) f (fun a b x k => change (mkCall op a b 0 x) k)) ->
  (forall op a b u u' x, change (mkCall op a b u x) = change (mkCall op a b u' x)) -> (forall c, k ∉ tc_keys c -> change c k = 0) ->
  (forall op a b x, k <> a -> k <> b -> change (mkCall op a b 0 x) k = 0) ->
  calls cx l s s' -> pstate_ok s -> once k l -> acc_executable (get_acc (ta_accounts (rt s)) k) = false ->
  f (acc_data (get_acc (mem s') k)) = f (acc_data (get_acc (mem s) k)) + total_change change l k.
Proof.
  intros Hch Hu Hout H0 H. induction H as [s|c l s s1 s2 p ix infos seeds Hb Hi Hc IH]; intros Hok Ho Hx; [simpl; lia|].
  destruct Ho as [Ho1 Ho2]. destruct (safe_invoke_signed cx _ _ _ _ _ _ Hok Hi) as [Hok1 _].
  pose proof (invoke_token_changes cx _ _ _ _ _ _ _ _ _ _ _ _ _ _ k (builder_builds _) (Hch (tc_op c)) (H0 _ _ _) Hok Hb Hi (fun _ => Hx)) as Hf.
  destruct c as [op a b u x]. cbn [tc_op tc_a tc_b tc_authority tc_amount] in *. rewrite (Hu op a b 0 u) in Hf.
  cbn [total_change foldr]. fold (total_change change l k). destruct (decide (k ∈ tc_keys (mkCall op a b u x))) as [Hk|Hk].
  - rewrite (calls_frame _ _ _ _ Hc (Ho1 Hk)), (total_change_outside _ _ _ Hout (Ho1 Hk)). lia.
  - rewrite IH; [lia|done|done|]. apply builder_builds in Hb as (_ & _ & Hacc).
    rewrite (invoke_signed_rt_frame cx _ _ _ _ _ _ k Hok Hi); [done|]. by rewrite Hacc.
Qed.

Context {A : TokenAmounts} {TM : TokenMoves}.

Lemma calls_amounts l s s' k : calls cx l s s' -> pstate_ok s -> once k l -> acc_executable (get_acc (ta_accounts (rt s)) k) = false ->
  token_balance (acc_data (get_acc (mem s') k)) = token_balance (acc_data (get_acc (mem s) k)) + total_change balance_change l k /\
  token_supply (acc_data (get_acc (mem s') k)) = token_supply (acc_data (get_acc (mem s) k)) + total_change supply_change l k.
Proof.
  intros H Hok Ho Hx. split; (eapply calls_change; [|done| | |exact H|done..]).
  - intros []; [exact transfer_balance|exact mint_to_balance|exact burn_balance].
  - intros. by apply change_outside.
  - intros [] a b x Ha Hb; cbn; unfold at_key; rewrite ?(decide_False (P := k = a)), ?(decide_False (P := k = b)) by done; done.
  - intros []; [exact transfer_supply|exact mint_to_supply|exact burn_supply].
  - intros. by apply change_outside.
  - intros [] a b x Ha Hb; cbn; unfold at_key; rewrite ?(decide_False (P := k = a)), ?(decide_False (P := k = b)) by done; done.
Qed.
End Sequences.
