(* ===== verification/TokenDemo.v ===== *)
(** * TokenDemo: an environment with a small token program

    The environment of [Concrete] with a token program that keeps amounts: the
    data of an account is a byte for its kind, token account or mint, and the
    amount.  It transfers, mints and burns, wants the authority to sign and its
    own accounts, and obeys the laws of [TokenCpi].  It does not check whose
    authority signs.  Used to show that the hypotheses about the token program
    can hold and to run the programs that call it. *)

From Stdlib Require Import Strings.Byte.
From S2P Require Import Prelude Borsh Accounts System Invoke Execution Concrete Cpi Records TokenCpi.
Open Scope Z_scope.

Definition TOKEN_ID : Pubkey := 77.
Definition ACCOUNT_KIND : byte := Byte.x01.
Definition MINT_KIND : byte := Byte.x02.

Definition amount_of (kind : byte) (d : list byte) : option Z :=
  match d with t :: amount => if Byte.eqb t kind then Some (le_val amount) else None | [] => None end.

Definition write_amount (kind : byte) (k : Pubkey) (v : Z) (m : gmap Pubkey Account) : gmap Pubkey Account :=
  <[k := set_acc_data (kind :: le_bytes 8 v) (get_acc m k)]> m.

(** The amount of [a] changes by [da] and that of [b] by [db]. *)
Definition move_tokens (kind_a : byte) (a : InstructionAccount) (da : Z) (kind_b : byte) (b : InstructionAccount) (db : Z)
    (ta : TransactionAccounts) : result InstructionError TransactionAccounts :=
  let m := ta_accounts ta in
  (err_if (negb (ia_is_writable a && ia_is_writable b)) ReadonlyDataModified ?>
   err_if (negb ((acc_owner (get_acc m (ia_key a)) =? TOKEN_ID) && (acc_owner (get_acc m (ia_key b)) =? TOKEN_ID))) IncorrectProgramId ?>
   err_if (ia_key a =? ia_key b) InvalidArgument ?>
   let? va := ok_or (amount_of kind_a (acc_data (get_acc m (ia_key a)))) InvalidAccountData in
   let? vb := ok_or (amount_of kind_b (acc_data (get_acc m (ia_key b)))) InvalidAccountData in
   let? va' := ok_or (checked 0 U64_MAX (va + da)) InsufficientFunds in
   let? vb' := ok_or (checked 0 U64_MAX (vb + db)) InsufficientFunds in
   Ok (mkTA (write_amount kind_b (ia_key b) vb' (write_amount kind_a (ia_key a) va' m)) (ta_resize_delta ta) (ta_lamports_delta ta)))%result.

Definition run_token (ias : list InstructionAccount) (d : list byte) (ta : TransactionAccounts)
    : result InstructionError TransactionAccounts :=
  match ias, d with
  | a :: b :: authority :: _, tag :: rest =>
      let x := le_val rest in
      (err_if (negb (ia_is_signer authority)) MissingRequiredSignature ?>
       match Z_of_byte tag with
       | 3 => if ia_key a =? ia_key b then Ok ta else move_tokens ACCOUNT_KIND a (- x) ACCOUNT_KIND b x ta
       | 7 => move_tokens MINT_KIND a x ACCOUNT_KIND b x ta
       | 8 => move_tokens ACCOUNT_KIND a (- x) MINT_KIND b (- x) ta
       | _ => Err InvalidInstructionData
       end)%result
  | _, _ => Err InvalidInstructionData
  end.

Definition build_token (tag : byte) (p a b authority : Pubkey) (amount : Z) : result InstructionError Instruction :=
  (err_if (negb (p =? TOKEN_ID)) IncorrectProgramId ?>
   let? x := ok_or (checked 0 U64_MAX amount) InvalidInstructionData in
   Ok (mkInstruction TOKEN_ID [mkIA a false true; mkIA b false true; mkIA authority true false] (tag :: le_bytes 8 x)))%result.

Definition token_env : Env := {|
  find_program_address := @find_program_address demo_env;
  create_program_address := @create_program_address demo_env;
  create_with_seed := @create_with_seed demo_env;
  sha256 := @sha256 demo_env;
  minimum_balance := @minimum_balance demo_env;
  clock_id := 6;
  rent_id := 7;
  system_instruction_encode := encode;
  system_instruction_decode := decode;
  cpi_not_supported _ _ := false;
  exec_program p ias d ta := if p =? TOKEN_ID then run_token ias d ta else Ok ta;
|}.
#[export] Existing Instance token_env.

#[export] Instance token_env_laws : @EnvLaws token_env.
Proof.
  split; [apply (@decode_create_account demo_env _)|apply (@decode_transfer demo_env _)|apply (@find_create demo_env _)|done
    |apply (@minimum_balance_u64 demo_env _)].
Qed.

#[export] Instance demo_token : Token := {|
  token_program_id := TOKEN_ID;
  token_transfer := build_token Byte.x03;
  token_mint_to := build_token Byte.x07;
  token_burn := build_token Byte.x08;
|}.
#[export] Instance demo_amounts : TokenAmounts := {|
  token_balance d := default 0 (amount_of ACCOUNT_KIND d);
  token_supply d := default 0 (amount_of MINT_KIND d);
|}.

(** ** Its laws *)

Lemma write_amount_get kind k v m j : get_acc (write_amount kind k v m) j =
  if decide (j = k) then set_acc_data (kind :: le_bytes 8 v) (get_acc m k) else get_acc m j.
Proof. unfold write_amount. rewrite get_acc_insert. repeat case_decide; congruence. Qed.

Lemma amount_written kind kind' v : is_u64 v ->
  default 0 (amount_of kind' (kind :: le_bytes 8 v)) = if Byte.eqb kind kind' then v else 0.
Proof.
  intros Hv. simpl. destruct (Byte.eqb kind kind'); [|done]. simpl. apply (le_val_bytes 8).
  change (256 ^ Z.of_nat 8) with (2 ^ 64). ilia.
Qed.

Lemma amount_kind kind kind' d v : amount_of kind d = Some v -> default 0 (amount_of kind' d) = if Byte.eqb kind kind' then v else 0.
Proof.
  unfold amount_of. destruct d as [|t d]; [done|]. destruct (Byte.eqb t kind) eqn:Ht; [|done].
  apply Byte.byte_dec_bl in Ht as ->. intros [= <-]. by destruct (Byte.eqb kind kind').
Qed.

(** What [move_tokens] does: only its two accounts change, in their data. *)
Lemma move_tokens_ok kind_a a da kind_b b db ta ta' : move_tokens kind_a a da kind_b b db ta = Ok ta' ->
  ia_is_writable a = true /\ ia_is_writable b = true /\ ta_lamports_delta ta' = ta_lamports_delta ta /\
  (forall k, acc_lamports (get_acc (ta_accounts ta') k) = acc_lamports (get_acc (ta_accounts ta) k) /\
     acc_owner (get_acc (ta_accounts ta') k) = acc_owner (get_acc (ta_accounts ta) k) /\
     (get_acc (ta_accounts ta') k = get_acc (ta_accounts ta) k \/
      (k = ia_key a \/ k = ia_key b) /\ acc_owner (get_acc (ta_accounts ta) k) = TOKEN_ID) /\
     forall kind, default 0 (amount_of kind (acc_data (get_acc (ta_accounts ta') k))) =
       default 0 (amount_of kind (acc_data (get_acc (ta_accounts ta) k))) +
       (if Byte.eqb kind_a kind then at_key (ia_key a) da k else 0) + (if Byte.eqb kind_b kind then at_key (ia_key b) db k else 0)).
Proof.
  unfold move_tokens. intros H. rinv. bool_to_prop. split_and!; [done..|]. intros k. cbn [ta_accounts].
  rewrite !write_amount_get, (decide_False (P := ia_key b = ia_key a)) by congruence.
  hyp (amount_of kind_a _ = Some _) as Ha. hyp (amount_of kind_b _ = Some _) as Hb. unfold at_key.
  destruct (decide (k = ia_key b)) as [->|]; [rewrite decide_False by congruence|destruct (decide (k = ia_key a)) as [->|]];
    (split_and!; [done|done|by auto|]); intros kind; cbn [acc_data set_acc_data]; rewrite ?amount_written by done;
    rewrite ?(amount_kind _ _ _ _ Ha), ?(amount_kind _ _ _ _ Hb); repeat case_match; lia.
Qed.

(** A run of the token program is a move of tokens or changes nothing. *)
Lemma run_token_ok ias d ta ta' : run_token ias d ta = Ok ta' -> ta' = ta \/
  exists a b kind_a da kind_b db, a ∈ ias /\ b ∈ ias /\ move_tokens kind_a a da kind_b b db ta = Ok ta'.
Proof.
  unfold run_token. intros H. destruct ias as [|a [|b [|au ias]]]; try done. destruct d as [|tag d]; [done|]. rinv.
  repeat case_match; rinv; try done; (by left) || (right; exists a, b; do 4 eexists; (split_and!; [| |done]); set_solver).
Qed.

#[export] Instance token_exec_laws : @ExecLaws token_env.
Proof.
  split; cbn [token_env exec_program].
  - intros p ias d ta ta' Hok H. case_match; [|injection H as <-; by apply balanced_refl].
    apply run_token_ok in H as [->|(a & b & ka & da & kb & db & _ & _ & H)]; [by apply balanced_refl|].
    apply move_tokens_ok in H as (_ & _ & Hd & H). split.
    + rewrite Hd. f_equal. apply total_ext. intros k. apply H.
    + intros k. destruct (H k) as [-> _]. apply Hok.
  - intros p ias d ta ta' k H Hk. case_match; [|by injection H as <-].
    apply run_token_ok in H as [->|(a & b & ka & da & kb & db & Ha & Hb & H)]; [done|].
    apply move_tokens_ok in H as (Hwa & Hwb & _ & H). destruct (H k) as (_ & _ & [->|[[->| ->] _]] & _); [done|..];
      destruct Hk; [by exists a|by exists b].
Qed.

Lemma build_token_ok tag p a b authority amount ix : build_token tag p a b authority amount = Ok ix ->
  p = TOKEN_ID /\ is_u64 amount /\
  ix = mkInstruction TOKEN_ID [mkIA a false true; mkIA b false true; mkIA authority true false] (tag :: le_bytes 8 amount).
Proof. unfold build_token. intros H. rinv. by bool_to_prop. Qed.

#[export] Instance demo_token_laws : @TokenLaws token_env demo_token.
Proof.
  split; try (intros p a b au x ix H; by apply build_token_ok in H as (-> & _ & ->)); [done|].
  cbn [token_env exec_program]. intros ias d ta ta' k H Ho. change (token_program_id =? TOKEN_ID) with true in H. simpl in H.
  apply run_token_ok in H as [->|(a & b & ka & da & kb & db & _ & _ & H)]; [done|].
  apply move_tokens_ok in H as (_ & _ & _ & H). destruct (H k) as (_ & Hown & [->|[_ ?]] & _); done.
Qed.

(** The instruction that was built is the one that runs. *)
Lemma token_run tag p a b authority amount ix ias ta ta' : build_token tag p a b authority amount = Ok ix ->
  ia_key <$> ias = [a; b; authority] -> @exec_program token_env TOKEN_ID ias (ix_data ix) ta = Ok ta' ->
  exists ia ib, ia_key ia = a /\ ia_key ib = b /\
    match Z_of_byte tag with
    | 3 => a = b /\ ta' = ta \/ a <> b /\ move_tokens ACCOUNT_KIND ia (- amount) ACCOUNT_KIND ib amount ta = Ok ta'
    | 7 => move_tokens MINT_KIND ia amount ACCOUNT_KIND ib amount ta = Ok ta'
    | 8 => move_tokens ACCOUNT_KIND ia (- amount) MINT_KIND ib (- amount) ta = Ok ta'
    | _ => False
    end.
Proof.
  intros Hb Hk H. apply build_token_ok in Hb as (_ & Hx & ->). destruct ias as [|ia [|ib [|iu [|]]]]; try done.
  injection Hk as <- <- <-. exists ia, ib. split_and!; [done..|]. cbn [token_env exec_program ix_data] in H. rewrite Z.eqb_refl in H.
  unfold run_token in H. rewrite (le_val_bytes 8) in H by (change (256 ^ Z.of_nat 8) with (2 ^ 64); ilia). rinv.
  repeat case_match; rinv; bool_to_prop; auto.
Qed.

#[export] Instance demo_token_moves : @TokenMoves token_env demo_token demo_amounts.
Proof.
  split; intros p a b au x ix ias ta ta' k Hb Hk H; destruct (token_run _ _ _ _ _ _ _ _ _ _ Hb Hk H) as (ia & ib & <- & <- & Hm); simpl in Hm;
    [destruct Hm as [[-> ->]|[_ Hm]]; [unfold at_key; lia|] | destruct Hm as [[_ ->]|[_ Hm]]; [lia|] |..];
    apply move_tokens_ok in Hm as (_ & _ & _ & Hm); destruct (Hm k) as (_ & _ & _ & Hf);
    cbn [demo_amounts token_balance token_supply]; rewrite Hf; simpl; unfold at_key; repeat case_decide; lia.
Qed.
