(* ===== verification/NftMarket.v ===== *)
(** * NftMarket: the SolMart marketplace

    Models [src/nft-marketplace/program/src/lib.rs]: collections with their
    royalties, fixed-price listings, timed auctions, offers, and the ten
    instructions.  The NFTs themselves move by calls of the token program.  Log
    output is not modelled. *)

From Stdlib Require Import Strings.Byte Strings.String.
From S2P Require Import Prelude Borsh Accounts System Invoke Execution Cpi Records TokenCpi.
Open Scope Z_scope.

(** ** Data *)

Inductive MarketplaceError :=
| ListingNotActive | InsufficientPayment | AuctionNotEnded | AuctionAlreadyEnded | BidTooLow | ReservePriceNotMet
| OfferExpired | OfferStillActive | Unauthorized | InvalidCollection | RoyaltyTooHigh | MarketOverflow | BadAccountOwner
| AlreadyInitialized.

(** [MarketOverflow] is [MarketplaceError::ArithmeticOverflow] and
    [BadAccountOwner] is [MarketplaceError::InvalidAccountOwner]. *)
Definition into (e : MarketplaceError) : InstructionError :=
  Custom match e with
  | ListingNotActive => 0 | InsufficientPayment => 1 | AuctionNotEnded => 2 | AuctionAlreadyEnded => 3 | BidTooLow => 4
  | ReservePriceNotMet => 5 | OfferExpired => 6 | OfferStillActive => 7 | Unauthorized => 8 | InvalidCollection => 9
  | RoyaltyTooHigh => 10 | MarketOverflow => 11 | BadAccountOwner => 12 | AlreadyInitialized => 13
  end.

Record Listing := mkListing {
  li_tag : Z;
  li_nft_mint : Pubkey;
  li_seller : Pubkey;
  li_price : Z;
  li_is_active : bool;
  li_created_at : Z;
  li_collection : Pubkey;
}.
Definition Listing_TAG : Z := 1.
Definition Listing_LEN : Z := 1 + 32 + 32 + 8 + 1 + 8 + 32.

Record Auction := mkAuction {
  au_tag : Z;
  au_nft_mint : Pubkey;
  au_seller : Pubkey;
  au_starting_price : Z;
  au_current_bid : Z;
  au_current_bidder : Pubkey;
  au_end_time : Z;
  au_reserve_price : Z;
}.
Definition Auction_TAG : Z := 2.
Definition Auction_LEN : Z := 1 + 32 + 32 + 8 + 8 + 32 + 8 + 8.

Record Offer := mkOffer {
  of_tag : Z;
  of_nft_mint : Pubkey;
  of_buyer : Pubkey;
  of_price : Z;
  of_expiry : Z;
}.
Definition Offer_TAG : Z := 3.
Definition Offer_LEN : Z := 1 + 32 + 32 + 8 + 8.

Record Collection := mkCollection {
  co_tag : Z;
  co_name : list byte;
  co_symbol : list byte;
  co_creator : Pubkey;
  co_royalty_bps : Z;
  co_verified : bool;
}.
Definition Collection_TAG : Z := 4.
Definition Collection_LEN : Z := 1 + 32 + 10 + 32 + 2 + 1.

Inductive MarketplaceInstruction :=
| CreateCollection (name symbol : list byte) (royalty_bps : Z)
| ListNft (price : Z) (collection : Pubkey)
| DelistNft
| BuyNft
| CreateAuction (starting_price duration reserve_price : Z)
| PlaceBid (bid_amount : Z)
| SettleAuction
| MakeOffer (price expiry : Z)
| AcceptOffer
| CancelOffer.

Abbreviation is_u16 := (in_range 0 65535).

#[global] Instance Listing_well_typed : WellTyped Listing := fun l =>
  is_u8 (li_tag l) /\ is_pubkey (li_nft_mint l) /\ is_pubkey (li_seller l) /\ is_u64 (li_price l) /\ is_i64 (li_created_at l) /\
  is_pubkey (li_collection l).
#[global] Instance Auction_well_typed : WellTyped Auction := fun a =>
  is_u8 (au_tag a) /\ is_pubkey (au_nft_mint a) /\ is_pubkey (au_seller a) /\ is_u64 (au_starting_price a) /\
  is_u64 (au_current_bid a) /\ is_pubkey (au_current_bidder a) /\ is_i64 (au_end_time a) /\ is_u64 (au_reserve_price a).
#[global] Instance Offer_well_typed : WellTyped Offer := fun o =>
  is_u8 (of_tag o) /\ is_pubkey (of_nft_mint o) /\ is_pubkey (of_buyer o) /\ is_u64 (of_price o) /\ is_i64 (of_expiry o).
#[global] Instance Collection_well_typed : WellTyped Collection := fun c =>
  is_u8 (co_tag c) /\ zlen (co_name c) = 32 /\ zlen (co_symbol c) = 10 /\ is_pubkey (co_creator c) /\ is_u16 (co_royalty_bps c).
#[global] Instance MarketplaceInstruction_well_typed : WellTyped MarketplaceInstruction := fun i =>
  match i with
  | CreateCollection name symbol royalty_bps => zlen name = 32 /\ zlen symbol = 10 /\ is_u16 royalty_bps
  | ListNft price collection => is_u64 price /\ is_pubkey collection
  | CreateAuction starting_price duration reserve_price => is_u64 starting_price /\ is_i64 duration /\ is_u64 reserve_price
  | PlaceBid bid_amount => is_u64 bid_amount
  | MakeOffer price expiry => is_u64 price /\ is_i64 expiry
  | DelistNft | BuyNft | SettleAuction | AcceptOffer | CancelOffer => True
  end.

Definition sold (l : Listing) : Listing :=
  mkListing (li_tag l) (li_nft_mint l) (li_seller l) (li_price l) false (li_created_at l) (li_collection l).
Definition with_bid (bid : Z) (bidder : Pubkey) (a : Auction) : Auction :=
  mkAuction (au_tag a) (au_nft_mint a) (au_seller a) (au_starting_price a) bid bidder (au_end_time a) (au_reserve_price a).

Definition COLLECTION_SEED : list byte := list_byte_of_string "collection".
Definition LISTING_SEED : list byte := list_byte_of_string "listing".
Definition AUCTION_SEED : list byte := list_byte_of_string "auction".
Definition OFFER_SEED : list byte := list_byte_of_string "offer".

(** ** Helpers *)

(** The royalty and the rest for the seller. *)
Definition calculate_royalty (sale_price royalty_bps : Z) : result InstructionError (Z * Z) :=
  (let? product := ok_or (u128_checked_mul sale_price royalty_bps) (into MarketOverflow) in
   let? quotient := ok_or (u128_checked_div product 10000) (into MarketOverflow) in
   let royalty := as_u64 quotient in
   let? proceeds := ok_or (u64_checked_sub sale_price royalty) (into MarketOverflow) in
   Ok (royalty, proceeds))%result.

Section NftMarket.
Context {E : Env} {T : Token} {BL : Borsh Listing} {BA : Borsh Auction} {BO : Borsh Offer} {BC : Borsh Collection}
  {BI : Borsh MarketplaceInstruction}.
Variable cx : Ctx.

Definition validate_collection (collection_info : AccountInfo) : M Collection :=
  (let! a := account collection_info in
   fail_if (negb (acc_owner a =? cx_program_id cx)) (into BadAccountOwner) ;;
   let! collection := lift (ok_or (try_from_slice (acc_data a)) (into InvalidCollection)) in
   fail_if (negb (co_tag collection =? Collection_TAG)) (into InvalidCollection) ;;
   pret collection)%prog.

Definition assert_pda (seeds : list (list byte)) (expected : Pubkey) : M Z :=
  let '(pda, bump) := find_program_address seeds (cx_program_id cx) in
  (fail_if (negb (pda =? expected)) InvalidSeeds ;; pret bump)%prog.

Definition transfer_lamports (from to system_program : AccountInfo) (amount : Z) : M unit :=
  invoke cx (transfer_ix (ia_key from) (ia_key to) amount) [from; to; system_program].

(** The balances are changed in place; both operations wrap around. *)
Definition transfer_lamports_signed (from to : AccountInfo) (amount : Z) : M unit :=
  (debit from amount ;; credit to amount)%prog.

(** One token from [source] to [destination] with the right of [authority]. *)
Definition transfer_nft (token_program source destination authority : AccountInfo) (seeds : list (list (list byte))) : M unit :=
  (let! ix := lift (token_transfer (ia_key token_program) (ia_key source) (ia_key destination) (ia_key authority) 1) in
   invoke_signed cx ix [source; destination; authority; token_program] seeds)%prog.

(** A new account of the program with [space] bytes, paid for by [payer]. *)
Definition create_pda (payer pda system_program : AccountInfo) (lamports space : Z) (seeds : list (list byte)) (bump : Z) : M unit :=
  invoke_signed cx (create_account_ix (ia_key payer) (ia_key pda) lamports space (cx_program_id cx))
    [payer; pda; system_program] [seeds ++ [[byte_of_Z bump]]].

(** ** Instructions *)

Definition process_create_collection (name symbol : list byte) (royalty_bps : Z) : M unit :=
  (let! '(creator, it) := next_account_info (cx_accounts cx) in
   let! '(collection_pda, it) := next_account_info it in
   let! '(system_program, it) := next_account_info it in
   fail_if (negb (ia_is_signer creator)) (into Unauthorized) ;;
   fail_if (10000 <? royalty_bps) (into RoyaltyTooHigh) ;;
   let seeds := [COLLECTION_SEED; key_bytes (ia_key creator); name] in
   let! bump := assert_pda seeds (ia_key collection_pda) in
   create_pda creator collection_pda system_program (minimum_balance Collection_LEN) Collection_LEN seeds bump ;;
   serialize_into (mkCollection Collection_TAG name symbol (ia_key creator) royalty_bps false) collection_pda)%prog.

Definition process_list_nft (price : Z) (collection : Pubkey) : M unit :=
  (let! '(seller, it) := next_account_info (cx_accounts cx) in
   let! '(listing_pda, it) := next_account_info it in
   let! '(nft_mint, it) := next_account_info it in
   let! '(seller_token_account, it) := next_account_info it in
   let! '(escrow_token_account, it) := next_account_info it in
   let! '(token_program, it) := next_account_info it in
   let! '(system_program, it) := next_account_info it in
   fail_if (negb (ia_is_signer seller)) (into Unauthorized) ;;
   let seeds := [LISTING_SEED; key_bytes (ia_key nft_mint); key_bytes (ia_key seller)] in
   let! bump := assert_pda seeds (ia_key listing_pda) in
   create_pda seller listing_pda system_program (minimum_balance Listing_LEN) Listing_LEN seeds bump ;;
   transfer_nft token_program seller_token_account escrow_token_account seller [] ;;
   let! clock := clock_get cx in
   serialize_into (mkListing Listing_TAG (ia_key nft_mint) (ia_key seller) price true (unix_timestamp clock) collection)
     listing_pda)%prog.

Definition process_delist_nft : M unit :=
  (let! '(seller, it) := next_account_info (cx_accounts cx) in
   let! '(listing_pda, it) := next_account_info it in
   let! '(escrow_token_account, it) := next_account_info it in
   let! '(seller_token_account, it) := next_account_info it in
   let! '(token_program, it) := next_account_info it in
   fail_if (negb (ia_is_signer seller)) (into Unauthorized) ;;
   let! listing := load Listing listing_pda BorshIoError in
   fail_if (negb (li_seller listing =? ia_key seller)) (into Unauthorized) ;;
   fail_if (negb (li_is_active listing)) (into ListingNotActive) ;;
   let seeds := [LISTING_SEED; key_bytes (li_nft_mint listing); key_bytes (ia_key seller)] in
   let '(_, bump) := find_program_address seeds (cx_program_id cx) in
   transfer_nft token_program escrow_token_account seller_token_account listing_pda [seeds ++ [[byte_of_Z bump]]] ;;
   serialize_into (sold listing) listing_pda)%prog.

Definition process_buy_nft : M unit :=
  (let! '(buyer, it) := next_account_info (cx_accounts cx) in
   let! '(listing_pda, it) := next_account_info it in
   let! '(seller, it) := next_account_info it in
   let! '(escrow_token_account, it) := next_account_info it in
   let! '(buyer_token_account, it) := next_account_info it in
   let! '(collection_pda, it) := next_account_info it in
   let! '(royalty_recipient, it) := next_account_info it in
   let! '(token_program, it) := next_account_info it in
   let! '(system_program, it) := next_account_info it in
   fail_if (negb (ia_is_signer buyer)) (into Unauthorized) ;;
   let! listing := load Listing listing_pda BorshIoError in
   fail_if (negb (li_is_active listing)) (into ListingNotActive) ;;
   let! ca := account collection_pda in
   let! '(royalty_amount, seller_proceeds) :=
     (if negb (li_collection listing =? 0) && (acc_owner ca =? cx_program_id cx) then
        let! collection := validate_collection collection_pda in
        lift (calculate_royalty (li_price listing) (co_royalty_bps collection))
      else pret (0, li_price listing)) in
   transfer_lamports buyer seller system_program seller_proceeds ;;
   (if 0 <? royalty_amount then transfer_lamports buyer royalty_recipient system_program royalty_amount else pret tt) ;;
   let seeds := [LISTING_SEED; key_bytes (li_nft_mint listing); key_bytes (li_seller listing)] in
   let '(_, bump) := find_program_address seeds (cx_program_id cx) in
   transfer_nft token_program escrow_token_account buyer_token_account listing_pda [seeds ++ [[byte_of_Z bump]]] ;;
   serialize_into (sold listing) listing_pda)%prog.

Definition process_create_auction (starting_price duration reserve_price : Z) : M unit :=
  (let! '(seller, it) := next_account_info (cx_accounts cx) in
   let! '(auction_pda, it) := next_account_info it in
   let! '(nft_mint, it) := next_account_info it in
   let! '(seller_token_account, it) := next_account_info it in
   let! '(escrow_token_account, it) := next_account_info it in
   let! '(token_program, it) := next_account_info it in
   let! '(system_program, it) := next_account_info it in
   fail_if (negb (ia_is_signer seller)) (into Unauthorized) ;;
   let seeds := [AUCTION_SEED; key_bytes (ia_key nft_mint); key_bytes (ia_key seller)] in
   let! bump := assert_pda seeds (ia_key auction_pda) in
   create_pda seller auction_pda system_program (minimum_balance Auction_LEN) Auction_LEN seeds bump ;;
   transfer_nft token_program seller_token_account escrow_token_account seller [] ;;
   let! clock := clock_get cx in
   serialize_into (mkAuction Auction_TAG (ia_key nft_mint) (ia_key seller) starting_price 0 0
     (as_i64 (unix_timestamp clock + duration)) reserve_price) auction_pda)%prog.

Definition process_place_bid (bid_amount : Z) : M unit :=
  (let! '(bidder, it) := next_account_info (cx_accounts cx) in
   let! '(auction_pda, it) := next_account_info it in
   let! '(previous_bidder, it) := next_account_info it in
   let! '(system_program, it) := next_account_info it in
   fail_if (negb (ia_is_signer bidder)) (into Unauthorized) ;;
   let! auction := load Auction auction_pda BorshIoError in
   let! clock := clock_get cx in
   fail_if (au_end_time auction <=? unix_timestamp clock) (into AuctionAlreadyEnded) ;;
   fail_if ((bid_amount <=? au_current_bid auction) || (bid_amount <? au_starting_price auction)) (into BidTooLow) ;;
   (if (0 <? au_current_bid auction) && negb (au_current_bidder auction =? 0)
    then transfer_lamports_signed auction_pda previous_bidder (au_current_bid auction) else pret tt) ;;
   transfer_lamports bidder auction_pda system_program bid_amount ;;
   serialize_into (with_bid bid_amount (ia_key bidder) auction) auction_pda)%prog.

(** The split of a sale at the end of an auction or an offer. *)
Definition sale_split (collection_pda : AccountInfo) (price : Z) : M (Z * Z) :=
  (let! ca := account collection_pda in
   if (acc_owner ca =? cx_program_id cx) && (Collection_LEN <=? zlen (acc_data ca)) then
     let! collection := validate_collection collection_pda in
     lift (calculate_royalty price (co_royalty_bps collection))
   else pret (0, price))%prog.

Definition process_settle_auction : M unit :=
  (let! '(_caller, it) := next_account_info (cx_accounts cx) in
   let! '(auction_pda, it) := next_account_info it in
   let! '(seller, it) := next_account_info it in
   let! '(_winner, it) := next_account_info it in
   let! '(escrow_token_account, it) := next_account_info it in
   let! '(winner_token_account, it) := next_account_info it in
   let! '(collection_pda, it) := next_account_info it in
   let! '(royalty_recipient, it) := next_account_info it in
   let! '(token_program, it) := next_account_info it in
   let! '(_system_program, it) := next_account_info it in
   let! auction := load Auction auction_pda BorshIoError in
   let! clock := clock_get cx in
   fail_if (unix_timestamp clock <? au_end_time auction) (into AuctionNotEnded) ;;
   fail_if (au_current_bid auction <? au_reserve_price auction) (into ReservePriceNotMet) ;;
   let! '(royalty_amount, seller_proceeds) := sale_split collection_pda (au_current_bid auction) in
   transfer_lamports_signed auction_pda seller seller_proceeds ;;
   (if 0 <? royalty_amount then transfer_lamports_signed auction_pda royalty_recipient royalty_amount else pret tt) ;;
   let seeds := [AUCTION_SEED; key_bytes (au_nft_mint auction); key_bytes (au_seller auction)] in
   let '(_, bump) := find_program_address seeds (cx_program_id cx) in
   transfer_nft token_program escrow_token_account winner_token_account auction_pda [seeds ++ [[byte_of_Z bump]]])%prog.

Definition process_make_offer (price expiry : Z) : M unit :=
  (let! '(buyer, it) := next_account_info (cx_accounts cx) in
   let! '(offer_pda, it) := next_account_info it in
   let! '(nft_mint, it) := next_account_info it in
   let! '(system_program, it) := next_account_info it in
   fail_if (negb (ia_is_signer buyer)) (into Unauthorized) ;;
   let seeds := [OFFER_SEED; key_bytes (ia_key nft_mint); key_bytes (ia_key buyer)] in
   let! bump := assert_pda seeds (ia_key offer_pda) in
   let total_lamports := as_u64 (minimum_balance Offer_LEN + price) in
   create_pda buyer offer_pda system_program total_lamports Offer_LEN seeds bump ;;
   serialize_into (mkOffer Offer_TAG (ia_key nft_mint) (ia_key buyer) price expiry) offer_pda)%prog.

Definition process_accept_offer : M unit :=
  (let! '(seller, it) := next_account_info (cx_accounts cx) in
   let! '(offer_pda, it) := next_account_info it in
   let! '(buyer, it) := next_account_info it in
   let! '(seller_token_account, it) := next_account_info it in
   let! '(buyer_token_account, it) := next_account_info it in
   let! '(collection_pda, it) := next_account_info it in
   let! '(royalty_recipient, it) := next_account_info it in
   let! '(token_program, it) := next_account_info it in
   let! '(_system_program, it) := next_account_info it in
   fail_if (negb (ia_is_signer seller)) (into Unauthorized) ;;
   let! offer := load Offer offer_pda BorshIoError in
   let! clock := clock_get cx in
   fail_if (of_expiry offer <? unix_timestamp clock) (into OfferExpired) ;;
   let! '(royalty_amount, seller_proceeds) := sale_split collection_pda (of_price offer) in
   transfer_lamports_signed offer_pda seller seller_proceeds ;;
   (if 0 <? royalty_amount then transfer_lamports_signed offer_pda royalty_recipient royalty_amount else pret tt) ;;
   transfer_nft token_program seller_token_account buyer_token_account seller [] ;;
   let! oa := account offer_pda in
   transfer_lamports_signed offer_pda buyer (acc_lamports oa))%prog.

Definition process_cancel_offer : M unit :=
  (let! '(buyer, it) := next_account_info (cx_accounts cx) in
   let! '(offer_pda, it) := next_account_info it in
   let! '(_system_program, it) := next_account_info it in
   fail_if (negb (ia_is_signer buyer)) (into Unauthorized) ;;
   let! offer := load Offer offer_pda BorshIoError in
   fail_if (negb (of_buyer offer =? ia_key buyer)) (into Unauthorized) ;;
   let! oa := account offer_pda in
   transfer_lamports_signed offer_pda buyer (acc_lamports oa))%prog.

Definition process_instruction (instruction_data : list byte) : M unit :=
  (let! instruction := lift (ok_or (try_from_slice instruction_data) InvalidInstructionData) in
   match instruction with
   | CreateCollection name symbol royalty_bps => process_create_collection name symbol royalty_bps
   | ListNft price collection => process_list_nft price collection
   | DelistNft => process_delist_nft
   | BuyNft => process_buy_nft
   | CreateAuction starting_price duration reserve_price => process_create_auction starting_price duration reserve_price
   | PlaceBid bid_amount => process_place_bid bid_amount
   | SettleAuction => process_settle_auction
   | MakeOffer price expiry => process_make_offer price expiry
   | AcceptOffer => process_accept_offer
   | CancelOffer => process_cancel_offer
   end)%prog.
End NftMarket.
