(* ===== verification/NftMarketProofs.v ===== *)
(** * NftMarketProofs: royalties, payments and listings of the marketplace *)

From Stdlib Require Import Strings.Byte.
From S2P Require Import Prelude Borsh Accounts System Invoke Execution Cpi Records History TokenCpi NftMarket.
Open Scope Z_scope.

(** ** Royalties *)

Lemma royalty_ok price bps : is_u64 price -> 0 <= bps <= 10000 ->
  calculate_royalty price bps = Ok (price * bps / 10000, price - price * bps / 10000).
Proof.
  intros Hp Hb. pose proof (mul_div_le price bps 10000 ltac:(ilia) ltac:(lia) ltac:(lia)) as Hr. unfold calculate_royalty.
  assert (0 <= price * bps <= price * 10000) by (split; [ilia|]; apply Z.mul_le_mono_nonneg_l; ilia).
  rewrite checked_in by ilia. cbn [ok_or rbind]. unfold u128_checked_div. change (10000 =? 0) with false. cbn [ok_or rbind].
  rewrite as_u64_id by ilia. rewrite checked_in by ilia. done.
Qed.

(** Whatever the rate, the two parts add up to the price. *)
Lemma royalty_split price bps r q : is_u64 price ->
  calculate_royalty price bps = Ok (r, q) -> r + q = price /\ is_u64 r /\ is_u64 q.
Proof.
  intros Hp H. unfold calculate_royalty in H. rinv.
  assert (is_u64 (as_u64 x0)) by (apply as_u64_range).
  repeat match goal with Hc : checked _ _ _ = Some _ |- _ => apply checked_some in Hc as [-> Hc] end. split_and!; try done; lia || ilia.
Qed.

(** ** Payments in place *)

(** What a payment between two different accounts leaves. *)
Definition paid (from to : Pubkey) (amount : Z) (m : gmap Pubkey Account) (k : Pubkey) : Z :=
  if decide (k = to) then as_u64 (acc_lamports (get_acc m to) + amount)
  else if decide (k = from) then as_u64 (acc_lamports (get_acc m from) - amount)
  else acc_lamports (get_acc m k).

Lemma transfer_signed_effect from to amount s u s' : transfer_lamports_signed from to amount s = Ok (u, s') ->
  rt s' = rt s /\ (forall k, acc_data (get_acc (mem s') k) = acc_data (get_acc (mem s) k) /\
    acc_owner (get_acc (mem s') k) = acc_owner (get_acc (mem s) k)) /\
  (ia_key from <> ia_key to -> forall k, acc_lamports (get_acc (mem s') k) = paid (ia_key from) (ia_key to) amount (mem s) k).
Proof.
  unfold transfer_lamports_signed, debit, credit. intros H. pinv. simpl. split; [done|]. split.
  - intros k. rewrite !set_lamports_data, !set_lamports_owner. done.
  - intros Hne k. unfold paid. rewrite !get_acc_insert. repeat case_decide; subst; try done; simpl;
      by rewrite ?get_acc_insert_eq, ?get_acc_insert_ne.
Qed.

(** A positive amount changes a balance, even if it wraps around. *)
Lemma wrapped_neq l d : is_u64 l -> - 2 ^ 64 < d < 2 ^ 64 -> d <> 0 -> as_u64 (l + d) <> l.
Proof.
  intros Hl Hd Hne Heq. unfold as_u64 in Heq. pose proof (Z.div_mod (l + d) (2 ^ 64) ltac:(done)). rewrite Heq in *. ilia.
Qed.
Lemma wrapped_sub_sub l p r : as_u64 (as_u64 (l - p) - r) = as_u64 (l + - (p + r)).
Proof. unfold as_u64. rewrite Zminus_mod_idemp_l. f_equal. lia. Qed.

(** ** Calls in the middle of payments *)

(** A program at its entry: its memory is what the transaction has. *)
Record at_entry (s : PState) : Prop := {
  ae_ok : pstate_ok s;
  ae_mem : mem s = ta_accounts (rt s);
  ae_delta : ta_lamports_delta (rt s) = 0;
}.

(** None of the accounts is a program. *)
Definition no_programs (s : PState) (l : list AccountInfo) : Prop :=
  Forall (fun ia => acc_executable (get_acc (ta_accounts (rt s)) (ia_key ia)) = false) l.

Section Payments.
Context {E : Env} {X : ExecLaws} {T : Token} {TL : TokenLaws} {BL : Borsh Listing} {BA : Borsh Auction} {BO : Borsh Offer}
  {BC : Borsh Collection} {BI : Borsh MarketplaceInstruction} {WA : BorshLaws Auction} {WO : BorshLaws Offer}.
Context (cx : Ctx).

Lemma safe_transfer_signed from to amount : safe (transfer_lamports_signed from to amount).
Proof. unfold transfer_lamports_signed. psafe. Qed.

(** The token call of a handler passes on exactly three accounts. *)
Lemma transfer_nft_ok tp src dst au seeds s u s' : transfer_nft cx tp src dst au seeds s = Ok (u, s') ->
  exists ix, ix_program_id ix = token_program_id /\ ia_key <$> ix_accounts ix = [ia_key src; ia_key dst; ia_key au] /\
    invoke_signed cx ix [src; dst; au; tp] seeds s = Ok (u, s').
Proof.
  unfold transfer_nft. intros H. pinv. hyp (token_transfer _ _ _ _ _ = Ok _) as Ht.
  apply token_transfer_ix in Ht as (_ & Hp & Hacc). eexists. split; [exact Hp|]. split; [|exact H]. by rewrite Hacc.
Qed.

(** A payment out of one of the accounts of a call to an account that is not. *)
Lemma paid_out_call ix infos seeds s s1 from u s' d :
  at_entry s -> pstate_ok s1 -> rt s1 = rt s -> invoke_signed cx ix infos seeds s1 = Ok (u, s') ->
  (forall k, k ∈ ia_key <$> ix_accounts ix -> acc_executable (get_acc (ta_accounts (rt s)) k) = false) ->
  (forall k, k ∈ ia_key <$> ix_accounts ix -> k <> from -> acc_lamports (get_acc (mem s1) k) = acc_lamports (get_acc (mem s) k)) ->
  from ∈ ia_key <$> ix_accounts ix -> acc_lamports (get_acc (mem s1) from) = as_u64 (acc_lamports (get_acc (mem s) from) + d) ->
  - 2 ^ 64 < d < 2 ^ 64 -> d = 0.
Proof.
  intros [Hok Hm Hd] Hok1 Hrt H Hx Hk Hin Hl Hr. destruct (Z.eq_dec d 0) as [|Hne]; [done|exfalso].
  apply (wrapped_neq (acc_lamports (get_acc (mem s) from)) d); [apply Hok|done|done|].
  rewrite <- Hl, Hm, <- Hrt. eapply invoke_one_change; [done|by rewrite Hrt|by rewrite Hrt|exact H| |done].
  intros k Hki Hkn. rewrite Hrt, <- Hm. by apply Hk.
Qed.

Lemma place_bid_ok amount s s' : at_entry s -> process_place_bid cx amount s = Ok (tt, s') ->
  exists bd au pv sy rest a, cx_accounts cx = bd :: au :: pv :: sy :: rest /\ ia_is_signer bd = true /\
    holds (mem s) (ia_key au) a /\ unix_timestamp (cx_clock cx) < au_end_time a /\
    au_current_bid a < amount /\ au_starting_price a <= amount /\
    (no_programs s [bd; au] -> 0 < au_current_bid a -> au_current_bidder a <> 0 -> ia_key pv = ia_key bd \/ ia_key pv = ia_key au).
Proof.
  intros He H. unfold process_place_bid in H. pinv; bool_to_prop; read Auction as a Ha; call @cx_accounts as Hacc;
    (eexists _, _, _, _, _, a; split; [exact Hacc|]; split_and!; try done).
  all: intros Hx Hb Hbn.
  - call @transfer_lamports_signed as Ht. call @transfer_lamports as Hc.
    match type of Ht with transfer_lamports_signed ?a ?p _ _ = _ => rename a into au, p into pv end.
    match type of Hc with transfer_lamports _ ?b _ _ _ ?st = _ => rename b into bd, st into s1 end.
    destruct (decide (ia_key pv = ia_key bd)) as [|Hpb]; [by left|]. destruct (decide (ia_key pv = ia_key au)) as [|Hpa]; [by right|exfalso].
    destruct (safe_transfer_signed _ _ _ _ _ _ (ae_ok _ He) Ht) as [Hok1 _].
    apply transfer_signed_effect in Ht as (Hrt & _ & Hl). specialize (Hl (fun Heq => Hpa (eq_sym Heq))). unfold paid in Hl.
    pose proof (holds_well_typed _ _ _ Ha) as (_ & _ & _ & _ & Hcb & _).
    assert (- au_current_bid a = 0); [|lia].
    eapply (paid_out_call _ _ _ s s1 (ia_key au)); [done|done|done|exact Hc| | | | |ilia]; simpl.
    + intros k. rewrite !elem_of_cons. apply Forall_cons_1 in Hx as [Hx1 [Hx2 _]%Forall_cons_1].
      intros [->|[->|[]%not_elem_of_nil]]; done.
    + intros k. rewrite !elem_of_cons. intros [->|[->|[]%not_elem_of_nil]] Hne; [|done]. rewrite Hl. by rewrite !decide_False by congruence.
    + set_solver.
    + rewrite Hl, decide_False, decide_True by congruence. done.
  - exfalso. hyp (_ && _ = false) as Hf. apply andb_false_iff in Hf as [Hf|Hf]; bool_to_prop; [lia|done].
Qed.

Lemma same_state_sale_split co price : same_state (sale_split cx co price).
Proof.
  intros s a s' H. unfold sale_split, validate_collection in H. pinv; done.
Qed.

Lemma sale_split_ok co price s r q s' : is_u64 price -> sale_split cx co price s = Ok ((r, q), s') ->
  s' = s /\ r + q = price /\ is_u64 r /\ is_u64 q.
Proof.
  intros Hp H. pose proof (same_state_sale_split _ _ _ _ _ H) as ->. split; [done|].
  unfold sale_split, validate_collection in H. pinv; simplify_eq; [by eapply royalty_split|]. split; [lia|]. split; [by split; vm_compute|done].
Qed.

(** The payments at the end of an auction or an offer, out of [from]: the parts
    for the seller and for the recipient of the royalty. *)
Lemma sale_payments from se re r q s u s0 v s1 :
  at_entry s -> is_u64 r -> transfer_lamports_signed from se q s = Ok (u, s0) ->
  (if 0 <? r then transfer_lamports_signed from re r else pret tt) s0 = Ok (v, s1) ->
  pstate_ok s1 /\ rt s1 = rt s /\ (forall k, acc_data (get_acc (mem s1) k) = acc_data (get_acc (mem s) k) /\
     acc_owner (get_acc (mem s1) k) = acc_owner (get_acc (mem s) k)) /\
  (ia_key se <> ia_key from -> ia_key re <> ia_key from ->
   acc_lamports (get_acc (mem s1) (ia_key from)) = as_u64 (acc_lamports (get_acc (mem s) (ia_key from)) + - (q + r)) /\
   forall k, k <> ia_key from -> k <> ia_key re ->
     acc_lamports (get_acc (mem s1) k) =
     if decide (k = ia_key se) then as_u64 (acc_lamports (get_acc (mem s) k) + q) else acc_lamports (get_acc (mem s) k)).
Proof.
  intros He Hr H0 H.
  destruct (safe_transfer_signed _ _ _ _ _ _ (ae_ok _ He) H0) as [Hok0 _]. apply transfer_signed_effect in H0 as (Hrt0 & Hd0 & Hl0).
  destruct (Z.ltb_spec 0 r) as [Hpos|Hz].
  - destruct (safe_transfer_signed _ _ _ _ _ _ Hok0 H) as [Hok1 _]. apply transfer_signed_effect in H as (Hrt & Hd & Hl).
    split_and!; [done|congruence|intros k; destruct (Hd0 k), (Hd k); split; congruence|].
    intros Hse Hre. specialize (Hl0 (not_eq_sym Hse)). specialize (Hl (not_eq_sym Hre)). unfold paid in *. split.
    + rewrite Hl, decide_False, decide_True, Hl0, decide_False, decide_True by done. apply wrapped_sub_sub.
    + intros k Hk Hk'. rewrite Hl, !decide_False, Hl0 by done. rewrite (decide_False (P := k = ia_key from)) by done.
      case_decide; by subst.
  - pinv. assert (r = 0) as -> by ilia. split_and!; [done|done|done|]. intros Hse _. specialize (Hl0 (not_eq_sym Hse)). unfold paid in *. split.
    + rewrite Hl0, decide_False, decide_True by done. f_equal. lia.
    + intros k Hk _. rewrite Hl0. rewrite (decide_False (P := k = ia_key from)) by done. case_decide; by subst.
Qed.

Lemma elem_of_three (k a b c : Pubkey) : k ∈ [a; b; c] <-> k = a \/ k = b \/ k = c.
Proof. rewrite !elem_of_cons. pose proof (not_elem_of_nil k). tauto. Qed.

Lemma no_programs_three s a b c k : no_programs s [a; b; c] -> k ∈ [ia_key a; ia_key b; ia_key c] ->
  acc_executable (get_acc (ta_accounts (rt s)) k) = false.
Proof. unfold no_programs. rewrite !Forall_cons, elem_of_three. intros (? & ? & ? & _) [->|[->| ->]]; done. Qed.

(** The call at the end of an auction gets the account that pays, but not those
    that are paid. *)
Lemma settle_unpaid au se re r q s u s0 v s1 tp es wt seeds w s2 :
  at_entry s -> is_u64 r -> is_u64 q -> is_u64 (r + q) -> transfer_lamports_signed au se q s = Ok (u, s0) ->
  (if 0 <? r then transfer_lamports_signed au re r else pret tt) s0 = Ok (v, s1) ->
  transfer_nft cx tp es wt au seeds s1 = Ok (w, s2) ->
  no_programs s [es; wt; au] -> ia_key se ∉ [ia_key es; ia_key wt; ia_key au] -> ia_key re ∉ [ia_key es; ia_key wt; ia_key au] ->
  r + q = 0.
Proof.
  intros He Hr Hq Hs H0 H1 H Hx Hse Hre. destruct (sale_payments _ _ _ _ _ _ _ _ _ _ He Hr H0 H1) as (Hok & Hrt & _ & Hl).
  apply transfer_nft_ok in H as (ix & _ & Hk & H). rewrite elem_of_three in Hse, Hre. destruct Hl as [Hf Ho]; [naive_solver..|].
  assert (- (q + r) = 0); [|lia]. eapply (paid_out_call ix _ _ s s1 (ia_key au)); [done|done|done|exact H| | | |exact Hf|ilia]; rewrite Hk.
  - intros k. by apply no_programs_three.
  - intros k Hin Hne. rewrite elem_of_three in Hin. rewrite Ho, decide_False; naive_solver.
  - rewrite elem_of_three. naive_solver.
Qed.

(** The call at the end of an offer gets the seller, but not the account that pays. *)
Lemma accept_unpaid off se re r q s u s0 v s1 tp st bt seeds w s2 :
  at_entry s -> is_u64 r -> is_u64 q -> transfer_lamports_signed off se q s = Ok (u, s0) ->
  (if 0 <? r then transfer_lamports_signed off re r else pret tt) s0 = Ok (v, s1) ->
  transfer_nft cx tp st bt se seeds s1 = Ok (w, s2) ->
  no_programs s [st; bt; se] -> ia_key off ∉ [ia_key st; ia_key bt; ia_key se] -> ia_key re ∉ [ia_key st; ia_key bt; ia_key se] ->
  ia_key re <> ia_key off -> q = 0.
Proof.
  intros He Hr Hq H0 H1 H Hx Hoff Hre Hro. destruct (sale_payments _ _ _ _ _ _ _ _ _ _ He Hr H0 H1) as (Hok & Hrt & _ & Hl).
  apply transfer_nft_ok in H as (ix & _ & Hk & H). rewrite elem_of_three in Hoff, Hre. destruct Hl as [_ Ho]; [naive_solver..|].
  eapply (paid_out_call ix _ _ s s1 (ia_key se)); [done|done|done|exact H| | | | |ilia]; rewrite ?Hk.
  - intros k. by apply no_programs_three.
  - intros k Hin Hne. rewrite elem_of_three in Hin. rewrite Ho, decide_False; naive_solver.
  - rewrite elem_of_three. naive_solver.
  - rewrite Ho, decide_True; naive_solver.
Qed.

Lemma settle_ok s s' : at_entry s -> process_settle_auction cx s = Ok (tt, s') ->
  exists ca au se wi es wt co re tp sy rest a, cx_accounts cx = ca :: au :: se :: wi :: es :: wt :: co :: re :: tp :: sy :: rest /\
    holds (mem s) (ia_key au) a /\ au_end_time a <= unix_timestamp (cx_clock cx) /\ au_reserve_price a <= au_current_bid a /\
    (no_programs s [es; wt; au] -> ia_key se ∉ [ia_key es; ia_key wt; ia_key au] -> ia_key re ∉ [ia_key es; ia_key wt; ia_key au] ->
     au_current_bid a = 0).
Proof.
  intros He H. unfold process_settle_auction in H. pinv; read Auction as a Ha; call @cx_accounts as Hacc;
    call @sale_split as Hsp; pose proof (holds_well_typed _ _ _ Ha) as (_ & _ & _ & _ & Hcb & _);
    apply sale_split_ok in Hsp as (-> & Hsum & Hr & Hq); try done;
    (eexists _, _, _, _, _, _, _, _, _, _, _, a; split; [exact Hacc|]; split; [done|]; split; [by bool_to_prop|]; split; [by bool_to_prop|]);
    intros Hx Hse Hre; rewrite <- Hsum; match goal with X : transfer_lamports_signed _ _ _ s = Ok _ |- _ => rename X into Ht end;
    (eapply settle_unpaid; [exact He|exact Hr|exact Hq|by rewrite Hsum|exact Ht| |exact H|exact Hx|exact Hse|exact Hre]); by rewrite Heqb.
Qed.

Lemma accept_ok s s' : at_entry s -> process_accept_offer cx s = Ok (tt, s') ->
  exists se off bu st bt co re tp sy rest o q, cx_accounts cx = se :: off :: bu :: st :: bt :: co :: re :: tp :: sy :: rest /\
    ia_is_signer se = true /\ holds (mem s) (ia_key off) o /\ unix_timestamp (cx_clock cx) <= of_expiry o /\
    (exists r, sale_split cx co (of_price o) s = Ok ((r, q), s)) /\
    (no_programs s [st; bt; se] -> ia_key off ∉ [ia_key st; ia_key bt; ia_key se] -> ia_key re ∉ [ia_key st; ia_key bt; ia_key se] ->
     ia_key re <> ia_key off -> q = 0).
Proof.
  intros He H. unfold process_accept_offer in H. pinv; read Offer as o Ho; call @cx_accounts as Hacc;
    call @sale_split as Hsp; pose proof (holds_well_typed _ _ _ Ho) as (_ & _ & _ & Hpr & _);
    pose proof Hsp as Hsp'; apply sale_split_ok in Hsp as (-> & Hsum & Hr & Hq); try done;
    (eexists _, _, _, _, _, _, _, _, _, _, o, _; split; [exact Hacc|]; split; [by bool_to_prop|]; split; [done|]; split; [by bool_to_prop|];
     split; [by eexists|]);
    intros Hx Hoff Hre Hro; match goal with X : transfer_lamports_signed _ _ _ s = Ok _ |- _ => rename X into Ht end; call @transfer_nft as Hn;
    (eapply accept_unpaid; [exact He|exact Hr|exact Hq|exact Ht| |exact Hn|exact Hx|exact Hoff|exact Hre|exact Hro]); by rewrite Heqb.
Qed.
End Payments.

(** ** Listings *)

Section Listings.
Context {E : Env} {L : EnvLaws} {X : ExecLaws} {T : Token} {TL : TokenLaws} {BL : Borsh Listing} {BA : Borsh Auction} {BO : Borsh Offer}
  {BC : Borsh Collection} {BI : Borsh MarketplaceInstruction}.
Context (cx : Ctx) (k : Pubkey).
Context (Hsys : cx_program_id cx <> system_program_id) (Htok : cx_program_id cx <> token_program_id)
  (Hpid : is_pubkey (cx_program_id cx)).

(** [k] is an account of the program. *)
Definition owned (s : PState) : Prop := pstate_ok s /\ acc_owner (get_acc (mem s) k) = cx_program_id cx.
Definition data_at (s : PState) : list byte := acc_data (get_acc (mem s) k).

(** [m] does not write the data of [k]. *)
Definition keeps {A} (m : M A) : Prop := forall s a s', owned s -> m s = Ok (a, s') -> owned s' /\ data_at s' = data_at s.

Lemma keeps_bind {A B} (m : M A) (f : A -> M B) : keeps m -> (forall a, keeps (f a)) -> keeps (pbind m f).
Proof.
  intros Hm Hf s b s' Ho H. apply pbind_ok in H as (a & s1 & H1 & H2). destruct (Hm _ _ _ Ho H1) as [Ho1 Hd1].
  destruct (Hf _ _ _ _ Ho1 H2) as [? Hd2]. split; [done|congruence].
Qed.
Lemma keeps_same_state {A} (m : M A) : same_state m -> keeps m.
Proof. intros Hs s a s' Ho H. by rewrite (Hs _ _ _ H). Qed.
Lemma keeps_transfer_signed from to amount : keeps (transfer_lamports_signed from to amount).
Proof.
  intros s u s' [Hok Ho] H. destruct (safe_transfer_signed _ _ _ _ _ _ Hok H) as [Hok' _].
  apply transfer_signed_effect in H as (_ & Hd & _). destruct (Hd k) as [Hd1 Hd2].
  split; [split; [done|congruence]|done].
Qed.
Lemma keeps_system ix infos seeds i : ix_program_id ix = system_program_id -> system_instruction_decode (ix_data ix) = Some i ->
  keeps (invoke_signed cx ix infos seeds).
Proof.
  intros Hp Hd s u s' [Hok Ho] H. destruct (safe_invoke_signed _ _ _ _ _ _ _ Hok H) as [Hok' _].
  destruct (invoke_system_keeps cx ix infos seeds s u s' k i) as [H1 H2]; [done|done|done|done|congruence|].
  split; [split; [done|congruence]|done].
Qed.
Lemma keeps_transfer from to sy amount : is_u64 amount -> keeps (transfer_lamports cx from to sy amount).
Proof. intros Ha. eapply keeps_system; [done|]. by apply decode_transfer. Qed.
Lemma keeps_transfer_nft tp src dst au seeds : keeps (transfer_nft cx tp src dst au seeds).
Proof.
  intros s u s' [Hok Ho] H. apply transfer_nft_ok in H as (ix & Hp & _ & H).
  destruct (safe_invoke_signed _ _ _ _ _ _ _ Hok H) as [Hok' _].
  destruct (invoke_token_keeps cx ix _ _ _ _ _ k Hok Hp H) as [H1 H2]; [congruence|].
  split; [split; [done|congruence]|done].
Qed.
Lemma keeps_create payer pda sy lamports space seeds bump : is_u64 lamports -> is_u64 space ->
  keeps (create_pda cx payer pda sy lamports space seeds bump).
Proof. intros Hl Hs. eapply keeps_system; [done|]. by apply decode_create_account. Qed.
Lemma keeps_serialize {A} `{Borsh A} (v : A) ia : ia_key ia <> k -> keeps (serialize_into v ia).
Proof.
  intros Hne s u s' [Hok Ho] Hrun. destruct (safe_serialize_into _ _ _ _ _ Hok Hrun) as [Hok' _].
  apply serialize_into_ok in Hrun as [_ ->]. unfold owned, data_at. simpl. rewrite stored_owner, stored_ne by congruence. done.
Qed.

(** An account of the program is not created again. *)
Lemma create_not_owned payer pda sy lamports space seeds bump s u s' :
  is_u64 lamports -> is_u64 space -> owned s -> mem s = ta_accounts (rt s) ->
  create_pda cx payer pda sy lamports space seeds bump s = Ok (u, s') -> ia_key pda <> k.
Proof.
  intros Hl Hs [Hok Ho] Hm H He. unfold create_pda in H.
  eapply invoke_create_fresh in H; [rewrite He in H; congruence|exact L|exact Hok|by rewrite <- Hm|exact Hl|exact Hs|exact Hpid].
Qed.

Definition entered (s : PState) : Prop := owned s /\ mem s = ta_accounts (rt s).
(** A listing that is not, or no longer, active. *)
Definition closed (s : PState) : Prop := exists l, holds (mem s) k l /\ li_is_active l = false.

Lemma created_kept {A} `{Borsh A} payer pda sy lamports space seeds bump (mid : M unit) (v : A) s s1 s2 u u1 :
  is_u64 lamports -> is_u64 space -> entered s -> create_pda cx payer pda sy lamports space seeds bump s = Ok (u, s1) ->
  keeps mid -> mid s1 = Ok (u1, s2) -> zlen (borsh_ser v) <= zlen (acc_data (get_acc (mem s2) (ia_key pda))) ->
  owned (mkPState (stored v (ia_key pda) (mem s2)) (rt s2)) /\ data_at (mkPState (stored v (ia_key pda) (mem s2)) (rt s2)) = data_at s.
Proof.
  intros Hl Hs [Ho Hm] H1 Hmid H2 Hz. assert (H3 : serialize_into v pda s2 = Ok (tt, mkPState (stored v (ia_key pda) (mem s2)) (rt s2))).
  { by apply serialize_into_ok. }
  pose proof (create_not_owned _ _ _ _ _ _ _ _ _ _ Hl Hs Ho Hm H1) as Hne.
  eapply keeps_create in H1 as [Ho1 Hd1]; [|done..]. destruct (Hmid _ _ _ Ho1 H2) as [Ho2 Hd2].
  eapply keeps_serialize in H3 as [? Hd3]; [|done..]. split; [done|congruence].
Qed.

Lemma same_state_assert seeds expected : same_state (assert_pda cx seeds expected).
Proof. intros s a s' H. unfold assert_pda in H. pinv. done. Qed.

Ltac entry_space :=
  lazymatch goal with
  | |- in_range _ _ (minimum_balance _) => apply minimum_balance_u64
  | |- in_range _ _ (as_u64 _) => apply as_u64_range
  | |- _ => by split; vm_compute
  end.
(** Takes the run of a handler that creates an account apart. *)
Ltac creation He :=
  match goal with Ha : assert_pda _ _ _ _ = Ok _ |- _ => apply same_state_assert in Ha as -> end;
  match goal with Hc : create_pda _ _ _ _ _ _ _ _ _ = Ok (_, ?s1) |- _ =>
    first [match goal with Hn : transfer_nft ?c ?a ?b ?d ?e ?f s1 = Ok _ |- _ =>
             eapply (created_kept _ _ _ _ _ _ _ (transfer_nft c a b d e f));
             [| |exact He|exact Hc|apply keeps_transfer_nft|exact Hn|assumption]; entry_space end
          |eapply (created_kept _ _ _ _ _ _ _ (pret tt));
           [| |exact He|exact Hc|apply keeps_same_state, same_state_pret|reflexivity|assumption]; entry_space] end.

Context {LL : BorshLaws Listing} {LA : BorshLaws Auction} {SL : BorshSized Listing Listing_LEN} {SA : BorshSized Auction Auction_LEN}.

Lemma creations_keep s s' : entered s ->
  (exists name symbol bps, process_create_collection cx name symbol bps s = Ok (tt, s')) \/
  (exists price collection, process_list_nft cx price collection s = Ok (tt, s')) \/
  (exists a b c, process_create_auction cx a b c s = Ok (tt, s')) \/
  (exists price expiry, process_make_offer cx price expiry s = Ok (tt, s')) -> owned s' /\ data_at s' = data_at s.
Proof.
  intros He [(? & ? & ? & H)|[(? & ? & H)|[(? & ? & ? & H)|(? & ? & H)]]].
  - unfold process_create_collection in H. pinv. creation He.
  - unfold process_list_nft in H. pinv. creation He.
  - unfold process_create_auction in H. pinv. creation He.
  - unfold process_make_offer in H. pinv. creation He.
Qed.

Ltac pkeeps_step :=
  cbv beta zeta;
  match goal with
  | |- keeps (pbind _ _) => apply keeps_bind; [|intros ?]
  | |- keeps (match ?x with _ => _ end) => destruct x
  | |- keeps (transfer_lamports_signed _ _ _) => apply keeps_transfer_signed
  | |- keeps (transfer_nft _ _ _ _ _ _) => apply keeps_transfer_nft
  | |- keeps (sale_split _ _ _) => apply keeps_same_state, same_state_sale_split
  | _ => solve [apply keeps_same_state; eauto 4 with psafe]
  end.
Ltac pkeeps := repeat pkeeps_step.

Lemma payments_keep : keeps (process_settle_auction cx) /\ keeps (process_accept_offer cx) /\ keeps (process_cancel_offer cx).
Proof.
  unfold process_settle_auction, process_accept_offer, process_cancel_offer. split_and!; pkeeps.
Qed.

Lemma stored_keeps {A} `{Borsh A} (v : A) ia s : ia_key ia <> k -> owned s -> zlen (borsh_ser v) <= zlen (acc_data (get_acc (mem s) (ia_key ia))) ->
  owned (mkPState (stored v (ia_key ia) (mem s)) (rt s)) /\ data_at (mkPState (stored v (ia_key ia) (mem s)) (rt s)) = data_at s.
Proof. intros Hne Ho Hz. apply (keeps_serialize v ia Hne s tt); [done|]. by apply serialize_into_ok. Qed.

Lemma place_bid_keeps amount s s' : is_u64 amount -> owned s -> closed s -> process_place_bid cx amount s = Ok (tt, s') ->
  owned s' /\ data_at s' = data_at s.
Proof.
  intros Ha Ho (l & Hl & _) H. unfold process_place_bid in H. pinv; read Auction as a Hau;
  (match type of Hau with holds _ (ia_key ?au) _ => assert (Hne : ia_key au <> k) by
    (intros He; rewrite He in Hau; apply (holds_zlen (A := Auction) (n := Auction_LEN)) in Hau;
     apply (holds_zlen (A := Listing) (n := Listing_LEN)) in Hl; rewrite Hl in Hau; by vm_compute in Hau) end);
  repeat match goal with
  | Ho : owned ?s, Ht : transfer_lamports_signed _ _ _ ?s = Ok _ |- _ => apply (keeps_transfer_signed _ _ _ _ _ _ Ho) in Ht as [? <-]
  | Ho : owned ?s, Ht : transfer_lamports _ _ _ _ _ ?s = Ok _ |- _ => apply (keeps_transfer _ _ _ _ Ha _ _ _ Ho) in Ht as [? <-]
  end; by apply stored_keeps.
Qed.

(** A sale or a withdrawal of the listing [l] in the account [li]. *)
Definition closing (s s' : PState) : Prop :=
  exists li l s1, cx_accounts cx !! 1%nat = Some li /\ holds (mem s) (ia_key li) l /\ li_is_active l = true /\
    owned s1 /\ data_at s1 = data_at s /\ zlen (borsh_ser (sold l)) <= zlen (acc_data (get_acc (mem s1) (ia_key li))) /\
    s' = mkPState (stored (sold l) (ia_key li) (mem s1)) (rt s1).

Lemma delist_closing s s' : owned s -> process_delist_nft cx s = Ok (tt, s') -> closing s s'.
Proof.
  intros Ho H. unfold process_delist_nft in H. pinv. bool_to_prop. call @cx_accounts as Hacc. read Listing as l Hl.
  call @transfer_nft as Ht. apply (keeps_transfer_nft _ _ _ _ _ _ _ _ Ho) in Ht as [Ho1 Hd1].
  eexists _, l, _. rewrite Hacc. split; [done|]. split; [done|]. split; [done|]. split; [exact Ho1|]. by split_and!.
Qed.

Lemma buy_closing s s' : owned s -> process_buy_nft cx s = Ok (tt, s') -> closing s s'.
Proof.
  intros Ho H. unfold process_buy_nft, validate_collection in H. pinv; call @cx_accounts as Hacc; read Listing as l Hl;
  pose proof (holds_well_typed _ _ _ Hl) as (_ & _ & _ & Hp & _);
  repeat match goal with Hc : calculate_royalty _ _ = Ok _ |- _ => apply royalty_split in Hc as (_ & ? & ?); [|done] end;
  repeat match goal with Hc : (0, _) = (_, _) |- _ => injection Hc as <- <- end;
  repeat match goal with
  | Ho : owned ?s, Ht : transfer_lamports _ ?a ?b ?c ?d ?s = Ok _ |- _ =>
      first [apply (keeps_transfer a b c d ltac:(assumption) _ _ _ Ho) in Ht as [? ?]]
  | Ho : owned ?s, Ht : transfer_nft _ _ _ _ _ _ ?s = Ok _ |- _ => apply (keeps_transfer_nft _ _ _ _ _ _ _ _ Ho) in Ht as [? ?]
  end; bool_to_prop; try lia;
  (eexists _, l, _; rewrite Hacc; split; [done|]; split; [done|]; split; [done|]; split; [eassumption|]; split; [congruence|]; by split).
Qed.

Lemma closing_keeps s s' : closed s -> closing s s' -> owned s' /\ data_at s' = data_at s.
Proof.
  intros (l & Hl & Hi) (li & l' & s1 & _ & Hl' & Ha & Ho & Hd & Hz & ->). rewrite <- Hd. apply stored_keeps; [|done|done].
  intros He. rewrite He in Hl'. assert (l' = l) as -> by (by eapply holds_inj). congruence.
Qed.

Lemma closing_closes s s' : closing s s' -> ia_key <$> cx_accounts cx !! 1%nat = Some k ->
  exists l, holds (mem s) k l /\ li_is_active l = true /\ holds (mem s') k (sold l) /\ owned s'.
Proof.
  intros (li & l & s1 & Hli & Hl & Ha & Ho & Hd & Hz & ->) Hk. rewrite Hli in Hk. injection Hk as Hk. rewrite Hk in *.
  exists l. split; [done|]. split; [done|]. pose proof (holds_well_typed _ _ _ Hl) as Wl. split.
  - simpl. apply (holds_stored (A := Listing) (n := Listing_LEN)); [|done]. unfold data_at in Hd. rewrite Hd.
    by apply (holds_zlen (A := Listing) (n := Listing_LEN)) in Hl.
  - assert (Hrun : serialize_into (sold l) li s1 = Ok (tt, mkPState (stored (sold l) k (mem s1)) (rt s1))).
    { apply serialize_into_ok. by rewrite Hk. }
    split; [by apply safe_serialize_into in Hrun as [? _]; [|apply Ho]|]. simpl. rewrite stored_owner. apply Ho.
Qed.

Lemma market_keeps_closed data s s' : entered s -> closed s -> try_from_slice data <> None ->
  (forall i, try_from_slice data = Some i -> well_typed i) ->
  process_instruction cx data s = Ok (tt, s') -> owned s' /\ closed s'.
Proof.
  intros He Hc Hn Hw H. assert (owned s' /\ data_at s' = data_at s) as [Ho Hd].
  { destruct (try_from_slice data) as [i|] eqn:Hde; [|done]. specialize (Hw i eq_refl). destruct He as [Ho Hm].
    unfold process_instruction in H. rewrite Hde in H. cbn [ok_or lift pbind] in H. destruct payments_keep as (P1 & P2 & P3).
    assert (He : entered s) by done.
    destruct i.
    - apply creations_keep; [done|left; eauto].
    - apply creations_keep; [done|right; left; eauto].
    - apply closing_keeps; [done|by apply delist_closing].
    - apply closing_keeps; [done|by apply buy_closing].
    - apply creations_keep; [done|right; right; left; eauto].
    - by apply (place_bid_keeps bid_amount).
    - by apply (P1 s tt).
    - apply creations_keep; [done|right; right; right; eauto].
    - by apply (P2 s tt).
    - by apply (P3 s tt). }
  split; [done|]. destruct Hc as (l & Hl & Hi). exists l. split; [|done]. unfold holds, data_at in *. by rewrite Hd.
Qed.
End Listings.
