(* ===== verification/NftMarketTheorems.v ===== *)
(** * NftMarketTheorems: the properties of the marketplace

    The theorems about [src/nft-marketplace/program/src/lib.rs], and the
    evaluation of the program on concrete accounts in the Borsh wire format. *)

From Stdlib Require Import Strings.Byte.
From S2P Require Import Prelude Borsh Accounts System Invoke Execution Concrete Cpi Records Wire History TokenCpi TokenDemo NftMarket NftMarketProofs.
Open Scope Z_scope.

(** ** The data on the wire *)

Lemma codec_u16_wf z : c_wf (codec_uint 2) z <-> is_u16 z.
Proof. codec_wf. Qed.
#[local] Hint Rewrite codec_u16_wf : codec_wf.

Definition codec_listing : codec Listing :=
  codec_iso (fun '(t, (m, (s, (p, (a, (c, k)))))) => mkListing t m s p a c k)
    (fun l => (li_tag l, (li_nft_mint l, (li_seller l, (li_price l, (li_is_active l, (li_created_at l, li_collection l)))))))
    (codec_pair (codec_uint 1) (codec_pair codec_pubkey (codec_pair codec_pubkey (codec_pair (codec_uint 8) (codec_pair codec_bool
      (codec_pair (codec_int 8) codec_pubkey)))))).
Definition codec_auction : codec Auction :=
  codec_iso (fun '(t, (m, (s, (p, (b, (k, (e, r))))))) => mkAuction t m s p b k e r)
    (fun a => (au_tag a, (au_nft_mint a, (au_seller a, (au_starting_price a, (au_current_bid a, (au_current_bidder a, (au_end_time a,
       au_reserve_price a))))))))
    (codec_pair (codec_uint 1) (codec_pair codec_pubkey (codec_pair codec_pubkey (codec_pair (codec_uint 8) (codec_pair (codec_uint 8)
      (codec_pair codec_pubkey (codec_pair (codec_int 8) (codec_uint 8)))))))).
Definition codec_offer : codec Offer :=
  codec_iso (fun '(t, (m, (b, (p, e)))) => mkOffer t m b p e)
    (fun o => (of_tag o, (of_nft_mint o, (of_buyer o, (of_price o, of_expiry o)))))
    (codec_pair (codec_uint 1) (codec_pair codec_pubkey (codec_pair codec_pubkey (codec_pair (codec_uint 8) (codec_int 8))))).
Definition codec_collection : codec Collection :=
  codec_iso (fun '(t, (n, (s, (c, (r, v))))) => mkCollection t n s c r v)
    (fun c => (co_tag c, (co_name c, (co_symbol c, (co_creator c, (co_royalty_bps c, co_verified c))))))
    (codec_pair (codec_uint 1) (codec_pair (codec_array 32) (codec_pair (codec_array 10) (codec_pair codec_pubkey
      (codec_pair (codec_uint 2) codec_bool))))).
Definition market_instruction_index (i : MarketplaceInstruction) : nat :=
  match i with
  | CreateCollection _ _ _ => 0 | ListNft _ _ => 1 | DelistNft => 2 | BuyNft => 3 | CreateAuction _ _ _ => 4 | PlaceBid _ => 5
  | SettleAuction => 6 | MakeOffer _ _ => 7 | AcceptOffer => 8 | CancelOffer => 9
  end.
Definition codec_market_instruction : codec MarketplaceInstruction :=
  codec_variants
    [mkVariant (codec_pair (codec_array 32) (codec_pair (codec_array 10) (codec_uint 2))) (fun '(n, (s, r)) => CreateCollection n s r)
       (fun i => match i with CreateCollection n s r => Some (n, (s, r)) | _ => None end);
     mkVariant (codec_pair (codec_uint 8) codec_pubkey) (fun '(p, c) => ListNft p c)
       (fun i => match i with ListNft p c => Some (p, c) | _ => None end);
     mkVariant codec_unit (fun _ => DelistNft) (fun i => match i with DelistNft => Some tt | _ => None end);
     mkVariant codec_unit (fun _ => BuyNft) (fun i => match i with BuyNft => Some tt | _ => None end);
     mkVariant (codec_pair (codec_uint 8) (codec_pair (codec_int 8) (codec_uint 8))) (fun '(s, (d, r)) => CreateAuction s d r)
       (fun i => match i with CreateAuction s d r => Some (s, (d, r)) | _ => None end);
     mkVariant (codec_uint 8) PlaceBid (fun i => match i with PlaceBid b => Some b | _ => None end);
     mkVariant codec_unit (fun _ => SettleAuction) (fun i => match i with SettleAuction => Some tt | _ => None end);
     mkVariant (codec_pair (codec_uint 8) (codec_int 8)) (fun '(p, e) => MakeOffer p e)
       (fun i => match i with MakeOffer p e => Some (p, e) | _ => None end);
     mkVariant codec_unit (fun _ => AcceptOffer) (fun i => match i with AcceptOffer => Some tt | _ => None end);
     mkVariant codec_unit (fun _ => CancelOffer) (fun i => match i with CancelOffer => Some tt | _ => None end)]
    market_instruction_index.

Lemma codec_listing_laws : codec_laws codec_listing.
Proof. apply codec_iso_laws; [by intros []|by intros (?&?&?&?&?&?&?)|]. auto 20 with codec. Qed.
Lemma codec_listing_wf l : well_typed l <-> c_wf codec_listing l.
Proof. unfold codec_listing, well_typed, Listing_well_typed. codec_typed. Qed.
Lemma codec_listing_size : c_size codec_listing Listing_LEN.
Proof. codec_size. Qed.
Lemma codec_auction_laws : codec_laws codec_auction.
Proof. apply codec_iso_laws; [by intros []|by intros (?&?&?&?&?&?&?&?)|]. auto 20 with codec. Qed.
Lemma codec_auction_wf a : well_typed a <-> c_wf codec_auction a.
Proof. unfold codec_auction, well_typed, Auction_well_typed. codec_typed. Qed.
Lemma codec_auction_size : c_size codec_auction Auction_LEN.
Proof. codec_size. Qed.
Lemma codec_offer_laws : codec_laws codec_offer.
Proof. apply codec_iso_laws; [by intros []|by intros (?&?&?&?&?)|]. auto 20 with codec. Qed.
Lemma codec_offer_wf o : well_typed o <-> c_wf codec_offer o.
Proof. unfold codec_offer, well_typed, Offer_well_typed. codec_typed. Qed.
Lemma codec_collection_laws : codec_laws codec_collection.
Proof. apply codec_iso_laws; [by intros []|by intros (?&?&?&?&?&?)|]. auto 20 with codec. Qed.
Lemma codec_collection_wf c : well_typed c <-> c_wf codec_collection c.
Proof. unfold codec_collection, well_typed, Collection_well_typed. codec_typed. Qed.
Lemma codec_market_instruction_laws : codec_laws codec_market_instruction.
Proof.
  apply codec_variants_laws; [simpl; lia|repeat apply Forall_cons_2; simpl; auto 15 with codec| |].
  - intros [|[|[|[|[|[|[|[|[|[|]]]]]]]]]] v a [= <-]; simpl in a;
      repeat match goal with x : unit |- _ => destruct x | x : _ * _ |- _ => destruct x end; done.
  - intros [] v a [= <-]; simpl; by intros [= <-].
Qed.
Lemma codec_market_instruction_wf i : well_typed i <-> c_wf codec_market_instruction i.
Proof. destruct i; unfold well_typed, MarketplaceInstruction_well_typed, codec_market_instruction; codec_variant_typed. Qed.

#[global] Instance listing_borsh : Borsh Listing := borsh_of_codec codec_listing.
#[global] Instance listing_borsh_laws : BorshLaws Listing := borsh_of_codec_laws _ codec_listing_laws codec_listing_wf.
#[global] Instance listing_borsh_sized : BorshSized Listing Listing_LEN := borsh_of_codec_sized _ _ codec_listing_size codec_listing_wf.
#[global] Instance auction_borsh : Borsh Auction := borsh_of_codec codec_auction.
#[global] Instance auction_borsh_laws : BorshLaws Auction := borsh_of_codec_laws _ codec_auction_laws codec_auction_wf.
#[global] Instance auction_borsh_sized : BorshSized Auction Auction_LEN := borsh_of_codec_sized _ _ codec_auction_size codec_auction_wf.
#[global] Instance offer_borsh : Borsh Offer := borsh_of_codec codec_offer.
#[global] Instance offer_borsh_laws : BorshLaws Offer := borsh_of_codec_laws _ codec_offer_laws codec_offer_wf.
#[global] Instance collection_borsh : Borsh Collection := borsh_of_codec codec_collection.
#[global] Instance collection_borsh_laws : BorshLaws Collection := borsh_of_codec_laws _ codec_collection_laws codec_collection_wf.
#[global] Instance market_instruction_borsh : Borsh MarketplaceInstruction := borsh_of_codec codec_market_instruction.
#[global] Instance market_instruction_borsh_laws : BorshLaws MarketplaceInstruction :=
  borsh_of_codec_laws _ codec_market_instruction_laws codec_market_instruction_wf.

(** ** An example *)

Module NftDemo.
Definition PROGRAM : Pubkey := 102.
Definition LISTING_KEY : Pubkey := (find_program_address [LISTING_SEED; key_bytes 11; key_bytes 301] PROGRAM).1.
Definition AUCTION_KEY : Pubkey := (find_program_address [AUCTION_SEED; key_bytes 11; key_bytes 301] PROGRAM).1.
Definition listing : Listing := mkListing 1 11 301 500 true 10 0.
(** An auction that has ended without a bid, one with a bid of 100, and an offer. *)
Definition unsold : Auction := mkAuction 2 11 301 100 0 0 4000 0.
Definition running : Auction := mkAuction 2 12 301 50 100 310 9000 0.
Definition offer : Offer := mkOffer 3 11 300 50 9000.
Definition collection : Collection := mkCollection 4 (replicate 32 Byte.x41) (replicate 10 Byte.x42) 302 10000 false.
Definition accounts : list (Pubkey * Account) :=
  [(LISTING_KEY, mkAccount 1000000 (borsh_ser listing) PROGRAM false);
   (AUCTION_KEY, mkAccount 1000000 (borsh_ser unsold) PROGRAM false);
   (600, mkAccount 1000000 (borsh_ser running) PROGRAM false);
   (700, mkAccount 1000000 (borsh_ser offer) PROGRAM false);
   (402, mkAccount 1000000 (borsh_ser collection) PROGRAM false);
   (300, mkAccount 5000 [] 0 false); (301, mkAccount 5000 [] 0 false); (403, mkAccount 5000 [] 0 false);
   (400, mkAccount 5000 (ACCOUNT_KIND :: le_bytes 8 1) 77 false); (401, mkAccount 5000 (ACCOUNT_KIND :: le_bytes 8 0) 77 false);
   (77, mkAccount 1 [] 1 true); (0, mkAccount 1 [] 1 true)].
Definition ta : TransactionAccounts := mkTA (store accounts) 0 0.
Definition state : PState := mkPState (store accounts) ta.
Definition len (k : Pubkey) : Z := zlen (acc_data (get_acc (store accounts) k)).
Definition cx (l : list AccountInfo) : Ctx := demo_ctx PROGRAM l 5000 len.
Definition w (k : Pubkey) : AccountInfo := mkIA k false true.
Definition buy_cx : Ctx := cx [mkIA 300 true true; w LISTING_KEY; w 301; w 400; w 401; w 402; w 403; w 77; w 0].
Definition free_cx : Ctx := cx [mkIA 300 true true; w LISTING_KEY; w 300; w 400; w 401; w 402; w 403; w 77; w 0].
Definition bid_cx : Ctx := cx [mkIA 300 true true; w 600; w 300; w 0].
Definition settle_cx : Ctx := cx [w 300; w AUCTION_KEY; w 301; w 300; w 400; w 401; w 403; w 403; w 77; w 0].
Definition accept_cx : Ctx := cx [mkIA 301 true true; w 700; w 300; w 400; w 401; w 402; w 403; w 77; w 0].

Lemma entry : at_entry state.
Proof.
  assert (lamports_ok (store accounts)) by (apply lamports_ok_store; repeat constructor; evaluate). by split; [split| |].
Qed.
Lemma market_runs :
  is_ok (process_instruction buy_cx (borsh_ser BuyNft) state) && is_ok (process_place_bid bid_cx 200 state) &&
  is_ok (process_settle_auction settle_cx state) && is_ok (process_accept_offer accept_cx state) = true.
Proof. vm_compute. reflexivity. Qed.
End NftDemo.

(** ** Properties *)

Section NftMarketProperties.
Context {E : Env} {L : EnvLaws} {X : ExecLaws} {T : Token} {TL : TokenLaws} {BL : Borsh Listing} {BA : Borsh Auction} {BO : Borsh Offer}
  {BC : Borsh Collection} {BI : Borsh MarketplaceInstruction} {LL : BorshLaws Listing} {LA : BorshLaws Auction} {LO : BorshLaws Offer}
  {LI : BorshLaws MarketplaceInstruction} {SL : BorshSized Listing Listing_LEN} {SA : BorshSized Auction Auction_LEN}.

(** The runs of the marketplace [program] while [k] is one of its accounts. *)
Definition market_run (program k : Pubkey) (s s' : PState) : Prop :=
  exists cx data, cx_program_id cx = program /\ entered cx k s /\ process_instruction cx data s = Ok (tt, s').
Definition is_closing (i : MarketplaceInstruction) : Prop := i = BuyNft \/ i = DelistNft.

Lemma closing_run cx k data i s s' : cx_program_id cx <> system_program_id -> cx_program_id cx <> token_program_id ->
  is_closing i -> try_from_slice data = Some i -> owned cx k s -> process_instruction cx data s = Ok (tt, s') -> closing cx k s s'.
Proof.
  intros Hsys Htok Hi Hd Ho H. unfold process_instruction in H. rewrite Hd in H. cbn [ok_or lift pbind] in H.
  destruct Hi as [->| ->]; [by apply buy_closing|by apply delist_closing].
Qed.

Lemma closed_for_ever program k m m' : program <> system_program_id -> program <> token_program_id -> is_pubkey program ->
  history (market_run program k) k m m' -> (exists l, holds m k l /\ li_is_active l = false) ->
  exists l, holds m' k l /\ li_is_active l = false.
Proof.
  intros Hsys Htok Hp Hh Hl. eapply (history_invariant _ _ (fun m => exists l, holds m k l /\ li_is_active l = false)); [| |exact Hh|done].
  - intros s s' (cx & data & <- & He & Hrun) Hc. eapply (market_keeps_closed cx k Hsys Htok Hp data s s'); [done|done| | |done].
    + intros Hn. unfold process_instruction in Hrun. rewrite Hn in Hrun. discriminate Hrun.
    + intros i Hi. by apply try_from_slice_some in Hi as [? _].
  - intros m1 m2 Hd (l & Hh' & Hi). exists l. split; [|done]. by eapply holds_data.
Qed.

(** C9. An NFT is sold once: a purchase or a withdrawal of a listing needs an
    active listing and leaves it inactive, and whatever the marketplace does
    afterwards, with this listing or any other account, no later purchase or
    withdrawal of it succeeds. *)
Theorem listing_sold_once cx data i k s s' cx2 data2 i2 s2 :
  cx_program_id cx <> system_program_id -> cx_program_id cx <> token_program_id -> is_pubkey (cx_program_id cx) ->
  is_closing i -> try_from_slice data = Some i -> ia_key <$> cx_accounts cx !! 1%nat = Some k -> owned cx k s ->
  process_instruction cx data s = Ok (tt, s') ->
  (exists l, holds (mem s) k l /\ li_is_active l = true /\ holds (mem s') k (sold l)) /\
  (history (market_run (cx_program_id cx) k) k (mem s') (mem s2) -> is_closing i2 -> try_from_slice data2 = Some i2 ->
   ia_key <$> cx_accounts cx2 !! 1%nat = Some k -> cx_program_id cx2 = cx_program_id cx -> owned cx2 k s2 ->
   exists e, process_instruction cx2 data2 s2 = Err e).
Proof.
  intros Hsys Htok Hp Hi Hd Hk Ho H. pose proof (closing_run _ _ _ _ _ _ Hsys Htok Hi Hd Ho H) as Hc.
  destruct (closing_closes _ _ _ _ Hc Hk) as (l & Hl & Ha & Hs & _). split; [by exists l|].
  intros Hh Hi2 Hd2 Hk2 Hp2 Ho2. destruct (process_instruction cx2 data2 s2) as [[[] s3]|e] eqn:Hrun; [exfalso|by exists e].
  destruct (closed_for_ever _ _ _ _ Hsys Htok Hp Hh) as (l2 & Hl2 & Ha2); [by exists (sold l)|].
  rewrite <- Hp2 in Hsys, Htok. destruct (closing_run _ _ _ _ _ _ Hsys Htok Hi2 Hd2 Ho2 Hrun) as (li & l' & s4 & Hli & Hl' & Ha' & _).
  rewrite Hli in Hk2. injection Hk2 as <-. assert (l' = l2) as -> by (by eapply holds_inj). congruence.
Qed.

(** C31. An outbid bidder is never refunded: a bid on an auction that has a bid
    succeeds only if the account named for the refund is that of the new bidder
    or of the auction, because the balances of a call that does not get the
    refunded account do not add up.  A bid also needs the signature of the
    bidder, an open auction, and more than the current bid. *)
Theorem outbid_never_refunded cx amount s s' : at_entry s -> process_place_bid cx amount s = Ok (tt, s') ->
  exists bd au pv sy rest a, cx_accounts cx = bd :: au :: pv :: sy :: rest /\ ia_is_signer bd = true /\
    holds (mem s) (ia_key au) a /\ unix_timestamp (cx_clock cx) < au_end_time a /\
    au_current_bid a < amount /\ au_starting_price a <= amount /\
    (no_programs s [bd; au] -> 0 < au_current_bid a -> au_current_bidder a <> 0 -> ia_key pv = ia_key bd \/ ia_key pv = ia_key au).
Proof. apply place_bid_ok. Qed.

(** C32. A sale pays nobody who is not part of the transfer of the NFT.  The
    settlement of an auction, between accounts that are no programs, goes
    through with a highest bid above 0 only if the account named for the seller
    or the one named for the royalty is the escrow, the token account of the
    winner or the auction itself; the acceptance of an offer with a part of the
    seller above 0 only if the offer or the recipient of the royalty is one of
    the two token accounts or the seller, or they are the same account.
    Otherwise the balances of the call of the token program do not add up, so
    that the settlement and the acceptance a client means to send fail. *)
Theorem sale_pays_no_outsider cx s s' : at_entry s ->
  (process_settle_auction cx s = Ok (tt, s') ->
   exists ca au se wi es wt co re tp sy rest a, cx_accounts cx = ca :: au :: se :: wi :: es :: wt :: co :: re :: tp :: sy :: rest /\
     holds (mem s) (ia_key au) a /\ au_end_time a <= unix_timestamp (cx_clock cx) /\ au_reserve_price a <= au_current_bid a /\
     (no_programs s [es; wt; au] -> ia_key se ∉ [ia_key es; ia_key wt; ia_key au] -> ia_key re ∉ [ia_key es; ia_key wt; ia_key au] ->
      au_current_bid a = 0)) /\
  (process_accept_offer cx s = Ok (tt, s') ->
   exists se off bu st bt co re tp sy rest o q, cx_accounts cx = se :: off :: bu :: st :: bt :: co :: re :: tp :: sy :: rest /\
     ia_is_signer se = true /\ holds (mem s) (ia_key off) o /\ unix_timestamp (cx_clock cx) <= of_expiry o /\
     (exists r, sale_split cx co (of_price o) s = Ok ((r, q), s)) /\
     (no_programs s [st; bt; se] -> ia_key off ∉ [ia_key st; ia_key bt; ia_key se] -> ia_key re ∉ [ia_key st; ia_key bt; ia_key se] ->
      ia_key re <> ia_key off -> q = 0)).
Proof. intros He. split; [by apply settle_ok|by apply accept_ok]. Qed.

(** The royalty is exact: a rate of at most 10000 basis points, and no
    collection is created with more, splits every price into the royalty rounded
    down and the rest; a higher rate never pays out more than the price. *)
Theorem royalty_exact price bps : is_u64 price -> is_u16 bps ->
  (bps <= 10000 -> calculate_royalty price bps = Ok (price * bps / 10000, price - price * bps / 10000)) /\
  (forall r q, calculate_royalty price bps = Ok (r, q) -> r + q = price /\ 0 <= r <= price) /\
  (forall cx name symbol s s', process_create_collection cx name symbol bps s = Ok (tt, s') -> bps <= 10000).
Proof.
  intros Hp Hb. split_and!.
  - intros. apply royalty_ok; [done|]. unfold in_range in Hb. lia.
  - intros r q H. apply royalty_split in H as (? & ? & ?); [|done]. ilia.
  - intros cx name symbol s s' H. unfold process_create_collection in H. pinv. by bool_to_prop.
Qed.
End NftMarketProperties.

(** The seller of a listing need not be paid: a buyer who names itself as the
    seller gets the NFT and keeps the price. *)
Example buyer_pays_itself : exists ta',
  execute NftDemo.free_cx (process_instruction NftDemo.free_cx (borsh_ser BuyNft)) NftDemo.ta = Ok ta' /\
  holds (ta_accounts ta') NftDemo.LISTING_KEY (sold NftDemo.listing) /\
  acc_lamports (get_acc (ta_accounts ta') 300) = 5000 /\ acc_lamports (get_acc (ta_accounts ta') 301) = 5000 /\
  token_balance (acc_data (get_acc (ta_accounts ta') 401)) = 1.
Proof. eexists. split; [vm_compute; reflexivity|]. split_and!; vm_compute; reflexivity. Qed.

(** A bid that names the outbid bidder for the refund fails. *)
Example honest_bid_fails :
  process_place_bid (NftDemo.cx [mkIA 300 true true; NftDemo.w 600; NftDemo.w 310; NftDemo.w 0]) 200 NftDemo.state =
  Err UnbalancedInstruction.
Proof. vm_compute. reflexivity. Qed.

(** An auction with a bid of 200 that has ended is not settled in favour of its
    seller; it is settled when the escrow is named as the seller, whose price
    then goes to the escrow. *)
Example settlement_pays_the_escrow :
  let m := <[NftDemo.AUCTION_KEY := mkAccount 1000000 (borsh_ser (mkAuction 2 11 301 100 200 310 4000 150)) NftDemo.PROGRAM false]>
    (store NftDemo.accounts) in
  let settle seller := process_settle_auction (NftDemo.cx (<[2%nat := NftDemo.w seller]> (cx_accounts NftDemo.settle_cx)))
    (mkPState m (mkTA m 0 0)) in
  settle 301 = Err UnbalancedInstruction /\
  exists s', settle 400 = Ok (tt, s') /\ acc_lamports (get_acc (mem s') 400) = 5200 /\ acc_lamports (get_acc (mem s') 301) = 5000 /\
    token_balance (acc_data (get_acc (mem s') 401)) = 1.
Proof.
  split; [vm_compute; reflexivity|]. eexists. split; [vm_compute; reflexivity|]. split_and!; vm_compute; reflexivity.
Qed.

(** ** The hypotheses can hold *)

Lemma listing_sold_once_witness : exists s' e,
  process_instruction NftDemo.buy_cx (borsh_ser BuyNft) NftDemo.state = Ok (tt, s') /\
  process_instruction NftDemo.buy_cx (borsh_ser BuyNft) s' = Err e.
Proof.
  destruct (process_instruction NftDemo.buy_cx (borsh_ser BuyNft) NftDemo.state) as [[[] s']|e] eqn:Hrun;
    [|pose proof NftDemo.market_runs as Hk; rewrite Hrun in Hk; discriminate Hk].
  assert (Ho : owned NftDemo.buy_cx NftDemo.LISTING_KEY NftDemo.state) by (split; [exact (ae_ok _ NftDemo.entry)|evaluate]).
  destruct (listing_sold_once NftDemo.buy_cx (borsh_ser BuyNft) BuyNft NftDemo.LISTING_KEY NftDemo.state s'
    NftDemo.buy_cx (borsh_ser BuyNft) BuyNft s') as [_ H2]; [evaluate|evaluate|evaluate|left; exact eq_refl|evaluate|evaluate|exact Ho|exact Hrun|].
  destruct H2 as [e He]; [apply history_refl|left; exact eq_refl|evaluate|evaluate|exact eq_refl| |exists s', e; split; [exact eq_refl|exact He]].
  edestruct (closing_closes NftDemo.buy_cx NftDemo.LISTING_KEY NftDemo.state s') as (l & _ & _ & _ & Hown); [|evaluate|exact Hown].
  apply (closing_run NftDemo.buy_cx NftDemo.LISTING_KEY (borsh_ser BuyNft) BuyNft NftDemo.state s');
    [evaluate|evaluate|left; exact eq_refl|evaluate|exact Ho|exact Hrun].
Defined.

Lemma outbid_never_refunded_witness : exists s', process_place_bid NftDemo.bid_cx 200 NftDemo.state = Ok (tt, s') /\
  exists au, cx_accounts NftDemo.bid_cx !! 1%nat = Some au /\ exists a : Auction, holds (mem NftDemo.state) (ia_key au) a /\ au_current_bid a < 200.
Proof.
  destruct (process_place_bid NftDemo.bid_cx 200 NftDemo.state) as [[[] s']|e] eqn:Hrun;
    [|pose proof NftDemo.market_runs as Hk; rewrite Hrun, ?andb_false_r in Hk; discriminate Hk].
  exists s'. split; [exact eq_refl|].
  destruct (outbid_never_refunded NftDemo.bid_cx 200 NftDemo.state s' NftDemo.entry Hrun) as (bd & au & pv & sy & rest & a & Hacc & _ & Ha & _ & Hb & _).
  exists au. rewrite Hacc. split; [exact eq_refl|]. exists a. split; [exact Ha|exact Hb].
Defined.

Lemma sale_pays_no_outsider_witness : exists s' s'',
  process_settle_auction NftDemo.settle_cx NftDemo.state = Ok (tt, s') /\ process_accept_offer NftDemo.accept_cx NftDemo.state = Ok (tt, s'') /\
  exists a : Auction, au_reserve_price a <= au_current_bid a.
Proof.
  destruct (process_settle_auction NftDemo.settle_cx NftDemo.state) as [[[] s']|e] eqn:Hrun;
    [|pose proof NftDemo.market_runs as Hk; rewrite Hrun, ?andb_false_r in Hk; discriminate Hk].
  destruct (process_accept_offer NftDemo.accept_cx NftDemo.state) as [[[] s'']|e] eqn:Hrun2;
    [|pose proof NftDemo.market_runs as Hk; rewrite Hrun2, ?andb_false_r in Hk; discriminate Hk].
  exists s', s''. split; [exact eq_refl|]. split; [exact eq_refl|].
  destruct (proj1 (sale_pays_no_outsider NftDemo.settle_cx NftDemo.state s' NftDemo.entry) Hrun)
    as (ca & au & se & wi & es & wt & co & re & tp & sy & rest & a & _ & _ & _ & Hr & _).
  exists a. exact Hr.
Defined.

Lemma royalty_exact_witness : calculate_royalty 1000000000 500 = Ok (50000000, 950000000).
Proof.
  destruct (royalty_exact 1000000000 500) as [H _]; [split; vm_compute; discriminate|split; vm_compute; discriminate|].
  rewrite H by (vm_compute; discriminate). vm_compute. reflexivity.
Defined.
