(* ===== verification/Scusd.v ===== *)
(** * Scusd: the SCUSD stablecoin of [src/defi/scusd/program/src/lib.rs]

    A vault holds PRISM collateral and the SCUSD minted against it; the global
    state has the totals and the ratios.  Each handler is the function of the
    same name; the tokens are moved by calls of the token program ([TokenCpi]).
    Log messages are not modelled. *)

From Stdlib Require Import Strings.Byte Strings.String.
From S2P Require Import Prelude Borsh Accounts System Invoke Execution Cpi Records TokenCpi.
Open Scope Z_scope.

(** ** Data *)

Definition COLLATERAL_RATIO_MIN_BPS : Z := 15000.
Definition LIQUIDATION_RATIO_BPS : Z := 12000.
Definition STABILITY_FEE_RATE_BPS : Z := 200.
Definition LIQUIDATION_DISCOUNT_BPS : Z := 500.
Definition PRICE_DECIMALS : Z := 100000000.
Definition SECONDS_PER_YEAR : Z := 31557600.
Definition GLOBAL_STATE_SEED : list byte := list_byte_of_string "scusd_global".
Definition VAULT_SEED : list byte := list_byte_of_string "scusd_vault".

Record GlobalState := mkGlobal {
  gs_authority : Pubkey;
  gs_scusd_mint : Pubkey;
  gs_prism_mint : Pubkey;
  gs_collateral_pool : Pubkey;
  gs_total_collateral : Z;
  gs_total_debt : Z;
  gs_collateral_ratio_min : Z;
  gs_liquidation_ratio : Z;
  gs_stability_fee_rate : Z;
  gs_bump : Z;
  gs_is_initialized : bool;
}.
Definition GlobalState_LEN : Z := 32 + 32 + 32 + 32 + 8 + 8 + 8 + 8 + 8 + 1 + 1.

Record Vault := mkVault {
  va_owner : Pubkey;
  va_collateral_amount : Z;
  va_debt_amount : Z;
  va_collateral_ratio : Z;
  va_last_update : Z;
  va_bump : Z;
  va_is_initialized : bool;
}.
Definition Vault_LEN : Z := 32 + 8 + 8 + 8 + 8 + 1 + 1.

Inductive ScusdInstruction :=
| Initialize
| OpenVault
| DepositCollateral (amount : Z)
| MintScusd (amount : Z)
| RepayScusd (amount : Z)
| WithdrawCollateral (amount : Z)
| LiquidateVault.

#[global] Instance GlobalState_well_typed : WellTyped GlobalState := fun g =>
  is_pubkey (gs_authority g) /\ is_pubkey (gs_scusd_mint g) /\ is_pubkey (gs_prism_mint g) /\ is_pubkey (gs_collateral_pool g) /\
  is_u64 (gs_total_collateral g) /\ is_u64 (gs_total_debt g) /\ is_u64 (gs_collateral_ratio_min g) /\
  is_u64 (gs_liquidation_ratio g) /\ is_u64 (gs_stability_fee_rate g) /\ is_u8 (gs_bump g).
#[global] Instance Vault_well_typed : WellTyped Vault := fun v =>
  is_pubkey (va_owner v) /\ is_u64 (va_collateral_amount v) /\ is_u64 (va_debt_amount v) /\ is_u64 (va_collateral_ratio v) /\
  is_i64 (va_last_update v) /\ is_u8 (va_bump v).
#[global] Instance ScusdInstruction_well_typed : WellTyped ScusdInstruction := fun i =>
  match i with
  | DepositCollateral x | MintScusd x | RepayScusd x | WithdrawCollateral x => is_u64 x
  | Initialize | OpenVault | LiquidateVault => True
  end.

(** Field updates. *)
Definition with_totals (collateral debt : Z) (g : GlobalState) : GlobalState :=
  mkGlobal (gs_authority g) (gs_scusd_mint g) (gs_prism_mint g) (gs_collateral_pool g) collateral debt
    (gs_collateral_ratio_min g) (gs_liquidation_ratio g) (gs_stability_fee_rate g) (gs_bump g) (gs_is_initialized g).
Definition with_amounts (collateral debt ratio last_update : Z) (v : Vault) : Vault :=
  mkVault (va_owner v) collateral debt ratio last_update (va_bump v) (va_is_initialized v).

(** ** Helpers *)

Definition calculate_collateral_ratio (collateral debt prism_price : Z) : Z :=
  if debt =? 0 then U64_MAX
  else
    let collateral_value := default 0 (u128_checked_mul collateral prism_price) in
    let debt_value := default 1 (u128_checked_mul debt PRICE_DECIMALS) in
    let ratio := default 0 (u128_checked_mul collateral_value 10000) / debt_value in
    as_u64 ratio.

(** The division panics when the minimum ratio is 0. *)
Definition calculate_max_mint (collateral current_debt prism_price min_ratio_bps : Z) : result InstructionError Z :=
  let collateral_value := default 0 (u128_checked_mul collateral prism_price) in
  (err_if (PRICE_DECIMALS * min_ratio_bps =? 0) ProgramFailedToComplete ?>
   let max_debt := default 0 (u128_checked_mul collateral_value 10000) / (PRICE_DECIMALS * min_ratio_bps) in
   Ok (u64_saturating_sub (as_u64 max_debt) current_debt))%result.

Definition calculate_stability_fee (debt rate_bps elapsed_seconds : Z) : Z :=
  if (debt =? 0) || (elapsed_seconds =? 0) then 0
  else
    let fee := default 0 (u128_checked_mul (default 0 (u128_checked_mul debt rate_bps)) elapsed_seconds)
                 / (10000 * SECONDS_PER_YEAR) in
    as_u64 fee.

(** [now - vault.last_update] wraps around in the release build. *)
Definition accrue_stability_fee (global : GlobalState) (now : Z) (vault : Vault) : Vault :=
  if (va_debt_amount vault =? 0) || (now <=? va_last_update vault) then vault
  else
    let elapsed := as_u64 (i64_wrapping_sub now (va_last_update vault)) in
    let fee := calculate_stability_fee (va_debt_amount vault) (gs_stability_fee_rate global) elapsed in
    if 0 <? fee then
      with_amounts (va_collateral_amount vault) (u64_saturating_add (va_debt_amount vault) fee) (va_collateral_ratio vault)
        (va_last_update vault) vault
    else vault.

Definition read_oracle_price (oracle_account : AccountInfo) : M Z :=
  (let! a := account oracle_account in
   fail_if (zlen (acc_data a) <? 72) InvalidAccountData ;;
   let price := le_val (take 8 (drop 64 (acc_data a))) in
   fail_if (price =? 0) InvalidAccountData ;;
   pret price)%prog.

(** ** Instructions *)

Section Scusd.
Context {E : Env} {T : Token} {BG : Borsh GlobalState} {BV : Borsh Vault} {BI : Borsh ScusdInstruction}.
Variable cx : Ctx.

Definition process_initialize : M unit :=
  (let! '(authority, it) := next_account_info (cx_accounts cx) in
   let! '(global_state_info, it) := next_account_info it in
   let! '(scusd_mint_info, it) := next_account_info it in
   let! '(prism_mint_info, it) := next_account_info it in
   let! '(collateral_pool_info, it) := next_account_info it in
   let! '(_token_program, it) := next_account_info it in
   let! '(system_program, it) := next_account_info it in
   let! '(_rent_sysvar, it) := next_account_info it in
   fail_if (negb (ia_is_signer authority)) MissingRequiredSignature ;;
   let '(global_pda, bump) := find_program_address [GLOBAL_STATE_SEED] (cx_program_id cx) in
   fail_if (negb (ia_key global_state_info =? global_pda)) InvalidArgument ;;
   let space := GlobalState_LEN in
   let lamports := minimum_balance space in
   invoke_signed cx (create_account_ix (ia_key authority) (ia_key global_state_info) lamports space (cx_program_id cx))
     [authority; global_state_info; system_program] [[GLOBAL_STATE_SEED; [byte_of_Z bump]]] ;;
   serialize_into
     (mkGlobal (ia_key authority) (ia_key scusd_mint_info) (ia_key prism_mint_info) (ia_key collateral_pool_info) 0 0
        COLLATERAL_RATIO_MIN_BPS LIQUIDATION_RATIO_BPS STABILITY_FEE_RATE_BPS bump true)
     global_state_info)%prog.

Definition process_open_vault : M unit :=
  (let! '(owner, it) := next_account_info (cx_accounts cx) in
   let! '(vault_info, it) := next_account_info it in
   let! '(global_state_info, it) := next_account_info it in
   let! '(system_program, it) := next_account_info it in
   fail_if (negb (ia_is_signer owner)) MissingRequiredSignature ;;
   let! global_state := load GlobalState global_state_info BorshIoError in
   fail_if (negb (gs_is_initialized global_state)) UninitializedAccount ;;
   let '(vault_pda, vault_bump) := find_program_address [VAULT_SEED; key_bytes (ia_key owner)] (cx_program_id cx) in
   fail_if (negb (ia_key vault_info =? vault_pda)) InvalidArgument ;;
   let space := Vault_LEN in
   let lamports := minimum_balance space in
   invoke_signed cx (create_account_ix (ia_key owner) (ia_key vault_info) lamports space (cx_program_id cx))
     [owner; vault_info; system_program] [[VAULT_SEED; key_bytes (ia_key owner); [byte_of_Z vault_bump]]] ;;
   let! clock := clock_get cx in
   serialize_into (mkVault (ia_key owner) 0 0 0 (unix_timestamp clock) vault_bump true) vault_info)%prog.

(** The vault of the signer. *)
Definition load_vault (owner vault_info : AccountInfo) : M Vault :=
  (fail_if (negb (ia_is_signer owner)) MissingRequiredSignature ;;
   let! vault := load Vault vault_info BorshIoError in
   fail_if (negb (va_is_initialized vault) || negb (va_owner vault =? ia_key owner)) InvalidArgument ;;
   pret vault)%prog.

(** The end of a handler: the vault, then the global state. *)
Definition store_state (vault : Vault) (global_state : GlobalState) (vault_info global_state_info : AccountInfo) : M unit :=
  (serialize_into vault vault_info ;; serialize_into global_state global_state_info)%prog.

(** The seeds with which the program signs for the global state. *)
Definition global_signer (global_state : GlobalState) : list (list (list byte)) :=
  [[GLOBAL_STATE_SEED; [byte_of_Z (gs_bump global_state)]]].

Definition process_deposit_collateral (amount : Z) : M unit :=
  (let! '(owner, it) := next_account_info (cx_accounts cx) in
   let! '(vault_info, it) := next_account_info it in
   let! '(global_state_info, it) := next_account_info it in
   let! '(owner_prism_account, it) := next_account_info it in
   let! '(collateral_pool, it) := next_account_info it in
   let! '(token_program, it) := next_account_info it in
   let! '(_clock_sysvar, it) := next_account_info it in
   let! vault := load_vault owner vault_info in
   let! global_state := load GlobalState global_state_info BorshIoError in
   let! clock := clock_get cx in
   let vault := accrue_stability_fee global_state (unix_timestamp clock) vault in
   let! ix := lift (token_transfer (ia_key token_program) (ia_key owner_prism_account) (ia_key collateral_pool) (ia_key owner) amount) in
   invoke cx ix [owner_prism_account; collateral_pool; owner; token_program] ;;
   let! collateral_amount := lift (ok_or (u64_checked_add (va_collateral_amount vault) amount) ArithmeticOverflow) in
   let vault := with_amounts collateral_amount (va_debt_amount vault) (va_collateral_ratio vault) (unix_timestamp clock) vault in
   let! total_collateral := lift (ok_or (u64_checked_add (gs_total_collateral global_state) amount) ArithmeticOverflow) in
   let global_state := with_totals total_collateral (gs_total_debt global_state) global_state in
   store_state vault global_state vault_info global_state_info)%prog.

Definition process_mint_scusd (amount : Z) : M unit :=
  (let! '(owner, it) := next_account_info (cx_accounts cx) in
   let! '(vault_info, it) := next_account_info it in
   let! '(global_state_info, it) := next_account_info it in
   let! '(scusd_mint, it) := next_account_info it in
   let! '(owner_scusd_account, it) := next_account_info it in
   let! '(oracle_feed, it) := next_account_info it in
   let! '(token_program, it) := next_account_info it in
   let! '(_clock_sysvar, it) := next_account_info it in
   let! vault := load_vault owner vault_info in
   let! global_state := load GlobalState global_state_info BorshIoError in
   let! clock := clock_get cx in
   let vault := accrue_stability_fee global_state (unix_timestamp clock) vault in
   let! prism_price := read_oracle_price oracle_feed in
   let! new_debt := lift (ok_or (u64_checked_add (va_debt_amount vault) amount) ArithmeticOverflow) in
   let ratio := calculate_collateral_ratio (va_collateral_amount vault) new_debt prism_price in
   fail_if (ratio <? gs_collateral_ratio_min global_state) InsufficientFunds ;;
   let! ix := lift (token_mint_to (ia_key token_program) (ia_key scusd_mint) (ia_key owner_scusd_account) (ia_key global_state_info) amount) in
   invoke_signed cx ix [scusd_mint; owner_scusd_account; global_state_info; token_program] (global_signer global_state) ;;
   let vault := with_amounts (va_collateral_amount vault) new_debt ratio (unix_timestamp clock) vault in
   let! total_debt := lift (ok_or (u64_checked_add (gs_total_debt global_state) amount) ArithmeticOverflow) in
   let global_state := with_totals (gs_total_collateral global_state) total_debt global_state in
   store_state vault global_state vault_info global_state_info)%prog.

Definition process_repay_scusd (amount : Z) : M unit :=
  (let! '(owner, it) := next_account_info (cx_accounts cx) in
   let! '(vault_info, it) := next_account_info it in
   let! '(global_state_info, it) := next_account_info it in
   let! '(scusd_mint, it) := next_account_info it in
   let! '(owner_scusd_account, it) := next_account_info it in
   let! '(token_program, it) := next_account_info it in
   let! '(_clock_sysvar, it) := next_account_info it in
   let! vault := load_vault owner vault_info in
   let! global_state := load GlobalState global_state_info BorshIoError in
   let! clock := clock_get cx in
   let vault := accrue_stability_fee global_state (unix_timestamp clock) vault in
   let repay_amount := Z.min amount (va_debt_amount vault) in
   let! ix := lift (token_burn (ia_key token_program) (ia_key owner_scusd_account) (ia_key scusd_mint) (ia_key owner) repay_amount) in
   invoke cx ix [owner_scusd_account; scusd_mint; owner; token_program] ;;
   let! debt_amount := lift (ok_or (u64_checked_sub (va_debt_amount vault) repay_amount) ArithmeticOverflow) in
   let vault := with_amounts (va_collateral_amount vault) debt_amount (va_collateral_ratio vault) (unix_timestamp clock) vault in
   let! total_debt := lift (ok_or (u64_checked_sub (gs_total_debt global_state) repay_amount) ArithmeticOverflow) in
   let global_state := with_totals (gs_total_collateral global_state) total_debt global_state in
   store_state vault global_state vault_info global_state_info)%prog.

Definition process_withdraw_collateral (amount : Z) : M unit :=
  (let! '(owner, it) := next_account_info (cx_accounts cx) in
   let! '(vault_info, it) := next_account_info it in
   let! '(global_state_info, it) := next_account_info it in
   let! '(collateral_pool, it) := next_account_info it in
   let! '(owner_prism_account, it) := next_account_info it in
   let! '(oracle_feed, it) := next_account_info it in
   let! '(token_program, it) := next_account_info it in
   let! '(_clock_sysvar, it) := next_account_info it in
   let! vault := load_vault owner vault_info in
   let! global_state := load GlobalState global_state_info BorshIoError in
   let! clock := clock_get cx in
   let vault := accrue_stability_fee global_state (unix_timestamp clock) vault in
   fail_if (va_collateral_amount vault <? amount) InsufficientFunds ;;
   let! new_collateral := lift (ok_or (u64_checked_sub (va_collateral_amount vault) amount) ArithmeticOverflow) in
   let! collateral_ratio :=
     if 0 <? va_debt_amount vault then
       let! prism_price := read_oracle_price oracle_feed in
       let ratio := calculate_collateral_ratio new_collateral (va_debt_amount vault) prism_price in
       fail_if (ratio <? gs_collateral_ratio_min global_state) InsufficientFunds ;;
       pret ratio
     else pret (va_collateral_ratio vault) in
   let! ix := lift (token_transfer (ia_key token_program) (ia_key collateral_pool) (ia_key owner_prism_account) (ia_key global_state_info) amount) in
   invoke_signed cx ix [collateral_pool; owner_prism_account; global_state_info; token_program] (global_signer global_state) ;;
   let vault := with_amounts new_collateral (va_debt_amount vault) collateral_ratio (unix_timestamp clock) vault in
   let! total_collateral := lift (ok_or (u64_checked_sub (gs_total_collateral global_state) amount) ArithmeticOverflow) in
   let global_state := with_totals total_collateral (gs_total_debt global_state) global_state in
   store_state vault global_state vault_info global_state_info)%prog.

Definition process_liquidate_vault : M unit :=
  (let! '(liquidator, it) := next_account_info (cx_accounts cx) in
   let! '(vault_info, it) := next_account_info it in
   let! '(global_state_info, it) := next_account_info it in
   let! '(scusd_mint, it) := next_account_info it in
   let! '(liquidator_scusd_account, it) := next_account_info it in
   let! '(liquidator_prism_account, it) := next_account_info it in
   let! '(collateral_pool, it) := next_account_info it in
   let! '(oracle_feed, it) := next_account_info it in
   let! '(token_program, it) := next_account_info it in
   let! '(_clock_sysvar, it) := next_account_info it in
   fail_if (negb (ia_is_signer liquidator)) MissingRequiredSignature ;;
   let! vault := load Vault vault_info BorshIoError in
   fail_if (negb (va_is_initialized vault)) UninitializedAccount ;;
   let! global_state := load GlobalState global_state_info BorshIoError in
   let! clock := clock_get cx in
   let vault := accrue_stability_fee global_state (unix_timestamp clock) vault in
   let! prism_price := read_oracle_price oracle_feed in
   let ratio := calculate_collateral_ratio (va_collateral_amount vault) (va_debt_amount vault) prism_price in
   fail_if (gs_liquidation_ratio global_state <=? ratio) InvalidArgument ;;
   let debt_to_repay := va_debt_amount vault in
   let! discounted := lift (ok_or (u64_checked_mul prism_price (10000 - LIQUIDATION_DISCOUNT_BPS)) ArithmeticOverflow) in
   let discounted_price := discounted / 10000 in
   let! scaled := lift (ok_or (u64_checked_mul debt_to_repay PRICE_DECIMALS) ArithmeticOverflow) in
   let! priced := lift (ok_or (if discounted_price =? 0 then None else Some (scaled / discounted_price)) ArithmeticOverflow) in
   let collateral_to_liquidate := Z.min priced (va_collateral_amount vault) in
   let! ix := lift (token_burn (ia_key token_program) (ia_key liquidator_scusd_account) (ia_key scusd_mint) (ia_key liquidator) debt_to_repay) in
   invoke cx ix [liquidator_scusd_account; scusd_mint; liquidator; token_program] ;;
   let! ix := lift (token_transfer (ia_key token_program) (ia_key collateral_pool) (ia_key liquidator_prism_account) (ia_key global_state_info)
                      collateral_to_liquidate) in
   invoke_signed cx ix [collateral_pool; liquidator_prism_account; global_state_info; token_program] (global_signer global_state) ;;
   let! collateral_amount := lift (ok_or (u64_checked_sub (va_collateral_amount vault) collateral_to_liquidate) ArithmeticOverflow) in
   let vault := with_amounts collateral_amount 0 0 (unix_timestamp clock) vault in
   let! total_debt := lift (ok_or (u64_checked_sub (gs_total_debt global_state) debt_to_repay) ArithmeticOverflow) in
   let! total_collateral := lift (ok_or (u64_checked_sub (gs_total_collateral global_state) collateral_to_liquidate) ArithmeticOverflow) in
   let global_state := with_totals total_collateral total_debt global_state in
   store_state vault global_state vault_info global_state_info)%prog.

Definition process_instruction (instruction_data : list byte) : M unit :=
  (let! instruction := lift (ok_or (try_from_slice instruction_data) InvalidInstructionData) in
   match instruction with
   | Initialize => process_initialize
   | OpenVault => process_open_vault
   | DepositCollateral amount => process_deposit_collateral amount
   | MintScusd amount => process_mint_scusd amount
   | RepayScusd amount => process_repay_scusd amount
   | WithdrawCollateral amount => process_withdraw_collateral amount
   | LiquidateVault => process_liquidate_vault
   end)%prog.
End Scusd.
