(* ===== verification/ScusdProofs.v ===== *)
(** * ScusdProofs: the steps of a vault, and the arithmetic behind them

    What a successful handler of [Scusd] does: the calls of the token program it
    makes, the new vault and the new totals, as a step of an abstract system
    whose conditions are stated over the integers. *)

From Stdlib Require Import Strings.Byte.
From S2P Require Import Prelude Borsh Accounts System Invoke Execution Cpi Records TokenCpi Scusd.
Open Scope Z_scope.

(** ** Arithmetic *)

Lemma le_div_iff n d q : 0 < d -> q <= n / d <-> d * q <= n.
Proof.
  intros Hd. split; intros H; [|by apply Z.div_le_lower_bound].
  pose proof (Z.mul_div_le n d Hd). pose proof (Z.mul_le_mono_nonneg_l _ _ d ltac:(lia) H). lia.
Qed.

(** [collateral] at [price] covers [debt] at [ratio] basis points. *)
Definition covered (ratio collateral debt price : Z) : Prop :=
  ratio * (debt * PRICE_DECIMALS) <= collateral * price * 10000.

(** The product with the price fits the 128 bits of the ratio. *)
Definition in_bounds (collateral price : Z) : Prop := collateral * price * 10000 <= U64_MAX * PRICE_DECIMALS.

Lemma debt_value_ok debt : is_u64 debt -> u128_checked_mul debt PRICE_DECIMALS = Some (debt * PRICE_DECIMALS).
Proof. intros. apply checked_in. unfold PRICE_DECIMALS. ilia. Qed.

Lemma ratio_exact collateral debt price : is_u64 collateral -> is_u64 debt -> is_u64 price -> 0 < debt -> in_bounds collateral price ->
  calculate_collateral_ratio collateral debt price = collateral * price * 10000 / (debt * PRICE_DECIMALS).
Proof.
  intros Hc Hd Hp H0 Hb. unfold calculate_collateral_ratio. unfold in_bounds, PRICE_DECIMALS in Hb. rewrite (proj2 (Z.eqb_neq debt 0)) by lia.
  assert (0 <= collateral * price) by (unfold_ints; nia).
  rewrite (debt_value_ok debt Hd), (checked_in _ _ (collateral * price)) by ilia. cbn [default from_option id]. rewrite checked_in by ilia.
  cbn [default from_option id]. unfold PRICE_DECIMALS. apply as_u64_id.
  pose proof (Z.div_pos (collateral * price * 10000) (debt * 100000000)).
  pose proof (Z.div_le_upper_bound (collateral * price * 10000) (debt * 100000000) U64_MAX). unfold_ints. nia.
Qed.

(** A ratio that passes the check is never above the real one. *)
Lemma ratio_sound r collateral debt price : is_u64 collateral -> is_u64 debt -> is_u64 price -> 0 < debt -> 0 <= r ->
  r <= calculate_collateral_ratio collateral debt price -> covered r collateral debt price.
Proof.
  intros Hc Hd Hp H0 Hr H. unfold covered. assert (Hcp : 0 <= collateral * price) by (unfold_ints; nia).
  unfold calculate_collateral_ratio in H. rewrite (proj2 (Z.eqb_neq debt 0)), (debt_value_ok debt Hd) in H by lia.
  rewrite (checked_in _ _ (collateral * price)) in H by (unfold_ints; nia). cbn [default from_option id] in H.
  assert (HD : 0 < debt * PRICE_DECIMALS) by (unfold PRICE_DECIMALS; lia).
  assert (Hq : r <= collateral * price * 10000 / (debt * PRICE_DECIMALS)).
  { destruct (u128_checked_mul (collateral * price) 10000) as [n|] eqn:Hn; simpl in H.
    - apply checked_some in Hn as [-> _]. etransitivity; [exact H|]. unfold as_u64.
      apply Z.mod_le; [apply Z.div_pos; lia|lia].
    - rewrite Z.div_0_l in H by lia. unfold as_u64 in H. rewrite Z.mod_0_l in H by lia.
      etransitivity; [exact H|]. apply Z.div_pos; lia. }
  etransitivity; [apply Z.mul_le_mono_nonneg_r; [lia|exact Hq]|]. rewrite Z.mul_comm. by apply Z.mul_div_le.
Qed.

(** A ratio that fails a check is really below, or out of bounds. *)
Lemma ratio_below r collateral debt price : is_u64 collateral -> is_u64 debt -> is_u64 price -> 0 < debt ->
  calculate_collateral_ratio collateral debt price < r -> ~ covered r collateral debt price \/ ~ in_bounds collateral price.
Proof.
  intros Hc Hd Hp H0 H. destruct (decide (collateral * price * 10000 <= U64_MAX * PRICE_DECIMALS)) as [Hb|]; [left|by right].
  rewrite ratio_exact in H by done. unfold covered. intros Hcov.
  assert (HD : 0 < debt * PRICE_DECIMALS) by (unfold PRICE_DECIMALS; lia).
  pose proof (Z.div_le_lower_bound (collateral * price * 10000) _ r HD). lia.
Qed.

Lemma fee_range debt rate elapsed : is_u64 (calculate_stability_fee debt rate elapsed).
Proof. unfold calculate_stability_fee. case_match; [ilia|apply as_u64_range]. Qed.

(** The fee: exact within 128 and 64 bits. *)
Lemma fee_exact debt rate elapsed : 0 <= debt -> 0 <= rate -> 0 <= elapsed ->
  debt * rate * elapsed <= U64_MAX * (10000 * SECONDS_PER_YEAR) ->
  calculate_stability_fee debt rate elapsed = debt * rate * elapsed / (10000 * SECONDS_PER_YEAR).
Proof.
  intros Hd Hr He Hb. unfold calculate_stability_fee. destruct (_ || _) eqn:H0.
  { apply orb_true_iff in H0 as [H0|H0]; apply Z.eqb_eq in H0 as ->; by rewrite ?Z.mul_0_l, ?Z.mul_0_r. }
  apply orb_false_iff in H0 as [H1 H2]. apply Z.eqb_neq in H1, H2. unfold SECONDS_PER_YEAR in *.
  assert (0 <= debt * rate <= debt * rate * elapsed) by nia. rewrite (checked_in _ _ (debt * rate)) by ilia. cbn [default from_option id].
  rewrite checked_in by ilia. cbn [default from_option id]. apply as_u64_id.
  pose proof (Z.div_pos (debt * rate * elapsed) (10000 * 31557600)).
  pose proof (Z.div_le_upper_bound (debt * rate * elapsed) (10000 * 31557600) U64_MAX). ilia.
Qed.

(** The fee only adds to the debt. *)
Lemma accrue_keeps g now v : well_typed v -> let w := accrue_stability_fee g now v in
  well_typed w /\ va_owner w = va_owner v /\ va_collateral_amount w = va_collateral_amount v /\ va_debt_amount v <= va_debt_amount w /\
  va_bump w = va_bump v /\ va_is_initialized w = va_is_initialized v.
Proof.
  intros W. pose proof W as (Ho & Hc & Hd & Hr & Hl & Hb). cbn zeta. unfold accrue_stability_fee.
  pose proof (fee_range (va_debt_amount v) (gs_stability_fee_rate g) (as_u64 (i64_wrapping_sub now (va_last_update v)))) as Hf.
  destruct (_ || _); [split_and!; done || lia|]. destruct (0 <? _); [|split_and!; done || lia]. cbn.
  assert (va_debt_amount v <= u64_saturating_add (va_debt_amount v) (calculate_stability_fee (va_debt_amount v) (gs_stability_fee_rate g)
    (as_u64 (i64_wrapping_sub now (va_last_update v))))) by (unfold clamp; ilia).
  split_and!; try done. split_and!; try done. apply clamp_range. ilia.
Qed.

Lemma read_price_ok ia s p s' : read_oracle_price ia s = Ok (p, s') ->
  s' = s /\ 72 <= zlen (acc_data (get_acc (mem s) (ia_key ia))) /\ is_u64 p /\ 0 < p /\
  p = le_val (take 8 (drop 64 (acc_data (get_acc (mem s) (ia_key ia))))).
Proof.
  unfold read_oracle_price. intros H. pinv. bool_to_prop. split; [done|]. split; [done|].
  match goal with |- context [le_val ?l] => pose proof (le_val_range l) as Hv; assert (Hlen : (length l <= 8)%nat) by (rewrite length_take; lia) end.
  assert (256 ^ Z.of_nat (length (take 8 (drop 64 (acc_data (get_acc (mem s) (ia_key ia)))))) <= 2 ^ 64).
  { change (2 ^ 64) with (256 ^ 8). apply Z.pow_le_mono_r; lia. }
  split_and!; try done; ilia.
Qed.

(** ** The abstract system *)

Abbreviation col := va_collateral_amount.
Abbreviation debt := va_debt_amount.
Abbreviation tcol := gs_total_collateral.
Abbreviation tdebt := gs_total_debt.

Definition discounted (price : Z) : Z := price * (10000 - LIQUIDATION_DISCOUNT_BPS) / 10000.

(** A step of a vault and of the totals at time [now], where [shown] is the
    price of the oracle account.  The fee is due first. *)
Inductive vault_step (now : Z) (shown : Z -> Prop) : ScusdInstruction -> Vault * GlobalState -> Vault * GlobalState -> Prop :=
| step_deposit a v g w : w = accrue_stability_fee g now v ->
    col w + a <= U64_MAX -> tcol g + a <= U64_MAX ->
    vault_step now shown (DepositCollateral a) (v, g)
      (with_amounts (col w + a) (debt w) (va_collateral_ratio w) now w, with_totals (tcol g + a) (tdebt g) g)
| step_mint a v g w price : w = accrue_stability_fee g now v -> shown price ->
    debt w + a <= U64_MAX -> tdebt g + a <= U64_MAX ->
    debt w + a = 0 \/ covered (gs_collateral_ratio_min g) (col w) (debt w + a) price ->
    vault_step now shown (MintScusd a) (v, g)
      (with_amounts (col w) (debt w + a) (calculate_collateral_ratio (col w) (debt w + a) price) now w, with_totals (tcol g) (tdebt g + a) g)
| step_repay a v g w r : w = accrue_stability_fee g now v -> r = Z.min a (debt w) -> r <= tdebt g ->
    vault_step now shown (RepayScusd a) (v, g)
      (with_amounts (col w) (debt w - r) (va_collateral_ratio w) now w, with_totals (tcol g) (tdebt g - r) g)
| step_withdraw a v g w ratio : w = accrue_stability_fee g now v -> a <= col w -> a <= tcol g ->
    debt w = 0 /\ ratio = va_collateral_ratio w \/
    0 < debt w /\ (exists price, shown price /\ covered (gs_collateral_ratio_min g) (col w - a) (debt w) price /\
                                ratio = calculate_collateral_ratio (col w - a) (debt w) price) ->
    vault_step now shown (WithdrawCollateral a) (v, g)
      (with_amounts (col w - a) (debt w) ratio now w, with_totals (tcol g - a) (tdebt g) g)
| step_liquidate v g w price c : w = accrue_stability_fee g now v -> shown price -> 0 < debt w ->
    ~ covered (gs_liquidation_ratio g) (col w) (debt w) price \/ ~ in_bounds (col w) price ->
    debt w * PRICE_DECIMALS <= U64_MAX -> debt w <= tdebt g -> 0 < discounted price ->
    c = Z.min (debt w * PRICE_DECIMALS / discounted price) (col w) -> c <= tcol g ->
    vault_step now shown LiquidateVault (v, g)
      (with_amounts (col w - c) 0 0 now w, with_totals (tcol g - c) (tdebt g - debt w) g).

(** The oracle account of an instruction, and the price it shows. *)
Definition oracle_index (i : ScusdInstruction) : nat := match i with LiquidateVault => 7 | _ => 5 end.
Definition shown_price (i : ScusdInstruction) (l : list AccountInfo) (m : gmap Pubkey Account) (price : Z) : Prop :=
  exists ia, l !! oracle_index i = Some ia /\ 72 <= zlen (acc_data (get_acc m (ia_key ia))) /\ 0 < price /\
    price = le_val (take 8 (drop 64 (acc_data (get_acc m (ia_key ia))))).

(** The token calls of an instruction: what the totals change by is moved. *)
Definition planned (i : ScusdInstruction) (l : list Pubkey) (g g' : GlobalState) : list TokenCall :=
  match i, l with
  | DepositCollateral _, owner :: _ :: _ :: from :: pool :: _ => [mkCall OpTransfer from pool owner (tcol g' - tcol g)]
  | MintScusd _, _ :: _ :: global :: mint :: to :: _ => [mkCall OpMintTo mint to global (tdebt g' - tdebt g)]
  | RepayScusd _, owner :: _ :: _ :: mint :: from :: _ => [mkCall OpBurn from mint owner (tdebt g - tdebt g')]
  | WithdrawCollateral _, _ :: _ :: global :: pool :: to :: _ => [mkCall OpTransfer pool to global (tcol g - tcol g')]
  | LiquidateVault, liquidator :: _ :: global :: mint :: from :: to :: pool :: _ =>
      [mkCall OpBurn from mint liquidator (tdebt g - tdebt g'); mkCall OpTransfer pool to global (tcol g - tcol g')]
  | _, _ => []
  end.

Definition on_vault (i : ScusdInstruction) : Prop := i <> Initialize /\ i <> OpenVault.
#[global] Instance on_vault_dec i : Decision (on_vault i).
Proof. destruct i; (by left) || (right; by intros [? ?]). Defined.

Section Handlers.
Context {E : Env} {X : ExecLaws} {T : Token} {TL : TokenLaws} {BG : Borsh GlobalState} {BV : Borsh Vault} {BI : Borsh ScusdInstruction}
  {LG : BorshLaws GlobalState} {LV : BorshLaws Vault} {LI : BorshLaws ScusdInstruction}
  {SG : BorshSized GlobalState GlobalState_LEN} {SV : BorshSized Vault Vault_LEN}.
Variable cx : Ctx.

(** What a successful instruction on a vault has done. *)
Definition vault_run (i : ScusdInstruction) (s s' : PState) : Prop :=
  exists signer vi gi rest v g v' g' s1,
    cx_accounts cx = signer :: vi :: gi :: rest /\ ia_is_signer signer = true /\ va_is_initialized v = true /\
    (i <> LiquidateVault -> va_owner v = ia_key signer) /\
    holds (mem s) (ia_key vi) v /\ holds (mem s) (ia_key gi) g /\
    vault_step (unix_timestamp (cx_clock cx)) (shown_price i (cx_accounts cx) (mem s)) i (v, g) (v', g') /\
    calls cx (planned i (ia_key <$> cx_accounts cx) g g') s s1 /\
    s' = mkPState (stored g' (ia_key gi) (stored v' (ia_key vi) (mem s1))) (rt s1).

Lemma vault_loaded owner vi s v s' : load_vault owner vi s = Ok (v, s') ->
  s' = s /\ ia_is_signer owner = true /\ holds (mem s) (ia_key vi) v /\ va_is_initialized v = true /\ va_owner v = ia_key owner.
Proof. unfold load_vault. intros H. pinv. bool_to_prop. by destruct (va_is_initialized v), (ia_is_signer owner). Qed.

Lemma store_state_ok v g vi gi s u s' : store_state v g vi gi s = Ok (u, s') ->
  s' = mkPState (stored g (ia_key gi) (stored v (ia_key vi) (mem s))) (rt s).
Proof. unfold store_state. intros H. by pinv. Qed.

Lemma one_call op p a b au x ix infos seeds s u s' :
  builder_of op p a b au x = Ok ix -> invoke_signed cx ix infos seeds s = Ok (u, s') -> calls cx [mkCall op a b au x] s s'.
Proof. intros Hb Hi. destruct u. econstructor; [exact Hb|exact Hi|constructor]. Qed.

Lemma deposit_vault a s s' : process_deposit_collateral cx a s = Ok (tt, s') -> vault_run (DepositCollateral a) s s'.
Proof.
  intros H. unfold process_deposit_collateral in H. pinv. call @load_vault as Hv. apply vault_loaded in Hv as (-> & Hs & Hv & Hi & Ho).
  call @store_state as Hst. apply store_state_ok in Hst as ->. call @cx_accounts as Hacc. call @invoke as Hcall.
  call @token_transfer as Hix. eexists _, _, _, _, _, _, _, _, _. split; [exact Hacc|]. split_and!; try done.
  - econstructor; [done|ilia..].
  - rewrite Hacc. csimpl. unfold planned. eapply one_call; [|exact Hcall]. rewrite <- Hix. simpl. f_equal. lia.
Qed.

(** Opens a handler: its accounts, its vault and its last write. *)
Ltac open_handler :=
  pinv; repeat match goal with H : store_state _ _ _ _ _ = Ok _ |- _ => apply store_state_ok in H as -> end; call @cx_accounts as Hacc.
Ltac open_vault :=
  match goal with H : load_vault _ _ _ = Ok _ |- _ => apply vault_loaded in H as (-> & Hs & Hv & Hi & Ho) end.

Lemma accrued_typed g now v : well_typed v -> is_u64 (col (accrue_stability_fee g now v)) /\ is_u64 (debt (accrue_stability_fee g now v)).
Proof. intros W. by destruct (accrue_keeps g now v W) as [(_ & ? & ? & _) _]. Qed.

Lemma mint_vault a s s' : is_u64 a -> process_mint_scusd cx a s = Ok (tt, s') -> vault_run (MintScusd a) s s'.
Proof.
  intros Ha H. unfold process_mint_scusd in H. open_handler. open_vault. call @read_oracle_price as Hp.
  apply read_price_ok in Hp as (-> & Hlen & Hpr & Hp0 & Hp). call @invoke_signed as Hcall. call @token_mint_to as Hix. read GlobalState as g Hg.
  destruct (accrued_typed g (unix_timestamp (cx_clock cx)) _ (holds_well_typed _ _ _ Hv)) as [Wc Wd]. bool_to_prop.
  eexists _, _, _, _, _, _, _, _, _. split; [exact Hacc|]. split_and!; try done.
  - econstructor; [done| |ilia..|].
    + eexists. rewrite Hacc. split; [done|]. split_and!; [done|exact Hp0|exact Hp].
    + pose proof (holds_well_typed _ _ _ Hg) as (_ & _ & _ & _ & _ & _ & Hmin & _).
      match goal with |- ?d = 0 \/ _ => destruct (decide (d = 0)) as [|Hne]; [by left|right] end. apply ratio_sound; try done; ilia.
  - rewrite Hacc. csimpl. unfold planned. eapply one_call; [|exact Hcall]. rewrite <- Hix. simpl. f_equal. lia.
Qed.

Lemma repay_vault a s s' : is_u64 a -> process_repay_scusd cx a s = Ok (tt, s') -> vault_run (RepayScusd a) s s'.
Proof.
  intros Ha H. unfold process_repay_scusd in H. open_handler. open_vault. call @invoke as Hcall. call @token_burn as Hix.
  eexists _, _, _, _, _, _, _, _, _. split; [exact Hacc|]. split_and!; try done.
  - econstructor; [done|done|ilia].
  - rewrite Hacc. csimpl. unfold planned. eapply one_call; [|exact Hcall]. rewrite <- Hix. simpl. f_equal. lia.
Qed.

Lemma withdraw_vault a s s' : is_u64 a -> process_withdraw_collateral cx a s = Ok (tt, s') -> vault_run (WithdrawCollateral a) s s'.
Proof.
  intros Ha H. unfold process_withdraw_collateral in H. open_handler; open_vault; call @invoke_signed as Hcall; call @token_transfer as Hix;
    read GlobalState as g Hg; destruct (accrued_typed g (unix_timestamp (cx_clock cx)) _ (holds_well_typed _ _ _ Hv)) as [Wc Wd]; bool_to_prop;
    (eexists _, _, _, _, _, _, _, _, _; split; [exact Hacc|]; split_and!; try done).
  - call @read_oracle_price as Hp. apply read_price_ok in Hp as (-> & Hlen & Hpr & Hp0 & Hp). econstructor; [done|ilia..|right].
    split; [ilia|]. eexists. split; [eexists; rewrite Hacc; split; [done|split_and!; [exact Hlen|exact Hp0|exact Hp]]|]. split; [|done].
    pose proof (holds_well_typed _ _ _ Hg) as (_ & _ & _ & _ & _ & _ & Hmin & _). apply ratio_sound; try done; ilia.
  - call @read_oracle_price as Hp. apply read_price_ok in Hp as (-> & _).
    rewrite Hacc. csimpl. unfold planned. eapply one_call; [|exact Hcall]. rewrite <- Hix. simpl. f_equal. lia.
  - econstructor; [done|ilia..|left]. split; [ilia|done].
  - rewrite Hacc. csimpl. unfold planned. eapply one_call; [|exact Hcall]. rewrite <- Hix. simpl. f_equal. lia.
Qed.

Lemma liquidate_vault s s' : process_liquidate_vault cx s = Ok (tt, s') -> vault_run LiquidateVault s s'.
Proof.
  intros H. unfold process_liquidate_vault in H. open_handler. call @read_oracle_price as Hp. apply read_price_ok in Hp as (-> & Hlen & Hpr & Hp0 & Hp).
  call @invoke as Hburn. call @invoke_signed as Hmove. call @token_burn as Hbi. call @token_transfer as Hti. read Vault as v Hv. read GlobalState as g Hg.
  destruct (accrued_typed g (unix_timestamp (cx_clock cx)) _ (holds_well_typed _ _ _ Hv)) as [Wc Wd]. bool_to_prop.
  pose proof (holds_well_typed _ _ _ Hg) as (_ & _ & _ & _ & _ & _ & _ & Hliq & _).
  eexists _, _, _, _, v, g, _, _, _. split; [exact Hacc|]. split_and!; try done.
  - hyp (calculate_collateral_ratio _ _ _ < _) as Hr.
    assert (Hd0 : 0 < debt (accrue_stability_fee g (unix_timestamp (cx_clock cx)) v)).
    { unfold calculate_collateral_ratio in Hr. destruct (Z.eqb_spec (debt (accrue_stability_fee g (unix_timestamp (cx_clock cx)) v)) 0); ilia. }
    hyp ((if _ =? 0 then None else Some _) = Some _) as Hq. fold (discounted x19) in Hq.
    destruct (Z.eqb_spec (discounted x19) 0) as [|Hdp]; [done|]. injection Hq as <-.
    assert (0 <= discounted x19) by (unfold discounted; apply Z.div_pos; ilia).
    econstructor; [done|eexists; rewrite Hacc; split; [done|split_and!; [exact Hlen|exact Hp0|exact Hp]]
      |done|by apply ratio_below|ilia|ilia|lia|done|ilia].
  - rewrite Hacc. csimpl. unfold planned, invoke in *. econstructor; [|exact Hburn|].
    + rewrite <- Hbi. simpl. f_equal. lia.
    + eapply one_call; [|exact Hmove]. rewrite <- Hti. simpl. f_equal. lia.
Qed.

Lemma vault_instruction data i s s' : try_from_slice data = Some i -> on_vault i ->
  process_instruction cx data s = Ok (tt, s') -> vault_run i s s'.
Proof.
  intros Hd [H1 H2] H. unfold process_instruction in H. rewrite Hd in H. cbn [ok_or lift pbind] in H. apply try_from_slice_some in Hd as [W _].
  destruct i; try done; [by apply deposit_vault|by apply mint_vault|by apply repay_vault|by apply withdraw_vault|by apply liquidate_vault].
Qed.

(** The accounts that belong to the program. *)
Definition of_program (s : PState) (k : Pubkey) : Prop := acc_owner (get_acc (mem s) k) = cx_program_id cx.

Lemma step_typed i now shown v g v' g' : is_i64 now -> well_typed i -> well_typed v -> well_typed g ->
  vault_step now shown i (v, g) (v', g') -> well_typed v' /\ well_typed g'.
Proof.
  intros Hn Wi Wv Wg H. pose proof Wg as (Ga & Gs & Gp & Gc & Gt & Gd & Gm & Gl & Gf & Gb).
  inversion H; subst; destruct (accrue_keeps g now v Wv) as ((Wo & Wc & Wd & Wr & Wl & Wb) & _); cbn in Wi;
    (split; [split_and!|split_and!]); cbn; try done; try apply as_u64_range; try ilia.
  - unfold calculate_collateral_ratio. case_match; [ilia|apply as_u64_range].
  - hyp (_ \/ _) as Hr. destruct Hr as [[_ ->]|(_ & price & _ & _ & ->)]; [done|].
    unfold calculate_collateral_ratio. case_match; [ilia|apply as_u64_range].
  - assert (0 <= debt (accrue_stability_fee g now v) * PRICE_DECIMALS / discounted price) by (apply Z.div_pos; unfold PRICE_DECIMALS; ilia). ilia.
  - assert (0 <= debt (accrue_stability_fee g now v) * PRICE_DECIMALS / discounted price) by (apply Z.div_pos; unfold PRICE_DECIMALS; ilia). ilia.
Qed.

(** The vault and the global state that are passed belong to the program. *)
Definition own_accounts (s : PState) : Prop :=
  forall n ia, (n = 1 \/ n = 2)%nat -> cx_accounts cx !! n = Some ia -> of_program s (ia_key ia).

Lemma holds_distinct m k j (v : Vault) (g : GlobalState) : holds m k v -> holds m j g -> k <> j.
Proof.
  intros Hv Hg ->. apply (holds_zlen (A := Vault) (n := Vault_LEN)) in Hv.
  apply (holds_zlen (A := GlobalState) (n := GlobalState_LEN)) in Hg. rewrite Hv in Hg. discriminate Hg.
Qed.

(** The accounts after a run: the vault and the global state hold the new
    values, the data of every other account is what the calls left. *)
Lemma run_holds vi gi (v v' : Vault) (g g' : GlobalState) l s s1 s' :
  pstate_ok s -> cx_program_id cx <> token_program_id -> of_program s vi -> of_program s gi ->
  holds (mem s) vi v -> holds (mem s) gi g -> well_typed v' -> well_typed g' -> calls cx l s s1 ->
  s' = mkPState (stored g' gi (stored v' vi (mem s1))) (rt s1) ->
  holds (mem s') vi v' /\ holds (mem s') gi g' /\
  forall k, ~ of_program s k -> get_acc (mem s') k = get_acc (mem s1) k.
Proof.
  intros Hok Hp Ov Og Hv Hg Wv Wg Hc ->. pose proof (holds_distinct _ _ _ _ _ Hv Hg) as Hne. simpl.
  destruct (calls_keep cx _ _ _ Hok Hc) as [_ Hk].
  assert (Hz : zlen (acc_data (get_acc (mem s1) vi)) = Vault_LEN /\ zlen (acc_data (get_acc (mem s1) gi)) = GlobalState_LEN).
  { destruct (Hk vi) as [-> _]; [congruence|]. destruct (Hk gi) as [-> _]; [congruence|].
    split; [by apply (holds_zlen (A := Vault)) in Hv|by apply (holds_zlen (A := GlobalState)) in Hg]. }
  destruct Hz as [Hzv Hzg]. split_and!.
  - apply holds_stored_ne; [done|]. by apply (holds_stored (A := Vault) (n := Vault_LEN)).
  - apply (holds_stored (A := GlobalState) (n := GlobalState_LEN)); [by rewrite stored_ne by done|done].
  - intros k Hn. assert (k <> vi /\ k <> gi) as [? ?] by (split; intros ->; done). by rewrite !stored_ne.
Qed.

(** ** Openings *)

(** The inputs of an instruction as the validator gives them: the vault and the
    global state belong to the program, or the account to create is not one. *)
Record vault_inputs (i : ScusdInstruction) (s : PState) : Prop := {
  in_state : pstate_ok s;
  in_synced : ta_accounts (rt s) = mem s;
  in_program : cx_program_id cx <> token_program_id /\ is_pubkey (cx_program_id cx);
  in_clock : is_i64 (unix_timestamp (cx_clock cx));
  in_keys : Forall (fun ia => is_pubkey (ia_key ia)) (cx_accounts cx);
  in_owned : on_vault i -> own_accounts s;
  in_plain : ~ on_vault i -> forall ia, cx_accounts cx !! 1%nat = Some ia -> acc_executable (get_acc (mem s) (ia_key ia)) = false;
}.

(** An account that did not exist now holds [v]. *)
Definition opened {A} `{Borsh A} (s s' : PState) (k : Pubkey) (v : A) : Prop :=
  acc_data (get_acc (mem s) k) = [] /\ holds (mem s') k v.

(** The vault of an owner is opened at its address, once, and empty; so is the
    global state, with the default ratios. *)
Definition opening (i : ScusdInstruction) (s s' : PState) : Prop :=
  match i with
  | OpenVault => exists owner vi gi rest g bump, cx_accounts cx = owner :: vi :: gi :: rest /\ ia_is_signer owner = true /\
      holds (mem s) (ia_key gi) g /\ gs_is_initialized g = true /\
      find_program_address [VAULT_SEED; key_bytes (ia_key owner)] (cx_program_id cx) = (ia_key vi, bump) /\
      opened s s' (ia_key vi) (mkVault (ia_key owner) 0 0 0 (unix_timestamp (cx_clock cx)) bump true)
  | Initialize => exists authority gi mint prism pool rest bump, cx_accounts cx = authority :: gi :: mint :: prism :: pool :: rest /\
      ia_is_signer authority = true /\ find_program_address [GLOBAL_STATE_SEED] (cx_program_id cx) = (ia_key gi, bump) /\
      opened s s' (ia_key gi) (mkGlobal (ia_key authority) (ia_key mint) (ia_key prism) (ia_key pool) 0 0 15000 12000 200 bump true)
  | _ => False
  end.

(** What is created and then written holds the record. *)
Lemma created_opened {L : EnvLaws} {A} {BA : Borsh A} {WA : WellTyped A} {LA : BorshLaws A} {n : Z} {SA : BorshSized A n}
    (v : A) from to infos seeds s u s1 s' i :
  vault_inputs i s -> acc_executable (get_acc (mem s) (ia_key to)) = false -> is_u64 n -> well_typed v ->
  invoke_signed cx (create_account_ix from (ia_key to) (minimum_balance n) n (cx_program_id cx)) infos seeds s = Ok (u, s1) ->
  s' = mkPState (stored v (ia_key to) (mem s1)) (rt s1) -> opened s s' (ia_key to) v.
Proof.
  intros Hin Hx Hn Wv Hc ->. pose proof (minimum_balance_u64 n) as Hmin. destruct (in_program _ _ Hin) as [_ Hp]. split.
  - eapply (invoke_create_blank cx); [by apply in_state in Hin|by rewrite (in_synced _ _ Hin)|exact Hmin|exact Hn|exact Hp|exact Hc].
  - simpl. apply (holds_stored (A := A) (n := n)); [|done].
    rewrite (invoke_create_data cx _ _ _ _ _ _ _ _ _ _ (in_state _ _ Hin)) with (5 := Hc); [|by rewrite (in_synced _ _ Hin)|done..].
    unfold zlen. rewrite length_replicate. ilia.
Qed.

Lemma opening_instruction {L : EnvLaws} data i s s' : vault_inputs i s -> try_from_slice data = Some i -> ~ on_vault i ->
  process_instruction cx data s = Ok (tt, s') -> opening i s s'.
Proof.
  intros Hin Hd Hi H. unfold process_instruction in H. rewrite Hd in H. cbn [ok_or lift pbind] in H.
  pose proof (in_plain _ _ Hin Hi) as Hx. pose proof (in_keys _ _ Hin) as Hk. pose proof (in_clock _ _ Hin) as Hclk.
  destruct i; try (by destruct Hi; split); unfold process_initialize, process_open_vault in H; pinv; bool_to_prop;
    call @cx_accounts as Hacc; call @invoke_signed as Hc; call @find_program_address as Hf; rewrite Hacc in Hx, Hk;
    rewrite !Forall_cons in Hk; destruct (find_create _ _ _ _ Hf) as [Hb _]; subst.
  - eexists _, _, _, _, _, _, _. split; [exact Hacc|]. split; [done|]. split; [exact Hf|].
    eapply created_opened; [exact Hin|by apply Hx|unfold GlobalState_LEN; ilia| |exact Hc|done]. destruct Hk as (? & ? & ? & ? & ? & _). by split_and!.
  - eexists _, _, _, _, _, _. split; [exact Hacc|]. do 4 (split; [done|]).
    eapply created_opened; [exact Hin|by apply Hx|unfold Vault_LEN; ilia| |exact Hc|done]. destruct Hk as (? & _). by split_and!.
Qed.

(** The accounts after an instruction on a vault. *)
Lemma run_result data i s s' sg vi gi rest (v v' : Vault) (g g' : GlobalState) s1 :
  vault_inputs i s -> on_vault i -> try_from_slice data = Some i -> cx_accounts cx = sg :: vi :: gi :: rest ->
  holds (mem s) (ia_key vi) v -> holds (mem s) (ia_key gi) g ->
  vault_step (unix_timestamp (cx_clock cx)) (shown_price i (cx_accounts cx) (mem s)) i (v, g) (v', g') ->
  calls cx (planned i (ia_key <$> cx_accounts cx) g g') s s1 ->
  s' = mkPState (stored g' (ia_key gi) (stored v' (ia_key vi) (mem s1))) (rt s1) ->
  holds (mem s') (ia_key vi) v' /\ holds (mem s') (ia_key gi) g' /\
  (forall k, ~ of_program s k -> get_acc (mem s') k = get_acc (mem s1) k) /\ of_program s (ia_key gi).
Proof.
  intros Hin Hi Hd Hacc Hv Hg Hstep Hc He. apply try_from_slice_some in Hd as [Wi _]. destruct (in_program _ _ Hin) as [Hp _].
  destruct (step_typed _ _ _ _ _ _ _ (in_clock _ _ Hin) Wi (holds_well_typed _ _ _ Hv) (holds_well_typed _ _ _ Hg) Hstep) as [Wv Wg].
  assert (Ov : of_program s (ia_key vi)) by (apply (in_owned _ _ Hin Hi 1%nat); [by left|by rewrite Hacc]).
  assert (Og : of_program s (ia_key gi)) by (apply (in_owned _ _ Hin Hi 2%nat); [by right|by rewrite Hacc]).
  by destruct (run_holds (ia_key vi) (ia_key gi) v v' g g' _ s s1 s' (in_state _ _ Hin) Hp Ov Og Hv Hg Wv Wg Hc He) as (? & ? & ?).
Qed.

(** ** Backing *)

(** The accounts of the pool and of the mint are the recorded ones, and the
    other accounts that are passed are different from them. *)
Definition honest (i : ScusdInstruction) (l : list Pubkey) (pool mint : Pubkey) : Prop :=
  match i, l with
  | DepositCollateral _, _ :: _ :: _ :: from :: p :: _ => p = pool /\ from ∉ [pool; mint]
  | WithdrawCollateral _, _ :: _ :: _ :: p :: to :: _ => p = pool /\ to ∉ [pool; mint]
  | MintScusd _, _ :: _ :: _ :: m :: to :: _ => m = mint /\ to ∉ [pool; mint]
  | RepayScusd _, _ :: _ :: _ :: m :: from :: _ => m = mint /\ from ∉ [pool; mint]
  | LiquidateVault, liquidator :: _ :: _ :: m :: from :: to :: p :: _ =>
      m = mint /\ p = pool /\ liquidator ∉ [pool; mint] /\ from ∉ [pool; mint] /\ to ∉ [pool; mint]
  | _, _ => False
  end.

(** The totals a step changes are those of its instruction. *)
Lemma step_totals i now shown v g v' g' : vault_step now shown i (v, g) (v', g') ->
  match i with
  | DepositCollateral _ | WithdrawCollateral _ => tdebt g' = tdebt g
  | MintScusd _ | RepayScusd _ => tcol g' = tcol g
  | _ => True
  end /\ gs_collateral_pool g' = gs_collateral_pool g /\ gs_scusd_mint g' = gs_scusd_mint g.
Proof. intros H. by inversion H. Qed.

(** The planned calls move what the totals change by. *)
Lemma planned_changes i l g g' pool mint now shown v v' : vault_step now shown i (v, g) (v', g') -> pool <> mint -> honest i l pool mint ->
  total_change balance_change (planned i l g g') pool = tcol g' - tcol g /\
  total_change supply_change (planned i l g g') mint = tdebt g' - tdebt g.
Proof.
  intros Hstep Hne Hh. apply step_totals in Hstep as [Ht _].
  destruct i; try done; do 5 (destruct l as [|? l]; [done|]); try (do 2 (destruct l as [|? l]; [done|])); simpl in Hh;
    repeat match goal with H : _ /\ _ |- _ => destruct H end; subst;
    repeat match goal with H : _ ∉ [_; _] |- _ => rewrite !not_elem_of_cons in H; destruct H as (? & ? & _) end;
    unfold planned, total_change, foldr, balance_change, supply_change, at_key; cbn [tc_op tc_a tc_b tc_amount];
    repeat case_decide; subst; try done; lia.
Qed.

Lemma planned_once i l g g' pool mint global k : pool <> mint -> honest i l pool mint -> l !! 2%nat = Some global -> k ∈ [pool; mint] ->
  global ∉ [pool; mint] -> once k (planned i l g g').
Proof.
  intros Hne Hh Hg Hk Hn.
  destruct i; try done; do 5 (destruct l as [|? l]; [done|]); try (by split); do 2 (destruct l as [|? l]; [done|]); simpl in Hh, Hg.
  injection Hg as ->. destruct Hh as (-> & -> & ? & ? & ?). unfold planned, tc_keys. simpl. split; [|by split].
  intros Hin. constructor; [|constructor]. set_solver.
Qed.
End Handlers.
