(* ===== verification/ScusdTheorems.v ===== *)
(** * ScusdTheorems: the properties of the stablecoin

    The theorems about [src/defi/scusd/program/src/lib.rs], and the evaluation of
    the program on concrete accounts in the Borsh wire format, with the token
    program of [TokenDemo]. *)

From Stdlib Require Import Strings.Byte.
From S2P Require Import Prelude Borsh Accounts System Invoke Execution Concrete Cpi Records Wire TokenCpi TokenDemo Scusd ScusdProofs.
Open Scope Z_scope.

(** ** The data on the wire *)

Definition codec_global : codec GlobalState :=
  codec_iso (fun '(a, (s, (p, (c, (tc, (td, (m, (l, (f, (b, i)))))))))) => mkGlobal a s p c tc td m l f b i)
    (fun g => (gs_authority g, (gs_scusd_mint g, (gs_prism_mint g, (gs_collateral_pool g, (gs_total_collateral g, (gs_total_debt g,
       (gs_collateral_ratio_min g, (gs_liquidation_ratio g, (gs_stability_fee_rate g, (gs_bump g, gs_is_initialized g)))))))))))
    (codec_pair codec_pubkey (codec_pair codec_pubkey (codec_pair codec_pubkey (codec_pair codec_pubkey (codec_pair (codec_uint 8)
      (codec_pair (codec_uint 8) (codec_pair (codec_uint 8) (codec_pair (codec_uint 8) (codec_pair (codec_uint 8)
      (codec_pair (codec_uint 1) codec_bool)))))))))).
Definition codec_scusd_vault : codec Vault :=
  codec_iso (fun '(o, (c, (d, (r, (l, (b, i)))))) => mkVault o c d r l b i)
    (fun v => (va_owner v, (va_collateral_amount v, (va_debt_amount v, (va_collateral_ratio v, (va_last_update v, (va_bump v, va_is_initialized v)))))))
    (codec_pair codec_pubkey (codec_pair (codec_uint 8) (codec_pair (codec_uint 8) (codec_pair (codec_uint 8) (codec_pair (codec_int 8)
      (codec_pair (codec_uint 1) codec_bool)))))).
Definition scusd_instruction_index (i : ScusdInstruction) : nat :=
  match i with
  | Initialize => 0 | OpenVault => 1 | DepositCollateral _ => 2 | MintScusd _ => 3 | RepayScusd _ => 4 | WithdrawCollateral _ => 5
  | LiquidateVault => 6
  end.
Definition codec_scusd_instruction : codec ScusdInstruction :=
  codec_variants
    [mkVariant codec_unit (fun _ => Initialize) (fun i => match i with Initialize => Some tt | _ => None end);
     mkVariant codec_unit (fun _ => OpenVault) (fun i => match i with OpenVault => Some tt | _ => None end);
     mkVariant (codec_uint 8) DepositCollateral (fun i => match i with DepositCollateral a => Some a | _ => None end);
     mkVariant (codec_uint 8) MintScusd (fun i => match i with MintScusd a => Some a | _ => None end);
     mkVariant (codec_uint 8) RepayScusd (fun i => match i with RepayScusd a => Some a | _ => None end);
     mkVariant (codec_uint 8) WithdrawCollateral (fun i => match i with WithdrawCollateral a => Some a | _ => None end);
     mkVariant codec_unit (fun _ => LiquidateVault) (fun i => match i with LiquidateVault => Some tt | _ => None end)]
    scusd_instruction_index.

Lemma codec_global_laws : codec_laws codec_global.
Proof. apply codec_iso_laws; [by intros []|by intros (?&?&?&?&?&?&?&?&?&?&?)|]. auto 25 with codec. Qed.
Lemma codec_global_wf g : well_typed g <-> c_wf codec_global g.
Proof. unfold codec_global, well_typed, GlobalState_well_typed. codec_typed. Qed.
Lemma codec_global_size : c_size codec_global GlobalState_LEN.
Proof. codec_size. Qed.
Lemma codec_scusd_vault_laws : codec_laws codec_scusd_vault.
Proof. apply codec_iso_laws; [by intros []|by intros (?&?&?&?&?&?&?)|]. auto 20 with codec. Qed.
Lemma codec_scusd_vault_wf v : well_typed v <-> c_wf codec_scusd_vault v.
Proof. unfold codec_scusd_vault, well_typed, Vault_well_typed. codec_typed. Qed.
Lemma codec_scusd_vault_size : c_size codec_scusd_vault Vault_LEN.
Proof. codec_size. Qed.
Lemma codec_scusd_instruction_laws : codec_laws codec_scusd_instruction.
Proof.
  apply codec_variants_laws; [simpl; lia|repeat apply Forall_cons_2; simpl; auto 15 with codec| |].
  - intros [|[|[|[|[|[|[|]]]]]]] v a [= <-]; simpl in a; repeat match goal with x : unit |- _ => destruct x end; done.
  - intros [] v a [= <-]; simpl; by intros [= <-].
Qed.
Lemma codec_scusd_instruction_wf i : well_typed i <-> c_wf codec_scusd_instruction i.
Proof. destruct i; unfold well_typed, ScusdInstruction_well_typed, codec_scusd_instruction; codec_variant_typed. Qed.

#[global] Instance scusd_global_borsh : Borsh GlobalState := borsh_of_codec codec_global.
#[global] Instance scusd_global_borsh_laws : BorshLaws GlobalState := borsh_of_codec_laws _ codec_global_laws codec_global_wf.
#[global] Instance scusd_global_borsh_sized : BorshSized GlobalState GlobalState_LEN := borsh_of_codec_sized _ _ codec_global_size codec_global_wf.
#[global] Instance scusd_vault_borsh : Borsh Vault := borsh_of_codec codec_scusd_vault.
#[global] Instance scusd_vault_borsh_laws : BorshLaws Vault := borsh_of_codec_laws _ codec_scusd_vault_laws codec_scusd_vault_wf.
#[global] Instance scusd_vault_borsh_sized : BorshSized Vault Vault_LEN := borsh_of_codec_sized _ _ codec_scusd_vault_size codec_scusd_vault_wf.
#[global] Instance scusd_instruction_borsh : Borsh ScusdInstruction := borsh_of_codec codec_scusd_instruction.
#[global] Instance scusd_instruction_borsh_laws : BorshLaws ScusdInstruction :=
  borsh_of_codec_laws _ codec_scusd_instruction_laws codec_scusd_instruction_wf.

(** ** An example *)

(** A vault with 1000 PRISM at 2 USD and 100 SCUSD of debt.  The pool (500) has
    its collateral, the mint is 501. *)
Module ScusdDemo.
Definition PROGRAM : Pubkey := 110.
Definition GLOBAL : Pubkey := (find_program_address [GLOBAL_STATE_SEED] PROGRAM).1.
Definition VAULT : Pubkey := (find_program_address [VAULT_SEED; key_bytes 301] PROGRAM).1.
Definition vault : Vault := mkVault 301 1000 100 0 4000 255 true.
Definition global : GlobalState := mkGlobal 300 501 502 500 1000 100 15000 12000 200 255 true.
Definition tokens (kind : byte) (x : Z) : Account := mkAccount 5000 (kind :: le_bytes 8 x) TOKEN_ID false.
Definition oracle (price : Z) : Account := mkAccount 5000 (replicate 64 Byte.x00 ++ le_bytes 8 price) 999 false.
(** 506 is an account of the owner, 507 shows a price nobody agreed on. *)
Definition accounts (v : Vault) (g : GlobalState) : list (Pubkey * Account) :=
  [(VAULT, mkAccount 1000000 (borsh_ser v) PROGRAM false); (GLOBAL, mkAccount 1000000 (borsh_ser g) PROGRAM false);
   (301, mkAccount 5000 [] 0 false); (500, tokens ACCOUNT_KIND 1000); (501, tokens MINT_KIND 100); (503, tokens ACCOUNT_KIND 400);
   (504, tokens ACCOUNT_KIND 100); (505, oracle 200000000); (506, tokens ACCOUNT_KIND 0); (507, oracle 1000000000000000);
   (TOKEN_ID, mkAccount 1 [] 1 true); (0, mkAccount 1 [] 1 true); (6, mkAccount 1 [] 1 false)].
Definition state_of (v : Vault) (g : GlobalState) : PState :=
  mkPState (store (accounts v g)) (mkTA (store (accounts v g)) 0 0).
Definition state : PState := state_of vault global.
Definition len (k : Pubkey) : Z := zlen (acc_data (get_acc (mem state) k)).
Definition w (k : Pubkey) : AccountInfo := mkIA k false true.
Definition cx (l : list Pubkey) : Ctx := demo_ctx PROGRAM (mkIA 301 true true :: w VAULT :: w GLOBAL :: (w <$> l)) 5000 len.
Definition deposit_cx : Ctx := cx [503; 500; TOKEN_ID; 6].
Definition mint_cx : Ctx := cx [501; 504; 505; TOKEN_ID; 6].
Definition liquidate_cx : Ctx := cx [501; 504; 503; 500; 505; TOKEN_ID; 6].
(** Before the vault is opened. *)
Definition before : gmap Pubkey Account :=
  store ((VAULT, mkAccount 0 [] 0 false) :: (301, mkAccount 10000000 [] 0 false) :: accounts vault global).
Definition open_cx : Ctx :=
  demo_ctx PROGRAM [mkIA 301 true true; w VAULT; w GLOBAL; w 0] 5000 (fun k => zlen (acc_data (get_acc before k))).

Lemma state_ok : pstate_ok state.
Proof. assert (lamports_ok (store (accounts vault global))) by (apply lamports_ok_store; repeat constructor; evaluate). by split. Qed.
Lemma mint_inputs : vault_inputs mint_cx (MintScusd 200) state.
Proof.
  split; [exact state_ok|evaluate|split; evaluate|evaluate|repeat constructor; evaluate| |].
  - intros _ n ia [->| ->] [= <-]; evaluate.
  - intros Hn. destruct Hn. by split.
Qed.
Lemma mint_runs : is_ok (process_instruction mint_cx (borsh_ser (MintScusd 200)) state) = true.
Proof. vm_compute. reflexivity. Qed.
End ScusdDemo.

(** ** Properties *)

Section ScusdProperties.
Context {E : Env} {X : ExecLaws} {T : Token} {TL : TokenLaws} {BG : Borsh GlobalState} {BV : Borsh Vault} {BI : Borsh ScusdInstruction}
  {LG : BorshLaws GlobalState} {LV : BorshLaws Vault} {LI : BorshLaws ScusdInstruction}
  {SG : BorshSized GlobalState GlobalState_LEN} {SV : BorshSized Vault Vault_LEN}.


Context {A : TokenAmounts} {TM : TokenMoves}.

(** C11. The totals are backed by tokens: as long as an instruction is given the
    recorded pool and mint, and no other role for them, the collateral in the
    pool and the total collateral change by the same amount, and so do the
    supply of SCUSD and the total debt.  The program does not check this. *)
Theorem collateral_backed cx data i s s' gi g :
  vault_inputs cx i s -> try_from_slice data = Some i -> on_vault i -> process_instruction cx data s = Ok (tt, s') ->
  cx_accounts cx !! 2%nat = Some gi -> holds (mem s) (ia_key gi) g ->
  let pool := gs_collateral_pool g in let mint := gs_scusd_mint g in
  pool <> mint -> honest i (ia_key <$> cx_accounts cx) pool mint ->
  (forall k, k ∈ [pool; mint] -> acc_owner (get_acc (mem s) k) = token_program_id /\ acc_executable (get_acc (mem s) k) = false) ->
  exists g', holds (mem s') (ia_key gi) g' /\ gs_collateral_pool g' = pool /\ gs_scusd_mint g' = mint /\
    token_balance (acc_data (get_acc (mem s') pool)) - gs_total_collateral g' =
      token_balance (acc_data (get_acc (mem s) pool)) - gs_total_collateral g /\
    token_supply (acc_data (get_acc (mem s') mint)) - gs_total_debt g' =
      token_supply (acc_data (get_acc (mem s) mint)) - gs_total_debt g.
Proof.
  intros Hin Hd Hi Hrun Hgi Hg pool mint Hne Hh Hpm. pose proof (in_state _ _ _ Hin) as Hok. destruct (in_program _ _ _ Hin) as [Hp _].
  destruct (vault_instruction _ _ _ _ _ Hd Hi Hrun) as (sg & vi & gi' & rest & v & g0 & v' & g' & s1 & Hacc & _ & _ & _ & Hv & Hg0 & Hstep & Hc & He).
  rewrite Hacc in Hgi. injection Hgi as ->. assert (g0 = g) as -> by (by eapply holds_inj).
  destruct (run_result _ _ _ _ _ _ _ _ _ _ _ _ _ _ Hin Hi Hd Hacc Hv Hg Hstep Hc He) as (_ & Hg' & Hrest & Og).
  assert (Hfor : forall k, k ∈ [pool; mint] -> ~ of_program cx s k) by (intros k Hk Hof; destruct (Hpm k Hk); unfold of_program in Hof; congruence).
  assert (Hgk : ia_key gi ∉ [pool; mint]) by (intros Hkin; by apply (Hfor _ Hkin)).
  assert (Honce : forall k, k ∈ [pool; mint] -> once k (planned i (ia_key <$> cx_accounts cx) g g')).
  { intros k Hk. eapply planned_once; [exact Hne|done| |done|exact Hgk]. by rewrite Hacc. }
  destruct (planned_changes _ _ _ _ _ _ _ _ _ _ Hstep Hne Hh) as [Hb Hsu]. apply step_totals in Hstep as (_ & Hpool & Hmint).
  assert (Hin1 : pool ∈ [pool; mint]) by set_solver. assert (Hin2 : mint ∈ [pool; mint]) by set_solver.
  rewrite <- (in_synced _ _ _ Hin) in Hpm.
  destruct (calls_amounts cx _ _ _ pool Hc Hok (Honce _ Hin1) (proj2 (Hpm _ Hin1))) as [Hb1 _].
  destruct (calls_amounts cx _ _ _ mint Hc Hok (Honce _ Hin2) (proj2 (Hpm _ Hin2))) as [_ Hs1].
  exists g'. rewrite (Hrest _ (Hfor _ Hin1)), (Hrest _ (Hfor _ Hin2)). split_and!; [done|done|done|lia|lia].
Qed.
End ScusdProperties.

(** [calculate_max_mint] gives the largest loan: within the bounds of the
    ratio, a positive amount passes the check of [MintScusd] exactly if it is at
    most the result. *)
Theorem max_mint_exact collateral current_debt price ratio :
  is_u64 collateral -> is_u64 current_debt -> is_u64 price -> is_u64 ratio -> 0 < ratio -> in_bounds collateral price ->
  exists x, calculate_max_mint collateral current_debt price ratio = Ok x /\
    forall amount, 0 < amount -> current_debt + amount <= U64_MAX ->
      ratio <= calculate_collateral_ratio collateral (current_debt + amount) price <-> amount <= x.
Proof.
  intros Hc Hd Hp Hr H0 Hb. set (n := collateral * price * 10000). assert (Hn : 0 <= n) by (unfold n; unfold_ints; nia).
  exists (u64_saturating_sub (n / (PRICE_DECIMALS * ratio)) current_debt). split.
  - unfold calculate_max_mint. rewrite (proj2 (Z.eqb_neq (PRICE_DECIMALS * ratio) 0)) by (unfold PRICE_DECIMALS; lia).
    unfold in_bounds, PRICE_DECIMALS in Hb. fold n in Hb. rewrite (checked_in _ _ (collateral * price)) by (unfold n in *; ilia).
    cbn [default from_option id err_if]. fold n. rewrite checked_in by ilia. cbn. rewrite as_u64_id; [done|].
    pose proof (Z.div_pos n (PRICE_DECIMALS * ratio)). pose proof (Z.div_le_upper_bound n (PRICE_DECIMALS * ratio) U64_MAX).
    unfold PRICE_DECIMALS in *. unfold_ints. nia.
  - intros a Ha Hmax. rewrite ratio_exact by (done || ilia). fold n.
    rewrite le_div_iff by (unfold PRICE_DECIMALS; ilia).
    transitivity (current_debt + a <= n / (PRICE_DECIMALS * ratio)); [rewrite le_div_iff by (unfold PRICE_DECIMALS; ilia); split; intros; lia|].
    pose proof (Z.div_pos n (PRICE_DECIMALS * ratio) Hn ltac:(unfold PRICE_DECIMALS; lia)). unfold clamp.
    assert (n / (PRICE_DECIMALS * ratio) <= U64_MAX).
    { apply Z.div_le_upper_bound; [unfold PRICE_DECIMALS; lia|]. unfold in_bounds in Hb. fold n in Hb. unfold PRICE_DECIMALS in *. unfold_ints. nia. }
    ilia.
Qed.

(** A vault is opened by its owner. *)
Example open_vault_runs : exists ta',
  execute ScusdDemo.open_cx (process_instruction ScusdDemo.open_cx (borsh_ser OpenVault)) (mkTA ScusdDemo.before 0 0) = Ok ta' /\
  holds (ta_accounts ta') ScusdDemo.VAULT (mkVault 301 0 0 0 5000 255 true).
Proof. eexists. split; [vm_compute; reflexivity|vm_compute; reflexivity]. Qed.

(** Collateral need not reach the pool: a deposit into an account of the owner
    is credited in full. *)
Example deposit_unbacked : exists ta',
  let cx := ScusdDemo.cx [503; 506; TOKEN_ID; 6] in
  execute cx (process_instruction cx (borsh_ser (DepositCollateral 400))) (rt ScusdDemo.state) = Ok ta' /\
  holds (ta_accounts ta') ScusdDemo.VAULT (mkVault 301 1400 100 0 5000 255 true) /\
  token_balance (acc_data (get_acc (ta_accounts ta') 500)) = 1000 /\ token_balance (acc_data (get_acc (ta_accounts ta') 506)) = 400.
Proof. eexists. cbv zeta. split; [vm_compute; reflexivity|]. split_and!; vm_compute; reflexivity. Qed.

(** The price is read from whatever account is passed: with one of the owner's
    making, 1000 PRISM worth 2000 USD back a loan of a million. *)
Example forged_price : exists ta',
  let cx := ScusdDemo.cx [501; 504; 507; TOKEN_ID; 6] in
  execute cx (process_instruction cx (borsh_ser (MintScusd 1000000))) (rt ScusdDemo.state) = Ok ta' /\
  token_supply (acc_data (get_acc (ta_accounts ta') 501)) = 1000100.
Proof. eexists. cbv zeta. split; [vm_compute; reflexivity|vm_compute; reflexivity]. Qed.

(** A debt above 2^64 / 10^8 cannot be liquidated, however little covers it, and
    neither can a debt whose fee is not in the total. *)
Example large_debt_stuck :
  process_liquidate_vault ScusdDemo.liquidate_cx
    (ScusdDemo.state_of (mkVault 301 1 184467440738 0 5000 255 true) (mkGlobal 300 501 502 500 1 184467440738 15000 12000 200 255 true)) =
    Err ArithmeticOverflow /\
  process_liquidate_vault ScusdDemo.liquidate_cx
    (ScusdDemo.state_of (mkVault 301 1 100 0 5000 255 true) (mkGlobal 300 501 502 500 1 99 15000 12000 200 255 true)) =
    Err ArithmeticOverflow.
Proof. split; vm_compute; reflexivity. Qed.

(** The fee is rounded down at each update of the vault: 1000 SCUSD touched every
    second bear none, left alone they bear 20 in a year. *)
Example short_interval_free : calculate_stability_fee 1000000000 200 1 = 0 /\
  calculate_stability_fee 1000000000 200 SECONDS_PER_YEAR = 20000000.
Proof. vm_compute. by split. Qed.

(** A vault that is covered a million times over has a ratio beyond 64 bits and
    can be liquidated. *)
Example rich_vault_below : exists collateral, covered (1000000 * 10000) collateral 5 200000000 /\
  calculate_collateral_ratio collateral 5 200000000 < LIQUIDATION_RATIO_BPS.
Proof. exists 4611686018427388. split; vm_compute; [discriminate|reflexivity]. Qed.

(** ** The hypotheses can hold *)


Lemma collateral_backed_witness : exists s' (g' : GlobalState),
  process_instruction ScusdDemo.mint_cx (borsh_ser (MintScusd 200)) ScusdDemo.state = Ok (tt, s') /\
  holds (mem s') ScusdDemo.GLOBAL g' /\ token_supply (acc_data (get_acc (mem s') 501)) = gs_total_debt g'.
Proof.
  destruct (process_instruction ScusdDemo.mint_cx (borsh_ser (MintScusd 200)) ScusdDemo.state) as [[[] s']|e] eqn:Hrun;
    [|pose proof ScusdDemo.mint_runs as Hk; rewrite Hrun in Hk; discriminate Hk].
  destruct (collateral_backed ScusdDemo.mint_cx (borsh_ser (MintScusd 200)) (MintScusd 200) ScusdDemo.state s'
    (ScusdDemo.w ScusdDemo.GLOBAL) ScusdDemo.global) as (g' & Hg' & _ & _ & _ & Hs);
    [exact ScusdDemo.mint_inputs|evaluate|split; discriminate|exact Hrun|exact eq_refl|evaluate
    |discriminate| | |].
  - split; [exact eq_refl|]. rewrite !not_elem_of_cons. split; [vm_compute; discriminate|split; [vm_compute; discriminate|apply not_elem_of_nil]].
  - assert (Hall : Forall (fun k => acc_owner (get_acc (mem ScusdDemo.state) k) = token_program_id /\
      acc_executable (get_acc (mem ScusdDemo.state) k) = false) [500; 501]) by (repeat constructor; vm_compute; reflexivity).
    intros k Hk. exact (proj1 (Forall_forall _ _) Hall k Hk).
  - exists s', g'. split; [exact eq_refl|]. split; [exact Hg'|]. simpl gs_scusd_mint in Hs.
    assert (H0 : token_supply (acc_data (get_acc (mem ScusdDemo.state) 501)) - gs_total_debt ScusdDemo.global = 0) by evaluate.
    change (gs_scusd_mint ScusdDemo.global) with 501 in Hs. lia.
Defined.

Lemma max_mint_exact_witness : exists x, calculate_max_mint 1000 100 200000000 15000 = Ok x /\ 200 <= x.
Proof.
  destruct (max_mint_exact 1000 100 200000000 15000) as (x & Hx & H); [split; vm_compute; discriminate..|reflexivity|vm_compute; discriminate|].
  exists x. split; [exact Hx|]. apply (H 200); [reflexivity|vm_compute; discriminate|vm_compute; discriminate].
Defined.
